(** * ColorVision Pro: a shallow embedding of the test engines, the colour
  filter parameter space and the tuning engine, with their properties.

  JavaScript numbers are modelled by exact rationals ([Q]): comparisons,
  sums, products and quotients are the exact ones, [Math.floor] is
  [Qfloor] and [Math.round] rounds half up.  Binary64 rounding error is
  outside this model, except in [Binary64], where the score formula is
  evaluated on primitive floats and compared with the exact model.
  Objects used as dictionaries are finite maps with string keys. *)

From Stdlib Require Import ZArith QArith Qround Qminmax Qabs Lia Lqa List Bool.
From Stdlib Require Import Uint63 Floats.PrimFloat Floats.FloatOps Floats.SpecFloat.
From stdpp Require Import gmap strings list pretty.

Local Open Scope Z_scope.

(** ** JavaScript numbers *)

Module JS.

Definition Qlt_bool (x y : Q) : bool := negb (Qle_bool y x).

(** [Math.round]: the nearest integer, halves towards plus infinity. *)
Definition round (x : Q) : Z := Qfloor (x + (1 # 2)).

(** [Math.floor]. *)
Definition floor (x : Q) : Z := Qfloor x.

(** [Math.min] and [Math.max] on numbers. *)
Definition min (x y : Q) : Q := if Qle_bool x y then x else y.
Definition max (x y : Q) : Q := if Qle_bool x y then y else x.

(** [Math.abs]. *)
Definition abs (x : Q) : Q := if Qle_bool 0 x then x else (- x)%Q.

(** [x % y] on numbers: the remainder has the sign of the dividend. *)
Definition rem (x y : Q) : Q :=
  let q := (x / y)%Q in
  let t := if Qle_bool 0 q then Qfloor q else Qceiling q in
  (x - y * inject_Z t)%Q.

End JS.

(** ** The runtime the engines run on

    What the sources use and neither define nor have specified: the seeded
    generator behind [Utils.createRNG] (a closure over a hidden state,
    here a state and a step function), seed derivation, the colour space
    conversions, and the browser's clock and [Math.random]. *)

Class Runtime := {
  Seed : Type;
  RngState : Type;
  (** [Utils.createRNG(seed)] and one call [rng()] of the generator. *)
  createRNG : Seed -> RngState;
  rngNext : RngState -> Q * RngState;
  (** The ambient state: wall clock and unseeded randomness. *)
  Env : Type;
  mathRandom : Env -> Q * Env;
  dateNow : Env -> Z * Env;
  (** [Utils.generateSeed(prefix)], and a seed spliced into a template
      string. *)
  generateSeed : option string -> Env -> Seed * Env;
  seedText : Seed -> string;
  (** [Utils.rgbToHsl], [Utils.hslToRgb] and [Utils.rgbToHex]. *)
  rgbToHsl : Q -> Q -> Q -> Q * Q * Q;
  hslToRgb : Q -> Q -> Q -> Q * Q * Q;
  rgbToHex : Q -> Q -> Q -> string
}.

(** The one contract the specification states for the generators:
    every draw is a number in [0, 1). *)
Class RuntimeSpec (R : Runtime) : Prop := {
  rngNext_unit : forall g, (0 <= fst (rngNext g) /\ fst (rngNext g) < 1)%Q;
  mathRandom_unit : forall e, (0 <= fst (mathRandom e) /\ fst (mathRandom e) < 1)%Q
}.

(** ** Values shared by the engines *)

(** A colour literal [{ h, s, l }]. *)
Record HSL := hsl { hsl_h : Q; hsl_s : Q; hsl_l : Q }.

(** The severity buckets, which the sources write as strings. *)
Inductive Bucket := none | mild | moderate | strong | inconclusive.

Definition bucketName (b : Bucket) : string :=
  match b with
  | none => "none"
  | mild => "mild"
  | moderate => "moderate"
  | strong => "strong"
  | inconclusive => "inconclusive"
  end.

(** The rank of a bucket in the order none < mild < moderate < strong;
    the inconclusive bucket has no rank. *)
Definition rank (b : Bucket) : option nat :=
  match b with
  | none => Some 0%nat
  | mild => Some 1%nat
  | moderate => Some 2%nat
  | strong => Some 3%nat
  | inconclusive => None
  end.

(** [a] is ranked and at most as severe as [b]. *)
Definition no_more_severe (a b : Bucket) : Prop :=
  exists ra rb, rank a = Some ra /\ rank b = Some rb /\ (ra <= rb)%nat.

(** How a call of an engine method ends: it returns, or an exception
    propagates to the caller. *)
Inductive Completion (A : Type) :=
| Normal (a : A)
| Thrown.

Arguments Normal {A} a.
Arguments Thrown {A}.

(** A response of the subject: a string, or [None] for null and undefined. *)
Abbreviation Answer := (option string).

(** [String.prototype.toLowerCase] and [trim], on ASCII text. *)
Definition lowerAscii (c : Ascii.ascii) : Ascii.ascii :=
  let n := Ascii.N_of_ascii c in
  if ((65 <=? n) && (n <=? 90))%N then Ascii.ascii_of_N (n + 32) else c.

Definition isSpace (c : Ascii.ascii) : bool :=
  let n := Ascii.N_of_ascii c in
  ((9 <=? n) && (n <=? 13) || (n =? 32))%N.

Fixpoint toLowerCase (s : string) : string :=
  match s with
  | EmptyString => EmptyString
  | String c s' => String (lowerAscii c) (toLowerCase s')
  end.

Fixpoint trimStart (s : string) : string :=
  match s with
  | EmptyString => EmptyString
  | String c s' => if isSpace c then trimStart s' else s
  end.

Definition trim (s : string) : string :=
  String.rev (trimStart (String.rev (trimStart s))).

(** ** Utils

    The helper object [Utils] is not among the sources.  The helpers whose
    behaviour the specification fixes are modelled here; the others are
    fields of [Runtime] above. *)

Module Utils.

(** Modelled from the spec: [Utils.clamp] is not among the sources;
    "clamps every value into its declared [min,max]". *)
Definition clamp (value lo hi : Q) : Q := JS.min (JS.max value lo) hi.

(** Modelled from the spec: [Utils.percentage] is not among the sources;
    "percentage = round(100 x correct/total), defined as 0 when total = 0". *)
Definition percentage (value total : Z) : Z :=
  if total =? 0 then 0
  else JS.round (inject_Z value / inject_Z total * 100).

(** Modelled from the spec: [Utils.average] is not among the sources;
    the mean of the response times, 0 for an empty list. *)
Definition average (l : list Q) : Q :=
  match l with
  | [] => 0%Q
  | _ => (foldr Qplus 0%Q l / inject_Z (Z.of_nat (length l)))%Q
  end.

(** Modelled from the spec: [Utils.randomPick] is not among the sources;
    "pick(list, generator) -> element", a contract violation on an empty
    list.  [u] is the generator's draw; [None] is the violation. *)
Definition pickAt {A} (l : list A) (u : Q) : option A :=
  l !! Z.to_nat (JS.floor (u * inject_Z (Z.of_nat (length l)))).

(** Code that calls a seeded generator: the generator's state is threaded
    through, and [None] is an exception thrown on the way. *)
Definition Gen `{Runtime} (A : Type) : Type := RngState -> option (A * RngState).

Definition ret `{Runtime} {A} (a : A) : Gen A := fun g => Some (a, g).

Definition bind `{Runtime} {A B} (m : Gen A) (k : A -> Gen B) : Gen B :=
  fun g => match m g with
           | Some (a, g') => k a g'
           | None => None
           end.

(** One call [rng()]. *)
Definition draw `{Runtime} : Gen Q := fun g => Some (rngNext g).

(** A thrown exception, and a value that must be defined. *)
Definition throw `{Runtime} {A} : Gen A := fun _ => None.

Definition defined `{Runtime} {A} (o : option A) : Gen A :=
  match o with Some a => ret a | None => throw end.

(** [Utils.randomPick(array, rng)] *)
Definition randomPick `{Runtime} {A} (l : list A) : Gen A :=
  bind draw (fun u => defined (pickAt l u)).

(** [[a[i], a[j]] = [a[j], a[i]]] on an array. *)
Definition swap {A} (l : list A) (i j : nat) : list A :=
  match l !! i, l !! j with
  | Some x, Some y => <[i := y]> (<[j := x]> l)
  | _, _ => l
  end.

(** The Fisher-Yates loop [for (i = n; i > 0; i--)]: position [i] is
    exchanged with a drawn position [j <= i]. *)
Fixpoint fisherYates `{Runtime} {A} (i : nat) (l : list A) : Gen (list A) :=
  match i with
  | O => ret l
  | S i' =>
    bind draw (fun u =>
      let j := Z.to_nat (JS.floor (u * inject_Z (Z.of_nat (S i')))) in
      fisherYates i' (swap l (S i') j))
  end.

(** Modelled from the spec: [Utils.shuffleArray] is not among the
    sources; "shuffle(list, generator) -> new list (Fisher-Yates using the
    generator)", a contract violation on an empty list. *)
Definition shuffleArray `{Runtime} {A} (l : list A) : Gen (list A) :=
  match l with
  | [] => throw
  | _ => fisherYates (length l - 1) l
  end.

(** A loop body run for each element of a list, left to right, collecting
    the results. *)
Fixpoint forEach `{Runtime} {A B} (f : A -> Gen B) (l : list A) : Gen (list B) :=
  match l with
  | [] => ret []
  | a :: l' => bind (f a) (fun b => bind (forEach f l') (fun bs => ret (b :: bs)))
  end.

End Utils.

Notation "'let*' x ':=' m 'in' k" := (Utils.bind m (fun x => k))
  (at level 10, x pattern, m at level 100, k at level 200).

(** ** ColorFilter (js/color-filter.js) *)

Module ColorFilter.

Local Open Scope Q_scope.
Local Open Scope string_scope.

(** A parameter object: a dictionary from parameter names to numbers. *)
Abbreviation Params := (gmap string Q).

Record Range := { r_min : Q; r_max : Q; r_step : Q }.

Definition params_of (hueShift intensity saturationBoost brightness contrast : Q)
  : Params :=
  <["hueShift" := hueShift]> (<["intensity" := intensity]>
  (<["saturationBoost" := saturationBoost]> (<["brightness" := brightness]>
  (<["contrast" := contrast]> ∅)))).

Definition defaults : Params := params_of 0 (1 # 2) 0 0 0.

Definition presets : gmap string Params :=
  <["none" := params_of 0 0 0 0 0]>
  (<["mild" := params_of 15 (3 # 10) 10 0 5]>
  (<["moderate" := params_of 25 (1 # 2) 15 0 8]>
  (<["strong" := params_of 40 (7 # 10) 20 0 10]> ∅))).

(** [paramRanges], in the order [Object.keys] enumerates it. *)
Definition paramRanges : list (string * Range) :=
  [ ("hueShift", {| r_min := -60; r_max := 60; r_step := 5 |});
    ("intensity", {| r_min := 0; r_max := 1; r_step := 1 # 10 |});
    ("saturationBoost", {| r_min := -20; r_max := 40; r_step := 5 |});
    ("brightness", {| r_min := -20; r_max := 20; r_step := 5 |});
    ("contrast", {| r_min := -20; r_max := 20; r_step := 5 |}) ].

(** [presets[severity] || presets.moderate] *)
Definition getInitialParams (severity : string) : Params :=
  default (params_of 25 (1 # 2) 15 0 8) (presets !! severity).

(** [calculateSelectiveHueShift] *)
Definition calculateSelectiveHueShift (hue shift intensity : Q) : Q :=
  let factor :=
    if Qle_bool 0 hue && Qle_bool hue 40 then 1 - (hue / 40) * (1 # 2)
    else if Qle_bool 320 hue && Qle_bool hue 360
         then (hue - 320) / 40 * (1 # 2) + (1 # 2)
    else if Qle_bool 40 hue && Qle_bool hue 90
         then (1 # 2) + (hue - 40) / 50 * (1 # 2)
    else if Qle_bool 90 hue && Qle_bool hue 150
         then 1 - (hue - 90) / 60 * (1 # 2)
    else 2 # 10 in
  shift * intensity * factor.

(** The four stages of [applyToRGB] after the guard. *)
Definition hueStage (h hueShift intensity : Q) : Q :=
  JS.rem (h + calculateSelectiveHueShift h hueShift intensity + 360) 360.

Definition saturationStage (s saturationBoost intensity : Q) : Q :=
  Utils.clamp (s + saturationBoost * intensity) 0 100.

Definition brightnessStage (c brightness intensity : Q) : Q :=
  if Qeq_bool brightness 0 then c
  else Utils.clamp (c * (1 + brightness * intensity / 100)) 0 255.

Definition contrastStage (c contrast intensity : Q) : Q :=
  if Qeq_bool contrast 0 then c
  else Utils.clamp
         (((c / 255 - (1 # 2)) * (1 + contrast * intensity / 100) + (1 # 2)) * 255)
         0 255.

Definition RGB : Type := Q * Q * Q.

(** [applyToRGB(rgb, params)].  The outer [option] of [params] is a null
    argument.  The result is [None] when a destructured parameter is
    undefined and the arithmetic would run on it. *)
Definition applyToRGB `{Runtime} (rgb : RGB) (params : option Params)
  : option RGB :=
  match params with
  | None => Some rgb
  | Some p =>
    if match p !! "intensity" with Some i => Qeq_bool i 0 | None => false end
    then Some rgb
    else
      let '(r, g, b) := rgb in
      hueShift ← p !! "hueShift";
      intensity ← p !! "intensity";
      saturationBoost ← p !! "saturationBoost";
      brightness ← p !! "brightness";
      contrast ← p !! "contrast";
      let '(h, s, l) := rgbToHsl r g b in
      let h := hueStage h hueShift intensity in
      let s := saturationStage s saturationBoost intensity in
      let '(r, g, b) := hslToRgb h s l in
      let r := brightnessStage r brightness intensity in
      let g := brightnessStage g brightness intensity in
      let b := brightnessStage b brightness intensity in
      let r := contrastStage r contrast intensity in
      let g := contrastStage g contrast intensity in
      let b := contrastStage b contrast intensity in
      Some (inject_Z (JS.round r), inject_Z (JS.round g), inject_Z (JS.round b))
  end.



(** [Math.round(x * 100) / 100] *)
Definition round2 (x : Q) : Q := inject_Z (JS.round (x * 100)) / 100.

(** The body of the [forEach] of [generateNeighbors] for one parameter.
    An undefined [params[param]] fails both comparisons. *)
Definition variants (params : Params) (stepMultiplier : Q)
  (entry : string * Range) : list Params :=
  let '(param, range) := entry in
  let step := r_step range * stepMultiplier in
  match params !! param with
  | None => []
  | Some v =>
    (if Qle_bool (r_min range) (v - step)
     then [ <[param := round2 (v - step)]> params ] else [])
    ++
    (if Qle_bool (v + step) (r_max range)
     then [ <[param := round2 (v + step)]> params ] else [])
  end.

Definition generateNeighbors (params : Params) (stepMultiplier : Q)
  : list Params :=
  flat_map (variants params stepMultiplier) paramRanges.

(** [similarity(params1, params2)]; [None] when a parameter is undefined
    on either side (the sum is then not a number). *)
Definition similarity (params1 params2 : Params) : option Q :=
  totalDiff ← foldl (fun acc entry =>
      let '(param, range) := entry : string * Range in
      t ← acc; a ← params1 !! param; b ← params2 !! param;
      Some (t + JS.abs (a - b) / (r_max range - r_min range)))
    (Some 0) paramRanges;
  Some (1 - totalDiff / inject_Z (Z.of_nat (length paramRanges))).

(** The body of the [forEach] of [normalizeParams] for one parameter. *)
Definition normalizeStep (params : Params) (normalized : Params)
  (entry : string * Range) : Params :=
  let '(param, range) := entry in
  match params !! param with
  | Some v => <[param := Utils.clamp v (r_min range) (r_max range)]> normalized
  | None => normalized
  end.

(** [normalizeParams(params)]: a copy of the defaults, overwritten for
    each declared parameter that [params] defines. *)
Definition normalizeParams (params : Params) : Params :=
  foldl (normalizeStep params) defaults paramRanges.

(** [n] is [params] with one declared parameter moved one step down or
    up and rounded to hundredths, the move staying inside the range. *)
Definition is_variant (params : Params) (m : Q) (n : Params) : Prop :=
  exists param range v,
    In (param, range) paramRanges /\ params !! param = Some v /\
    ((r_min range <= v - r_step range * m /\
      n = <[param := round2 (v - r_step range * m)]> params) \/
     (v + r_step range * m <= r_max range /\
      n = <[param := round2 (v + r_step range * m)]> params)).

(** Every tunable parameter is present and within its declared range. *)
Definition in_ranges (p : Params) : Prop :=
  forall param range, In (param, range) paramRanges ->
    exists v, p !! param = Some v /\ r_min range <= v /\ v <= r_max range.

(** The five tunable values of a parameter object, when it defines all
    of them, and the sum that [similarity] forms from two such objects:
    the distance in each parameter over the width of its range. *)
Definition values (p : Params) : option (Q * Q * Q * Q * Q) :=
  h ← p !! "hueShift"; i ← p !! "intensity"; s ← p !! "saturationBoost";
  b ← p !! "brightness"; c ← p !! "contrast"; Some (h, i, s, b, c).

Definition distance (a b : Q * Q * Q * Q * Q) : Q :=
  let '(h, i, s, br, c) := a in
  let '(h', i', s', br', c') := b in
  JS.abs (h - h') * (1 # 120) + JS.abs (i - i') + JS.abs (s - s') * (1 # 60) +
  JS.abs (br - br') * (1 # 40) + JS.abs (c - c') * (1 # 40).

End ColorFilter.
(** ** MosaicGenerator (js/mosaic-generator.js) *)

Module MosaicGenerator.

Local Open Scope string_scope.

(** [getCharacterPatterns()] *)
Definition getCharacterPatterns : gmap string (list (list Z)) :=
  list_to_map (M := gmap string (list (list Z))) [
    ("2", [ [0; 1; 1; 1; 0];
           [1; 0; 0; 0; 1];
           [0; 0; 0; 0; 1];
           [0; 0; 1; 1; 0];
           [0; 1; 0; 0; 0];
           [1; 0; 0; 0; 0];
           [1; 1; 1; 1; 1] ]);
    ("3", [ [0; 1; 1; 1; 0];
           [1; 0; 0; 0; 1];
           [0; 0; 0; 0; 1];
           [0; 0; 1; 1; 0];
           [0; 0; 0; 0; 1];
           [1; 0; 0; 0; 1];
           [0; 1; 1; 1; 0] ]);
    ("5", [ [1; 1; 1; 1; 1];
           [1; 0; 0; 0; 0];
           [1; 1; 1; 1; 0];
           [0; 0; 0; 0; 1];
           [0; 0; 0; 0; 1];
           [1; 0; 0; 0; 1];
           [0; 1; 1; 1; 0] ]);
    ("6", [ [0; 0; 1; 1; 0];
           [0; 1; 0; 0; 0];
           [1; 0; 0; 0; 0];
           [1; 1; 1; 1; 0];
           [1; 0; 0; 0; 1];
           [1; 0; 0; 0; 1];
           [0; 1; 1; 1; 0] ]);
    ("7", [ [1; 1; 1; 1; 1];
           [0; 0; 0; 0; 1];
           [0; 0; 0; 1; 0];
           [0; 0; 1; 0; 0];
           [0; 1; 0; 0; 0];
           [0; 1; 0; 0; 0];
           [0; 1; 0; 0; 0] ]);
    ("8", [ [0; 1; 1; 1; 0];
           [1; 0; 0; 0; 1];
           [1; 0; 0; 0; 1];
           [0; 1; 1; 1; 0];
           [1; 0; 0; 0; 1];
           [1; 0; 0; 0; 1];
           [0; 1; 1; 1; 0] ]);
    ("9", [ [0; 1; 1; 1; 0];
           [1; 0; 0; 0; 1];
           [1; 0; 0; 0; 1];
           [0; 1; 1; 1; 1];
           [0; 0; 0; 0; 1];
           [0; 0; 0; 1; 0];
           [0; 1; 1; 0; 0] ]);
    ("A", [ [0; 0; 1; 0; 0];
           [0; 1; 0; 1; 0];
           [1; 0; 0; 0; 1];
           [1; 0; 0; 0; 1];
           [1; 1; 1; 1; 1];
           [1; 0; 0; 0; 1];
           [1; 0; 0; 0; 1] ]);
    ("C", [ [0; 1; 1; 1; 0];
           [1; 0; 0; 0; 1];
           [1; 0; 0; 0; 0];
           [1; 0; 0; 0; 0];
           [1; 0; 0; 0; 0];
           [1; 0; 0; 0; 1];
           [0; 1; 1; 1; 0] ]);
    ("E", [ [1; 1; 1; 1; 1];
           [1; 0; 0; 0; 0];
           [1; 0; 0; 0; 0];
           [1; 1; 1; 1; 0];
           [1; 0; 0; 0; 0];
           [1; 0; 0; 0; 0];
           [1; 1; 1; 1; 1] ]);
    ("H", [ [1; 0; 0; 0; 1];
           [1; 0; 0; 0; 1];
           [1; 0; 0; 0; 1];
           [1; 1; 1; 1; 1];
           [1; 0; 0; 0; 1];
           [1; 0; 0; 0; 1];
           [1; 0; 0; 0; 1] ]);
    ("K", [ [1; 0; 0; 0; 1];
           [1; 0; 0; 1; 0];
           [1; 0; 1; 0; 0];
           [1; 1; 0; 0; 0];
           [1; 0; 1; 0; 0];
           [1; 0; 0; 1; 0];
           [1; 0; 0; 0; 1] ]);
    ("N", [ [1; 0; 0; 0; 1];
           [1; 1; 0; 0; 1];
           [1; 0; 1; 0; 1];
           [1; 0; 0; 1; 1];
           [1; 0; 0; 0; 1];
           [1; 0; 0; 0; 1];
           [1; 0; 0; 0; 1] ]);
    ("O", [ [0; 1; 1; 1; 0];
           [1; 0; 0; 0; 1];
           [1; 0; 0; 0; 1];
           [1; 0; 0; 0; 1];
           [1; 0; 0; 0; 1];
           [1; 0; 0; 0; 1];
           [0; 1; 1; 1; 0] ]);
    ("P", [ [1; 1; 1; 1; 0];
           [1; 0; 0; 0; 1];
           [1; 0; 0; 0; 1];
           [1; 1; 1; 1; 0];
           [1; 0; 0; 0; 0];
           [1; 0; 0; 0; 0];
           [1; 0; 0; 0; 0] ]);
    ("S", [ [0; 1; 1; 1; 0];
           [1; 0; 0; 0; 1];
           [1; 0; 0; 0; 0];
           [0; 1; 1; 1; 0];
           [0; 0; 0; 0; 1];
           [1; 0; 0; 0; 1];
           [0; 1; 1; 1; 0] ]);
    ("X", [ [1; 0; 0; 0; 1];
           [0; 1; 0; 1; 0];
           [0; 0; 1; 0; 0];
           [0; 0; 1; 0; 0];
           [0; 0; 1; 0; 0];
           [0; 1; 0; 1; 0];
           [1; 0; 0; 0; 1] ]) ].

Local Open Scope Q_scope.

Record Palette := { background : list HSL; target : list HSL }.

(** [colorPalettes.deutanConfusion] and [colorPalettes.control] *)
Definition deutanConfusion : list Palette :=
  [
    {| background := [ hsl 120 45 45; hsl 125 40 50; hsl 115 50 40; hsl 130 42 48 ];
       target := [ hsl 0 50 45; hsl 5 45 48; hsl 355 48 42 ] |};
    {| background := [ hsl 45 35 40; hsl 50 38 42; hsl 40 32 45; hsl 55 36 38 ];
       target := [ hsl 85 45 42; hsl 90 42 45; hsl 80 48 40 ] |};
    {| background := [ hsl 15 40 42; hsl 20 38 45; hsl 10 42 40; hsl 25 36 44 ];
       target := [ hsl 140 48 40; hsl 145 45 42; hsl 135 50 38 ] |};
    {| background := [ hsl 165 35 45; hsl 170 38 42; hsl 160 32 48; hsl 175 36 44 ];
       target := [ hsl 340 45 50; hsl 345 42 48; hsl 335 48 52 ] |};
    {| background := [ hsl 150 42 48; hsl 155 38 45; hsl 145 45 50; hsl 160 40 46 ];
       target := [ hsl 25 55 50; hsl 30 52 48; hsl 20 58 52 ] |} ].

Definition control : list Palette :=
  [
    {| background := [ hsl 220 50 50; hsl 225 48 52; hsl 215 52 48; hsl 230 46 54 ];
       target := [ hsl 55 70 55; hsl 60 68 52; hsl 50 72 58 ] |};
    {| background := [ hsl 270 45 45; hsl 275 42 48; hsl 265 48 42; hsl 280 44 46 ];
       target := [ hsl 48 65 55; hsl 52 62 58; hsl 44 68 52 ] |};
    {| background := [ hsl 235 55 35; hsl 240 52 38; hsl 230 58 32; hsl 245 50 36 ];
       target := [ hsl 35 80 65; hsl 40 78 62; hsl 30 82 68 ] |} ].

(** [targetPatterns] *)
Definition numbers : list string := ["2"; "3"; "5"; "6"; "7"; "8"; "9"].
Definition letters : list string :=
  ["A"; "C"; "E"; "H"; "K"; "N"; "O"; "P"; "S"; "X"].
Definition shapes : list string := ["circle"; "square"; "triangle"; "diamond"].

Record Target := { t_type : string; t_value : string }.

Record Tile := {
  row : nat; col : nat; x : Z; y : Z; tile_size : Z;
  isTarget : bool; color : string; rgb : Q * Q * Q
}.

Abbreviation Mask := (list (list bool)).

(** [mask[row][col] = true] behind its bounds check. *)
Definition setMask (gridSize : Z) (mask : Mask) (row col : Z) : Mask :=
  if ((0 <=? row) && (row <? gridSize) && (0 <=? col) && (col <? gridSize))%Z
  then alter (fun r => <[Z.to_nat col := true]> r) (Z.to_nat row) mask
  else mask.

(** The values [0, 1, 2, ...] a counter takes in [for (k = 0; k < bound; k++)]. *)
Definition countBelow (bound : Q) : list Z :=
  map Z.of_nat (seq 0 (Z.to_nat (Qceiling bound))).

(** The character branch of [createTargetMask]: every lit cell of the
    pattern is scaled up and written into the mask. *)
Definition characterMask (gridSize : Z) (pattern : list (list Z))
  (patternWidth : nat) (mask : Mask) : Mask :=
  let scale := inject_Z gridSize / 14 in
  let patternHeight := length pattern in
  let startRow :=
    JS.floor ((inject_Z gridSize - inject_Z (Z.of_nat patternHeight) * scale) / 2) in
  let startCol :=
    JS.floor ((inject_Z gridSize - inject_Z (Z.of_nat patternWidth) * scale) / 2) in
  foldl (fun mask py =>
    foldl (fun mask px =>
      if decide (pattern !! py ≫= (.!! px) = Some 1%Z) then
        foldl (fun mask sy =>
          foldl (fun mask sx =>
            setMask gridSize mask
              (JS.floor (inject_Z startRow + inject_Z (Z.of_nat py) * scale + inject_Z sy))
              (JS.floor (inject_Z startCol + inject_Z (Z.of_nat px) * scale + inject_Z sx)))
            mask (countBelow scale))
          mask (countBelow scale)
      else mask)
      mask (seq 0 patternWidth))
    mask (seq 0 patternHeight).

(** The tests of the shape branch.  [Math.sqrt(d) < radius] is written
    without the root: [0 < radius] and [d < radius * radius]. *)
Definition inShape (value : string) (dx dy radius : Q) : bool :=
  if decide (value = "circle") then
    JS.Qlt_bool 0 radius && JS.Qlt_bool (dx * dx + dy * dy) (radius * radius)
  else if decide (value = "square") then
    JS.Qlt_bool (JS.abs dx) (radius * (7 # 10)) &&
    JS.Qlt_bool (JS.abs dy) (radius * (7 # 10))
  else if decide (value = "triangle") then
    JS.Qlt_bool (- radius * (6 # 10)) dy && JS.Qlt_bool dy (radius * (6 # 10)) &&
    JS.Qlt_bool (JS.abs dx) (radius * (6 # 10) - dy * (1 # 2))
  else if decide (value = "diamond") then
    JS.Qlt_bool (JS.abs dx + JS.abs dy) (radius * (8 # 10))
  else false.

Definition shapeMask (gridSize : Z) (value : string) : Mask :=
  let n := Z.to_nat gridSize in
  let centerX := inject_Z gridSize / 2 in
  let centerY := inject_Z gridSize / 2 in
  let radius := inject_Z gridSize * (35 # 100) in
  map (fun row =>
    map (fun col =>
      let dx := inject_Z (Z.of_nat col) - centerX + (1 # 2) in
      let dy := inject_Z (Z.of_nat row) - centerY + (1 # 2) in
      inShape value dx dy radius)
      (seq 0 n))
    (seq 0 n).

(** [createTargetMask(gridSize, target, rng)]; the generator is not used.
    [None] is the exception of reading the first row of an empty pattern. *)
Definition createTargetMask (gridSize : Z) (target : Target) : option Mask :=
  let n := Z.to_nat gridSize in
  let mask := replicate n (replicate n false) in
  if decide (t_type target = "number" \/ t_type target = "letter") then
    match getCharacterPatterns !! t_value target with
    | Some pattern =>
      match pattern with
      | row0 :: _ => Some (characterMask gridSize pattern (length row0) mask)
      | [] => None
      end
    | None => Some mask
    end
  else if decide (t_type target = "shape") then
    Some (shapeMask gridSize (t_value target))
  else Some mask.

(** [applyFilterToHSL(hsl, filterParams)] for a non-null filter; a missing
    parameter takes its destructuring default. *)
Definition applyFilterToHSL (c : HSL) (filterParams : gmap string Q) : HSL :=
  let hueShift := default 0 (filterParams !! "hueShift") in
  let intensity := default 1 (filterParams !! "intensity") in
  let saturationBoost := default 0 (filterParams !! "saturationBoost") in
  hsl (JS.rem (hsl_h c + hueShift * intensity + 360) 360)
      (Utils.clamp (hsl_s c + saturationBoost * intensity) 0 100)
      (hsl_l c).

(** The colour of a tile before any filter: a palette entry and three
    jitter draws. *)
Definition baseTileColor `{Runtime} (palette : Palette) (isTarget : bool)
  : Utils.Gen HSL :=
  let colorSet := if isTarget then target palette else background palette in
  let* baseColor := Utils.randomPick colorSet in
  let* u1 := Utils.draw in
  let* u2 := Utils.draw in
  let* u3 := Utils.draw in
  Utils.ret (hsl (hsl_h baseColor + (u1 - (1 # 2)) * 8)
                 (hsl_s baseColor + (u2 - (1 # 2)) * 6)
                 (hsl_l baseColor + (u3 - (1 # 2)) * 6)).

(** The body of the two loops of [generateTiles] for one cell. *)
Definition generateTile `{Runtime} (tileSize : Z) (palette : Palette)
  (filterParams : option (gmap string Q)) (mask : Mask) (cell : nat * nat)
  : Utils.Gen Tile :=
  let '(row, col) := cell in
  let* isTarget := Utils.defined (mask !! row ≫= (.!! col)) in
  let* color := baseTileColor palette isTarget in
  let color := match filterParams with
               | Some fp => applyFilterToHSL color fp
               | None => color
               end in
  let rgb := hslToRgb (hsl_h color) (hsl_s color) (hsl_l color) in
  Utils.ret {| row := row; col := col;
               x := Z.of_nat col * tileSize; y := Z.of_nat row * tileSize;
               tile_size := tileSize; isTarget := isTarget;
               color := (let '(r, g, b) := rgb in rgbToHex r g b);
               rgb := rgb |}.

(** The cells of the grid in the order of the two loops. *)
Definition cells (n : nat) : list (nat * nat) :=
  flat_map (fun row => map (fun col => (row, col)) (seq 0 n)) (seq 0 n).

(** [generateTiles(tileCount, tileSize, palette, target, rng, filterParams)] *)
Definition generateTiles `{Runtime} (tileCount tileSize : Z) (palette : Palette)
  (target : Target) (filterParams : option (gmap string Q))
  : Utils.Gen (list Tile) :=
  let* mask := Utils.defined (createTargetMask tileCount target) in
  Utils.forEach (generateTile tileSize palette filterParams mask)
                (cells (Z.to_nat tileCount)).

Record Plate `{Runtime} := {
  seed : Seed; size : Q; tileCount : Z; tileSize : Z;
  type : string; difficulty : string; palette : Palette; plate_target : Target;
  filterParams : option (gmap string Q); tiles : list Tile
}.

(** The [options] argument of [generatePlate]; [None] is an omitted key. *)
Record Options `{Runtime} := {
  o_size : option Q; o_type : option string; o_seed : option Seed;
  o_difficulty : option string; o_targetType : option string;
  o_filterParams : option (gmap string Q)
}.

Definition tileCounts : gmap string Z :=
  list_to_map (M := gmap string Z) [("easy", 10%Z); ("medium", 14%Z); ("hard", 18%Z)].

(** The target selection of [generatePlate]. *)
Definition selectTarget `{Runtime} (targetType : string) : Utils.Gen Target :=
  if decide (targetType = "number") then
    let* v := Utils.randomPick numbers in
    Utils.ret {| t_type := "number"; t_value := v |}
  else if decide (targetType = "letter") then
    let* v := Utils.randomPick letters in
    Utils.ret {| t_type := "letter"; t_value := v |}
  else
    let* v := Utils.randomPick shapes in
    Utils.ret {| t_type := "shape"; t_value := v |}.

(** [generatePlate] once its seed is known. *)
Definition plateFromSeed `{Runtime} (options : Options) (seed : Seed)
  : Utils.Gen Plate :=
  let size := default 400 (o_size options) in
  let type := default "deutanConfusion" (o_type options) in
  let difficulty := default "medium" (o_difficulty options) in
  let targetType := default "number" (o_targetType options) in
  let filterParams := o_filterParams options in
  let tileCount := default 14%Z (tileCounts !! difficulty) in
  let tileSize := JS.floor (size / inject_Z tileCount) in
  let palettes := if decide (type = "control") then control else deutanConfusion in
  let* palette := Utils.randomPick palettes in
  let* target := selectTarget targetType in
  let* tiles := generateTiles tileCount tileSize palette target filterParams in
  Utils.ret {| seed := seed; size := size; tileCount := tileCount;
               tileSize := tileSize; type := type; difficulty := difficulty;
               palette := palette; plate_target := target;
               filterParams := filterParams; tiles := tiles |}.

(** [generatePlate(options)]: an omitted seed is drawn from the
    environment; the generator is created from the seed and dropped at
    the end.  [None] is an exception. *)
Definition generatePlate `{Runtime} (options : Options) (env : Env)
  : option Plate * Env :=
  let '(seed, env) := match o_seed options with
                      | Some s => (s, env)
                      | None => generateSeed None env
                      end in
  (fst <$> plateFromSeed options seed (createRNG seed), env).

(** The [options] argument of [generateTestSequence]. *)
Record SequenceOptions `{Runtime} := {
  so_plateCount : option Z; so_deutanRatio : option Q; so_seed : option Seed;
  so_difficulty : option string; so_filterParams : option (gmap string Q)
}.

(** [Array(n).fill(v)]; [None] is the range error of a negative length. *)
Definition arrayFill {A} (n : Z) (v : A) : option (list A) :=
  if (n <? 0)%Z then None else Some (replicate (Z.to_nat n) v).

Definition targetTypes : list string := ["number"; "number"; "letter"; "shape"].

(** The [forEach] of [generateTestSequence] from position [index] on. *)
Fixpoint generateEach `{Runtime} (seed : Seed) (difficulty : string)
  (filterParams : option (gmap string Q)) (types : list string) (index : nat)
  (env : Env) : option (list Plate) * Env :=
  match types with
  | [] => (Some [], env)
  | type :: rest =>
    let '(plateSeed, env) :=
      generateSeed (Some (seedText seed +:+ "-" +:+ pretty index)) env in
    let targetType := default "number" (targetTypes !! (index mod 4)%nat) in
    let '(plate, env) :=
      generatePlate {| o_size := None; o_type := Some type;
                       o_seed := Some plateSeed;
                       o_difficulty := Some difficulty;
                       o_targetType := Some targetType;
                       o_filterParams := filterParams |} env in
    match plate with
    | None => (None, env)
    | Some p =>
      let '(ps, env) :=
        generateEach seed difficulty filterParams rest (S index) env in
      (cons p <$> ps, env)
    end
  end.

(** [generateTestSequence(options)] *)
Definition generateTestSequence `{Runtime} (options : SequenceOptions) (env : Env)
  : option (list Plate) * Env :=
  let plateCount := default 12%Z (so_plateCount options) in
  let deutanRatio := default (67 # 100) (so_deutanRatio options) in
  let '(seed, env) := match so_seed options with
                      | Some s => (s, env)
                      | None => generateSeed None env
                      end in
  let difficulty := default "medium" (so_difficulty options) in
  let deutanCount := JS.round (inject_Z plateCount * deutanRatio) in
  let controlCount := (plateCount - deutanCount)%Z in
  match arrayFill deutanCount "deutanConfusion", arrayFill controlCount "control" with
  | Some ds, Some cs =>
    match Utils.shuffleArray (ds ++ cs) (createRNG seed) with
    | Some (shuffledSequence, _) =>
      generateEach seed difficulty (so_filterParams options) shuffledSequence 0 env
    | None => (None, env)
    end
  | _, _ => (None, env)
  end.

(** [generateTuningSequence(options)]: the two defaults, overridden by
    the keys of [options]. *)
Definition generateTuningSequence `{Runtime} (options : SequenceOptions)
  (env : Env) : option (list Plate) * Env :=
  generateTestSequence
    {| so_plateCount := Some (default 5%Z (so_plateCount options));
       so_deutanRatio := Some (default (8 # 10) (so_deutanRatio options));
       so_seed := so_seed options;
       so_difficulty := so_difficulty options;
       so_filterParams := so_filterParams options |} env.

(** A mask of [n] rows of [n] cells. *)
Definition square_mask (n : nat) (mask : Mask) : Prop :=
  length mask = n /\ Forall (fun r => length r = n) mask.

(** The targets [selectTarget] can return. *)
Definition listed_target (t : Target) : Prop :=
  (t_type t = "number" /\ In (t_value t) numbers) \/
  (t_type t = "letter" /\ In (t_value t) letters) \/
  (t_type t = "shape" /\ In (t_value t) shapes).

(** The targets [generatePlate] can select. *)
Definition allTargets : list Target :=
  (map (fun v => {| t_type := "number"; t_value := v |}) numbers ++
   map (fun v => {| t_type := "letter"; t_value := v |}) letters ++
   map (fun v => {| t_type := "shape"; t_value := v |}) shapes)%list.

(** Some cell of the mask holds [b]. *)
Definition maskHas (b : bool) (mask : Mask) : bool :=
  existsb (existsb (Bool.eqb b)) mask.

(** The three families of target values. *)
Definition families : list (list string) := [numbers; letters; shapes].

(** [getAnswerOptions(plateData, rng)] with a seeded generator: the
    shuffled choices with "none" pushed at the end, and the correct
    answer. *)
Definition getAnswerOptions `{Runtime} (plateData : Plate)
  : Utils.Gen (list string * string) :=
  let target := plate_target plateData in
  let correctAnswer := t_value target in
  let* options :=
    if decide (t_type target = "number") then
      let allNumbers := filter (fun n => n <> t_value target) numbers in
      let* shuffled := Utils.shuffleArray allNumbers in
      let wrongNumbers := take 3 shuffled in
      Utils.shuffleArray (t_value target :: wrongNumbers)
    else if decide (t_type target = "letter") then
      let allLetters := filter (fun l => l <> t_value target) letters in
      let* shuffled := Utils.shuffleArray allLetters in
      let wrongLetters := take 3 shuffled in
      Utils.shuffleArray (t_value target :: wrongLetters)
    else if decide (t_type target = "shape") then
      Utils.shuffleArray shapes
    else Utils.ret [] in
  Utils.ret ((options ++ ["none"])%list, correctAnswer).

End MosaicGenerator.

(** ** TestEngine (js/mosaic-generator.js, second part) *)

Module TestEngine.

Local Open Scope string_scope.

Record ResponseData `{Runtime} := {
  plateIndex : nat; plateType : string; targetType : string;
  targetValue : string; userResponse : Answer; isCorrect : bool;
  responseTime : Z; rd_difficulty : string; rd_seed : Seed
}.

Record Score := { correct : Z; total : Z; score : Z }.

Record Severity := {
  value : Z; bucket : Bucket; deutanScore : Q; controlScore : Q;
  description : string
}.

Record Timing := {
  totalTime : Q; avgResponseTime : Z; responseTimes : list Z
}.

Record Results `{Runtime} := {
  r_mode : string; timestamp : Z;
  r_filterParams : option (gmap string Q);
  overall : Score; deutan : Score; control : Score;
  timing : Timing; severity : Severity;
  r_responses : list ResponseData; plateCount : nat; r_seed : option Seed
}.

(** The callbacks, as the record of what the engine reports. *)
Inductive Event `{Runtime} :=
| PlateReady (plate : MosaicGenerator.Plate) (index total : nat)
| PlateComplete (response : ResponseData)
| TestComplete (results : Results).

Record State `{Runtime} := {
  isRunning : bool; currentPlateIndex : nat;
  plates : list MosaicGenerator.Plate; responses : list ResponseData;
  startTime : option Z; plateStartTime : option Z;
  filterParams : option (gmap string Q); mode : string;
  seed : option Seed; timer : bool
}.

(** The [state] the object literal starts with. *)
Definition initialState `{Runtime} : State :=
  {| isRunning := false; currentPlateIndex := 0; plates := [];
     responses := []; startTime := None; plateStartTime := None;
     filterParams := None; mode := "baseline"; seed := None; timer := false |}.

(** [config] *)
Definition baselinePlateCount : Z := 12.
Definition validationPlateCount : Z := 8.
Definition tuningPlateCount : Z := 5.
Definition config_difficulty : string := "medium".

(** [getSeverityDescription(bucket)] *)
Definition getSeverityDescription (b : Bucket) : string :=
  match b with
  | mild => "Mild red-green color confusion detected. You may have subtle difficulty distinguishing some shades of red and green."
  | moderate => "Moderate red-green color confusion detected. You likely have deuteranomaly, a common form of color vision deficiency."
  | strong => "Strong red-green color confusion detected. You may have deuteranopia or strong deuteranomaly, significantly affecting red-green color perception."
  | _ => "No significant red-green color confusion detected. Your color vision appears normal for the tested range."
  end.

(** The [adjustedScore] of [estimateSeverity]. *)
Definition adjustedScore (deutanScore controlScore : Q) : Q :=
  if JS.Qlt_bool controlScore 100 && JS.Qlt_bool 0 controlScore
  then JS.min (deutanScore / controlScore * 100) 100
  else deutanScore.

(** [severityValue]: 0 to 100, higher is more severe. *)
Definition severityValue (deutanScore controlScore : Q) : Q :=
  (100 - adjustedScore deutanScore controlScore)%Q.

(** The bucket chain of [estimateSeverity]. *)
Definition bucketOf (severityValue : Q) : Bucket :=
  if Qle_bool severityValue 15 then none
  else if Qle_bool severityValue 35 then mild
  else if Qle_bool severityValue 60 then moderate
  else strong.

(** [estimateSeverity(deutanScore, controlScore)] *)
Definition estimateSeverity (deutanScore controlScore : Q) : Severity :=
  let severityValue := severityValue deutanScore controlScore in
  let bucket := bucketOf severityValue in
  {| value := JS.round severityValue; bucket := bucket;
     deutanScore := deutanScore; controlScore := controlScore;
     description := getSeverityDescription bucket |}.

(** [checkAnswer(response, plate)] *)
Definition checkAnswer `{Runtime} (response : Answer)
  (plate : MosaicGenerator.Plate) : bool :=
  match response with
  | None => false
  | Some r =>
    if decide (r = "none") then false
    else
      let correctAnswer :=
        MosaicGenerator.t_value (MosaicGenerator.plate_target plate) in
      bool_decide (trim (toLowerCase r) = trim (toLowerCase correctAnswer))
  end.

Definition countCorrect `{Runtime} (l : list ResponseData) : Z :=
  Z.of_nat (length (filter (fun r => isCorrect r = true) l)).

(** [calculateResults()] *)
Definition calculateResults `{Runtime} (st : State) (env : Env) : Results * Env :=
  let '(endTime, env) := dateNow env in
  let deutanResponses :=
    filter (fun r => plateType r = "deutanConfusion") (responses st) in
  let controlResponses :=
    filter (fun r => plateType r = "control") (responses st) in
  let deutanCorrect := countCorrect deutanResponses in
  let controlCorrect := countCorrect controlResponses in
  let deutanTotal := Z.of_nat (length deutanResponses) in
  let controlTotal := Z.of_nat (length controlResponses) in
  let overallCorrect := countCorrect (responses st) in
  let overallTotal := Z.of_nat (length (responses st)) in
  let deutanScore := Utils.percentage deutanCorrect deutanTotal in
  let controlScore := Utils.percentage controlCorrect controlTotal in
  let overallScore := Utils.percentage overallCorrect overallTotal in
  let responseTimes := map responseTime (responses st) in
  let avgResponseTime := Utils.average (map inject_Z responseTimes) in
  let elapsed := (endTime - default 0 (startTime st))%Z in
  let totalTime := (inject_Z elapsed / 1000)%Q in
  let severity := estimateSeverity (inject_Z deutanScore) (inject_Z controlScore) in
  let '(stamp, env) := dateNow env in
  ({| r_mode := mode st; timestamp := stamp;
      r_filterParams := filterParams st;
      overall := {| correct := overallCorrect; total := overallTotal;
                    score := overallScore |};
      deutan := {| correct := deutanCorrect; total := deutanTotal;
                   score := deutanScore |};
      control := {| correct := controlCorrect; total := controlTotal;
                    score := controlScore |};
      timing := {| totalTime := (inject_Z (JS.round (totalTime * 10)) / 10)%Q;
                   avgResponseTime := JS.round avgResponseTime;
                   responseTimes := responseTimes |};
      severity := severity; r_responses := responses st;
      plateCount := length (plates st); r_seed := seed st |}, env).

(** [getCurrentPlate()] *)
Definition getCurrentPlate `{Runtime} (st : State) : option MosaicGenerator.Plate :=
  plates st !! currentPlateIndex st.

(** What a method leaves behind: the state, the reported events in
    order, and the environment. *)
Definition Step `{Runtime} : Type := State * list Event * Env.

(** [complete()] *)
Definition complete `{Runtime} (st : State) (env : Env) : Step :=
  let st :=
    {| isRunning := false; currentPlateIndex := currentPlateIndex st;
       plates := plates st; responses := responses st;
       startTime := startTime st; plateStartTime := plateStartTime st;
       filterParams := filterParams st; mode := mode st; seed := seed st;
       timer := false |} in
  let '(results, env) := calculateResults st env in
  (st, [TestComplete results], env).

(** [showCurrentPlate()] *)
Definition showCurrentPlate `{Runtime} (st : State) (env : Env) : Step :=
  match getCurrentPlate st with
  | None => complete st env
  | Some plate =>
    let '(now, env) := dateNow env in
    ({| isRunning := isRunning st; currentPlateIndex := currentPlateIndex st;
        plates := plates st; responses := responses st;
        startTime := startTime st; plateStartTime := Some now;
        filterParams := filterParams st; mode := mode st; seed := seed st;
        timer := timer st |},
     [PlateReady plate (currentPlateIndex st) (length (plates st))], env)
  end.

(** [start()] *)
Definition start `{Runtime} (st : State) (env : Env) : Step :=
  if isRunning st then (st, [], env)
  else
    let '(now, env) := dateNow env in
    let st :=
      {| isRunning := true; currentPlateIndex := 0;
         plates := plates st; responses := [];
         startTime := Some now; plateStartTime := plateStartTime st;
         filterParams := filterParams st; mode := mode st; seed := seed st;
         timer := timer st |} in
    let '(st, events, env) := showCurrentPlate st env in
    ({| isRunning := isRunning st; currentPlateIndex := currentPlateIndex st;
        plates := plates st; responses := responses st;
        startTime := startTime st; plateStartTime := plateStartTime st;
        filterParams := filterParams st; mode := mode st; seed := seed st;
        timer := true |}, events, env).

(** [recordResponse(response)].  No path of the method throws. *)
Definition recordResponse `{Runtime} (response : Answer) (st : State) (env : Env)
  : Completion Step :=
  match getCurrentPlate st with
  | None => Normal (st, [], env)
  | Some plate =>
    let '(now, env) := dateNow env in
    let responseTime := (now - default 0 (plateStartTime st))%Z in
    let isCorrect := checkAnswer response plate in
    let responseData :=
      {| plateIndex := currentPlateIndex st;
         plateType := MosaicGenerator.type plate;
         targetType := MosaicGenerator.t_type (MosaicGenerator.plate_target plate);
         targetValue := MosaicGenerator.t_value (MosaicGenerator.plate_target plate);
         userResponse := response; isCorrect := isCorrect;
         responseTime := responseTime;
         rd_difficulty := MosaicGenerator.difficulty plate;
         rd_seed := MosaicGenerator.seed plate |} in
    let st :=
      {| isRunning := isRunning st; currentPlateIndex := S (currentPlateIndex st);
         plates := plates st; responses := responses st ++ [responseData];
         startTime := startTime st; plateStartTime := plateStartTime st;
         filterParams := filterParams st; mode := mode st; seed := seed st;
         timer := timer st |} in
    let '(st, events, env) :=
      if (length (plates st) <=? currentPlateIndex st)%nat
      then complete st env
      else showCurrentPlate st env in
    Normal (st, PlateComplete responseData :: events, env)
  end.

(** [skipPlate()] *)
Definition skipPlate `{Runtime} (st : State) (env : Env) : Completion Step :=
  recordResponse (Some "none") st env.

(** The [options] argument of [init]. *)
Record InitOptions := {
  io_mode : option string; io_plateCount : option Z;
  io_filterParams : option (gmap string Q)
}.

(** [init(options)]: the plates are generated here; an exception of the
    generator propagates.  The interval timer lives on the object, not in
    [state]; [init] is taken on an object whose timer is off. *)
Definition init `{Runtime} (options : InitOptions) (env : Env)
  : Completion (State * Env) :=
  let mode := default "baseline" (io_mode options) in
  let count :=
    match io_plateCount options with
    | Some c => if (c =? 0)%Z then None else Some c
    | None => None
    end in
  let count :=
    match count with
    | Some c => c
    | None =>
      if decide (mode = "validation") then validationPlateCount
      else if decide (mode = "tuning") then tuningPlateCount
      else baselinePlateCount
    end in
  let '(seed, env) := generateSeed None env in
  let sequenceOptions :=
    {| MosaicGenerator.so_plateCount := Some count;
       MosaicGenerator.so_deutanRatio := None;
       MosaicGenerator.so_seed := Some seed;
       MosaicGenerator.so_difficulty := Some config_difficulty;
       MosaicGenerator.so_filterParams := io_filterParams options |} in
  let '(generated, env) :=
    if decide (mode = "tuning")
    then MosaicGenerator.generateTuningSequence sequenceOptions env
    else MosaicGenerator.generateTestSequence sequenceOptions env in
  match generated with
  | None => Thrown
  | Some plates =>
    Normal ({| isRunning := false; currentPlateIndex := 0; plates := plates;
               responses := []; startTime := None; plateStartTime := None;
               filterParams := io_filterParams options; mode := mode;
               seed := Some seed; timer := false |}, env)
  end.

(** [abort()] *)
Definition abort `{Runtime} (st : State) : State :=
  {| isRunning := false; currentPlateIndex := currentPlateIndex st;
     plates := plates st; responses := responses st;
     startTime := startTime st; plateStartTime := plateStartTime st;
     filterParams := filterParams st; mode := mode st; seed := seed st;
     timer := false |}.

(** The responses of the subject fed to the engine one by one. *)
Fixpoint feed `{Runtime} (answers : list Answer) (st : State) (env : Env)
  : Completion Step :=
  match answers with
  | [] => Normal (st, [], env)
  | a :: rest =>
    match recordResponse a st env with
    | Normal (st, events, env) =>
      match feed rest st env with
      | Normal (st', events', env') => Normal (st', (events ++ events')%list, env')
      | Thrown => Thrown
      end
    | Thrown => Thrown
    end
  end.

(** The final results a log of events reports. *)
Definition testResults `{Runtime} (events : list Event) : list Results :=
  omap (fun e => match e with TestComplete r => Some r | _ => None end) events.

(** The response [rd] is the record of the answer given to plate [i]. *)
Definition records `{Runtime} (plates : list MosaicGenerator.Plate)
  (answers : list Answer) (i : nat) (rd : ResponseData) : Prop :=
  plateIndex rd = i /\
  exists plate a, plates !! i = Some plate /\ answers !! i = Some a /\
    userResponse rd = a /\ isCorrect rd = checkAnswer a plate /\
    plateType rd = MosaicGenerator.type plate /\
    targetValue rd =
      MosaicGenerator.t_value (MosaicGenerator.plate_target plate).

(** The score [s] is the tally of the responses [l]. *)
Definition tally `{Runtime} (l : list ResponseData) (s : Score) : Prop :=
  total s = Z.of_nat (length l) /\ correct s = countCorrect l /\
  score s = Utils.percentage (correct s) (total s).

(** The final results [rs] reported so far fit the state: none while the
    test runs, and one, computed from the recorded responses, once it is
    complete. *)
Definition reported `{Runtime} (st : State) (rs : list Results) : Prop :=
  if isRunning st then rs = []
  else exists r, rs = [r] /\ r_responses r = responses st /\
         plateCount r = length (plates st) /\ r_mode r = mode st /\
         tally (responses st) (overall r) /\
         tally (filter (fun rd => plateType rd = "deutanConfusion") (responses st))
               (deutan r) /\
         tally (filter (fun rd => plateType rd = "control") (responses st))
               (control r) /\
         severity r = estimateSeverity (inject_Z (score (deutan r)))
                                       (inject_Z (score (control r))).

(** A started test of [k] plates after the answers [answered]. *)
Definition underway `{Runtime} (k : nat) (answered : list Answer) (st : State)
  : Prop :=
  length (plates st) = k /\
  currentPlateIndex st = length (responses st) /\
  length (responses st) = (length answered `min` k)%nat /\
  isRunning st = bool_decide (length answered < k)%nat /\
  forall i rd, responses st !! i = Some rd -> records (plates st) answered i rd.

End TestEngine.

(** ** AnimatedMosaic (js/animated-mosaic.js) *)

Module AnimatedMosaic.

Local Open Scope string_scope.

(** [config.gridSizes] and [config.tilesPerSquare] *)
Definition gridSizes : gmap string Z :=
  list_to_map (M := gmap string Z) [("easy", 2%Z); ("medium", 3%Z); ("hard", 4%Z)].

Definition tilesPerSquare : gmap string Z :=
  list_to_map (M := gmap string Z) [("easy", 8%Z); ("medium", 10%Z); ("hard", 12%Z)].

(** [config.maxResponseTime] *)
Definition maxResponseTime : Z := 3600000.

Local Open Scope Q_scope.

(** [Math.PI], the binary64 number. *)
Definition Math_PI : Q := 884279719003555 # 281474976710656.

Record Palette := {
  name : string; background : HSL; outlier : HSL; variance : HSL
}.

(** [palettes.deutan] and [palettes.control] *)
Definition deutan : list Palette :=
  [ {| name := "green-red"; background := hsl 120 45 45;
       outlier := hsl 0 50 45; variance := hsl 15 10 8 |};
    {| name := "olive-lime"; background := hsl 50 40 42;
       outlier := hsl 85 45 42; variance := hsl 12 8 6 |};
    {| name := "brown-green"; background := hsl 20 42 44;
       outlier := hsl 140 48 42; variance := hsl 10 8 7 |};
    {| name := "teal-pink"; background := hsl 165 38 46;
       outlier := hsl 340 45 50; variance := hsl 14 10 8 |};
    {| name := "cyan-orange"; background := hsl 155 42 48;
       outlier := hsl 25 55 50; variance := hsl 12 10 7 |};
    {| name := "sage-coral"; background := hsl 100 35 50;
       outlier := hsl 10 60 52; variance := hsl 15 10 8 |} ].

Definition control : list Palette :=
  [ {| name := "blue-yellow"; background := hsl 220 55 48;
       outlier := hsl 55 75 55; variance := hsl 12 10 8 |};
    {| name := "purple-yellow"; background := hsl 275 50 45;
       outlier := hsl 50 70 55; variance := hsl 14 10 7 |};
    {| name := "navy-orange"; background := hsl 235 55 35;
       outlier := hsl 35 80 60; variance := hsl 10 10 8 |} ].

(** [noise.init(seed)]: the identity table of 256 entries, shuffled from
    the last position down with draws of the seeded generator, then
    written twice.  The exchanged positions are inside the table, as they
    are for draws in [0, 1). *)
Definition noiseInit `{Runtime} (seed : Seed) : list Z :=
  match Utils.fisherYates 255 (map Z.of_nat (seq 0 256)) (createRNG seed) with
  | Some (perm, _) => perm ++ perm
  | None => []
  end.

Record Square := {
  index : nat; row : nat; col : nat; isOutlier : bool;
  baseColor : HSL; square_variance : HSL;
  animPhase : Q; animSpeed : Q; flowDirection : Q
}.

Record Plate `{Runtime} := {
  seed : Seed; difficulty : string; type : string; subtlety : Q;
  gridSize : Z; plate_tilesPerSquare : Z; palette : Palette;
  outlierIndex : Z; squares : list Square; startTime : Q
}.

(** The [options] argument of [generatePlate]; [None] is an omitted key. *)
Record Options `{Runtime} := {
  o_difficulty : option string; o_type : option string;
  o_seed : option Seed; o_subtlety : option Q
}.

(** The body of the loop of [generatePlate] for square [i]: the outlier
    draws one number more than the other squares. *)
Definition generateSquare `{Runtime} (gridSize : Z) (palette : Palette)
  (outlierIndex : Z) (subtlety : Q) (i : nat) : Utils.Gen Square :=
  let isOutlier := (Z.of_nat i =? outlierIndex)%Z in
  let row := Z.to_nat (Z.of_nat i / gridSize) in
  let col := Z.to_nat (Z.of_nat i mod gridSize) in
  let* u1 := Utils.draw in
  let* jitter :=
    if isOutlier
    then let* u2 := Utils.draw in
         Utils.ret ((u2 - (1 # 2)) * (2 # 10) * subtlety)
    else Utils.ret 0 in
  let* u3 := Utils.draw in
  Utils.ret {| index := i; row := row; col := col; isOutlier := isOutlier;
               baseColor := if isOutlier then outlier palette
                            else background palette;
               square_variance := variance palette;
               animPhase := u1 * Math_PI * 2;
               animSpeed := 1 + jitter;
               flowDirection := u3 * Math_PI * 2 |}.

(** [generatePlate] once its seed is known. *)
Definition plateFromSeed `{Runtime} (options : Options) (seed : Seed)
  : Utils.Gen Plate :=
  let difficulty := default "medium" (o_difficulty options) in
  let type := default "deutan" (o_type options) in
  let subtlety := default 1 (o_subtlety options) in
  let gridSize := default 3%Z (gridSizes !! difficulty) in
  let tiles := default 10%Z (tilesPerSquare !! difficulty) in
  let paletteList := if decide (type = "control") then control else deutan in
  let* palette := Utils.randomPick paletteList in
  let totalSquares := (gridSize * gridSize)%Z in
  let* u := Utils.draw in
  let outlierIndex := JS.floor (u * inject_Z totalSquares) in
  let* squares :=
    Utils.forEach (generateSquare gridSize palette outlierIndex subtlety)
                  (seq 0 (Z.to_nat totalSquares)) in
  Utils.ret {| seed := seed; difficulty := difficulty; type := type;
               subtlety := subtlety; gridSize := gridSize;
               plate_tilesPerSquare := tiles; palette := palette;
               outlierIndex := outlierIndex; squares := squares;
               startTime := 0 |}.

(** [generatePlate(options)].  It overwrites the permutation table of the
    shared noise object, the first component of the state here, and reads
    the environment only for an omitted seed.  [None] is an exception. *)
Definition generatePlate `{Runtime} (options : Options)
  (world : list Z * Env) : option Plate * (list Z * Env) :=
  let '(_, env) := world in
  let '(seed, env) := match o_seed options with
                      | Some s => (s, env)
                      | None => generateSeed None env
                      end in
  (fst <$> plateFromSeed options seed (createRNG seed), (noiseInit seed, env)).

(** The canvas as [handleClick] reads it: its pixel size and its
    bounding rectangle on the page. *)
Record Canvas := {
  width : Q; height : Q;
  rect_left : Q; rect_top : Q; rect_width : Q; rect_height : Q
}.

Record ClickResult := {
  selectedIndex : option Z; correctIndex : Z; cr_isCorrect : bool;
  cr_plateType : string; cr_difficulty : string
}.

(** The hit test of [handleClick(clientX, clientY)] on a running plate;
    [None] is the null returned for a click outside the grid. *)
Definition hitTest `{Runtime} (canvas : Canvas) (plate : Plate)
  (clientX clientY : Q) : option ClickResult :=
  let x := (clientX - rect_left canvas) * (width canvas / rect_width canvas) in
  let y := (clientY - rect_top canvas) * (height canvas / rect_height canvas) in
  let squareSize := width canvas / inject_Z (gridSize plate) in
  let col := JS.floor (x / squareSize) in
  let row := JS.floor (y / squareSize) in
  if ((col <? 0) || (gridSize plate <=? col) ||
      (row <? 0) || (gridSize plate <=? row))%Z
  then None
  else
    let clickedIndex := (row * gridSize plate + col)%Z in
    Some {| selectedIndex := Some clickedIndex;
            correctIndex := outlierIndex plate;
            cr_isCorrect := (clickedIndex =? outlierIndex plate)%Z;
            cr_plateType := type plate; cr_difficulty := difficulty plate |}.

Local Open Scope Z_scope.

(** The [options] argument of [generateTestSequence]; [None] is an
    omitted key. *)
Record SequenceOptions `{Runtime} := {
  so_totalPlates : option Z; so_deutanRatio : option Q;
  so_baseSeed : option Seed; so_progressiveDifficulty : option bool
}.

(** [getDifficulty(index)] and [getSubtlety(index)] of
    [generateTestSequence]. *)
Definition getDifficulty (progressiveDifficulty : bool) (totalPlates : Z)
  (index : nat) : string :=
  if negb progressiveDifficulty then "medium"
  else
    let progress := (inject_Z (Z.of_nat index) / inject_Z totalPlates)%Q in
    if JS.Qlt_bool progress (25 # 100) then "easy"
    else if JS.Qlt_bool progress (6 # 10) then "medium"
    else "hard".

Definition getSubtlety (totalPlates : Z) (index : nat) : Q :=
  let progress := (inject_Z (Z.of_nat index) / inject_Z totalPlates)%Q in
  (1 + progress * (5 # 10))%Q.

(** The [forEach] of [generateTestSequence] from position [index] on. *)
Fixpoint generateEach `{Runtime} (baseSeed : Seed) (progressiveDifficulty : bool)
  (totalPlates : Z) (types : list string) (index : nat) (world : list Z * Env)
  : option (list Plate) * (list Z * Env) :=
  match types with
  | [] => (Some [], world)
  | type :: rest =>
    let '(perm, env) := world in
    let '(plateSeed, env) :=
      generateSeed (Some (seedText baseSeed +:+ "-plate-" +:+ pretty index)) env in
    let '(plate, world) :=
      generatePlate
        {| o_difficulty := Some (getDifficulty progressiveDifficulty totalPlates index);
           o_type := Some type; o_seed := Some plateSeed;
           o_subtlety := Some (getSubtlety totalPlates index) |} (perm, env) in
    match plate with
    | None => (None, world)
    | Some p =>
      let '(ps, world) :=
        generateEach baseSeed progressiveDifficulty totalPlates rest (S index) world in
      (cons p <$> ps, world)
    end
  end.

(** [generateTestSequence(options)] *)
Definition generateTestSequence `{Runtime} (options : SequenceOptions)
  (world : list Z * Env) : option (list Plate) * (list Z * Env) :=
  let totalPlates := default 16%Z (so_totalPlates options) in
  let deutanRatio := default (625 # 1000)%Q (so_deutanRatio options) in
  let '(perm, env) := world in
  let '(baseSeed, env) := match so_baseSeed options with
                          | Some s => (s, env)
                          | None => generateSeed None env
                          end in
  let progressiveDifficulty := default true (so_progressiveDifficulty options) in
  let deutanCount := JS.round (inject_Z totalPlates * deutanRatio) in
  let controlCount := (totalPlates - deutanCount)%Z in
  match MosaicGenerator.arrayFill deutanCount "deutan",
        MosaicGenerator.arrayFill controlCount "control" with
  | Some ds, Some cs =>
    match Utils.shuffleArray (ds ++ cs)%list (createRNG baseSeed) with
    | Some (shuffledTypes, _) =>
      generateEach baseSeed progressiveDifficulty totalPlates shuffledTypes 0
                   (perm, env)
    | None => (None, (perm, env))
    end
  | _, _ => (None, (perm, env))
  end.

(** The part of [state] that decides which clicks are taken: the
    animation frame handle and the time of the last frame only serve the
    rendering. *)
Record State `{Runtime} := {
  isRunning : bool; isPaused : bool; currentPlate : option Plate;
  state_startTime : Q
}.

(** [startPlate(plate, onTimeout)], with [now] the reading of
    [performance.now()].  The plate object is written to: the plate
    returned is the object after the call.  The animation loop it starts
    only draws. *)
Definition startPlate `{Runtime} (plate : Plate) (now : Q) (st : State)
  : Plate * State :=
  let plate :=
    {| seed := seed plate; difficulty := difficulty plate; type := type plate;
       subtlety := subtlety plate; gridSize := gridSize plate;
       plate_tilesPerSquare := plate_tilesPerSquare plate;
       palette := palette plate; outlierIndex := outlierIndex plate;
       squares := squares plate; startTime := now |} in
  (plate, {| isRunning := true; isPaused := false; currentPlate := Some plate;
             state_startTime := now |}).

(** [pause()] and [stop()] *)
Definition pause `{Runtime} (st : State) : State :=
  {| isRunning := isRunning st; isPaused := true;
     currentPlate := currentPlate st; state_startTime := state_startTime st |}.

Definition stop `{Runtime} (st : State) : State :=
  {| isRunning := false; isPaused := false; currentPlate := None;
     state_startTime := state_startTime st |}.

(** [handleClick(clientX, clientY)]: the result with its response time,
    or [None] for null; [now] is the reading of [performance.now()]. *)
Definition handleClick `{Runtime} (canvas : Canvas) (clientX clientY now : Q)
  (st : State) : option (ClickResult * Q) * State :=
  if negb (isRunning st) || isPaused st then (None, st)
  else
    match currentPlate st with
    | None => (None, st)
    | Some plate =>
      match hitTest canvas plate clientX clientY with
      | None => (None, st)
      | Some result => (Some (result, (now - state_startTime st)%Q), pause st)
      end
    end.

End AnimatedMosaic.

(** ** OutlierTestEngine (the outlier test engine source) *)

Module OutlierTestEngine.

Local Open Scope string_scope.

(** A recorded response ([responseData] of [recordResponse]). *)
Record ResponseData := {
  plateIndex : nat; plateType : string; difficulty : string;
  selectedIndex : option Z; correctIndex : Z; isCorrect : bool;
  responseTime : Q; skipped : bool; timeout : bool
}.

(** The result of [calcScore]. *)
Record Stats := { correct : Z; total : Z; score : Z }.

(** [calcScore(responseList)] inside [calculateResults]. *)
Definition calcScore (responseList : list ResponseData) : Stats :=
  let total := Z.of_nat (length responseList) in
  if (total =? 0)%Z then {| correct := 0; total := 0; score := 0 |}
  else
    let correct :=
      Z.of_nat (length (filter (fun r => isCorrect r = true) responseList)) in
    {| correct := correct; total := total;
       score := JS.round (inject_Z correct / inject_Z total * 100) |}.

(** The result of [calculateSeverity]; the three last fields are absent
    from the inconclusive result. *)
Record Severity := {
  value : Z; bucket : Bucket; description : string; confidence : string;
  performanceGap : option Z; deutanScore : option Z; controlScore : option Z
}.

(** The bucket chain of [calculateSeverity] with the value set beside
    each bucket. *)
Definition classify (gap deutanScore : Z) : Bucket * Z * string :=
  if ((gap <=? 10) && (70 <=? deutanScore))%Z then
    (none, 0,
     "No significant indicators of red-green color vision deficiency detected")
  else if ((gap <=? 25) || (60 <=? deutanScore))%Z then
    (mild, 25, "Mild indicators of red-green color confusion detected")
  else if ((gap <=? 45) || (40 <=? deutanScore))%Z then
    (moderate, 55,
     "Moderate indicators of red-green color vision deficiency detected")
  else
    (strong, 85,
     "Strong indicators of red-green color vision deficiency detected").

(** [calculateSeverity(deutanStats, controlStats)] *)
Definition calculateSeverity (deutanStats controlStats : Stats) : Severity :=
  if (score controlStats <? 50)%Z then
    {| value := 0; bucket := inconclusive;
       description :=
         "Control plate performance was too low for reliable assessment";
       confidence := "low";
       performanceGap := None; deutanScore := None; controlScore := None |}
  else
    let gap := (score controlStats - score deutanStats)%Z in
    let '(bucket, value, description) := classify gap (score deutanStats) in
    let confidence :=
      if ((5 <=? total controlStats) && (80 <=? score controlStats))%Z
      then "high"
      else if ((total controlStats <? 3) || (score controlStats <? 60))%Z
      then "low"
      else "medium" in
    {| value := value; bucket := bucket; description := description;
       confidence := confidence; performanceGap := Some gap;
       deutanScore := Some (score deutanStats);
       controlScore := Some (score controlStats) |}.

(** [calculateDifficultyBreakdown(responses)]: an entry for each level
    that has responses. *)
Definition calculateDifficultyBreakdown (responses : list ResponseData)
  : gmap string Stats :=
  foldl (fun breakdown level =>
      let levelResponses := filter (fun r => difficulty r = level) responses in
      if (0 <? length levelResponses)%nat
      then <[level := calcScore levelResponses]> breakdown
      else breakdown)
    ∅ ["easy"; "medium"; "hard"].

Record Summary := { n_skipped : nat; n_timedOut : nat; n_answered : nat }.

(** The scoring part of the object [calculateResults()] returns. *)
Record Results := {
  overall : Stats; deutan : Stats; control : Stats;
  avgResponseTime : Z; severity : Severity;
  difficultyBreakdown : gmap string Stats; summary : Summary;
  rawResponses : list ResponseData
}.

(** [calculateResults()] on the recorded responses. *)
Definition calculateResults (responses : list ResponseData) : Results :=
  let deutanResponses := filter (fun r => plateType r = "deutan") responses in
  let controlResponses := filter (fun r => plateType r = "control") responses in
  let deutanStats := calcScore deutanResponses in
  let controlStats := calcScore controlResponses in
  let overallStats := calcScore responses in
  let validResponseTimes :=
    map responseTime
        (filter (fun r => timeout r = false /\ skipped r = false) responses) in
  let avgResponseTime :=
    match validResponseTimes with
    | [] => 0%Q
    | _ => (foldl Qplus 0%Q validResponseTimes /
            inject_Z (Z.of_nat (length validResponseTimes)))%Q
    end in
  {| overall := overallStats; deutan := deutanStats; control := controlStats;
     avgResponseTime := JS.round avgResponseTime;
     severity := calculateSeverity deutanStats controlStats;
     difficultyBreakdown := calculateDifficultyBreakdown responses;
     summary :=
       {| n_skipped := length (filter (fun r => skipped r = true) responses);
          n_timedOut := length (filter (fun r => timeout r = true) responses);
          n_answered :=
            length (filter (fun r => skipped r = false /\ timeout r = false)
                           responses) |};
     rawResponses := responses |}.

(** [generatePlates()] for the mode and seed of the state, with the
    default mosaic. *)
Definition generatePlates `{Runtime} (mode : string) (seed : Seed)
  (world : list Z * Env)
  : option (list AnimatedMosaic.Plate) * (list Z * Env) :=
  let '(plateCount, deutanRatio) :=
    if decide (mode = "baseline") then (16%Z, (625 # 1000)%Q)
    else if decide (mode = "tuning") then (8%Z, (875 # 1000)%Q)
    else if decide (mode = "validation") then (12%Z, (667 # 1000)%Q)
    else (16%Z, (625 # 1000)%Q) in
  AnimatedMosaic.generateTestSequence
    {| AnimatedMosaic.so_totalPlates := Some plateCount;
       AnimatedMosaic.so_deutanRatio := Some deutanRatio;
       AnimatedMosaic.so_baseSeed := Some seed;
       AnimatedMosaic.so_progressiveDifficulty := Some (bool_decide (mode = "baseline")) |}
    world.

(** The state of the engine. *)
Record State `{Runtime} := {
  isRunning : bool; currentPlateIndex : nat;
  plates : list AnimatedMosaic.Plate; responses : list ResponseData;
  testStartTime : option Z; mode : string;
  filterParams : option (gmap string Q); seed : Seed
}.

(** The engine with its mosaic and what surrounds them: the timers set by
    [recordResponse] that have not fired yet (each of them calls
    [nextPlate]), the permutation table of the noise object, and the
    environment. *)
Record World `{Runtime} := {
  engine : State; mosaic : AnimatedMosaic.State; pending : nat;
  table : list Z; env : Env
}.

(** The calls of the callbacks, with every callback set. *)
Inductive Event `{Runtime} :=
| Progress (current total : nat)
| PlateStart (plate : AnimatedMosaic.Plate) (index : nat)
| PlateComplete (responseData : ResponseData)
| TimeoutCalled (plate : AnimatedMosaic.Plate) (index : nat)
| TestComplete (results : Results).

(** The [result] objects handed to [recordResponse]; an absent [skipped]
    or [timeout] is [false] there. *)
Record Result := {
  r_selectedIndex : option Z; r_correctIndex : Z; r_isCorrect : bool;
  r_responseTime : Q; r_plateType : string; r_difficulty : string;
  r_skipped : bool; r_timeout : bool
}.

Definition setEngine `{Runtime} (w : World) (st : State) : World :=
  {| engine := st; mosaic := mosaic w; pending := pending w;
     table := table w; env := env w |}.

Definition setMosaic `{Runtime} (w : World) (m : AnimatedMosaic.State) : World :=
  {| engine := engine w; mosaic := m; pending := pending w;
     table := table w; env := env w |}.

(** [getCurrentPlate()] *)
Definition getCurrentPlate `{Runtime} (st : State) : option AnimatedMosaic.Plate :=
  plates st !! currentPlateIndex st.

(** [complete()]; the results are those of [calculateResults] above. *)
Definition complete `{Runtime} (w : World) : World * list Event :=
  let st := engine w in
  let st := {| isRunning := false; currentPlateIndex := currentPlateIndex st;
               plates := plates st; responses := responses st;
               testStartTime := testStartTime st; mode := mode st;
               filterParams := filterParams st; seed := seed st |} in
  let w := setMosaic (setEngine w st) (AnimatedMosaic.stop (mosaic w)) in
  (w, [TestComplete (calculateResults (responses st))]).

(** [showCurrentPlate()]; [now] is the reading of [performance.now()] in
    [startPlate].  The plate in the list is the object [startPlate]
    writes to. *)
Definition showCurrentPlate `{Runtime} (now : Q) (w : World) : World * list Event :=
  let st := engine w in
  if negb (isRunning st) then (w, [])
  else
    match getCurrentPlate st with
    | None => complete w
    | Some plate =>
      let '(started, m) := AnimatedMosaic.startPlate plate now (mosaic w) in
      let st := {| isRunning := isRunning st;
                   currentPlateIndex := currentPlateIndex st;
                   plates := <[currentPlateIndex st := started]> (plates st);
                   responses := responses st;
                   testStartTime := testStartTime st; mode := mode st;
                   filterParams := filterParams st; seed := seed st |} in
      (setMosaic (setEngine w st) m,
       [Progress (currentPlateIndex st) (length (plates st));
        PlateStart plate (currentPlateIndex st)])
    end.

(** [recordResponse(result)]: the response is pushed, and the feedback
    ends in a timer that will call [nextPlate], at once when the mosaic
    has no plate and after a second when it has one. *)
Definition recordResponse `{Runtime} (result : Result) (w : World)
  : World * list Event :=
  let st := engine w in
  let responseData :=
    {| plateIndex := currentPlateIndex st; plateType := r_plateType result;
       difficulty := r_difficulty result;
       selectedIndex := r_selectedIndex result;
       correctIndex := r_correctIndex result; isCorrect := r_isCorrect result;
       responseTime := r_responseTime result;
       skipped := r_skipped result; timeout := r_timeout result |} in
  let st := {| isRunning := isRunning st;
               currentPlateIndex := currentPlateIndex st;
               plates := plates st;
               responses := (responses st ++ [responseData])%list;
               testStartTime := testStartTime st; mode := mode st;
               filterParams := filterParams st; seed := seed st |} in
  ({| engine := st; mosaic := mosaic w; pending := S (pending w);
      table := table w; env := env w |},
   [PlateComplete responseData]).

(** [handleResponse(clientX, clientY)] *)
Definition handleResponse `{Runtime} (canvas : AnimatedMosaic.Canvas)
  (clientX clientY now : Q) (w : World) : World * list Event :=
  if negb (isRunning (engine w)) then (w, [])
  else
    match AnimatedMosaic.handleClick canvas clientX clientY now (mosaic w) with
    | (None, m) => (setMosaic w m, [])
    | (Some (result, responseTime), m) =>
      recordResponse
        {| r_selectedIndex := AnimatedMosaic.selectedIndex result;
           r_correctIndex := AnimatedMosaic.correctIndex result;
           r_isCorrect := AnimatedMosaic.cr_isCorrect result;
           r_responseTime := responseTime;
           r_plateType := AnimatedMosaic.cr_plateType result;
           r_difficulty := AnimatedMosaic.cr_difficulty result;
           r_skipped := false; r_timeout := false |}
        (setMosaic w m)
    end.

(** [handleCantTell()] *)
Definition handleCantTell `{Runtime} (now : Q) (w : World) : World * list Event :=
  if negb (isRunning (engine w)) then (w, [])
  else
    match getCurrentPlate (engine w) with
    | None => (w, [])
    | Some plate =>
      recordResponse
        {| r_selectedIndex := None;
           r_correctIndex := AnimatedMosaic.outlierIndex plate;
           r_isCorrect := false;
           r_responseTime := (now - AnimatedMosaic.startTime plate)%Q;
           r_plateType := AnimatedMosaic.type plate;
           r_difficulty := AnimatedMosaic.difficulty plate;
           r_skipped := true; r_timeout := false |}
        (setMosaic w (AnimatedMosaic.pause (mosaic w)))
    end.

(** [handleTimeout()] *)
Definition handleTimeout `{Runtime} (w : World) : World * list Event :=
  if negb (isRunning (engine w)) then (w, [])
  else
    match getCurrentPlate (engine w) with
    | None => (w, [])
    | Some plate =>
      let '(w', events) :=
        recordResponse
          {| r_selectedIndex := None;
             r_correctIndex := AnimatedMosaic.outlierIndex plate;
             r_isCorrect := false;
             r_responseTime := inject_Z AnimatedMosaic.maxResponseTime;
             r_plateType := AnimatedMosaic.type plate;
             r_difficulty := AnimatedMosaic.difficulty plate;
             r_skipped := false; r_timeout := true |} w in
      (w', TimeoutCalled plate (currentPlateIndex (engine w)) :: events)
    end.

(** [nextPlate()] *)
Definition nextPlate `{Runtime} (now : Q) (w : World) : World * list Event :=
  let st := engine w in
  let st := {| isRunning := isRunning st;
               currentPlateIndex := S (currentPlateIndex st);
               plates := plates st; responses := responses st;
               testStartTime := testStartTime st; mode := mode st;
               filterParams := filterParams st; seed := seed st |} in
  let w := setEngine w st in
  if (length (plates st) <=? currentPlateIndex st)%nat then complete w
  else showCurrentPlate now w.

(** [init(options)] with the default mosaic: the mode, the filter
    parameters and a fresh seed; the other fields are left as they are. *)
Definition init `{Runtime} (mode : option string)
  (filterParams : option (gmap string Q)) (w : World) : World :=
  let st := engine w in
  let '(seed, env') := generateSeed None (env w) in
  {| engine := {| isRunning := isRunning st;
                  currentPlateIndex := currentPlateIndex st;
                  plates := plates st; responses := responses st;
                  testStartTime := testStartTime st;
                  mode := default "baseline" mode;
                  filterParams := filterParams; seed := seed |};
     mosaic := mosaic w; pending := pending w; table := table w; env := env' |}.

(** [start()]; [None] is an exception of the generator. *)
Definition start `{Runtime} (now : Q) (w : World) : option (World * list Event) :=
  let st := engine w in
  if isRunning st then Some (w, [])
  else
    match generatePlates (mode st) (seed st) (table w, env w) with
    | (None, _) => None
    | (Some generated, (table', env')) =>
      let '(testStart, env') := dateNow env' in
      let st := {| isRunning := true; currentPlateIndex := 0;
                   plates := generated; responses := [];
                   testStartTime := Some testStart; mode := mode st;
                   filterParams := filterParams st; seed := seed st |} in
      Some (showCurrentPlate now
              {| engine := st; mosaic := mosaic w; pending := pending w;
                 table := table'; env := env' |})
    end.

(** What happens to a started test: a click, the button, a timeout, or a
    timer of [recordResponse] firing. *)
Inductive Input :=
| Click (clientX clientY now : Q)
| CantTell (now : Q)
| Timeout
| TimerFires (now : Q).

Definition step `{Runtime} (canvas : AnimatedMosaic.Canvas) (i : Input) (w : World)
  : World * list Event :=
  match i with
  | Click clientX clientY now => handleResponse canvas clientX clientY now w
  | CantTell now => handleCantTell now w
  | Timeout => handleTimeout w
  | TimerFires now =>
    match pending w with
    | O => (w, [])
    | S n =>
      nextPlate now {| engine := engine w; mosaic := mosaic w; pending := n;
                       table := table w; env := env w |}
    end
  end.

Fixpoint run `{Runtime} (canvas : AnimatedMosaic.Canvas) (inputs : list Input)
  (w : World) : World * list Event :=
  match inputs with
  | [] => (w, [])
  | i :: rest =>
    let '(w, events) := step canvas i w in
    let '(w, events') := run canvas rest w in
    (w, (events ++ events')%list)
  end.

(** The final results a log of events reports. *)
Definition testResults `{Runtime} (events : list Event) : list Results :=
  omap (fun e => match e with TestComplete r => Some r | _ => None end) events.

(** The response [rd] fits the plate at its index, and its flags fit one
    of the three ways a response is made. *)
Definition wellFormed `{Runtime} (plates : list AnimatedMosaic.Plate)
  (rd : ResponseData) : Prop :=
  exists plate, plates !! plateIndex rd = Some plate /\
    plateType rd = AnimatedMosaic.type plate /\
    difficulty rd = AnimatedMosaic.difficulty plate /\
    correctIndex rd = AnimatedMosaic.outlierIndex plate /\
    (skipped rd = false \/ timeout rd = false) /\
    (isCorrect rd = true ->
     skipped rd = false /\ timeout rd = false /\
     selectedIndex rd = Some (correctIndex rd)).

(** The engine, its mosaic and the timers are in step. *)
Definition consistent `{Runtime} (w : World) : Prop :=
  let st := engine w in
  Forall (fun p => (AnimatedMosaic.type p = "deutan" \/
                    AnimatedMosaic.type p = "control") /\
                   0 < AnimatedMosaic.gridSize p) (plates st) /\
  Forall (wellFormed (plates st)) (responses st) /\
  (isRunning st = true ->
   (currentPlateIndex st < length (plates st))%nat /\
   AnimatedMosaic.isRunning (mosaic w) = true /\
   AnimatedMosaic.currentPlate (mosaic w) = plates st !! currentPlateIndex st /\
   length (responses st) = (currentPlateIndex st + pending w)%nat).

(** A response that is taken when a plate is shown: a click inside the
    grid, the button, or a timeout. *)
Definition lands (canvas : AnimatedMosaic.Canvas) (i : Input) : Prop :=
  match i with
  | Click clientX clientY _ =>
    let x := ((clientX - AnimatedMosaic.rect_left canvas) *
              (AnimatedMosaic.width canvas / AnimatedMosaic.rect_width canvas))%Q in
    let y := ((clientY - AnimatedMosaic.rect_top canvas) *
              (AnimatedMosaic.height canvas / AnimatedMosaic.rect_height canvas))%Q in
    (0 <= x /\ x < AnimatedMosaic.width canvas /\
     0 <= y /\ y < AnimatedMosaic.width canvas)%Q
  | CantTell _ | Timeout => True
  | TimerFires _ => False
  end.

(** Responses given one at a time, each followed by its timer. *)
Definition rounds (l : list (Input * Q)) : list Input :=
  flat_map (fun r => [r.1; TimerFires r.2]) l.

(** A test of [n] plates in step after [k] rounds: one response for each
    plate shown so far, and no timer waiting. *)
Definition inStep `{Runtime} (n k : nat) (w : World) : Prop :=
  let st := engine w in
  consistent w /\ length (plates st) = n /\
  currentPlateIndex st = (k `min` n)%nat /\
  length (responses st) = (k `min` n)%nat /\
  pending w = 0%nat /\
  isRunning st = bool_decide (k < n)%nat /\
  (forall i rd, responses st !! i = Some rd -> plateIndex rd = i) /\
  (isRunning st = true -> AnimatedMosaic.isPaused (mosaic w) = false).

(** What a step keeps, and what it reports. *)
Definition keeps `{Runtime} (w w' : World) (events : list Event) : Prop :=
  consistent w' /\
  length (plates (engine w')) = length (plates (engine w)) /\
  (isRunning (engine w) = false ->
   isRunning (engine w') = false /\
   responses (engine w') = responses (engine w) /\
   plates (engine w') = plates (engine w)) /\
  Forall (fun r => r = calculateResults (responses (engine w')))
         (testResults events) /\
  (testResults events <> [] -> isRunning (engine w') = false) /\
  (isRunning (engine w) = true -> isRunning (engine w') = false ->
   testResults events <> []).

End OutlierTestEngine.

(** ** The score formulas in binary64

    The engines compute on IEEE 754 doubles.  Here the two formulas whose
    result is rounded or compared with a threshold are evaluated on
    primitive floats, to be compared with the exact model above on the
    scores a session can produce. *)

Module Binary64.

(** [Math.floor] of a finite double. *)
Definition floor (x : float) : Z :=
  match Prim2SF x with
  | S754_finite s m e =>
    if 0 <=? e then (if s then - Z.shiftl (Z.pos m) e else Z.shiftl (Z.pos m) e)
    else if s then - Z.shiftl (Z.pos m + (2 ^ (- e) - 1)) e
    else Z.shiftl (Z.pos m) e
  | _ => 0
  end.

(** [Math.round] *)
Definition round (x : float) : Z := floor (x + 0.5)%float.

(** A small non-negative integer as a double. *)
Definition ofZ (z : Z) : float := PrimFloat.of_uint63 (Uint63.of_Z z).

(** [Math.round((correct / total) * 100)] *)
Definition percentage (correct total : Z) : Z :=
  round ((ofZ correct / ofZ total) * 100)%float.

(** The bucket of [TestEngine.estimateSeverity] on integer scores. *)
Definition estimateBucket (deutanScore controlScore : Z) : Bucket :=
  let d := ofZ deutanScore in
  let c := ofZ controlScore in
  let adjustedScore :=
    if (PrimFloat.ltb c 100 && PrimFloat.ltb 0 c)%bool
    then (let a := (d / c * 100)%float in
          if PrimFloat.leb a 100 then a else 100%float)
    else d in
  let severityValue := (100 - adjustedScore)%float in
  if PrimFloat.leb severityValue 15 then none
  else if PrimFloat.leb severityValue 35 then mild
  else if PrimFloat.leb severityValue 60 then moderate
  else strong.

(** The pairs [(correct, total)] with [correct <= total <= bound] and
    [0 < total]. *)
Definition tallies (bound : nat) : list (Z * Z) :=
  flat_map (fun t => map (fun c => (Z.of_nat c, Z.of_nat t)) (seq 0 (S t)))
           (seq 1 bound).

(** The pairs of integer scores from 0 to 100. *)
Definition scorePairs : list (Z * Z) :=
  flat_map (fun c => map (fun d => (Z.of_nat d, Z.of_nat c)) (seq 0 101))
           (seq 0 101).

End Binary64.

(** ** TuningEngine (the tuning engine source) *)

Module TuningEngine.

Local Open Scope string_scope.
Local Open Scope Z_scope.

Import ColorFilter.

(** [config]; the defaults of the source are in [config] below. *)
Record Config := {
  maxRounds : Z; platesPerRound : Z;
  improvementThreshold : Z; maxNoImprovement : Z
}.

Definition config : Config :=
  {| maxRounds := 5; platesPerRound := 5;
     improvementThreshold := 5; maxNoImprovement := 2 |}.

Record ResponseData := {
  rd_plateIndex : nat; plateType : string; targetValue : string;
  userResponse : Answer; isCorrect : bool; responseTime : Z
}.

Record RoundResult := {
  round : Z; params : Params; score : Z; correct : Z; total : Z;
  responses : list ResponseData
}.

(** The object [complete()] returns.  [improvement] is absent when no
    baseline score was ever set. *)
Record TuningResult := {
  success : bool; rounds : Z; r_bestParams : option Params;
  r_bestScore : Z; r_baselineScore : option Z; improvement : option Z;
  r_history : list RoundResult
}.

(** The callbacks, as the record of what the engine reports. *)
Inductive Event `{Runtime} :=
| RoundStart (round maxRounds : Z) (params : option Params)
| ParamsUpdate (params : option Params)
| PlateReady (plate : MosaicGenerator.Plate) (index total : nat)
| PlateComplete (response : ResponseData)
| RoundComplete (result : RoundResult) (bestScore : Z)
| TuningComplete (result : TuningResult).

(** [state].  The parameter sets are null, and the stall counter and the
    baseline score undefined, until [init] sets them. *)
Record State `{Runtime} := {
  isRunning : bool; currentRound : Z; st_maxRounds : Z;
  currentParams : option Params; bestParams : option Params;
  bestScore : Z; baselineScore : option Z;
  history : list RoundResult; noImprovementCount : option Z;
  plateIndex : nat; currentPlates : list MosaicGenerator.Plate;
  plateResponses : list ResponseData; plateStartTime : option Z
}.

(** The [state] the object literal starts with. *)
Definition initialState `{Runtime} : State :=
  {| isRunning := false; currentRound := 0; st_maxRounds := 5;
     currentParams := None; bestParams := None; bestScore := 0;
     baselineScore := None; history := []; noImprovementCount := None;
     plateIndex := 0; currentPlates := []; plateResponses := [];
     plateStartTime := None |}.

(** The [options] argument of [init]. *)
Record InitOptions := {
  baselineSeverity : option string; io_baselineScore : option Z
}.

(** [init(options)] *)
Definition init `{Runtime} (cfg : Config) (options : InitOptions) : State :=
  let severity := default "moderate" (baselineSeverity options) in
  let baseline := default 50 (io_baselineScore options) in
  let initialParams := getInitialParams severity in
  {| isRunning := false; currentRound := 0; st_maxRounds := maxRounds cfg;
     currentParams := Some initialParams; bestParams := Some initialParams;
     bestScore := baseline; baselineScore := Some baseline;
     history := []; noImprovementCount := Some 0;
     plateIndex := 0; currentPlates := []; plateResponses := [];
     plateStartTime := None |}.

(** [shouldContinue()]; an undefined stall counter fails its comparison. *)
Definition shouldContinue `{Runtime} (cfg : Config) (st : State) : bool :=
  if st_maxRounds st <=? currentRound st then false
  else if 100 <=? bestScore st then false
  else if match noImprovementCount st with
          | Some n => maxNoImprovement cfg <=? n
          | None => false
          end then false
  else true.

(** [history.some(h => ColorFilter.similarity(h.params, n) > threshold)] *)
Definition explored (history : list RoundResult) (threshold : Q) (n : Params)
  : bool :=
  existsb (fun h => match similarity (params h) n with
                    | Some s => JS.Qlt_bool threshold s
                    | None => false
                    end) history.

(** [Utils.randomPick(array)] with the default generator; [None] is the
    undefined element of an empty array. *)
Definition pickRandom `{Runtime} {A} (l : list A) (env : Env) : option A * Env :=
  let '(u, env) := mathRandom env in (Utils.pickAt l u, env).

(** [exploreNewDirection(baseParams)]: every declared parameter is moved
    by a random offset of at most one step and clamped; one number is
    drawn for each declared parameter.  On a parameter that [baseParams]
    leaves undefined the source computes with undefined and stores a
    value that is not a number; the numbers of this model have no such
    value, and the parameter stays undefined here.  From [init] on the
    current parameters define all five ([invariant] below). *)
Definition exploreNewDirection `{Runtime} (baseParams : Params) (env : Env)
  : Params * Env :=
  foldl (fun acc entry =>
      let '(newParams, env) := acc : Params * Env in
      let '(param, range) := entry : string * Range in
      let '(u, env) := mathRandom env in
      let perturbation := ((u - (1 # 2)) * r_step range * 2)%Q in
      (match newParams !! param with
       | Some v =>
         <[param := Utils.clamp (v + perturbation) (r_min range) (r_max range)]>
           newParams
       | None => newParams
       end, env))
    (baseParams, env) paramRanges.

(** The choice of [adjustParameters] before the final normalization;
    [None] is a value on which the normalization throws. *)
Definition chooseNext `{Runtime} (st : State) (lastRound : RoundResult)
  (env : Env) : option Params * Env :=
  if score lastRound <? bestScore st then
    match bestParams st with
    | None => (None, env)
    | Some best =>
      let neighbors := generateNeighbors best 1 in
      let unexplored :=
        filter (fun n => explored (history st) (95 # 100) n = false) neighbors in
      if (0 <? length unexplored)%nat then pickRandom unexplored env
      else pickRandom (generateNeighbors best (1 # 2)) env
    end
  else
    match currentParams st with
    | None => (None, env)
    | Some current =>
      let neighbors := generateNeighbors current 1 in
      let unexplored :=
        filter (fun n => explored (history st) (9 # 10) n = false) neighbors in
      if (0 <? length unexplored)%nat then pickRandom unexplored env
      else let '(p, env) := exploreNewDirection current env in (Some p, env)
    end.

(** [adjustParameters()] *)
Definition adjustParameters `{Runtime} (st : State) (env : Env)
  : Completion (State * Env) :=
  match last (history st) with
  | None => Thrown
  | Some lastRound =>
    match chooseNext st lastRound env with
    | (None, _) => Thrown
    | (Some chosen, env) =>
      Normal ({| isRunning := isRunning st; currentRound := currentRound st;
                 st_maxRounds := st_maxRounds st;
                 currentParams := Some (normalizeParams chosen);
                 bestParams := bestParams st; bestScore := bestScore st;
                 baselineScore := baselineScore st; history := history st;
                 noImprovementCount := noImprovementCount st;
                 plateIndex := plateIndex st;
                 currentPlates := currentPlates st;
                 plateResponses := plateResponses st;
                 plateStartTime := plateStartTime st |}, env)
    end
  end.

(** What a method leaves behind: the state, the reported events in
    order, and the environment. *)
Definition Step `{Runtime} : Type := State * list Event * Env.

(** [complete()] *)
Definition complete `{Runtime} (st : State) (env : Env) : Step :=
  ({| isRunning := false; currentRound := currentRound st;
      st_maxRounds := st_maxRounds st; currentParams := currentParams st;
      bestParams := bestParams st; bestScore := bestScore st;
      baselineScore := baselineScore st; history := history st;
      noImprovementCount := noImprovementCount st;
      plateIndex := plateIndex st; currentPlates := currentPlates st;
      plateResponses := plateResponses st;
      plateStartTime := plateStartTime st |},
   [TuningComplete
      {| success := true; rounds := currentRound st;
         r_bestParams := bestParams st; r_bestScore := bestScore st;
         r_baselineScore := baselineScore st;
         improvement := (fun b => bestScore st - b) <$> baselineScore st;
         r_history := history st |}],
   env).

(** The three methods [completeRound], [startRound] and [showCurrentPlate]
    call each other.  [showCurrentPlate] and [startRound] are written over
    the [completeRound] they call; [completeRoundFuel] closes the loop.
    The outer [None] means that the fuel ran out, which
    [completeRound_total] below excludes. *)
Definition showCurrentPlateWith `{Runtime}
  (completeRound : State -> Env -> option (Completion Step))
  (st : State) (env : Env) : option (Completion Step) :=
  match currentPlates st !! plateIndex st with
  | None => completeRound st env
  | Some plate =>
    let '(now, env) := dateNow env in
    Some (Normal
      ({| isRunning := isRunning st; currentRound := currentRound st;
          st_maxRounds := st_maxRounds st; currentParams := currentParams st;
          bestParams := bestParams st; bestScore := bestScore st;
          baselineScore := baselineScore st; history := history st;
          noImprovementCount := noImprovementCount st;
          plateIndex := plateIndex st; currentPlates := currentPlates st;
          plateResponses := plateResponses st;
          plateStartTime := Some now |},
       [PlateReady plate (plateIndex st) (length (currentPlates st))], env))
  end.

(** Events reported before a nested call come first. *)
Definition after `{Runtime} (events : list Event)
  (r : option (Completion Step)) : option (Completion Step) :=
  match r with
  | Some (Normal (st, events', env)) => Some (Normal (st, (events ++ events')%list, env))
  | other => other
  end.

Definition startRoundWith `{Runtime}
  (completeRound : State -> Env -> option (Completion Step))
  (cfg : Config) (st : State) (env : Env) : option (Completion Step) :=
  let round := currentRound st + 1 in
  let '(seed, env) := generateSeed (Some ("round-" +:+ pretty round)) env in
  let '(generated, env) :=
    MosaicGenerator.generateTuningSequence
      {| MosaicGenerator.so_plateCount := Some (platesPerRound cfg);
         MosaicGenerator.so_deutanRatio := None;
         MosaicGenerator.so_seed := Some seed;
         MosaicGenerator.so_difficulty := None;
         MosaicGenerator.so_filterParams := currentParams st |} env in
  match generated with
  | None => Some Thrown
  | Some plates =>
    let st :=
      {| isRunning := isRunning st; currentRound := round;
         st_maxRounds := st_maxRounds st; currentParams := currentParams st;
         bestParams := bestParams st; bestScore := bestScore st;
         baselineScore := baselineScore st; history := history st;
         noImprovementCount := noImprovementCount st;
         plateIndex := 0; currentPlates := plates; plateResponses := [];
         plateStartTime := plateStartTime st |} in
    after [RoundStart round (st_maxRounds st) (currentParams st);
           ParamsUpdate (currentParams st)]
          (showCurrentPlateWith completeRound st env)
  end.

(** The bookkeeping of [completeRound()] up to the decision: the round is
    scored and appended to the history, and the best score, the best
    parameters and the stall counter are updated. *)
Definition scoreRound `{Runtime} (st : State) : State * RoundResult :=
  let correct :=
    Z.of_nat (length (filter (fun r => isCorrect r = true) (plateResponses st))) in
  let total := Z.of_nat (length (plateResponses st)) in
  let score := Utils.percentage correct total in
  let roundResult :=
    {| round := currentRound st; params := default ∅ (currentParams st);
       score := score; correct := correct; total := total;
       responses := plateResponses st |} in
  let improved := bestScore st <? score in
  ({| isRunning := isRunning st; currentRound := currentRound st;
      st_maxRounds := st_maxRounds st; currentParams := currentParams st;
      bestParams := if improved then Some (default ∅ (currentParams st))
                    else bestParams st;
      bestScore := if improved then score else bestScore st;
      baselineScore := baselineScore st;
      history := (history st ++ [roundResult])%list;
      noImprovementCount :=
        if improved then Some 0 else Z.succ <$> noImprovementCount st;
      plateIndex := plateIndex st; currentPlates := currentPlates st;
      plateResponses := plateResponses st;
      plateStartTime := plateStartTime st |}, roundResult).

Fixpoint completeRoundFuel `{Runtime} (fuel : nat) (cfg : Config)
  (st : State) (env : Env) : option (Completion Step) :=
  let '(st, roundResult) := scoreRound st in
  after [RoundComplete roundResult (bestScore st)]
    (if shouldContinue cfg st then
       match adjustParameters st env with
       | Thrown => Some Thrown
       | Normal (st, env) =>
         startRoundWith
           (match fuel with
            | O => fun _ _ => None
            | S fuel' => completeRoundFuel fuel' cfg
            end) cfg st env
       end
     else Some (Normal (complete st env))).

(** Rounds that may still be started from a state. *)
Definition roundsLeft `{Runtime} (st : State) : nat :=
  Z.to_nat (st_maxRounds st - currentRound st).

(** [completeRound()], [showCurrentPlate()] and [startRound()] *)
Definition completeRound `{Runtime} (cfg : Config) (st : State) (env : Env)
  : option (Completion Step) :=
  completeRoundFuel (roundsLeft st) cfg st env.

Definition showCurrentPlate `{Runtime} (cfg : Config) (st : State) (env : Env)
  : option (Completion Step) :=
  showCurrentPlateWith (completeRound cfg) st env.

Definition startRound `{Runtime} (cfg : Config) (st : State) (env : Env)
  : option (Completion Step) :=
  startRoundWith (completeRound cfg) cfg st env.

(** [start()] *)
Definition start `{Runtime} (cfg : Config) (st : State) (env : Env)
  : option (Completion Step) :=
  if isRunning st then Some (Normal (st, [], env))
  else
    startRound cfg
      {| isRunning := true; currentRound := currentRound st;
         st_maxRounds := st_maxRounds st; currentParams := currentParams st;
         bestParams := bestParams st; bestScore := bestScore st;
         baselineScore := baselineScore st; history := history st;
         noImprovementCount := noImprovementCount st;
         plateIndex := plateIndex st; currentPlates := currentPlates st;
         plateResponses := plateResponses st;
         plateStartTime := plateStartTime st |} env.

(** [getCurrentPlate()] *)
Definition getCurrentPlate `{Runtime} (st : State)
  : option MosaicGenerator.Plate :=
  currentPlates st !! plateIndex st.

(** [recordResponse(response)] *)
Definition recordResponse `{Runtime} (cfg : Config) (response : Answer)
  (st : State) (env : Env) : option (Completion Step) :=
  match getCurrentPlate st with
  | None => Some (Normal (st, [], env))
  | Some plate =>
    let '(now, env) := dateNow env in
    let responseTime := now - default 0 (plateStartTime st) in
    let targetValue :=
      MosaicGenerator.t_value (MosaicGenerator.plate_target plate) in
    let responseData :=
      {| rd_plateIndex := plateIndex st;
         plateType := MosaicGenerator.type plate;
         targetValue := targetValue; userResponse := response;
         isCorrect := bool_decide (response = Some targetValue);
         responseTime := responseTime |} in
    let st :=
      {| isRunning := isRunning st; currentRound := currentRound st;
         st_maxRounds := st_maxRounds st; currentParams := currentParams st;
         bestParams := bestParams st; bestScore := bestScore st;
         baselineScore := baselineScore st; history := history st;
         noImprovementCount := noImprovementCount st;
         plateIndex := S (plateIndex st); currentPlates := currentPlates st;
         plateResponses := (plateResponses st ++ [responseData])%list;
         plateStartTime := plateStartTime st |} in
    after [PlateComplete responseData]
      (if (length (currentPlates st) <=? plateIndex st)%nat
       then completeRound cfg st env
       else showCurrentPlate cfg st env)
  end.

(** [skipPlate()] *)
Definition skipPlate `{Runtime} (cfg : Config) (st : State) (env : Env)
  : option (Completion Step) :=
  recordResponse cfg (Some "none") st env.

(** [abort()] *)
Definition abort `{Runtime} (st : State) : State :=
  {| isRunning := false; currentRound := currentRound st;
     st_maxRounds := st_maxRounds st; currentParams := currentParams st;
     bestParams := bestParams st; bestScore := bestScore st;
     baselineScore := baselineScore st; history := history st;
     noImprovementCount := noImprovementCount st;
     plateIndex := plateIndex st; currentPlates := currentPlates st;
     plateResponses := plateResponses st;
     plateStartTime := plateStartTime st |}.

(** The responses of the subject fed to a started tuner one by one. *)
Fixpoint feed `{Runtime} (cfg : Config) (answers : list Answer)
  (st : State) (env : Env) : option (Completion Step) :=
  match answers with
  | [] => Some (Normal (st, [], env))
  | a :: rest =>
    match recordResponse cfg a st env with
    | Some (Normal (st, events, env)) => after events (feed cfg rest st env)
    | other => other
    end
  end.

(** A tuning run as the application drives it: [init], [start], then the
    responses. *)
Definition run `{Runtime} (cfg : Config) (options : InitOptions)
  (answers : list Answer) (env : Env) : option (Completion Step) :=
  match start cfg (init cfg options) env with
  | Some (Normal (st, events, env)) => after events (feed cfg answers st env)
  | other => other
  end.

(** The rounds a log of events shows as started. *)
Definition isRoundStart `{Runtime} (e : Event) : bool :=
  match e with
  | RoundStart _ _ _ => true
  | _ => false
  end.

Definition roundsStarted `{Runtime} (events : list Event) : Z :=
  Z.of_nat (length (List.filter isRoundStart events)).

(** The stall counter as a number; it is defined from [init] on. *)
Definition stall `{Runtime} (st : State) : Z := default 0 (noImprovementCount st).

(** What holds of the tuner from [init] on, between two calls of its
    methods in a run.  A running tuner is inside a round and waits for the
    response to a plate; a tuner that is not running has no current plate. *)
Definition invariant `{Runtime} (cfg : Config) (st : State) : Prop :=
  st_maxRounds st = maxRounds cfg /\
  0 <= currentRound st <= maxRounds cfg /\
  Z.of_nat (length (history st)) =
    (if isRunning st then currentRound st - 1 else currentRound st) /\
  (exists p, currentParams st = Some p /\ in_ranges p) /\
  (exists p, bestParams st = Some p /\ in_ranges p) /\
  Forall (fun h => in_ranges (params h)) (history st) /\
  (exists n, noImprovementCount st = Some n) /\
  (isRunning st = true ->
     1 <= currentRound st /\
     (plateIndex st < length (currentPlates st))%nat /\
     length (currentPlates st) = Z.to_nat (platesPerRound cfg) /\
     (history st <> [] ->
      bestScore st < 100 /\ stall st < maxNoImprovement cfg)) /\
  (isRunning st = false ->
     getCurrentPlate st = None /\
     (history st <> [] ->
      maxRounds cfg <= currentRound st \/ 100 <= bestScore st \/
      maxNoImprovement cfg <= stall st)).

(** What holds when [completeRound] is entered in a run: the tuner is
    running, the plates of the round, of which there is at least one, are
    used up, and the round is not yet in the history. *)
Definition roundOver `{Runtime} (cfg : Config) (st : State) : Prop :=
  st_maxRounds st = maxRounds cfg /\
  1 <= currentRound st <= maxRounds cfg /\
  isRunning st = true /\
  Z.of_nat (length (history st)) = currentRound st - 1 /\
  (exists p, currentParams st = Some p /\ in_ranges p) /\
  (exists p, bestParams st = Some p /\ in_ranges p) /\
  Forall (fun h => in_ranges (params h)) (history st) /\
  (exists n, noImprovementCount st = Some n) /\
  (length (currentPlates st) <= plateIndex st)%nat /\
  1 <= platesPerRound cfg.

(** The responses a running tuner can still take before it must stop:
    the plates left in this round and all plates of the rounds left. *)
Definition responsesLeft `{Runtime} (cfg : Config) (st : State) : Z :=
  if isRunning st
  then (maxRounds cfg - currentRound st) * platesPerRound cfg +
       (Z.of_nat (length (currentPlates st)) - Z.of_nat (plateIndex st))
  else 0.

(** The best score after a history of rounds, from a baseline. *)
Definition bestOf (baseline : Z) (history : list RoundResult) : Z :=
  foldl (fun best h => Z.max best (score h)) baseline history.

(** A round as [completeRound] books it: every plate of the round has a
    response, and the score is the percentage of the correct ones. *)
Definition bookedRound (cfg : Config) (h : RoundResult) : Prop :=
  total h = platesPerRound cfg /\
  Z.of_nat (length (responses h)) = total h /\
  correct h = Z.of_nat (length (filter (fun r => isCorrect r = true) (responses h))) /\
  score h = Utils.percentage (correct h) (total h).

(** The books of the tuner: the rounds of the history are numbered from
    1, each is booked, the best score is the highest of the baseline and
    the round scores, and the best parameters are those of a round that
    reached it, or of the first round when no round beat the baseline. *)
Definition books `{Runtime} (cfg : Config) (st : State) : Prop :=
  (forall i h, history st !! i = Some h -> round h = Z.of_nat (S i)) /\
  Forall (bookedRound cfg) (history st) /\
  exists b, baselineScore st = Some b /\
    bestScore st = bestOf b (history st) /\
    match history st with
    | [] => bestParams st = currentParams st
    | h0 :: _ =>
      (bestScore st = b /\ bestParams st = Some (params h0)) \/
      (b < bestScore st /\
       exists h, In h (history st) /\ bestParams st = Some (params h) /\
                 score h = bestScore st)
    end.

Definition ledger `{Runtime} (cfg : Config) (st : State) : Prop :=
  books cfg st /\
  (isRunning st = true -> length (plateResponses st) = plateIndex st).

(** The round results and the final results a log of events reports. *)
Definition roundResults `{Runtime} (events : list Event) : list RoundResult :=
  omap (fun e => match e with RoundComplete r _ => Some r | _ => None end) events.

Definition tuningResults `{Runtime} (events : list Event) : list TuningResult :=
  omap (fun e => match e with TuningComplete r => Some r | _ => None end) events.

(** The final results [rs] reported so far fit the state: none while the
    tuner runs, and one, which shows the state, once it has stopped. *)
Definition reported `{Runtime} (st : State) (rs : list TuningResult) : Prop :=
  match rs with
  | [] => isRunning st = true
  | [r] =>
    isRunning st = false /\ success r = true /\ rounds r = currentRound st /\
    r_bestParams r = bestParams st /\ r_bestScore r = bestScore st /\
    r_baselineScore r = baselineScore st /\ r_history r = history st /\
    improvement r = (fun b => bestScore st - b) <$> baselineScore st
  | _ => False
  end.

End TuningEngine.

(** ** An example runtime

    A concrete runtime on which the engines can be run: a linear
    congruential generator, a counter for the clock, and the usual
    HSL conversions in exact arithmetic. *)

Module Example.

Local Open Scope Q_scope.
Local Open Scope string_scope.

Definition modulus : Z := 2147483648.

Definition lcg (g : Z) : Q * Z :=
  let g' := ((g * 1103515245 + 12345) mod modulus)%Z in
  (Qmake g' 2147483648, g').

Definition hashString (s : string) : Z :=
  foldl (fun h c => ((h * 31 + Z.of_N (Ascii.N_of_ascii c)) mod modulus)%Z)
        7%Z (String.list_ascii_of_string s).

Definition exactRgbToHsl (r g b : Q) : Q * Q * Q :=
  let r := r / 255 in
  let g := g / 255 in
  let b := b / 255 in
  let mx := JS.max r (JS.max g b) in
  let mn := JS.min r (JS.min g b) in
  let l := (mx + mn) / 2 in
  if Qeq_bool mx mn then (0, 0, l * 100)
  else
    let d := mx - mn in
    let s := if JS.Qlt_bool (1 # 2) l then d / (2 - mx - mn) else d / (mx + mn) in
    let h :=
      if Qeq_bool mx r then (g - b) / d + (if JS.Qlt_bool g b then 6 else 0)
      else if Qeq_bool mx g then (b - r) / d + 2
      else (r - g) / d + 4 in
    (h / 6 * 360, s * 100, l * 100).

Definition hue2rgb (p q t : Q) : Q :=
  let t := if JS.Qlt_bool t 0 then t + 1 else t in
  let t := if JS.Qlt_bool 1 t then t - 1 else t in
  if JS.Qlt_bool t (1 # 6) then p + (q - p) * 6 * t
  else if JS.Qlt_bool t (1 # 2) then q
  else if JS.Qlt_bool t (2 # 3) then p + (q - p) * ((2 # 3) - t) * 6
  else p.

Definition exactHslToRgb (h s l : Q) : Q * Q * Q :=
  let h := h / 360 in
  let s := s / 100 in
  let l := l / 100 in
  if Qeq_bool s 0 then
    let v := inject_Z (JS.round (l * 255)) in (v, v, v)
  else
    let q := if JS.Qlt_bool l (1 # 2) then l * (1 + s) else l + s - l * s in
    let p := 2 * l - q in
    (inject_Z (JS.round (hue2rgb p q (h + (1 # 3)) * 255)),
     inject_Z (JS.round (hue2rgb p q h * 255)),
     inject_Z (JS.round (hue2rgb p q (h - (1 # 3)) * 255))).

Definition cssColor (r g b : Q) : string :=
  "rgb(" +:+ pretty (JS.round r) +:+ "," +:+ pretty (JS.round g) +:+ ","
         +:+ pretty (JS.round b) +:+ ")".

#[export] Instance runtime : Runtime := {|
  Seed := Z;
  RngState := Z;
  createRNG := fun s => (s mod modulus)%Z;
  rngNext := lcg;
  Env := Z;
  mathRandom := fun e => (Qmake ((e * 7 + 3) mod 10) 10, (e + 1)%Z);
  dateNow := fun e => (e, (e + 1)%Z);
  generateSeed := fun prefix e =>
    (match prefix with Some s => hashString s | None => e end, (e + 1)%Z);
  seedText := fun s => pretty s;
  rgbToHsl := exactRgbToHsl;
  hslToRgb := exactHslToRgb;
  rgbToHex := cssColor
|}.

(** Sample requests: a hard control plate for the animated generator and
    an easy control shape for the tile generator, both from seed 42. *)
Definition animatedRequest : AnimatedMosaic.Options :=
  {| AnimatedMosaic.o_difficulty := Some "hard";
     AnimatedMosaic.o_type := Some "control";
     AnimatedMosaic.o_seed := Some 42%Z;
     AnimatedMosaic.o_subtlety := None |}.

Definition mosaicRequest : MosaicGenerator.Options :=
  {| MosaicGenerator.o_size := None;
     MosaicGenerator.o_type := Some "control";
     MosaicGenerator.o_seed := Some 42%Z;
     MosaicGenerator.o_difficulty := Some "easy";
     MosaicGenerator.o_targetType := Some "shape";
     MosaicGenerator.o_filterParams := None |}.

(** A plate with the target 7 and no tiles, and a test engine that holds
    it and has not been started. *)
Definition plate7 : MosaicGenerator.Plate :=
  {| MosaicGenerator.seed := 1%Z; MosaicGenerator.size := 400;
     MosaicGenerator.tileCount := 14; MosaicGenerator.tileSize := 28;
     MosaicGenerator.type := "control"; MosaicGenerator.difficulty := "medium";
     MosaicGenerator.palette :=
       {| MosaicGenerator.background := []; MosaicGenerator.target := [] |};
     MosaicGenerator.plate_target :=
       {| MosaicGenerator.t_type := "number"; MosaicGenerator.t_value := "7" |};
     MosaicGenerator.filterParams := None; MosaicGenerator.tiles := [] |}.

Definition idleWithPlate : TestEngine.State :=
  {| TestEngine.isRunning := false; TestEngine.currentPlateIndex := 0;
     TestEngine.plates := [plate7]; TestEngine.responses := [];
     TestEngine.startTime := None; TestEngine.plateStartTime := None;
     TestEngine.filterParams := None; TestEngine.mode := "baseline";
     TestEngine.seed := Some 1%Z; TestEngine.timer := false |}.

(** A tuner with three rounds of one plate, and the options of a tuning
    run after a mild baseline with a confusion score of 40. *)
Definition quickConfig : TuningEngine.Config :=
  {| TuningEngine.maxRounds := 3; TuningEngine.platesPerRound := 1;
     TuningEngine.improvementThreshold := 5; TuningEngine.maxNoImprovement := 2 |}.

Definition tuningOptions : TuningEngine.InitOptions :=
  {| TuningEngine.baselineSeverity := Some "mild";
     TuningEngine.io_baselineScore := Some 40%Z |}.


(** A square canvas of 400 pixels shown at its own size at the origin of
    the page. *)
Definition canvas : AnimatedMosaic.Canvas :=
  {| AnimatedMosaic.width := 400; AnimatedMosaic.height := 400;
     AnimatedMosaic.rect_left := 0; AnimatedMosaic.rect_top := 0;
     AnimatedMosaic.rect_width := 400; AnimatedMosaic.rect_height := 400 |}.

(** Two responses of an outlier test: a correct click on an easy
    confusion plate and a skipped medium control plate. *)
Definition outlierResponses : list OutlierTestEngine.ResponseData :=
  [ {| OutlierTestEngine.plateIndex := 0; OutlierTestEngine.plateType := "deutan";
       OutlierTestEngine.difficulty := "easy";
       OutlierTestEngine.selectedIndex := Some 2%Z;
       OutlierTestEngine.correctIndex := 2%Z; OutlierTestEngine.isCorrect := true;
       OutlierTestEngine.responseTime := 1500; OutlierTestEngine.skipped := false;
       OutlierTestEngine.timeout := false |};
    {| OutlierTestEngine.plateIndex := 1; OutlierTestEngine.plateType := "control";
       OutlierTestEngine.difficulty := "medium";
       OutlierTestEngine.selectedIndex := None;
       OutlierTestEngine.correctIndex := 5%Z; OutlierTestEngine.isCorrect := false;
       OutlierTestEngine.responseTime := 2500; OutlierTestEngine.skipped := true;
       OutlierTestEngine.timeout := false |} ].


(** An outlier test engine in tuning mode that has not been started, with
    an idle mosaic and no timer waiting. *)
Definition outlierWorld : OutlierTestEngine.World :=
  {| OutlierTestEngine.engine :=
       {| OutlierTestEngine.isRunning := false;
          OutlierTestEngine.currentPlateIndex := 0;
          OutlierTestEngine.plates := []; OutlierTestEngine.responses := [];
          OutlierTestEngine.testStartTime := None;
          OutlierTestEngine.mode := "tuning";
          OutlierTestEngine.filterParams := None;
          OutlierTestEngine.seed := 42%Z |};
     OutlierTestEngine.mosaic :=
       {| AnimatedMosaic.isRunning := false; AnimatedMosaic.isPaused := false;
          AnimatedMosaic.currentPlate := None;
          AnimatedMosaic.state_startTime := 0 |};
     OutlierTestEngine.pending := 0; OutlierTestEngine.table := [];
     OutlierTestEngine.env := 0%Z |}.

End Example.
(** * Properties

    Helper facts first, module by module, then the theorems that settle
    the claims of the specification. *)

(** ** Facts about numbers *)

Module JSFacts.

Lemma Qlt_bool_iff x y : JS.Qlt_bool x y = true <-> (x < y)%Q.
Proof.
  unfold JS.Qlt_bool. rewrite negb_true_iff. split.
  - intros H. apply Qnot_le_lt. intros Hle.
    apply Qle_bool_iff in Hle. congruence.
  - intros H. destruct (Qle_bool y x) eqn:E; [|reflexivity].
    apply Qle_bool_iff in E. exfalso. exact (Qlt_not_le _ _ H E).
Qed.

Lemma Qlt_bool_false x y : JS.Qlt_bool x y = false <-> (y <= x)%Q.
Proof.
  unfold JS.Qlt_bool. rewrite negb_false_iff. apply Qle_bool_iff.
Qed.

Lemma Qle_bool_false x y : Qle_bool x y = false <-> (y < x)%Q.
Proof.
  split.
  - intros H. apply Qnot_le_lt. intros Hle.
    apply Qle_bool_iff in Hle. congruence.
  - intros H. destruct (Qle_bool x y) eqn:E; [|reflexivity].
    apply Qle_bool_iff in E. exfalso. exact (Qlt_not_le _ _ H E).
Qed.

Lemma round_inject (z : Z) : JS.round (inject_Z z) = z.
Proof.
  unfold JS.round, Qfloor, Qplus, inject_Z; simpl Qnum; simpl Qden.
  change (Z.pos (1 * 2)) with 2.
  replace (z * 2 + 1 * 1) with (1 + z * 2) by lia.
  rewrite Z.div_add by lia. reflexivity.
Qed.

(** [JS.round] of a quotient of integers, in integer arithmetic. *)
Lemma round_div (a : Z) (b : positive) :
  JS.round (a # b) = (2 * a + Z.pos b) / (2 * Z.pos b).
Proof.
  unfold JS.round, Qfloor, Qplus; simpl Qnum; simpl Qden.
  replace (a * 2 + 1 * Z.pos b) with (2 * a + Z.pos b) by lia.
  replace (Z.pos (b * 2)) with (2 * Z.pos b) by lia.
  reflexivity.
Qed.

End JSFacts.

(** ** The example runtime keeps the generator contract *)

Module ExampleFacts.

Local Open Scope Q_scope.

Lemma lcg_unit (g : Z) : 0 <= fst (Example.lcg g) /\ fst (Example.lcg g) < 1.
Proof.
  unfold Example.lcg, Qle, Qlt; simpl.
  pose proof (Z.mod_pos_bound (g * 1103515245 + 12345) Example.modulus eq_refl).
  unfold Example.modulus in *. lia.
Qed.

Lemma runtime_spec : RuntimeSpec Example.runtime.
Proof.
  split.
  - exact lcg_unit.
  - intros e. unfold Qle, Qlt; simpl.
    pose proof (Z.mod_pos_bound (e * 7 + 3) 10 eq_refl). lia.
Qed.

End ExampleFacts.

(** ** Facts about the colour filter *)

Module ColorFilterFacts.

Import ColorFilter.

Local Open Scope Q_scope.
Local Open Scope string_scope.

Lemma min_spec x y : (x <= y /\ JS.min x y = x) \/ (y < x /\ JS.min x y = y).
Proof.
  unfold JS.min. destruct (Qle_bool x y) eqn:E.
  - left. split; [by apply Qle_bool_iff|done].
  - right. split; [by apply JSFacts.Qle_bool_false|done].
Qed.

Lemma max_spec x y : (x <= y /\ JS.max x y = y) \/ (y < x /\ JS.max x y = x).
Proof.
  unfold JS.max. destruct (Qle_bool x y) eqn:E.
  - left. split; [by apply Qle_bool_iff|done].
  - right. split; [by apply JSFacts.Qle_bool_false|done].
Qed.

Lemma clamp_range v lo hi : lo <= hi -> lo <= Utils.clamp v lo hi /\ Utils.clamp v lo hi <= hi.
Proof.
  intros Hle. unfold Utils.clamp.
  destruct (max_spec v lo) as [[? ->]|[? ->]];
    [destruct (min_spec lo hi) as [[? ->]|[? ->]]
    |destruct (min_spec v hi) as [[? ->]|[? ->]]]; split; lra.
Qed.

Lemma clamp_id v lo hi : lo <= v -> v <= hi -> Utils.clamp v lo hi == v.
Proof.
  intros H1 H2. unfold Utils.clamp.
  destruct (max_spec v lo) as [[? ->]|[? ->]];
    [destruct (min_spec lo hi) as [[? ->]|[? ->]]
    |destruct (min_spec v hi) as [[? ->]|[? ->]]]; lra.
Qed.

Lemma round_mono x y : x <= y -> (JS.round x <= JS.round y)%Z.
Proof. intros H. unfold JS.round. apply Qfloor_resp_le. lra. Qed.

Lemma round_comp x y : x == y -> JS.round x = JS.round y.
Proof. intros H. unfold JS.round. apply Qfloor_comp. lra. Qed.




Lemma in_variants params m param range n :
  In n (variants params m (param, range)) <->
  exists v, params !! param = Some v /\
    ((r_min range <= v - r_step range * m /\
      n = <[param := round2 (v - r_step range * m)]> params) \/
     (v + r_step range * m <= r_max range /\
      n = <[param := round2 (v + r_step range * m)]> params)).
Proof.
  unfold variants. destruct (params !! param) as [v|] eqn:Hv.
  - rewrite in_app_iff. split.
    + intros [H|H]; exists v; (split; [done|]).
      * destruct (Qle_bool _ _) eqn:E in H; [|by destruct H].
        apply Qle_bool_iff in E. destruct H as [<-|[]]. by left.
      * destruct (Qle_bool _ _) eqn:E in H; [|by destruct H].
        apply Qle_bool_iff in E. destruct H as [<-|[]]. by right.
    + intros (v' & [= <-] & [[Hle ->]|[Hle ->]]).
      * left. apply Qle_bool_iff in Hle. rewrite Hle. by left.
      * right. apply Qle_bool_iff in Hle. rewrite Hle. by left.
  - split; [intros []|]. by intros (v & ? & _).
Qed.

Lemma in_generateNeighbors params m n :
  In n (generateNeighbors params m) <-> is_variant params m n.
Proof.
  unfold generateNeighbors, is_variant. rewrite in_flat_map. split.
  - intros ([param range] & Hin & Hn). apply in_variants in Hn as (v & ? & ?).
    by exists param, range, v.
  - intros (param & range & v & Hin & Hv & H). exists (param, range).
    split; [done|]. apply in_variants. by exists v.
Qed.



Lemma paramRanges_cases param range :
  In (param, range) paramRanges ->
  exists lo hi : Z, r_min range = inject_Z lo /\ r_max range = inject_Z hi /\ (lo <= hi)%Z /\ 0 < r_step range.
Proof.
  unfold paramRanges. simpl.
  intros [H|[H|[H|[H|[H|[]]]]]]; inversion H; subst; simpl.
  - exists (-60)%Z, 60%Z. repeat split; try lia; reflexivity.
  - exists 0%Z, 1%Z. repeat split; try lia; reflexivity.
  - exists (-20)%Z, 40%Z. repeat split; try lia; reflexivity.
  - exists (-20)%Z, 20%Z. repeat split; try lia; reflexivity.
  - exists (-20)%Z, 20%Z. repeat split; try lia; reflexivity.
Qed.




Lemma defaults_in_ranges : in_ranges defaults.
Proof.
  intros param range. unfold paramRanges. simpl.
  intros [H|[H|[H|[H|[H|[]]]]]]; inversion H; subst; simpl;
    eexists; (split; [reflexivity|]); split; simpl; lra.
Qed.

Lemma normalizeStep_lookup params acc param range k :
  normalizeStep params acc (param, range) !! k =
  if decide (param = k) then
    match params !! param with
    | Some v => Some (Utils.clamp v (r_min range) (r_max range))
    | None => acc !! k
    end
  else acc !! k.
Proof.
  unfold normalizeStep. case_decide as Hk.
  - subst. destruct (params !! k); [apply lookup_insert_eq|done].
  - destruct (params !! param); [by rewrite lookup_insert_ne|done].
Qed.

Lemma normalizeParams_lookup params param range :
  In (param, range) paramRanges ->
  normalizeParams params !! param =
  match params !! param with
  | Some v => Some (Utils.clamp v (r_min range) (r_max range))
  | None => defaults !! param
  end.
Proof.
  unfold normalizeParams, paramRanges. cbn [foldl In].
  intros [H|[H|[H|[H|[H|[]]]]]]; inversion H; subst;
    rewrite !normalizeStep_lookup; repeat (case_decide; try done).
Qed.

Lemma normalizeParams_other params k :
  (forall range, ~ In (k, range) paramRanges) ->
  normalizeParams params !! k = None.
Proof.
  intros Hk. unfold normalizeParams. unfold paramRanges at 1. cbn [foldl].
  rewrite !normalizeStep_lookup.
  repeat (case_decide; [subst; exfalso; eapply Hk; unfold paramRanges; simpl; eauto 10|]).
  unfold defaults, params_of. rewrite !lookup_insert_ne by done. done.
Qed.

Lemma normalizeParams_in_ranges params : in_ranges (normalizeParams params).
Proof.
  intros param range Hin. rewrite (normalizeParams_lookup _ _ _ Hin).
  destruct (paramRanges_cases _ _ Hin) as (lo & hi & Elo & Ehi & Hle & _).
  destruct (params !! param) as [v|].
  - eexists. split; [done|]. apply clamp_range. rewrite Elo, Ehi.
    by rewrite <- Zle_Qle.
  - by apply defaults_in_ranges.
Qed.

Lemma normalizeParams_dom params :
  dom (normalizeParams params) =
  ({["hueShift"; "intensity"; "saturationBoost"; "brightness"; "contrast"]} : gset string).
Proof.
  apply set_eq. intros k. rewrite elem_of_dom. split.
  - intros [v Hv].
    destruct (decide (k ∈ ({["hueShift"; "intensity"; "saturationBoost"; "brightness"; "contrast"]} : gset string))) as [|Hn]; [done|].
    rewrite normalizeParams_other in Hv; [done|].
    intros range. unfold paramRanges. simpl.
    intros [H|[H|[H|[H|[H|[]]]]]]; inversion H; subst; apply Hn; set_solver.
  - intros Hk.
    assert (exists range, In (k, range) paramRanges) as [range Hin].
    { unfold paramRanges. simpl.
      rewrite !elem_of_union, !elem_of_singleton in Hk.
      destruct Hk as [[[[->| ->]| ->]| ->]| ->]; eauto 10. }
    destruct (normalizeParams_in_ranges params _ _ Hin) as (v & -> & _). eauto.
Qed.


Lemma Qfloor_unique (x : Q) (n : Z) : inject_Z n <= x -> x < inject_Z (n + 1) -> Qfloor x = n.
Proof.
  intros Hlo Hhi.
  pose proof (Qfloor_le x) as H1. pose proof (Qlt_floor x) as H2.
  assert (Qfloor x < n + 1)%Z by (rewrite Zlt_Qlt; lra).
  assert (n < Qfloor x + 1)%Z by (rewrite Zlt_Qlt; lra).
  lia.
Qed.

Lemma rem_360 x : 360 <= x -> x < 720 -> JS.rem x 360 == x - 360.
Proof.
  intros Hlo Hhi. unfold JS.rem. cbv zeta.
  assert (H1 : 1 <= x / 360) by (apply Qle_shift_div_l; lra).
  assert (H2 : x / 360 < 2) by (apply Qlt_shift_div_r; lra).
  assert (Hq : Qle_bool 0 (x / 360) = true) by (apply Qle_bool_iff; lra).
  rewrite Hq. rewrite (Qfloor_unique (x / 360) 1); [ring|exact H1|exact H2].
Qed.







Lemma abs_spec x : (0 <= x /\ JS.abs x = x) \/ (x < 0 /\ JS.abs x = - x).
Proof.
  unfold JS.abs. destruct (Qle_bool 0 x) eqn:E.
  - left. split; [by apply Qle_bool_iff|done].
  - right. split; [by apply JSFacts.Qle_bool_false|done].
Qed.

Lemma abs_nonneg x : 0 <= JS.abs x.
Proof. destruct (abs_spec x) as [[? ->]|[? ->]]; lra. Qed.

Lemma abs_sym x y : JS.abs (x - y) == JS.abs (y - x).
Proof.
  destruct (abs_spec (x - y)) as [[? ->]|[? ->]],
           (abs_spec (y - x)) as [[? ->]|[? ->]]; lra.
Qed.

Lemma abs_zero x y : JS.abs (x - y) == 0 <-> x == y.
Proof. destruct (abs_spec (x - y)) as [[? ->]|[? ->]]; split; intros; lra. Qed.

Lemma abs_le x y d : - d <= x - y -> x - y <= d -> JS.abs (x - y) <= d.
Proof. intros. destruct (abs_spec (x - y)) as [[? ->]|[? ->]]; lra. Qed.


Lemma similarity_values p q a b :
  values p = Some a -> values q = Some b ->
  exists s, similarity p q = Some s /\ s == 1 - distance a b * (1 # 5).
Proof.
  unfold values. intros Hp Hq.
  destruct (p !! "hueShift") as [h|] eqn:P1; [|done].
  destruct (p !! "intensity") as [i|] eqn:P2; [|done].
  destruct (p !! "saturationBoost") as [s|] eqn:P3; [|done].
  destruct (p !! "brightness") as [br|] eqn:P4; [|done].
  destruct (p !! "contrast") as [c|] eqn:P5; [|done].
  destruct (q !! "hueShift") as [h'|] eqn:Q1; [|done].
  destruct (q !! "intensity") as [i'|] eqn:Q2; [|done].
  destruct (q !! "saturationBoost") as [s'|] eqn:Q3; [|done].
  destruct (q !! "brightness") as [br'|] eqn:Q4; [|done].
  destruct (q !! "contrast") as [c'|] eqn:Q5; [|done].
  cbn in Hp, Hq. injection Hp as <-. injection Hq as <-.
  unfold similarity. cbn [paramRanges foldl r_max r_min length].
  rewrite P1, P2, P3, P4, P5, Q1, Q2, Q3, Q4, Q5. cbn [mbind option_bind].
  eexists. split; [reflexivity|]. unfold distance.
  change (inject_Z (Z.of_nat 5)) with 5.
  field.
Qed.

Lemma in_ranges_values p :
  in_ranges p ->
  exists h i s b c, values p = Some (h, i, s, b, c) /\
    -60 <= h <= 60 /\ 0 <= i <= 1 /\ -20 <= s <= 40 /\ -20 <= b <= 20 /\ -20 <= c <= 20.
Proof.
  intros H. unfold values.
  destruct (H "hueShift" {| r_min := -60; r_max := 60; r_step := 5 |})
    as (h & -> & ? & ?); [cbn; tauto|].
  destruct (H "intensity" {| r_min := 0; r_max := 1; r_step := 1 # 10 |})
    as (i & -> & ? & ?); [cbn; tauto|].
  destruct (H "saturationBoost" {| r_min := -20; r_max := 40; r_step := 5 |})
    as (s & -> & ? & ?); [cbn; tauto|].
  destruct (H "brightness" {| r_min := -20; r_max := 20; r_step := 5 |})
    as (b & -> & ? & ?); [cbn; tauto|].
  destruct (H "contrast" {| r_min := -20; r_max := 20; r_step := 5 |})
    as (c & -> & ? & ?); [cbn; tauto|].
  cbn in *. exists h, i, s, b, c. repeat split; assumption.
Qed.

Lemma round_near y : y - (1 # 2) < inject_Z (JS.round y) /\ inject_Z (JS.round y) <= y + (1 # 2).
Proof.
  unfold JS.round. pose proof (Qfloor_le (y + (1 # 2))).
  pose proof (Qlt_floor (y + (1 # 2))) as Hl.
  rewrite inject_Z_plus in Hl. change (inject_Z 1) with 1 in Hl. split; lra.
Qed.

Lemma round2_near x : x - (1 # 200) <= round2 x /\ round2 x <= x + (1 # 200).
Proof.
  unfold round2. destruct (round_near (x * 100)) as [Hl Hu].
  set (r := inject_Z _) in *. split.
  - apply Qle_shift_div_l; lra.
  - apply Qle_shift_div_r; lra.
Qed.

Lemma foldl_similarity_None (p q : Params) l :
  foldl (fun acc entry =>
      let '(param, range) := entry : string * Range in
      t ← acc; a ← p !! param; b ← q !! param;
      Some (t + JS.abs (a - b) / (r_max range - r_min range)))
    None l = None.
Proof. induction l as [|[param range] l IH]; [done|]. cbn. exact IH. Qed.

Lemma similarity_undefined p q param range :
  In (param, range) paramRanges ->
  p !! param = None \/ q !! param = None -> similarity p q = None.
Proof.
  intros Hin Hnone. unfold similarity.
  match goal with |- context [foldl ?f _ _] => set (F := f) end.
  assert (forall l acc, In (param, range) l -> foldl F acc l = None) as Hl.
  { induction l as [|[k r] l IH]; intros acc Hl; [destruct Hl|].
    cbn [foldl]. destruct Hl as [E|Hl]; [|by apply IH].
    injection E as -> ->.
    replace (F acc (param, range)) with (@None Q);
      [apply foldl_similarity_None|].
    subst F. cbn. destruct acc; [|done]. cbn.
    destruct Hnone as [-> | ->]; [done|]. by destruct (p !! param). }
  by rewrite Hl.
Qed.

Lemma values_lookup p h i s b c :
  values p = Some (h, i, s, b, c) ->
  p !! "hueShift" = Some h /\ p !! "intensity" = Some i /\
  p !! "saturationBoost" = Some s /\ p !! "brightness" = Some b /\
  p !! "contrast" = Some c.
Proof.
  unfold values.
  destruct (p !! "hueShift"); [|done]. destruct (p !! "intensity"); [|done].
  destruct (p !! "saturationBoost"); [|done]. destruct (p !! "brightness"); [|done].
  destruct (p !! "contrast"); [|done]. cbn. intros [= -> -> -> -> ->]. done.
Qed.


Lemma abs_self x : JS.abs (x - x) == 0.
Proof. apply abs_zero. reflexivity. Qed.

Lemma neighbour_similar p m n :
  in_ranges p -> 0 <= m -> m <= 1 -> In n (generateNeighbors p m) ->
  exists s, similarity p n = Some s /\ 974 # 1000 <= s.
Proof.
  intros Hp Hm0 Hm1 Hn.
  destruct (in_ranges_values p Hp) as (h & i & s & b & c & Vp & ? & ? & ? & ? & ?).
  pose proof Vp as Vp'. apply values_lookup in Vp' as (P1 & P2 & P3 & P4 & P5).
  apply in_generateNeighbors in Hn as (param & range & v & Hin & Hv & Hcase).
  assert (exists w, n = <[param := w]> p /\ v - r_step range * m - (1 # 200) <= w /\
                    w <= v + r_step range * m + (1 # 200)) as (w & -> & Hlo & Hhi).
  { destruct Hcase as [[_ ->]|[_ ->]]; eexists; (split; [reflexivity|]).
    - pose proof (round2_near (v - r_step range * m)).
      assert (0 <= r_step range * m).
      { apply Qmult_le_0_compat; [|done].
        destruct (paramRanges_cases _ _ Hin) as (? & ? & _ & _ & _ & ?). lra. }
      lra.
    - pose proof (round2_near (v + r_step range * m)).
      assert (0 <= r_step range * m).
      { apply Qmult_le_0_compat; [|done].
        destruct (paramRanges_cases _ _ Hin) as (? & ? & _ & _ & _ & ?). lra. }
      lra. }
  pose proof (abs_self h). pose proof (abs_self i). pose proof (abs_self s).
  pose proof (abs_self b). pose proof (abs_self c).
  cbn in Hin.
  destruct Hin as [E|[E|[E|[E|[E|[]]]]]]; injection E as <- <-;
    cbn [r_step] in Hlo, Hhi; simplify_eq;
    match goal with
    | V : values p = Some ?a |- context [similarity p (<[?k := w]> p)] =>
      assert (exists t, values (<[k := w]> p) = Some t /\
                        distance a t <= 126 # 1000) as (t & Vt & Ht)
    end.
  1, 3, 5, 7, 9:
    (unfold values; simplify_map_eq; eexists; split; [reflexivity|];
     unfold distance;
     repeat match goal with
     | |- context [JS.abs (?a - ?z)] =>
       lazymatch goal with
       | H : JS.abs (a - z) <= _ |- _ => fail
       | _ => idtac
       end;
       first [ pose proof (abs_le a z 0 ltac:(lra) ltac:(lra))
             | pose proof (abs_le a z (m * (1 # 10) + (1 # 200)) ltac:(lra) ltac:(lra))
             | pose proof (abs_le a z (m * 5 + (1 # 200)) ltac:(lra) ltac:(lra)) ]
     end; lra).
  all: match goal with V : values _ = Some (_, _, _, _, _) |- _ =>
         destruct (similarity_values _ _ _ _ V Vt) as (x & -> & Hx) end;
       eexists; split; [reflexivity|]; lra.
Qed.

Lemma clamp_idem v lo hi :
  lo < hi -> Utils.clamp (Utils.clamp v lo hi) lo hi = Utils.clamp v lo hi.
Proof.
  intros Hlt. unfold Utils.clamp.
  destruct (max_spec v lo) as [[? ->]|[? ->]].
  - destruct (min_spec lo hi) as [[? ->]|[? ->]]; [|lra].
    destruct (max_spec lo lo) as [[? ->]|[? ->]]; [|lra].
    destruct (min_spec lo hi) as [[? ->]|[? ->]]; [done|lra].
  - destruct (min_spec v hi) as [[? E]|[? E]]; rewrite E.
    + destruct (max_spec v lo) as [[? ->]|[? ->]]; [lra|]. by rewrite E.
    + destruct (max_spec hi lo) as [[? ->]|[? ->]]; [lra|].
      destruct (min_spec hi hi) as [[? ->]|[? ->]]; [done|lra].
Qed.

Lemma paramRanges_strict param range :
  In (param, range) paramRanges -> r_min range < r_max range.
Proof.
  cbn. intros [E|[E|[E|[E|[E|[]]]]]]; injection E as <- <-; reflexivity.
Qed.

Lemma paramRanges_keys k :
  (exists range, In (k, range) paramRanges) \/
  (forall range, ~ In (k, range) paramRanges).
Proof.
  destruct (decide (k ∈ (paramRanges.*1))) as [Hin|Hout].
  - left. apply list_elem_of_fmap in Hin as ([k' r] & -> & Hin).
    exists r. by apply list_elem_of_In.
  - right. intros r Hin. apply Hout. apply list_elem_of_fmap.
    exists (k, r). split; [done|]. by apply list_elem_of_In.
Qed.

Lemma normalizeParams_idem params :
  normalizeParams (normalizeParams params) = normalizeParams params.
Proof.
  apply map_eq. intros k.
  destruct (paramRanges_keys k) as [[range Hin]|Hout].
  - rewrite (normalizeParams_lookup _ _ _ Hin).
    pose proof (normalizeParams_lookup params _ _ Hin) as E.
    destruct (normalizeParams params !! k) as [w|] eqn:Ew.
    + destruct (params !! k) as [v|] eqn:Ev.
      * injection E as ->. f_equal. apply clamp_idem.
        by eapply paramRanges_strict.
      * f_equal.
        destruct (defaults_in_ranges _ _ Hin) as (d & Hd & Hlo & Hhi).
        rewrite Hd in E. injection E as ->.
        revert Hd. cbn in Hin.
        destruct Hin as [X|[X|[X|[X|[X|[]]]]]]; injection X as <- <-;
          intros [= <-]; reflexivity.
    + destruct (normalizeParams_in_ranges params _ _ Hin) as (? & ? & _). congruence.
  - by rewrite !normalizeParams_other.
Qed.

Lemma selectiveHueShift_factor hue shift intensity :
  exists f, 1 # 5 <= f /\ f <= 1 /\
    calculateSelectiveHueShift hue shift intensity = shift * intensity * f.
Proof.
  unfold calculateSelectiveHueShift.
  repeat match goal with
  | |- context [Qle_bool ?a ?b] =>
    let E := fresh "E" in
    destruct (Qle_bool a b) eqn:E;
      [apply Qle_bool_iff in E|apply JSFacts.Qle_bool_false in E]
  end; cbn [andb];
  (eexists; split; [|split; [|reflexivity]]);
  unfold Qdiv; change (/ 40) with (1 # 40); change (/ 50) with (1 # 50);
  change (/ 60) with (1 # 60); lra.
Qed.

Lemma rem_nonneg x y :
  0 <= x -> 0 < y ->
  0 <= JS.rem x y /\ JS.rem x y < y /\
  JS.rem x y == x - y * inject_Z (Qfloor (x / y)).
Proof.
  intros Hx Hy. unfold JS.rem.
  assert (Hq : 0 <= x / y) by (apply Qle_shift_div_l; lra).
  apply Qle_bool_iff in Hq. rewrite Hq. apply Qle_bool_iff in Hq.
  pose proof (Qfloor_le (x / y)) as Hl.
  pose proof (Qlt_floor (x / y)) as Hu.
  rewrite inject_Z_plus in Hu. change (inject_Z 1) with 1 in Hu.
  set (t := inject_Z (Qfloor (x / y))) in *.
  assert (E : x / y * y == x) by (field; lra).
  assert (y * t <= x).
  { apply (Qmult_le_compat_r _ _ y) in Hl; [|lra]. rewrite E in Hl. lra. }
  assert (x < y * (t + 1)).
  { apply (Qmult_lt_compat_r _ _ y) in Hu; [|lra]. rewrite E in Hu. lra. }
  split; [lra|]. split; [lra|reflexivity].
Qed.


Lemma round_byte x : 0 <= x -> x <= 255 -> (0 <= JS.round x <= 255)%Z.
Proof.
  intros H0 H1. split.
  - rewrite <- (JSFacts.round_inject 0). by apply round_mono.
  - rewrite <- (JSFacts.round_inject 255). by apply round_mono.
Qed.

Lemma contrastStage_byte c contrast i :
  0 <= c -> c <= 255 -> 0 <= contrastStage c contrast i /\ contrastStage c contrast i <= 255.
Proof.
  intros. unfold contrastStage. destruct (Qeq_bool contrast 0); [done|].
  apply clamp_range. discriminate.
Qed.

Lemma stages_byte c brightness contrast i :
  Qeq_bool brightness 0 = false \/ Qeq_bool contrast 0 = false ->
  let out := contrastStage (brightnessStage c brightness i) contrast i in
  0 <= out /\ out <= 255.
Proof.
  intros Hor out. subst out. unfold contrastStage.
  destruct (Qeq_bool contrast 0) eqn:Ec.
  - destruct Hor as [Eb|?]; [|done]. unfold brightnessStage. rewrite Eb.
    apply clamp_range. discriminate.
  - apply clamp_range. discriminate.
Qed.

End ColorFilterFacts.

(** ** Facts about scoring and severity *)

Module ScoringFacts.

Local Open Scope Z_scope.





(** Binary64 and the exact model give the same percentage for every
    tally of at most 39 trials; the sessions of the engines have at most
    16.  The first tally on which they differ is 23 of 40. *)
Lemma binary64_percentage_agrees :
  forallb (fun '(c, t) =>
             Binary64.percentage c t =? JS.round (inject_Z c / inject_Z t * 100))
          (Binary64.tallies 39) = true.
Proof. vm_compute. reflexivity. Qed.

Lemma binary64_percentage_23_of_40 :
  Binary64.percentage 23 40 = 57 /\
  JS.round (inject_Z 23 / inject_Z 40 * 100) = 58.
Proof. split; vm_compute; reflexivity. Qed.

(** Binary64 and the exact model give the same bucket of
    [TestEngine.estimateSeverity] on all integer scores from 0 to 100. *)
Lemma binary64_bucket_agrees :
  forallb (fun '(d, c) =>
             bool_decide
               (rank (Binary64.estimateBucket d c) =
                rank (TestEngine.bucket
                        (TestEngine.estimateSeverity (inject_Z d) (inject_Z c)))))
          Binary64.scorePairs = true.
Proof. vm_compute. reflexivity. Qed.

Local Open Scope string_scope.

Section Tallies.
Import OutlierTestEngine.

(** Two filters that split a list. *)
Lemma filter_split_length {A} (P Q : A -> Prop) `{!forall a, Decision (P a)}
  `{!forall a, Decision (Q a)} (l : list A) :
  Forall (fun a => (P a \/ Q a) /\ ~ (P a /\ Q a)) l ->
  (length (filter P l) + length (filter Q l) = length l)%nat.
Proof.
  induction 1 as [|a l [Hor Hnot] _ IH]; [done|].
  rewrite !filter_cons.
  destruct (decide (P a)), (decide (Q a)); cbn [length]; try lia; tauto.
Qed.

Lemma filter_filter_split_length {A} (C P Q : A -> Prop)
  `{!forall a, Decision (C a)} `{!forall a, Decision (P a)}
  `{!forall a, Decision (Q a)} (l : list A) :
  Forall (fun a => (P a \/ Q a) /\ ~ (P a /\ Q a)) l ->
  (length (filter C (filter P l)) + length (filter C (filter Q l))
   = length (filter C l))%nat.
Proof.
  induction 1 as [|a l [Hor Hnot] _ IH]; [done|].
  rewrite !(filter_cons _ a).
  destruct (decide (P a)), (decide (Q a)); try tauto;
    rewrite ?filter_cons; destruct (decide (C a)); cbn [length]; lia.
Qed.

Lemma filter_three_length {A} (P Q S : A -> Prop) `{!forall a, Decision (P a)}
  `{!forall a, Decision (Q a)} `{!forall a, Decision (S a)} (l : list A) :
  Forall (fun a => (P a \/ Q a \/ S a) /\ ~ (P a /\ Q a) /\ ~ (P a /\ S a) /\
                   ~ (Q a /\ S a)) l ->
  (length (filter P l) + length (filter Q l) + length (filter S l) = length l)%nat.
Proof.
  induction 1 as [|a l (Hor & N1 & N2 & N3) _ IH]; [done|].
  rewrite !filter_cons.
  destruct (decide (P a)), (decide (Q a)), (decide (S a)); cbn [length];
    try lia; tauto.
Qed.

Lemma calcScore_tally (l : list ResponseData) :
  total (calcScore l) = Z.of_nat (length l) /\
  correct (calcScore l) = Z.of_nat (length (filter (fun r => isCorrect r = true) l)).
Proof.
  unfold calcScore. destruct l as [|a l]; [done|].
  destruct (Z.eqb_spec (Z.of_nat (length (a :: l))) 0) as [E|_]; [cbn in E; lia|].
  done.
Qed.

End Tallies.

(** Two lists whose members satisfy [P] and [Q] at the same positions. *)
Lemma filter_length_pointwise {A B} (P : A -> Prop) (Q : B -> Prop)
  `{!forall a, Decision (P a)} `{!forall b, Decision (Q b)}
  (l1 : list A) (l2 : list B) :
  length l1 = length l2 ->
  (forall i a b, l1 !! i = Some a -> l2 !! i = Some b -> (P a <-> Q b)) ->
  length (filter P l1) = length (filter Q l2).
Proof.
  revert l2. induction l1 as [|a l1 IH]; intros [|b l2] Hlen Hall; try done.
  rewrite !filter_cons.
  assert (length (filter P l1) = length (filter Q l2)) as E.
  { apply IH; [by injection Hlen|]. intros i. apply (Hall (S i)). }
  pose proof (Hall 0%nat a b eq_refl eq_refl).
  destruct (decide (P a)), (decide (Q b)); cbn [length]; try lia; tauto.
Qed.


Section SeverityValue.
Local Open Scope Q_scope.

Lemma adjustedScore_cases d c :
  0 <= d -> d <= 100 ->
  0 <= TestEngine.adjustedScore d c /\ TestEngine.adjustedScore d c <= 100 /\
  (~ (0 < c /\ c < 100) -> TestEngine.adjustedScore d c == d) /\
  (0 < c -> c < 100 -> c <= d -> TestEngine.adjustedScore d c == 100) /\
  (0 < c -> c < 100 -> d < c -> TestEngine.adjustedScore d c == d / c * 100).
Proof.
  intros Hd0 Hd1. unfold TestEngine.adjustedScore.
  destruct (JS.Qlt_bool c 100) eqn:E1; [destruct (JS.Qlt_bool 0 c) eqn:E2|]; cbn [andb].
  - apply JSFacts.Qlt_bool_iff in E1, E2.
    assert (Hq : 0 <= d / c) by (apply Qle_shift_div_l; lra).
    assert (Hge : c <= d -> 1 <= d / c) by (intros; apply Qle_shift_div_l; lra).
    assert (Hlt : d < c -> d / c < 1) by (intros; apply Qlt_shift_div_r; lra).
    destruct (ColorFilterFacts.min_spec (d / c * 100) 100) as [[Hm ->]|[Hm ->]].
    + split; [lra|]. split; [lra|]. split; [tauto|]. split; [|reflexivity].
      intros _ _ Hcd. specialize (Hge Hcd). lra.
    + split; [lra|]. split; [lra|]. split; [tauto|]. split; [reflexivity|].
      intros _ _ Hcd. specialize (Hlt Hcd). lra.
  - apply JSFacts.Qlt_bool_iff in E1. apply JSFacts.Qlt_bool_false in E2.
    split; [lra|]. split; [lra|]. split; [reflexivity|]. split; intros; lra.
  - apply JSFacts.Qlt_bool_false in E1.
    split; [lra|]. split; [lra|]. split; [reflexivity|]. split; intros; lra.
Qed.

Lemma bucketOf_value v :
  match TestEngine.bucketOf v with
  | none => (JS.round v <= 15)%Z
  | mild => (15 <= JS.round v <= 35)%Z
  | moderate => (35 <= JS.round v <= 60)%Z
  | strong => (60 <= JS.round v)%Z
  | inconclusive => False
  end.
Proof.
  unfold TestEngine.bucketOf.
  pose proof (JSFacts.round_inject 15) as R15. pose proof (JSFacts.round_inject 35) as R35.
  pose proof (JSFacts.round_inject 60) as R60.
  change (inject_Z 15) with 15 in R15. change (inject_Z 35) with 35 in R35.
  change (inject_Z 60) with 60 in R60.
  destruct (Qle_bool v 15) eqn:E1.
  { apply Qle_bool_iff in E1. apply ColorFilterFacts.round_mono in E1. lia. }
  apply JSFacts.Qle_bool_false in E1.
  assert (15 <= v) as L1 by lra. apply ColorFilterFacts.round_mono in L1.
  destruct (Qle_bool v 35) eqn:E2.
  { apply Qle_bool_iff in E2. apply ColorFilterFacts.round_mono in E2. lia. }
  apply JSFacts.Qle_bool_false in E2.
  assert (35 <= v) as L2 by lra. apply ColorFilterFacts.round_mono in L2.
  destruct (Qle_bool v 60) eqn:E3.
  { apply Qle_bool_iff in E3. apply ColorFilterFacts.round_mono in E3. lia. }
  apply JSFacts.Qle_bool_false in E3.
  assert (60 <= v) as L3 by lra. apply ColorFilterFacts.round_mono in L3. lia.
Qed.

End SeverityValue.

Lemma calculateResults_add_up (responses : list OutlierTestEngine.ResponseData) :
  Forall (fun r => OutlierTestEngine.plateType r = "deutan" \/
                   OutlierTestEngine.plateType r = "control") responses ->
  Forall (fun r => OutlierTestEngine.skipped r = false \/
                   OutlierTestEngine.timeout r = false) responses ->
  let res := OutlierTestEngine.calculateResults responses in
  OutlierTestEngine.total (OutlierTestEngine.overall res) =
    OutlierTestEngine.total (OutlierTestEngine.deutan res) +
    OutlierTestEngine.total (OutlierTestEngine.control res) /\
  OutlierTestEngine.correct (OutlierTestEngine.overall res) =
    OutlierTestEngine.correct (OutlierTestEngine.deutan res) +
    OutlierTestEngine.correct (OutlierTestEngine.control res) /\
  (OutlierTestEngine.n_skipped (OutlierTestEngine.summary res) +
   OutlierTestEngine.n_timedOut (OutlierTestEngine.summary res) +
   OutlierTestEngine.n_answered (OutlierTestEngine.summary res))%nat
    = length responses /\
  OutlierTestEngine.rawResponses res = responses.
Proof.
  intros Htypes Hflags res. subst res. unfold OutlierTestEngine.calculateResults.
  cbn [OutlierTestEngine.overall OutlierTestEngine.deutan OutlierTestEngine.control
       OutlierTestEngine.summary OutlierTestEngine.rawResponses
       OutlierTestEngine.n_skipped OutlierTestEngine.n_timedOut
       OutlierTestEngine.n_answered].
  assert (Hsplit : Forall (fun r =>
            (OutlierTestEngine.plateType r = "deutan" \/
             OutlierTestEngine.plateType r = "control") /\
            ~ (OutlierTestEngine.plateType r = "deutan" /\
               OutlierTestEngine.plateType r = "control")) responses).
  { eapply Forall_impl; [exact Htypes|]. intros r Hr. split; [done|].
    intros [E1 E2]. rewrite E1 in E2. discriminate. }
  destruct (calcScore_tally responses) as [T0 C0].
  destruct (calcScore_tally
              (filter (fun r => OutlierTestEngine.plateType r = "deutan") responses))
    as [T1 C1].
  destruct (calcScore_tally
              (filter (fun r => OutlierTestEngine.plateType r = "control") responses))
    as [T2 C2].
  rewrite T0, T1, T2, C0, C1, C2.
  pose proof (filter_split_length _ _ responses Hsplit) as S1.
  pose proof (filter_filter_split_length
                (fun r => OutlierTestEngine.isCorrect r = true) _ _ responses Hsplit) as S2.
  split; [lia|]. split; [lia|]. split; [|done].
  apply (filter_three_length
           (fun r => OutlierTestEngine.skipped r = true)
           (fun r => OutlierTestEngine.timeout r = true)
           (fun r => OutlierTestEngine.skipped r = false /\
                     OutlierTestEngine.timeout r = false)).
  eapply Forall_impl; [exact Hflags|]. intros r Hr. cbn beta.
  destruct Hr as [Hr|Hr]; rewrite Hr;
    [destruct (OutlierTestEngine.timeout r)|destruct (OutlierTestEngine.skipped r)];
    intuition congruence.
Qed.

End ScoringFacts.

(** ** Facts about the generators *)

Module GeneratorFacts.

Import ColorFilterFacts.

Local Open Scope Z_scope.

Lemma pickAt_is_Some {A} (l : list A) (u : Q) :
  (0 <= u)%Q -> (u < 1)%Q -> l <> [] -> is_Some (Utils.pickAt l u).
Proof.
  intros H0 H1 Hl. unfold Utils.pickAt. apply lookup_lt_is_Some.
  assert (Hn : 0 < Z.of_nat (length l)) by (destruct l; [done|cbn [length]; lia]).
  apply Nat2Z.inj_lt.
  remember (Z.of_nat (length l)) as n eqn:En. clear En.
  assert (Hq : (inject_Z 0 < inject_Z n)%Q) by (rewrite <- Zlt_Qlt; lia).
  change (inject_Z 0) with 0%Q in Hq.
  assert (Hlo : 0 <= JS.floor (u * inject_Z n)).
  { unfold JS.floor. rewrite <- (Qfloor_Z 0). apply Qfloor_resp_le.
    change (inject_Z 0) with 0%Q. apply Qmult_le_0_compat; lra. }
  assert (Hhi : JS.floor (u * inject_Z n) < n).
  { unfold JS.floor. rewrite Zlt_Qlt.
    eapply Qle_lt_trans; [apply Qfloor_le|].
    pose proof (Qmult_lt_compat_r u 1 (inject_Z n) Hq H1). lra. }
  rewrite Z2Nat.id by lia. lia.
Qed.

Lemma floor_scaled_draw (u : Q) (n : Z) :
  (0 <= u)%Q -> (u < 1)%Q -> 0 < n -> 0 <= JS.floor (u * inject_Z n) < n.
Proof.
  intros H0 H1 Hn.
  assert (Hq : (inject_Z 0 < inject_Z n)%Q) by (rewrite <- Zlt_Qlt; lia).
  change (inject_Z 0) with 0%Q in Hq. split.
  - unfold JS.floor. rewrite <- (Qfloor_Z 0). apply Qfloor_resp_le.
    change (inject_Z 0) with 0%Q. apply Qmult_le_0_compat; lra.
  - unfold JS.floor. rewrite Zlt_Qlt.
    eapply Qle_lt_trans; [apply Qfloor_le|].
    pose proof (Qmult_lt_compat_r u 1 (inject_Z n) Hq H1). lra.
Qed.

Section GenFacts.
Context `{R : Runtime}.

Lemma bind_Some {A B} (m : Utils.Gen A) (k : A -> Utils.Gen B) g b g' :
  Utils.bind m k g = Some (b, g') <->
  exists a g1, m g = Some (a, g1) /\ k a g1 = Some (b, g').
Proof.
  unfold Utils.bind. destruct (m g) as [[a g1]|]; split.
  - intros Hk. by exists a, g1.
  - by intros (a' & g1' & [= <- <-] & Hk).
  - done.
  - by intros (? & ? & ? & _).
Qed.

Lemma forEach_Some {A B} (f : A -> Utils.Gen B) (l : list A) g bs g' :
  Utils.forEach f l g = Some (bs, g') ->
  length bs = length l /\
  forall i a, l !! i = Some a ->
    exists b g1 g2, bs !! i = Some b /\ f a g1 = Some (b, g2).
Proof.
  revert g bs g'. induction l as [|a l IH]; intros g bs g'; simpl.
  - intros [= <- <-]. split; [done|]. intros i a Hi. by rewrite lookup_nil in Hi.
  - intros Hb. apply bind_Some in Hb as (b & g1 & Hf & Hb).
    apply bind_Some in Hb as (bs' & g2 & Hrec & Hret).
    injection Hret as <- <-.
    destruct (IH _ _ _ Hrec) as [Hlen Hall]. split; [simpl; lia|].
    intros [|i] a' Hi; simpl in *.
    + injection Hi as <-. by exists b, g, g1.
    + by apply Hall.
Qed.

Lemma forEach_total {A B} (f : A -> Utils.Gen B) (l : list A) :
  (forall a g, is_Some (f a g)) -> forall g, is_Some (Utils.forEach f l g).
Proof.
  intros Hf. induction l as [|a l IH]; intros g; simpl; [by eexists|].
  unfold Utils.bind. destruct (Hf a g) as [[b g1] ->].
  destruct (IH g1) as [[bs g2] ->]. by eexists.
Qed.

Context `{!RuntimeSpec R}.

Lemma randomPick_total {A} (l : list A) g :
  l <> [] -> is_Some (Utils.randomPick l g).
Proof.
  intros Hl. unfold Utils.randomPick, Utils.bind, Utils.draw.
  destruct (rngNext g) as [u g1] eqn:E.
  pose proof (rngNext_unit g) as [H0 H1]. rewrite E in H0, H1. simpl in *.
  destruct (pickAt_is_Some l u H0 H1 Hl) as [a ->]. simpl. by eexists.
Qed.

End GenFacts.

Section AnimatedFacts.
Context `{R : Runtime}.
Import AnimatedMosaic.

Lemma generateSquare_Some n pal oi sub i g sq g' :
  generateSquare n pal oi sub i g = Some (sq, g') ->
  index sq = i /\ isOutlier sq = (Z.of_nat i =? oi).
Proof.
  unfold generateSquare, Utils.bind, Utils.draw, Utils.ret.
  destruct (rngNext g) as [u1 g1].
  destruct (Z.of_nat i =? oi); [destruct (rngNext g1) as [u2 g2]|];
    destruct (rngNext _) as [u3 g3]; by intros [= <- <-].
Qed.

Lemma generateSquare_total n pal oi sub i g :
  is_Some (generateSquare n pal oi sub i g).
Proof.
  unfold generateSquare, Utils.bind, Utils.draw, Utils.ret.
  destruct (rngNext g) as [u1 g1].
  destruct (Z.of_nat i =? oi); [destruct (rngNext g1) as [u2 g2]|];
    destruct (rngNext _) as [u3 g3]; by eexists.
Qed.

Lemma gridSizes_cases d :
  let n := default 3 (gridSizes !! d) in n = 2 \/ n = 3 \/ n = 4.
Proof.
  unfold gridSizes. simpl.
  destruct (decide (d = "easy"%string)) as [->|?]; [by left|].
  destruct (decide (d = "medium"%string)) as [->|?]; [by right; left|].
  destruct (decide (d = "hard"%string)) as [->|?]; [by right; right|].
  rewrite !lookup_insert_ne by done. rewrite lookup_empty. simpl. by right; left.
Qed.

Lemma plateFromSeed_outlier `{!RuntimeSpec R} options seed g plate g' :
  plateFromSeed options seed g = Some (plate, g') ->
  let n := gridSize plate in
  (n = 2 \/ n = 3 \/ n = 4) /\
  0 <= outlierIndex plate < n * n /\
  length (squares plate) = Z.to_nat (n * n) /\
  forall i sq, squares plate !! i = Some sq ->
    index sq = i /\ (isOutlier sq = true <-> Z.of_nat i = outlierIndex plate).
Proof.
  unfold plateFromSeed. intros Hp.
  apply bind_Some in Hp as (pal & g1 & _ & Hp).
  apply bind_Some in Hp as (u & g2 & Hu & Hp).
  apply bind_Some in Hp as (sqs & g3 & Hsq & Hp).
  injection Hp as <- <-. cbn [gridSize outlierIndex squares].
  pose proof (gridSizes_cases (default "medium"%string (o_difficulty options))) as Hn.
  cbv zeta in Hn. set (n := default 3 (gridSizes !! _)) in *.
  unfold Utils.draw in Hu. injection Hu as Hu.
  pose proof (rngNext_unit g1) as [H0 H1]. rewrite Hu in H0, H1. simpl in H0, H1.
  apply forEach_Some in Hsq as [Hlen Hall].
  rewrite length_seq in Hlen.
  pose proof (floor_scaled_draw u (n * n) H0 H1 ltac:(lia)) as [Hlo Hhi].
  repeat split; try done.
  - assert (Hi : (i < Z.to_nat (n * n))%nat).
    { rewrite <- Hlen. by eapply lookup_lt_Some. }
    destruct (Hall i i) as (b & ga & gb & Hb & Hg).
    { by apply lookup_seq_lt. }
    rewrite H in Hb. injection Hb as <-.
    by apply generateSquare_Some in Hg as [? _].
  - assert (Hi : (i < Z.to_nat (n * n))%nat).
    { rewrite <- Hlen. by eapply lookup_lt_Some. }
    destruct (Hall i i) as (b & ga & gb & Hb & Hg).
    { by apply lookup_seq_lt. }
    rewrite H in Hb. injection Hb as <-.
    apply generateSquare_Some in Hg as [_ ->]. intros E. by apply Z.eqb_eq in E.
  - assert (Hi : (i < Z.to_nat (n * n))%nat).
    { rewrite <- Hlen. by eapply lookup_lt_Some. }
    destruct (Hall i i) as (b & ga & gb & Hb & Hg).
    { by apply lookup_seq_lt. }
    rewrite H in Hb. injection Hb as <-.
    apply generateSquare_Some in Hg as [_ ->]. intros E. by apply Z.eqb_eq.
Qed.

Lemma plateFromSeed_total `{!RuntimeSpec R} options seed g :
  is_Some (plateFromSeed options seed g).
Proof.
  unfold plateFromSeed.
  set (pl := if decide _ then control else deutan).
  assert (Hpl : pl <> []) by (subst pl; case_decide; done).
  unfold Utils.bind at 1.
  destruct (randomPick_total pl g Hpl) as [[pal g1] ->].
  unfold Utils.bind at 1. unfold Utils.draw at 1.
  destruct (rngNext g1) as [u g2].
  unfold Utils.bind at 1.
  match goal with |- context [Utils.forEach ?f ?l g2] =>
    destruct (forEach_total f l (fun a g => generateSquare_total _ _ _ _ a g) g2)
      as [[sqs g3] ->] end.
  by eexists.
Qed.

End AnimatedFacts.

Section MosaicFacts.
Context `{R : Runtime}.
Import MosaicGenerator.

Lemma pickAt_In {A} (l : list A) u a : Utils.pickAt l u = Some a -> In a l.
Proof.
  unfold Utils.pickAt. intros H. apply list_elem_of_In.
  eapply list_elem_of_lookup_2. exact H.
Qed.

Lemma randomPick_In {A} (l : list A) g a g' :
  Utils.randomPick l g = Some (a, g') -> In a l.
Proof.
  unfold Utils.randomPick. intros H.
  apply bind_Some in H as (u & g1 & _ & H).
  unfold Utils.defined in H. destruct (Utils.pickAt l u) eqn:E; [|done].
  injection H as <- _. by eapply pickAt_In.
Qed.

Lemma forEach_total_In {A B} (f : A -> Utils.Gen B) (l : list A) :
  (forall a, In a l -> forall g, is_Some (f a g)) ->
  forall g, is_Some (Utils.forEach f l g).
Proof.
  induction l as [|a l IH]; intros Hf g; simpl; [by eexists|].
  unfold Utils.bind. destruct (Hf a (or_introl eq_refl) g) as [[b g1] ->].
  destruct (IH (fun a' Ha => Hf a' (or_intror Ha)) g1) as [[bs g2] ->].
  by eexists.
Qed.

Lemma setMask_square n gridSize mask row col :
  square_mask n mask -> square_mask n (setMask gridSize mask row col).
Proof.
  intros [Hl Hr]. unfold setMask. destruct (_ && _)%bool; [|done]. split.
  - by rewrite length_alter.
  - apply Forall_alter; [done|]. intros r _ Hlen. by rewrite length_insert.
Qed.

Lemma foldl_invariant {A B} (P : A -> Prop) (f : A -> B -> A) (l : list B) a :
  (forall a b, P a -> P (f a b)) -> P a -> P (foldl f a l).
Proof.
  intros Hf. revert a. induction l as [|b l IH]; intros a Ha; simpl; [done|].
  apply IH. by apply Hf.
Qed.

Lemma characterMask_square n gridSize pattern width mask :
  square_mask n mask -> square_mask n (characterMask gridSize pattern width mask).
Proof.
  intros Hm. unfold characterMask.
  apply foldl_invariant; [|done]. intros m1 py H1.
  apply foldl_invariant; [|done]. intros m2 px H2.
  case_decide; [|done].
  apply foldl_invariant; [|done]. intros m3 sy H3.
  apply foldl_invariant; [|done]. intros m4 sx H4.
  by apply setMask_square.
Qed.

Lemma shapeMask_square gridSize value :
  square_mask (Z.to_nat gridSize) (shapeMask gridSize value).
Proof.
  unfold shapeMask. split.
  - by rewrite length_map, length_seq.
  - apply Forall_forall. intros r Hr. apply list_elem_of_In, in_map_iff in Hr as (row & <- & _).
    by rewrite length_map, length_seq.
Qed.

Lemma createTargetMask_square gridSize t :
  listed_target t ->
  exists mask, createTargetMask gridSize t = Some mask /\
               square_mask (Z.to_nat gridSize) mask.
Proof.
  assert (H0 : square_mask (Z.to_nat gridSize)
                 (replicate (Z.to_nat gridSize) (replicate (Z.to_nat gridSize) false))).
  { split; [by rewrite length_replicate|].
    apply Forall_replicate. by rewrite length_replicate. }
  intros [[Ht Hv]|[[Ht Hv]|[Ht Hv]]]; unfold createTargetMask; rewrite Ht.
  - rewrite decide_True by (by left).
    unfold numbers in Hv. cbn [In] in Hv.
    destruct Hv as [<-|[<-|[<-|[<-|[<-|[<-|[<-|[]]]]]]]];
      (eexists; split; [vm_compute getCharacterPatterns; reflexivity|]);
      by apply characterMask_square.
  - rewrite decide_True by (by right).
    unfold letters in Hv. cbn [In] in Hv.
    destruct Hv as [<-|[<-|[<-|[<-|[<-|[<-|[<-|[<-|[<-|[<-|[]]]]]]]]]]];
      (eexists; split; [vm_compute getCharacterPatterns; reflexivity|]);
      by apply characterMask_square.
  - rewrite decide_False by (intros [?|?]; done).
    rewrite decide_True by done.
    eexists. split; [done|]. apply shapeMask_square.
Qed.

Context `{!RuntimeSpec R}.

Lemma draw_total g : exists u g', Utils.draw g = Some (u, g').
Proof. unfold Utils.draw. destruct (rngNext g) as [u g']. by exists u, g'. Qed.

Lemma bind_total {A B} (m : Utils.Gen A) (k : A -> Utils.Gen B) g :
  (exists a g1, m g = Some (a, g1) /\ is_Some (k a g1)) ->
  is_Some (Utils.bind m k g).
Proof. intros (a & g1 & Hm & Hk). unfold Utils.bind. by rewrite Hm. Qed.

Lemma baseTileColor_total palette isTarget g :
  background palette <> [] -> target palette <> [] ->
  is_Some (baseTileColor palette isTarget g).
Proof.
  intros Hb Ht. unfold baseTileColor.
  assert (Hset : (if isTarget then target palette else background palette) <> [])
    by (by destruct isTarget).
  unfold Utils.bind at 1.
  destruct (randomPick_total _ g Hset) as [[c g1] ->].
  unfold Utils.bind, Utils.draw, Utils.ret.
  destruct (rngNext g1) as [u1 g2], (rngNext g2) as [u2 g3], (rngNext g3) as [u3 g4].
  by eexists.
Qed.

Lemma generateTile_total tileSize palette fp mask n row col g :
  square_mask n mask -> (row < n)%nat -> (col < n)%nat ->
  background palette <> [] -> target palette <> [] ->
  is_Some (generateTile tileSize palette fp mask (row, col) g).
Proof.
  intros [Hl Hr] Hrow Hcol Hb Ht. unfold generateTile.
  destruct (lookup_lt_is_Some_2 mask row ltac:(lia)) as [r Er].
  assert (Hlen : length r = n).
  { eapply Forall_forall in Hr; [exact Hr|]. by eapply list_elem_of_lookup_2. }
  destruct (lookup_lt_is_Some_2 r col ltac:(lia)) as [b Eb].
  apply bind_total. exists b, g. split.
  { rewrite Er. cbn. by rewrite Eb. }
  apply bind_total.
  destruct (baseTileColor_total palette b g Hb Ht) as [[c g1] Hc].
  exists c, g1. split; [done|]. by eexists.
Qed.

Lemma In_cells n row col : In (row, col) (cells n) -> (row < n)%nat /\ (col < n)%nat.
Proof.
  unfold cells. rewrite in_flat_map. intros (r & Hr & Hc).
  apply in_map_iff in Hc as (c & [= <- <-] & Hc).
  apply in_seq in Hr, Hc. lia.
Qed.

Lemma generateTiles_total tileCount tileSize palette t fp g :
  listed_target t -> background palette <> [] -> target palette <> [] ->
  is_Some (generateTiles tileCount tileSize palette t fp g).
Proof.
  intros Ht Hb Hg. unfold generateTiles.
  destruct (createTargetMask_square tileCount t Ht) as (mask & Hm & Hsq).
  apply bind_total. exists mask, g. split; [by rewrite Hm|].
  apply forEach_total_In. intros [row col] Hin g1.
  apply In_cells in Hin as [? ?]. by eapply generateTile_total.
Qed.

Lemma selectTarget_total targetType g :
  exists t g', selectTarget targetType g = Some (t, g') /\ listed_target t.
Proof.
  unfold selectTarget.
  repeat case_decide;
    match goal with |- context [Utils.randomPick ?l] =>
      destruct (randomPick_total l g ltac:(done)) as [[v g1] Hv];
      pose proof (randomPick_In _ _ _ _ Hv) as Hin;
      unfold Utils.bind; rewrite Hv; cbn; do 2 eexists; (split; [done|]) end.
  - by left.
  - by right; left.
  - by right; right.
Qed.

(** Every palette of the two tables has background and target colours. *)
Lemma palettes_filled palette :
  In palette control \/ In palette deutanConfusion ->
  background palette <> [] /\ target palette <> [].
Proof.
  unfold control, deutanConfusion. cbn [In].
  intros [H|H]; repeat (destruct H as [<-|H]; [done|]); done.
Qed.

Lemma mosaic_plateFromSeed_total options seed g :
  is_Some (plateFromSeed options seed g).
Proof.
  unfold plateFromSeed.
  set (pl := if decide _ then control else deutanConfusion).
  assert (Hpl : pl <> []) by (subst pl; case_decide; done).
  destruct (randomPick_total pl g Hpl) as [[palette g1] Hp].
  pose proof (randomPick_In _ _ _ _ Hp) as Hin.
  destruct (palettes_filled palette) as [Hb Ht].
  { subst pl. case_decide; [by left|by right]. }
  apply bind_total. exists palette, g1. split; [done|].
  destruct (selectTarget_total (default "number"%string (o_targetType options)) g1)
    as (t & g2 & Hs & Hl).
  apply bind_total. exists t, g2. split; [done|].
  apply bind_total.
  match goal with |- context [generateTiles ?a ?b ?c ?d ?e] =>
    destruct (generateTiles_total a b c d e g2 Hl Hb Ht) as [[tiles g3] Hg] end.
  exists tiles, g3. split; [done|]. by eexists.
Qed.

Lemma mosaic_generatePlate_total options env :
  is_Some (generatePlate options env).1.
Proof.
  unfold generatePlate.
  destruct (match o_seed options with Some s => _ | None => _ end) as [seed env1].
  cbn. destruct (mosaic_plateFromSeed_total options seed (createRNG seed)) as [[p g] ->].
  by eexists.
Qed.

Lemma generateEach_total seed difficulty fp types index env :
  is_Some (generateEach seed difficulty fp types index env).1.
Proof.
  revert index env. induction types as [|t types IH]; intros index env;
    cbn [generateEach]; [by eexists|].
  destruct (generateSeed _ env) as [s e1].
  match goal with |- context [generatePlate ?o e1] =>
    pose proof (mosaic_generatePlate_total o e1) as Hp;
    destruct (generatePlate o e1) as [[p|] e2] end; [|by destruct Hp].
  specialize (IH (S index) e2).
  destruct (generateEach _ _ _ types _ e2) as [[ps|] e3]; [|by destruct IH].
  by eexists.
Qed.

Lemma fisherYates_total {A} i (l : list A) g : is_Some (Utils.fisherYates i l g).
Proof.
  revert l g. induction i as [|i IH]; intros l g; simpl; [by eexists|].
  unfold Utils.bind, Utils.draw. destruct (rngNext g) as [u g1]. apply IH.
Qed.

Lemma tuning_split (count : Z) :
  1 <= count ->
  0 <= JS.round (inject_Z count * (8 # 10)) <= count.
Proof.
  intros Hc.
  rewrite (round_comp _ ((8 * count) # 10)).
  - rewrite JSFacts.round_div. split.
    + apply Z.div_pos; lia.
    + apply Z.lt_succ_r. apply Z.div_lt_upper_bound; lia.
  - unfold Qeq, Qmult, inject_Z; simpl. lia.
Qed.

Lemma generateTuningSequence_total count fp seed env :
  1 <= count ->
  is_Some (generateTuningSequence
             {| so_plateCount := Some count; so_deutanRatio := None;
                so_seed := Some seed; so_difficulty := None;
                so_filterParams := fp |} env).1.
Proof.
  intros Hc. unfold generateTuningSequence, generateTestSequence.
  cbn [so_plateCount so_deutanRatio so_seed so_difficulty so_filterParams
       default from_option id].
  pose proof (tuning_split count Hc) as [Hd1 Hd2].
  set (d := JS.round _) in *.
  unfold arrayFill.
  destruct (Z.ltb_spec d 0); [lia|].
  destruct (Z.ltb_spec (count - d) 0); [lia|].
  cbv beta iota zeta.
  set (l := (_ ++ _)%list).
  assert (Hl : l <> []).
  { subst l. intros E. apply (f_equal length) in E.
    rewrite length_app, !length_replicate in E. simpl in E. lia. }
  unfold Utils.shuffleArray. destruct l as [|a l]; [done|].
  destruct (fisherYates_total (length (a :: l) - 1) (a :: l) (createRNG seed))
    as [[sh g] ->].
  apply generateEach_total.
Qed.

End MosaicFacts.

Section MosaicPlates.
Context `{R : Runtime}.
Import MosaicGenerator.

Lemma flat_map_lookup_const {A B} (f : A -> list B) (l : list A) (k q c : nat) :
  (forall a, length (f a) = k) -> (c < k)%nat ->
  flat_map f l !! (q * k + c)%nat = l !! q ≫= fun a => f a !! c.
Proof.
  intros Hk Hc. revert q. induction l as [|a l IH]; intros q; cbn.
  - done.
  - destruct q as [|q]; cbn.
    + rewrite lookup_app_l by (rewrite Hk; lia). done.
    + rewrite lookup_app_r by (rewrite Hk; lia).
      rewrite Hk. replace (k + q * k + c - k)%nat with (q * k + c)%nat by lia.
      apply IH.
Qed.

Lemma cells_lookup n r c :
  (r < n)%nat -> (c < n)%nat -> cells n !! (r * n + c)%nat = Some (r, c).
Proof.
  intros Hr Hc. unfold cells.
  rewrite (flat_map_lookup_const _ _ n) by (intros; by rewrite length_map, length_seq || done).
  rewrite lookup_seq_lt by done. cbn.
  rewrite list_lookup_fmap, lookup_seq_lt by done. done.
Qed.

Lemma length_flat_map_const {A B} (f : A -> list B) (l : list A) (k : nat) :
  (forall a, length (f a) = k) -> length (flat_map f l) = (length l * k)%nat.
Proof.
  intros Hk. induction l as [|a l IH]; [done|]. cbn.
  rewrite length_app, Hk, IH. lia.
Qed.

Lemma length_cells n : length (cells n) = (n * n)%nat.
Proof.
  unfold cells. rewrite (length_flat_map_const _ _ n).
  - by rewrite length_seq.
  - intros. by rewrite length_map, length_seq.
Qed.

Lemma cells_lookup_inv n i cell :
  cells n !! i = Some cell -> cell = ((i / n)%nat, (i mod n)%nat) /\ (0 < n)%nat.
Proof.
  intros Hi.
  assert (i < n * n)%nat as Hlt.
  { rewrite <- length_cells. by eapply lookup_lt_Some. }
  assert (0 < n)%nat by lia.
  assert (i / n < n)%nat by (apply Nat.Div0.div_lt_upper_bound; lia).
  assert (i mod n < n)%nat by (apply Nat.mod_upper_bound; lia).
  pose proof (cells_lookup n (i / n) (i mod n) ltac:(done) ltac:(done)) as E.
  replace (i / n * n + i mod n)%nat with i in E
    by (rewrite (Nat.div_mod_eq i n) at 1; lia).
  split; [congruence|done].
Qed.

Lemma generateTile_Some tileSize palette fp mask cell g tile g' :
  generateTile tileSize palette fp mask cell g = Some (tile, g') ->
  row tile = cell.1 /\ col tile = cell.2 /\
  x tile = Z.of_nat cell.2 * tileSize /\ y tile = Z.of_nat cell.1 * tileSize /\
  tile_size tile = tileSize /\
  mask !! cell.1 ≫= (.!! cell.2) = Some (isTarget tile).
Proof.
  destruct cell as [r c]. unfold generateTile. intros H.
  apply bind_Some in H as (b & g1 & Hb & H).
  apply bind_Some in H as (color & g2 & Hc & H).
  injection H as <- <-. cbn.
  destruct (mask !! r ≫= (.!! c)) as [b'|]; [|done].
  injection Hb as -> _. done.
Qed.

Lemma tileCounts_cases d :
  let n := default 14 (tileCounts !! d) in n = 10 \/ n = 14 \/ n = 18.
Proof.
  cbn zeta. unfold tileCounts.
  destruct (decide (d = "easy"%string)) as [->|?]; [by left|].
  destruct (decide (d = "medium"%string)) as [->|?]; [by right; left|].
  destruct (decide (d = "hard"%string)) as [->|?]; [by right; right|].
  right; left. cbn. by rewrite !lookup_insert_ne.
Qed.

Lemma selectTarget_Some targetType g t g' :
  selectTarget targetType g = Some (t, g') ->
  listed_target t /\
  t_type t = (if decide (targetType = "number"%string) then "number"
              else if decide (targetType = "letter"%string) then "letter"
              else "shape")%string.
Proof.
  unfold selectTarget. intros H.
  repeat case_decide; apply bind_Some in H as (v & g1 & Hv & [= <- <-]);
    apply randomPick_In in Hv; (split; [|done]).
  - by left.
  - by right; left.
  - by right; right.
Qed.

(** What [generatePlate] returns, read off a successful call. *)
Lemma mosaic_plateFromSeed_Some options seed0 g plate g' :
  plateFromSeed options seed0 g = Some (plate, g') ->
  let n := tileCount plate in
  seed plate = seed0 /\
  size plate = default (400 : Q) (o_size options) /\
  type plate = default "deutanConfusion"%string (o_type options) /\
  difficulty plate = default "medium"%string (o_difficulty options) /\
  filterParams plate = o_filterParams options /\
  n = default 14 (tileCounts !! difficulty plate) /\
  tileSize plate = JS.floor (size plate / inject_Z n) /\
  In (palette plate)
     (if decide (type plate = "control"%string) then control else deutanConfusion) /\
  listed_target (plate_target plate) /\
  t_type (plate_target plate) =
    (let tt := default "number"%string (o_targetType options) in
     if decide (tt = "number"%string) then "number"
     else if decide (tt = "letter"%string) then "letter" else "shape")%string /\
  exists mask,
    createTargetMask n (plate_target plate) = Some mask /\
    square_mask (Z.to_nat n) mask /\
    length (tiles plate) = (Z.to_nat n * Z.to_nat n)%nat /\
    forall i tile, tiles plate !! i = Some tile ->
      row tile = (i / Z.to_nat n)%nat /\ col tile = (i mod Z.to_nat n)%nat /\
      x tile = Z.of_nat (col tile) * tileSize plate /\
      y tile = Z.of_nat (row tile) * tileSize plate /\
      tile_size tile = tileSize plate /\
      mask !! row tile ≫= (.!! col tile) = Some (isTarget tile).
Proof.
  unfold plateFromSeed. intros H.
  apply bind_Some in H as (pal & g1 & Hp & H).
  apply bind_Some in H as (t & g2 & Ht & H).
  apply bind_Some in H as (ts & g3 & Hts & H).
  injection H as <- <-. cbn.
  apply randomPick_In in Hp. apply selectTarget_Some in Ht as [Hl Htt].
  split_and!; try done.
  unfold generateTiles in Hts.
  set (n := default 14 (tileCounts !! _)) in *.
  apply bind_Some in Hts as (mask & g4 & Hm & Hts).
  destruct (createTargetMask_square n t Hl) as (mask' & Em & Hsq).
  rewrite Em in Hm. injection Hm as -> _.
  exists mask. split; [done|]. split; [done|].
  apply forEach_Some in Hts as [Hlen Hall]. rewrite length_cells in Hlen.
  split; [done|]. intros i tile Hi.
  assert (Hlt : (i < length (cells (Z.to_nat n)))%nat).
  { rewrite length_cells, <- Hlen. by eapply lookup_lt_Some. }
  destruct (lookup_lt_is_Some_2 _ _ Hlt) as [cell Hc].
  destruct (Hall i cell Hc) as (tile' & ga & gb & Hi' & Hg).
  assert (tile' = tile) as -> by congruence.
  apply cells_lookup_inv in Hc as [-> _].
  apply generateTile_Some in Hg as (T1 & T2 & T3 & T4 & T5 & T6). cbn in *.
  rewrite T1, T2. done.
Qed.
End MosaicPlates.

Section Masks.
Import MosaicGenerator.

Lemma masks_mixed :
  forallb (fun n =>
    forallb (fun t =>
      match createTargetMask n t with
      | Some mask => maskHas true mask && maskHas false mask
      | None => false
      end) allTargets) [10; 14; 18] = true.
Proof. vm_compute. reflexivity. Qed.

Lemma listed_target_all t : listed_target t -> In t allTargets.
Proof.
  destruct t as [ty v]. unfold listed_target, allTargets. cbn [t_type t_value].
  intros [[-> Hv]|[[-> Hv]|[-> Hv]]].
  - apply in_or_app. left. apply in_map_iff. by exists v.
  - apply in_or_app. right. apply in_or_app. left. apply in_map_iff. by exists v.
  - apply in_or_app. right. apply in_or_app. right. apply in_map_iff. by exists v.
Qed.

Lemma maskHas_lookup b mask :
  maskHas b mask = true ->
  exists r c, mask !! r ≫= (.!! c) = Some b.
Proof.
  unfold maskHas. intros H. apply existsb_exists in H as (rowl & Hin & H).
  apply existsb_exists in H as (b' & Hin' & Hb).
  apply Bool.eqb_prop in Hb. subst b'.
  apply list_elem_of_In, list_elem_of_lookup in Hin as [r Hr].
  apply list_elem_of_In, list_elem_of_lookup in Hin' as [c Hc].
  exists r, c. rewrite Hr. cbn. done.
Qed.

Lemma createTargetMask_mixed n t :
  n = 10 \/ n = 14 \/ n = 18 -> listed_target t ->
  exists mask, createTargetMask n t = Some mask /\
    (exists r c, mask !! r ≫= (.!! c) = Some true) /\
    (exists r c, mask !! r ≫= (.!! c) = Some false).
Proof.
  intros Hn Ht. pose proof masks_mixed as H.
  rewrite forallb_forall in H.
  assert (Hin : In n [10; 14; 18]) by (cbn; destruct Hn as [-> | [-> | ->]]; auto).
  specialize (H n Hin). rewrite forallb_forall in H.
  specialize (H t (listed_target_all t Ht)).
  destruct (createTargetMask n t) as [mask|]; [|done].
  apply andb_true_iff in H as [H1 H2].
  exists mask. split; [done|]. split; by apply maskHas_lookup.
Qed.
End Masks.

Lemma floor_fit (size : Q) (n k : Z) :
  (0 <= size)%Q -> 0 < n -> 0 <= k <= n ->
  0 <= JS.floor (size / inject_Z n) /\
  (inject_Z (k * JS.floor (size / inject_Z n)) <= size)%Q.
Proof.
  intros Hs Hn Hk. unfold JS.floor.
  assert (Hn' : (inject_Z 0 < inject_Z n)%Q) by (by rewrite <- Zlt_Qlt).
  change (inject_Z 0) with 0%Q in Hn'.
  assert (Hq : (0 <= size / inject_Z n)%Q) by (apply Qle_shift_div_l; lra).
  pose proof (Qfloor_le (size / inject_Z n)) as Hl.
  assert (H0 : 0 <= Qfloor (size / inject_Z n)).
  { change 0 with (Qfloor 0). by apply Qfloor_resp_le. }
  split; [done|].
  set (t := Qfloor _) in *.
  assert (inject_Z t * inject_Z n <= size)%Q.
  { apply (Qmult_le_compat_r _ _ (inject_Z n)) in Hl; [|lra].
    assert (E : (size / inject_Z n * inject_Z n == size)%Q) by (field; lra).
    by rewrite E in Hl. }
  assert (inject_Z (k * t) <= inject_Z (n * t))%Q.
  { rewrite <- Zle_Qle. nia. }
  eapply Qle_trans; [eassumption|].
  rewrite inject_Z_mult, Qmult_comm. done.
Qed.


Section Visible.
Context `{R : Runtime}.
Import MosaicGenerator.

Lemma square_mask_lookup n (mask : Mask) r c b :
  square_mask n mask -> mask !! r ≫= (.!! c) = Some b -> (r < n)%nat /\ (c < n)%nat.
Proof.
  intros [Hl Hr] H. destruct (mask !! r) as [rowl|] eqn:Er; [|done]. cbn in H.
  split; [rewrite <- Hl; by eapply lookup_lt_Some|].
  assert (length rowl = n) as <-.
  { eapply Forall_forall in Hr; [exact Hr|]. by eapply list_elem_of_lookup_2. }
  by eapply lookup_lt_Some.
Qed.

Lemma tiles_cover (n : nat) (mask : Mask) (ts : list Tile) b :
  square_mask n mask ->
  length ts = (n * n)%nat ->
  (forall i tile, ts !! i = Some tile ->
     row tile = (i / n)%nat /\ col tile = (i mod n)%nat /\
     mask !! row tile ≫= (.!! col tile) = Some (isTarget tile)) ->
  (exists r c, mask !! r ≫= (.!! c) = Some b) ->
  exists tile, In tile ts /\ isTarget tile = b.
Proof.
  intros Hsq Hlen Hall (r & c & Hrc).
  destruct (square_mask_lookup _ _ _ _ _ Hsq Hrc) as [Hr Hc].
  assert (Hlt : (r * n + c < length ts)%nat) by (rewrite Hlen; nia).
  destruct (lookup_lt_is_Some_2 _ _ Hlt) as [tile Ht].
  exists tile. split; [apply list_elem_of_In; by eapply list_elem_of_lookup_2|].
  destruct (Hall _ _ Ht) as (T1 & T2 & T3).
  rewrite Nat.div_add_l, Nat.div_small, Nat.add_0_r in T1 by lia.
  rewrite Nat.add_comm, Nat.Div0.mod_add, Nat.mod_small in T2 by lia.
  rewrite T1, T2, Hrc in T3. congruence.
Qed.
End Visible.


Section Sequences.
Context `{R : Runtime}.
Import MosaicGenerator.

Lemma swap_Permutation {A} (l : list A) i j : Utils.swap l i j ≡ₚ l.
Proof.
  unfold Utils.swap. destruct (l !! i) as [x|] eqn:Ei; [|done].
  destruct (l !! j) as [y|] eqn:Ej; [|done].
  by apply Permutation_insert_swap.
Qed.

Lemma fisherYates_Permutation {A} i (l : list A) g l' g' :
  Utils.fisherYates i l g = Some (l', g') -> l' ≡ₚ l.
Proof.
  revert l g. induction i as [|i IH]; intros l g; simpl.
  - by intros [= <- <-].
  - unfold Utils.bind, Utils.draw. destruct (rngNext g) as [u g1].
    intros H. apply IH in H. by rewrite swap_Permutation in H.
Qed.

Lemma shuffleArray_Permutation {A} (l : list A) g l' g' :
  Utils.shuffleArray l g = Some (l', g') -> l' ≡ₚ l.
Proof.
  unfold Utils.shuffleArray. destruct l as [|a l]; [done|].
  apply fisherYates_Permutation.
Qed.

Lemma generatePlate_Some options env plate env' :
  generatePlate options env = (Some plate, env') ->
  exists seed0 g g', plateFromSeed options seed0 g = Some (plate, g').
Proof.
  unfold generatePlate.
  destruct (match o_seed options with Some s => _ | None => _ end) as [seed0 env1].
  destruct (plateFromSeed options seed0 (createRNG seed0)) as [[p g']|] eqn:E; [|done].
  intros [= <- <-]. by exists seed0, (createRNG seed0), g'.
Qed.

(** The plates of [generateEach], position by position. *)
Lemma generateEach_Some seed0 difficulty0 fp types index env ps env' :
  generateEach seed0 difficulty0 fp types index env = (Some ps, env') ->
  map type ps = types /\
  forall i plate, ps !! i = Some plate ->
    difficulty plate = difficulty0 /\ filterParams plate = fp /\
    t_type (plate_target plate) =
      default "number"%string (targetTypes !! ((index + i) mod 4)%nat) /\
    listed_target (plate_target plate).
Proof.
  revert index env ps env'. induction types as [|t types IH];
    intros index env ps env'; cbn [generateEach].
  - intros [= <- <-]. split; [done|]. intros i plate Hi. by rewrite lookup_nil in Hi.
  - destruct (generateSeed _ env) as [s e1].
    match goal with |- context [generatePlate ?o e1] =>
      destruct (generatePlate o e1) as [[p|] e2] eqn:Ep end; [|done].
    destruct (generateEach _ _ _ types _ e2) as [[ps'|] e3] eqn:E; [|done].
    intros [= <- <-]. apply IH in E as [Hty Hall].
    apply generatePlate_Some in Ep as (sd & g & g' & Ep).
    apply mosaic_plateFromSeed_Some in Ep. cbn zeta in Ep.
    destruct Ep as (_ & _ & P3 & P4 & P5 & _ & _ & _ & P9 & P10 & _).
    cbn [o_type o_difficulty o_filterParams o_targetType from_option id] in P3, P4, P5, P10.
    split; [cbn; by rewrite P3, Hty|].
    intros [|i] plate Hi; cbn in Hi.
    + injection Hi as <-. rewrite Nat.add_0_r. split_and!; try done.
      rewrite P10.
      assert (index mod 4 < 4)%nat as Hlt by (apply Nat.mod_upper_bound; lia).
      destruct (index mod 4)%nat as [|[|[|[|?]]]]; try lia; reflexivity.
    + replace (index + S i)%nat with (S index + i)%nat by lia. by apply Hall.
Qed.
End Sequences.

Local Open Scope string_scope.

Lemma filter_replicate_same {A} `{EqDecision A} (a : A) n :
  filter (fun x => x = a) (replicate n a) = replicate n a.
Proof.
  induction n as [|n IH]; [done|]. cbn [replicate].
  rewrite filter_cons, decide_True by done. by rewrite IH.
Qed.

Lemma filter_replicate_other {A} `{EqDecision A} (a b : A) n :
  a <> b -> filter (fun x => x = a) (replicate n b) = [].
Proof.
  intros Hne. induction n as [|n IH]; [done|]. cbn [replicate].
  rewrite filter_cons, decide_False by done. done.
Qed.

Lemma filter_type_length `{Runtime} (t : string) (l : list MosaicGenerator.Plate) :
  length (filter (fun p => MosaicGenerator.type p = t) l) =
  length (filter (fun x => x = t) (map MosaicGenerator.type l)).
Proof.
  induction l as [|a l IH]; [done|]. cbn [map]. rewrite !filter_cons.
  destruct (decide (MosaicGenerator.type a = t)); cbn [length]; by rewrite IH.
Qed.


Section Answers.
Context `{R : Runtime}.
Import MosaicGenerator.

Lemma shuffleArray_Some {A} (l : list A) g :
  l <> [] -> exists l' g', Utils.shuffleArray l g = Some (l', g') /\ l' ≡ₚ l.
Proof.
  intros Hl. unfold Utils.shuffleArray. destruct l as [|a l]; [done|].
  destruct (fisherYates_total (length (a :: l) - 1) (a :: l) g) as [[l' g'] E].
  exists l', g'. split; [done|]. by eapply fisherYates_Permutation.
Qed.

(** The choices drawn for a character target: the value and three other
    members of its family. *)
Lemma character_choices (family : list string) (v : string) g :
  NoDup family -> In v family -> (4 <= length family)%nat ->
  exists opts g',
    (let* shuffled := Utils.shuffleArray (filter (fun n => n <> v) family) in
     Utils.shuffleArray (v :: take 3 shuffled)) g = Some (opts, g') /\
    length opts = 4%nat /\ NoDup opts /\ In v opts /\
    forall o, In o opts -> In o family.
Proof.
  intros Hnd Hv Hlen.
  set (others := filter (fun n => n <> v) family).
  assert (Hlo : length others = (length family - 1)%nat).
  { subst others. clear Hlen. induction family as [|a l IH]; [destruct Hv|].
    apply NoDup_cons in Hnd as [Ha Hnd]. rewrite filter_cons.
    destruct (decide (a = v)) as [->|Hne].
    - rewrite decide_False by (intros E; by apply E).
      cbn. rewrite Nat.sub_0_r.
      clear IH Hv. induction l as [|b l IH]; [done|].
      apply not_elem_of_cons in Ha as [Hb Ha]. apply NoDup_cons in Hnd as [_ Hnd].
      rewrite filter_cons, decide_True by done. cbn. f_equal. by apply IH.
    - rewrite decide_True by done. cbn. destruct Hv as [?|Hv]; [done|].
      rewrite IH by done. destruct l; [destruct Hv|]. cbn. lia. }
  assert (Hne : others <> []).
  { intros E. rewrite E in Hlo. cbn in Hlo. lia. }
  destruct (shuffleArray_Some others g Hne) as (sh & g1 & E1 & P1).
  assert (Hcons : v :: take 3 sh <> []) by done.
  destruct (shuffleArray_Some (v :: take 3 sh) g1 Hcons) as (opts & g2 & E2 & P2).
  exists opts, g2. split.
  { apply bind_Some. by exists sh, g1. }
  assert (Hsub : forall o, In o (take 3 sh) -> In o family /\ o <> v).
  { intros o Ho. apply list_elem_of_In in Ho.
    apply (subseteq_take 3 sh) in Ho.
    rewrite P1 in Ho. subst others. apply list_elem_of_filter in Ho as [? Ho].
    split; [by apply list_elem_of_In|done]. }
  split; [|split; [|split]].
  - rewrite P2. cbn. rewrite length_take. apply Permutation_length in P1. lia.
  - rewrite P2. apply NoDup_cons. split.
    + intros Hin. apply list_elem_of_In, Hsub in Hin as [_ ?]. done.
    + assert (NoDup sh).
      { rewrite P1. subst others. by apply NoDup_filter. }
      eapply sublist_NoDup; [exact H|apply sublist_take].
  - apply list_elem_of_In. rewrite P2. by left.
  - intros o Ho. apply list_elem_of_In in Ho. rewrite P2 in Ho.
    apply elem_of_cons in Ho as [->|Ho]; [done|].
    by apply list_elem_of_In, Hsub in Ho as [? _].
Qed.
End Answers.

Section Answers2.
Context `{R : Runtime}.
Import MosaicGenerator.

(** Within a family of target values the normalized comparison of
    [checkAnswer] is equality, and no value is "none". *)
Lemma families_distinct :
  forallb (fun family =>
    forallb (fun o =>
      negb (bool_decide (o = "none")) &&
      forallb (fun v =>
        bool_decide (bool_decide (trim (toLowerCase o) = trim (toLowerCase v))
                     = bool_decide (o = v))) family) family) families = true.
Proof. vm_compute. reflexivity. Qed.

Lemma family_compare family o v :
  In family families -> In o family -> In v family ->
  o <> "none" /\ (trim (toLowerCase o) = trim (toLowerCase v) <-> o = v).
Proof.
  intros Hf Ho Hv. pose proof families_distinct as H.
  rewrite forallb_forall in H. specialize (H _ Hf).
  rewrite forallb_forall in H. specialize (H _ Ho).
  apply andb_true_iff in H as [H1 H2].
  rewrite forallb_forall in H2. specialize (H2 _ Hv).
  apply negb_true_iff, bool_decide_eq_false in H1.
  apply bool_decide_eq_true in H2.
  split; [done|]. split; intros E.
  - rewrite bool_decide_eq_true_2 in H2 by done. symmetry in H2.
    by apply bool_decide_eq_true in H2.
  - by rewrite E.
Qed.

Lemma families_NoDup family : In family families -> NoDup family /\ (4 <= length family)%nat.
Proof.
  intros [<-|[<-|[<-|[]]]]; (split; [|cbn; lia]);
    apply NoDup_ListNoDup; repeat (constructor; [cbn; intuition discriminate|]);
    constructor.
Qed.

Lemma listed_family t :
  listed_target t ->
  exists family, In family families /\ In (t_value t) family /\
    ((t_type t = "number" /\ family = numbers) \/
     (t_type t = "letter" /\ family = letters) \/
     (t_type t = "shape" /\ family = shapes)).
Proof.
  intros [[? ?]|[[? ?]|[? ?]]].
  - exists numbers. split; [by left|]. split; [done|]. by left.
  - exists letters. split; [by right; left|]. split; [done|]. by right; left.
  - exists shapes. split; [by right; right; left|]. split; [done|]. by right; right.
Qed.

Lemma getAnswerOptions_choices plate g :
  listed_target (plate_target plate) ->
  exists family choices g',
    In family families /\
    getAnswerOptions plate g
      = Some (((choices ++ ["none"])%list, t_value (plate_target plate)), g') /\
    length choices = 4%nat /\ NoDup choices /\
    In (t_value (plate_target plate)) choices /\
    (forall o, In o choices -> In o family).
Proof.
  intros Hl. destruct (listed_family _ Hl) as (family & Hf & Hv & Hcase).
  destruct (families_NoDup _ Hf) as [Hnd Hlen].
  unfold getAnswerOptions.
  destruct Hcase as [[Ht ->]|[[Ht ->]|[Ht ->]]]; rewrite Ht.
  - rewrite decide_True by done.
    destruct (character_choices numbers (t_value (plate_target plate)) g Hnd Hv Hlen)
      as (opts & g' & E & H1 & H2 & H3 & H4).
    exists numbers, opts, g'. split; [done|]. split; [|done].
    unfold Utils.bind at 1. by rewrite E.
  - rewrite decide_False by done. rewrite decide_True by done.
    destruct (character_choices letters (t_value (plate_target plate)) g Hnd Hv Hlen)
      as (opts & g' & E & H1 & H2 & H3 & H4).
    exists letters, opts, g'. split; [done|]. split; [|done].
    unfold Utils.bind at 1. by rewrite E.
  - rewrite decide_False by done. rewrite decide_False by done.
    rewrite decide_True by done.
    destruct (shuffleArray_Some shapes g ltac:(done)) as (opts & g' & E & P).
    exists shapes, opts, g'. split; [done|]. split.
    { unfold Utils.bind. by rewrite E. }
    split; [by rewrite P|]. split; [by rewrite P|].
    split; [apply list_elem_of_In; rewrite P; by apply list_elem_of_In|].
    intros o Ho. apply list_elem_of_In. rewrite <- P. by apply list_elem_of_In.
Qed.
End Answers2.


Local Open Scope Z_scope.

Section AnimatedClicks.
Context `{R : Runtime}.
Import AnimatedMosaic.

Lemma generateSquare_cell n pal oi sub i g sq g' :
  generateSquare n pal oi sub i g = Some (sq, g') ->
  row sq = Z.to_nat (Z.of_nat i / n) /\ col sq = Z.to_nat (Z.of_nat i mod n).
Proof.
  unfold generateSquare, Utils.bind, Utils.draw, Utils.ret.
  destruct (rngNext g) as [u1 g1].
  destruct (Z.of_nat i =? oi); [destruct (rngNext g1) as [u2 g2]|];
    destruct (rngNext _) as [u3 g3]; by intros [= <- <-].
Qed.

Lemma plateFromSeed_cells options seed g plate g' :
  plateFromSeed options seed g = Some (plate, g') ->
  forall i sq, squares plate !! i = Some sq ->
    row sq = Z.to_nat (Z.of_nat i / gridSize plate) /\
    col sq = Z.to_nat (Z.of_nat i mod gridSize plate).
Proof.
  unfold plateFromSeed. intros Hp.
  apply bind_Some in Hp as (pal & g1 & _ & Hp).
  apply bind_Some in Hp as (u & g2 & Hu & Hp).
  apply bind_Some in Hp as (sqs & g3 & Hsq & Hp).
  injection Hp as <- <-. cbn [gridSize squares].
  apply forEach_Some in Hsq as [Hlen Hall]. rewrite length_seq in Hlen.
  intros i sq Hi.
  apply lookup_lt_Some in Hi as Hlt. rewrite Hlen in Hlt.
  destruct (Hall i i) as (b & ga & gb & Hb & Hg); [by apply lookup_seq_lt|].
  rewrite Hi in Hb. injection Hb as <-.
  by apply generateSquare_cell in Hg.
Qed.

Lemma generatePlate_fromSeed options world plate :
  fst (generatePlate options world) = Some plate ->
  exists seed g g', plateFromSeed options seed g = Some (plate, g').
Proof.
  unfold generatePlate. destruct world as [perm env].
  destruct (match o_seed options with Some s => _ | None => _ end) as [seed env1].
  cbn [fst]. destruct (plateFromSeed options seed (createRNG seed)) as [[p g']|] eqn:E;
    [|done].
  intros [= <-]. by exists seed, (createRNG seed), g'.
Qed.
End AnimatedClicks.

Lemma floor_cell (x s : Q) :
  (0 < s)%Q ->
  (inject_Z (JS.floor (x / s)) * s <= x /\ x < (inject_Z (JS.floor (x / s)) + 1) * s)%Q.
Proof.
  intros Hs. unfold JS.floor.
  pose proof (Qfloor_le (x / s)) as Hl. pose proof (Qlt_floor (x / s)) as Hu.
  rewrite inject_Z_plus in Hu. change (inject_Z 1) with 1%Q in Hu.
  assert (E : (x / s * s == x)%Q) by (field; lra).
  split.
  - apply (Qmult_le_compat_r _ _ s) in Hl; [|lra]. by rewrite E in Hl.
  - apply (Qmult_lt_compat_r _ _ s) in Hu; [|lra]. by rewrite E in Hu.
Qed.

Lemma floor_in_grid (x s : Q) (n : Z) :
  (0 < s)%Q ->
  (0 <= JS.floor (x / s) < n) <-> (0 <= x /\ x < inject_Z n * s)%Q.
Proof.
  intros Hs. destruct (floor_cell x s Hs) as [Hl Hu].
  set (c := JS.floor (x / s)) in *. split.
  - intros [H0 H1]. split.
    + assert (0 <= inject_Z c)%Q by (change 0%Q with (inject_Z 0); by rewrite <- Zle_Qle).
      assert (0 <= inject_Z c * s)%Q by (apply Qmult_le_0_compat; lra). lra.
    + assert (inject_Z c + 1 <= inject_Z n)%Q.
      { change 1%Q with (inject_Z 1). rewrite <- inject_Z_plus, <- Zle_Qle. lia. }
      assert ((inject_Z c + 1) * s <= inject_Z n * s)%Q
        by (apply Qmult_le_compat_r; lra).
      lra.
  - intros [H0 H1]. split.
    + destruct (Z.le_gt_cases 0 c) as [?|Hneg]; [done|]. exfalso.
      assert (inject_Z c + 1 <= 0)%Q.
      { change 1%Q with (inject_Z 1). change 0%Q with (inject_Z 0).
        rewrite <- inject_Z_plus, <- Zle_Qle. lia. }
      assert ((inject_Z c + 1) * s <= 0 * s)%Q by (apply Qmult_le_compat_r; lra).
      lra.
    + destruct (Z.lt_ge_cases c n) as [?|Hge]; [done|]. exfalso.
      assert (inject_Z n <= inject_Z c)%Q by (by rewrite <- Zle_Qle).
      assert (inject_Z n * s <= inject_Z c * s)%Q by (apply Qmult_le_compat_r; lra).
      lra.
Qed.

Section Hit.
Context `{R : Runtime} `{!RuntimeSpec R}.
Import AnimatedMosaic.

Lemma hitTest_square options seed g plate g' canvas clientX clientY :
  plateFromSeed options seed g = Some (plate, g') ->
  (0 < width canvas)%Q ->
  let x := ((clientX - rect_left canvas) * (width canvas / rect_width canvas))%Q in
  let y := ((clientY - rect_top canvas) * (height canvas / rect_height canvas))%Q in
  let s := (width canvas / inject_Z (gridSize plate))%Q in
  (is_Some (hitTest canvas plate clientX clientY) <->
   (0 <= x /\ x < width canvas /\ 0 <= y /\ y < width canvas)%Q) /\
  forall r, hitTest canvas plate clientX clientY = Some r ->
    exists i sq,
      selectedIndex r = Some (Z.of_nat i) /\
      squares plate !! i = Some sq /\
      (inject_Z (Z.of_nat (col sq)) * s <= x /\
       x < (inject_Z (Z.of_nat (col sq)) + 1) * s)%Q /\
      (inject_Z (Z.of_nat (row sq)) * s <= y /\
       y < (inject_Z (Z.of_nat (row sq)) + 1) * s)%Q /\
      cr_isCorrect r = isOutlier sq /\
      correctIndex r = outlierIndex plate /\
      cr_plateType r = type plate /\ cr_difficulty r = difficulty plate.
Proof.
  intros Hp Hw x y s.
  pose proof (plateFromSeed_outlier _ _ _ _ _ Hp) as Ho. cbn zeta in Ho.
  destruct Ho as (Hn & Hoi & Hlen & Hsq).
  pose proof (plateFromSeed_cells _ _ _ _ _ Hp) as Hcell.
  set (n := gridSize plate) in *.
  assert (Hn0 : 0 < n) by lia.
  assert (Hn' : (0 < inject_Z n)%Q).
  { change 0%Q with (inject_Z 0). by rewrite <- Zlt_Qlt. }
  assert (Hs : (0 < s)%Q) by (subst s; apply Qlt_shift_div_l; lra).
  assert (Ew : (inject_Z n * s == width canvas)%Q) by (subst s; field; lra).
  pose proof (floor_in_grid x s n Hs) as Hx.
  pose proof (floor_in_grid y s n Hs) as Hy.
  rewrite Ew in Hx, Hy.
  unfold hitTest. fold n. fold x. fold y. fold s.
  set (c := JS.floor (x / s)) in *. set (r := JS.floor (y / s)) in *.
  destruct ((c <? 0) || (n <=? c) || (r <? 0) || (n <=? r)) eqn:Eout.
  - split.
    + split; [by intros [? ?]|]. intros (X0 & X1 & Y0 & Y1).
      apply proj2 in Hx. apply proj2 in Hy.
      specialize (Hx (conj X0 X1)). specialize (Hy (conj Y0 Y1)).
      exfalso. revert Eout.
      destruct (Z.ltb_spec c 0), (Z.leb_spec n c), (Z.ltb_spec r 0),
        (Z.leb_spec n r); cbn; try lia; discriminate.
    + intros ? [=].
  - apply orb_false_iff in Eout as [Eout E4].
    apply orb_false_iff in Eout as [Eout E3].
    apply orb_false_iff in Eout as [E1 E2].
    apply Z.ltb_ge in E1, E3. apply Z.leb_gt in E2, E4.
    apply proj1 in Hx. apply proj1 in Hy.
    specialize (Hx (conj E1 E2)). specialize (Hy (conj E3 E4)).
    split; [split; [intros _; tauto|intros _; by eexists]|].
    intros res [= <-]. cbn.
    set (i := Z.to_nat (r * n + c)).
    assert (Hi : (i < length (squares plate))%nat) by (rewrite Hlen; subst i; nia).
    destruct (lookup_lt_is_Some_2 _ _ Hi) as [sq Esq].
    exists i, sq.
    assert (Ei : Z.of_nat i = r * n + c) by (subst i; nia).
    destruct (Hcell i sq Esq) as [Hrow Hcol]. fold n in Hrow, Hcol.
    rewrite Ei in Hrow, Hcol.
    assert (Erow : Z.of_nat (row sq) = r).
    { rewrite Hrow, Z.div_add_l, Z.div_small by lia. lia. }
    assert (Ecol : Z.of_nat (col sq) = c).
    { rewrite Hcol, Z.add_comm, Z.mod_add, Z.mod_small by lia. lia. }
    rewrite Erow, Ecol, Ei.
    destruct (floor_cell x s Hs) as [? ?]. destruct (floor_cell y s Hs) as [? ?].
    split_and!; try done.
    destruct (Hsq i sq Esq) as [_ Hiff]. rewrite Ei in Hiff.
    destruct (isOutlier sq).
    + apply Z.eqb_eq. by apply Hiff.
    + apply Z.eqb_neq. intros E. by apply Hiff in E.
Qed.
End Hit.


Lemma generateTestSequence_plates `{R : Runtime} `{!RuntimeSpec R}
  (options : MosaicGenerator.SequenceOptions) (env : Env) :
  let plateCount := default 12 (MosaicGenerator.so_plateCount options) in
  let deutanRatio := default (67 # 100)%Q (MosaicGenerator.so_deutanRatio options) in
  let deutanCount := JS.round (inject_Z plateCount * deutanRatio) in
  (deutanCount < 0 \/ plateCount < deutanCount ->
   (MosaicGenerator.generateTestSequence options env).1 = None) /\
  (1 <= plateCount < 4294967296 -> 0 <= deutanCount <= plateCount ->
   exists plates,
     (MosaicGenerator.generateTestSequence options env).1 = Some plates /\
     Z.of_nat (length plates) = plateCount /\
     Z.of_nat (length (filter (fun p => MosaicGenerator.type p = "deutanConfusion")
                              plates)) = deutanCount /\
     Z.of_nat (length (filter (fun p => MosaicGenerator.type p = "control") plates))
       = plateCount - deutanCount /\
     forall i plate, plates !! i = Some plate ->
       MosaicGenerator.difficulty plate =
         default "medium" (MosaicGenerator.so_difficulty options) /\
       MosaicGenerator.filterParams plate = MosaicGenerator.so_filterParams options /\
       MosaicGenerator.t_type (MosaicGenerator.plate_target plate) =
         default "number" (MosaicGenerator.targetTypes !! (i mod 4)%nat)).
Proof.
  intros pc ratio d. unfold MosaicGenerator.generateTestSequence.
  fold pc. fold ratio. fold d.
  destruct (match MosaicGenerator.so_seed options with Some s => _ | None => _ end)
    as [seed0 e1].
  unfold MosaicGenerator.arrayFill. split.
  - intros [Hneg|Hbig].
    + destruct (Z.ltb_spec d 0); [done|lia].
    + destruct (Z.ltb_spec d 0); [done|].
      destruct (Z.ltb_spec (pc - d) 0); [done|lia].
  - intros [Hpc _] [Hd0 Hd1].
    destruct (Z.ltb_spec d 0); [lia|].
    destruct (Z.ltb_spec (pc - d) 0); [lia|].
    set (l := (replicate (Z.to_nat d) "deutanConfusion" ++
               replicate (Z.to_nat (pc - d)) "control")%list).
    assert (Hl : l <> []).
    { subst l. intros E. apply (f_equal length) in E.
      rewrite length_app, !length_replicate in E. simpl in E. lia. }
    destruct (Utils.shuffleArray l (createRNG seed0)) as [[sh g]|] eqn:Es.
    2:{ unfold Utils.shuffleArray in Es. destruct l as [|a l']; [done|].
        by destruct (fisherYates_total (length (a :: l') - 1) (a :: l')
                       (createRNG seed0)) as [[? ?] E]; rewrite E in Es. }
    pose proof (shuffleArray_Permutation _ _ _ _ Es) as Hperm.
    pose proof (generateEach_total seed0
                  (default "medium" (MosaicGenerator.so_difficulty options))
                  (MosaicGenerator.so_filterParams options) sh 0 e1) as [ps Hps].
    destruct (MosaicGenerator.generateEach _ _ _ sh 0 e1) as [ps' e2] eqn:Eg.
    cbn in Hps. subst ps'. exists ps. split; [reflexivity|].
    apply generateEach_Some in Eg as [Hty Hall].
    assert (Hlen : length ps = length l).
    { rewrite <- (length_map MosaicGenerator.type), Hty. by rewrite Hperm. }
    split.
    { rewrite Hlen. subst l. rewrite length_app, !length_replicate. lia. }
    split; [|split].
    + rewrite filter_type_length.
      rewrite Hty, Hperm. subst l. rewrite filter_app, filter_replicate_same.
      rewrite filter_replicate_other by done.
      rewrite app_nil_r, length_replicate. lia.
    + rewrite filter_type_length.
      rewrite Hty, Hperm. subst l. rewrite filter_app, filter_replicate_same.
      rewrite filter_replicate_other by done.
      rewrite app_nil_l, length_replicate. lia.
    + intros i plate Hi. destruct (Hall i plate Hi) as (? & ? & ? & _). done.
Qed.

Lemma round_share (c : Z) (r : Q) :
  (1 # 2 < r)%Q -> (r < 1)%Q ->
  (c < 0 -> JS.round (inject_Z c * r) < 0) /\
  (0 <= c -> 0 <= JS.round (inject_Z c * r) <= c).
Proof.
  intros H0 H1. unfold JS.round. split.
  - intros Hc.
    assert (inject_Z c <= -1)%Q.
    { change (-1)%Q with (inject_Z (-1)). rewrite <- Zle_Qle. lia. }
    assert (inject_Z c * r <= -1 * r)%Q by (apply Qmult_le_compat_r; lra).
    pose proof (Qfloor_le (inject_Z c * r + (1 # 2))) as Hl.
    assert (Hlt : (inject_Z (Qfloor (inject_Z c * r + (1 # 2))) < inject_Z 0)%Q)
      by (change (inject_Z 0) with 0%Q; lra).
    by rewrite <- Zlt_Qlt in Hlt.
  - intros Hc.
    assert (0 <= inject_Z c)%Q.
    { change 0%Q with (inject_Z 0). by rewrite <- Zle_Qle. }
    assert (0 <= inject_Z c * r)%Q by (apply Qmult_le_0_compat; lra).
    split.
    + change 0 with (Qfloor 0). apply Qfloor_resp_le. lra.
    + apply Z.lt_succ_r.
      pose proof (Qfloor_le (inject_Z c * r + (1 # 2))) as Hl.
      assert (inject_Z c * r <= inject_Z c)%Q.
      { rewrite <- (Qmult_1_r (inject_Z c)) at 2.
        rewrite !(Qmult_comm (inject_Z c)). apply Qmult_le_compat_r; lra. }
      assert (Hlt : (inject_Z (Qfloor (inject_Z c * r + (1 # 2))) < inject_Z (Z.succ c))%Q).
      { unfold Z.succ. rewrite inject_Z_plus. change (inject_Z 1) with 1%Q. lra. }
      by rewrite <- Zlt_Qlt in Hlt.
Qed.


Section AnimatedSequences.
Context `{R : Runtime} `{!RuntimeSpec R}.
Import AnimatedMosaic.

Lemma getDifficulty_cases progressive total (index : nat) :
  0 < total ->
  AnimatedMosaic.getDifficulty progressive total index =
    if negb progressive then "medium"
    else if (4 * Z.of_nat index <? total)%Z then "easy"
    else if (10 * Z.of_nat index <? 6 * total)%Z then "medium"
    else "hard".
Proof.
  intros Ht. unfold AnimatedMosaic.getDifficulty. destruct progressive; cbn [negb]; [|done].
  assert (Ht' : (0 < inject_Z total)%Q).
  { change 0%Q with (inject_Z 0). by rewrite <- Zlt_Qlt. }
  set (i := Z.of_nat index).
  assert (E1 : JS.Qlt_bool (inject_Z i / inject_Z total) (25 # 100) = (4 * i <? total)%Z).
  { destruct (Z.ltb_spec (4 * i) total) as [H|H].
    - apply JSFacts.Qlt_bool_iff. apply Qlt_shift_div_r; [done|].
      assert (inject_Z (4 * i) < inject_Z total)%Q by (by rewrite <- Zlt_Qlt).
      rewrite inject_Z_mult in H0. change (inject_Z 4) with 4%Q in H0. lra.
    - apply JSFacts.Qlt_bool_false. apply Qle_shift_div_l; [done|].
      assert (inject_Z total <= inject_Z (4 * i))%Q by (by rewrite <- Zle_Qle).
      rewrite inject_Z_mult in H0. change (inject_Z 4) with 4%Q in H0. lra. }
  assert (E2 : JS.Qlt_bool (inject_Z i / inject_Z total) (6 # 10) = (10 * i <? 6 * total)%Z).
  { destruct (Z.ltb_spec (10 * i) (6 * total)) as [H|H].
    - apply JSFacts.Qlt_bool_iff. apply Qlt_shift_div_r; [done|].
      assert (inject_Z (10 * i) < inject_Z (6 * total))%Q by (by rewrite <- Zlt_Qlt).
      rewrite !inject_Z_mult in H0. change (inject_Z 10) with 10%Q in H0.
      change (inject_Z 6) with 6%Q in H0. lra.
    - apply JSFacts.Qlt_bool_false. apply Qle_shift_div_l; [done|].
      assert (inject_Z (6 * total) <= inject_Z (10 * i))%Q by (by rewrite <- Zle_Qle).
      rewrite !inject_Z_mult in H0. change (inject_Z 10) with 10%Q in H0.
      change (inject_Z 6) with 6%Q in H0. lra. }
  by rewrite E1, E2.
Qed.

Lemma getSubtlety_range total (index : nat) :
  Z.of_nat index < total ->
  (1 <= AnimatedMosaic.getSubtlety total index /\ AnimatedMosaic.getSubtlety total index < 3 # 2)%Q.
Proof.
  intros Hi. unfold AnimatedMosaic.getSubtlety.
  assert (Ht' : (0 < inject_Z total)%Q).
  { change 0%Q with (inject_Z 0). rewrite <- Zlt_Qlt. lia. }
  assert (0 <= inject_Z (Z.of_nat index))%Q.
  { change 0%Q with (inject_Z 0). rewrite <- Zle_Qle. lia. }
  assert (inject_Z (Z.of_nat index) < inject_Z total)%Q by (by rewrite <- Zlt_Qlt).
  assert (0 <= inject_Z (Z.of_nat index) / inject_Z total)%Q
    by (apply Qle_shift_div_l; lra).
  assert (inject_Z (Z.of_nat index) / inject_Z total < 1)%Q
    by (apply Qlt_shift_div_r; lra).
  lra.
Qed.

Lemma animated_plateFromSeed_options options seed g plate g' :
  plateFromSeed options seed g = Some (plate, g') ->
  difficulty plate = default "medium" (o_difficulty options) /\
  type plate = default "deutan" (o_type options) /\
  subtlety plate = default 1%Q (o_subtlety options) /\
  gridSize plate = default 3 (gridSizes !! difficulty plate).
Proof.
  unfold plateFromSeed. intros Hp.
  apply bind_Some in Hp as (pal & g1 & _ & Hp).
  apply bind_Some in Hp as (u & g2 & Hu & Hp).
  apply bind_Some in Hp as (sqs & g3 & Hsq & Hp).
  by injection Hp as <- <-.
Qed.

Lemma animated_generatePlate_total options world :
  exists plate, fst (generatePlate options world) = Some plate.
Proof.
  unfold generatePlate. destruct world as [perm env].
  destruct (match o_seed options with Some s => _ | None => _ end) as [seed env1].
  destruct (plateFromSeed_total options seed (createRNG seed)) as [[plate g0] E].
  exists plate. cbn [fst]. by rewrite E.
Qed.

(** The plates of [generateEach], position by position. *)
Lemma animated_generateEach_plates baseSeed progressive total types index world :
  exists ps, fst (AnimatedMosaic.generateEach baseSeed progressive total types index world) = Some ps /\
    map type ps = types /\
    forall i plate, ps !! i = Some plate ->
      difficulty plate = AnimatedMosaic.getDifficulty progressive total (index + i) /\
      subtlety plate = AnimatedMosaic.getSubtlety total (index + i) /\
      gridSize plate = default 3 (gridSizes !! difficulty plate) /\
      0 <= outlierIndex plate < gridSize plate * gridSize plate /\
      length (squares plate) = Z.to_nat (gridSize plate * gridSize plate).
Proof.
  revert index world. induction types as [|t types IH]; intros index world;
    cbn [AnimatedMosaic.generateEach].
  - exists []. split; [done|]. split; [done|]. intros i plate Hi.
    by rewrite lookup_nil in Hi.
  - destruct world as [perm env]. destruct (generateSeed _ env) as [s e1].
    match goal with |- context [generatePlate ?o ?w] =>
      destruct (animated_generatePlate_total o w) as [p Hp];
      pose proof (generatePlate_fromSeed o w p Hp) as (sd & g & g' & Hfs);
      destruct (generatePlate o w) as [p' w1] end.
    cbn [fst] in Hp. subst p'.
    destruct (IH (S index) w1) as (ps & E & Hty & Hall).
    destruct (AnimatedMosaic.generateEach _ _ _ types (S index) w1) as [ps' w2].
    cbn [fst] in E. subst ps'. exists (p :: ps). split; [done|].
    pose proof (animated_plateFromSeed_options _ _ _ _ _ Hfs) as (P1 & P2 & P3 & P4).
    pose proof (plateFromSeed_outlier _ _ _ _ _ Hfs) as Ho. cbn zeta in Ho.
    destruct Ho as (_ & Ho & Hlen & _).
    cbn [o_difficulty o_type o_subtlety from_option id] in P1, P2, P3.
    split; [cbn; by rewrite P2, Hty|].
    intros [|i] plate Hi; cbn in Hi.
    + injection Hi as <-. rewrite Nat.add_0_r. done.
    + replace (index + S i)%nat with (S index + i)%nat by lia. by apply Hall.
Qed.

Lemma filter_animated_type_length (t : string) (l : list Plate) :
  length (filter (fun p => type p = t) l) =
  length (filter (fun x => x = t) (map type l)).
Proof.
  induction l as [|a l IH]; [done|]. cbn [map]. rewrite !filter_cons.
  destruct (decide (type a = t)); cbn [length]; by rewrite IH.
Qed.

Lemma animated_generateTestSequence_plates (options : AnimatedMosaic.SequenceOptions)
  (world : list Z * Env) :
  let totalPlates := default 16 (AnimatedMosaic.so_totalPlates options) in
  let deutanRatio := default (625 # 1000)%Q (AnimatedMosaic.so_deutanRatio options) in
  let progressive := default true (AnimatedMosaic.so_progressiveDifficulty options) in
  let deutanCount := JS.round (inject_Z totalPlates * deutanRatio) in
  (deutanCount < 0 \/ totalPlates < deutanCount ->
   fst (AnimatedMosaic.generateTestSequence options world) = None) /\
  (1 <= totalPlates < 4294967296 -> 0 <= deutanCount <= totalPlates ->
   exists plates,
     fst (AnimatedMosaic.generateTestSequence options world) = Some plates /\
     Z.of_nat (length plates) = totalPlates /\
     Z.of_nat (length (filter (fun p => type p = "deutan") plates)) = deutanCount /\
     Z.of_nat (length (filter (fun p => type p = "control") plates))
       = totalPlates - deutanCount /\
     forall i plate, plates !! i = Some plate ->
       difficulty plate =
         (if negb progressive then "medium"
          else if (4 * Z.of_nat i <? totalPlates)%Z then "easy"
          else if (10 * Z.of_nat i <? 6 * totalPlates)%Z then "medium"
          else "hard") /\
       gridSize plate = default 3 (gridSizes !! difficulty plate) /\
       subtlety plate = AnimatedMosaic.getSubtlety totalPlates i /\
       (1 <= subtlety plate /\ subtlety plate < 3 # 2)%Q /\
       0 <= outlierIndex plate < gridSize plate * gridSize plate /\
       length (squares plate) = Z.to_nat (gridSize plate * gridSize plate)).
Proof.
  intros pc ratio prog d. unfold AnimatedMosaic.generateTestSequence.
  fold pc. fold ratio. fold d. fold prog. destruct world as [perm env].
  destruct (match AnimatedMosaic.so_baseSeed options with Some s => _ | None => _ end)
    as [seed0 e1].
  unfold MosaicGenerator.arrayFill. split.
  - intros [Hneg|Hbig].
    + destruct (Z.ltb_spec d 0); [done|lia].
    + destruct (Z.ltb_spec d 0); [done|].
      destruct (Z.ltb_spec (pc - d) 0); [done|lia].
  - intros [Hpc _] [Hd0 Hd1].
    destruct (Z.ltb_spec d 0); [lia|].
    destruct (Z.ltb_spec (pc - d) 0); [lia|].
    set (l := (replicate (Z.to_nat d) "deutan" ++
               replicate (Z.to_nat (pc - d)) "control")%list).
    assert (Hl : l <> []).
    { subst l. intros E. apply (f_equal length) in E.
      rewrite length_app, !length_replicate in E. simpl in E. lia. }
    destruct (shuffleArray_Some l (createRNG seed0) Hl) as (sh & g & Es & Hperm).
    rewrite Es.
    destruct (animated_generateEach_plates seed0 prog pc sh 0 (perm, e1))
      as (ps & E & Hty & Hall).
    exists ps. split; [exact E|].
    assert (Hlen : length ps = length l).
    { rewrite <- (length_map type), Hty. by rewrite Hperm. }
    assert (Hlen' : Z.of_nat (length ps) = pc).
    { rewrite Hlen. subst l. rewrite length_app, !length_replicate. lia. }
    split; [done|]. split; [|split].
    + rewrite filter_animated_type_length.
      rewrite Hty, Hperm. subst l. rewrite filter_app, filter_replicate_same.
      rewrite filter_replicate_other by done.
      rewrite app_nil_r, length_replicate. lia.
    + rewrite filter_animated_type_length.
      rewrite Hty, Hperm. subst l. rewrite filter_app, filter_replicate_same.
      rewrite filter_replicate_other by done.
      rewrite app_nil_l, length_replicate. lia.
    + intros i plate Hi. destruct (Hall i plate Hi) as (D & S & G & O & L).
      cbn [Nat.add] in D, S. apply lookup_lt_Some in Hi.
      rewrite <- getDifficulty_cases by lia.
      destruct (getSubtlety_range pc i) as [S1 S2]; [lia|].
      rewrite <- S in S1, S2. split_and!; try done; lia.
Qed.
End AnimatedSequences.

Lemma generatePlates_modes `{R : Runtime} `{!RuntimeSpec R} (mode : string)
  (seed : Seed) (world : list Z * Env) :
  let count := if decide (mode = "tuning") then 8
               else if decide (mode = "validation") then 12 else 16 in
  let deutans := if decide (mode = "tuning") then 7
                 else if decide (mode = "validation") then 8 else 10 in
  exists plates,
    fst (OutlierTestEngine.generatePlates mode seed world) = Some plates /\
    Z.of_nat (length plates) = count /\
    Z.of_nat (length (filter (fun p => AnimatedMosaic.type p = "deutan") plates))
      = deutans /\
    Z.of_nat (length (filter (fun p => AnimatedMosaic.type p = "control") plates))
      = count - deutans /\
    forall i plate, plates !! i = Some plate ->
      AnimatedMosaic.difficulty plate =
        (if decide (mode = "baseline")
         then if decide (i < 4)%nat then "easy"
              else if decide (i < 10)%nat then "medium" else "hard"
         else "medium") /\
      AnimatedMosaic.gridSize plate =
        (if decide (mode = "baseline")
         then if decide (i < 4)%nat then 2 else if decide (i < 10)%nat then 3 else 4
         else 3).
Proof.
  intros count deutans. unfold OutlierTestEngine.generatePlates.
  set (so := fun (c : Z) (r : Q) =>
    {| AnimatedMosaic.so_totalPlates := Some c; AnimatedMosaic.so_deutanRatio := Some r;
       AnimatedMosaic.so_baseSeed := Some seed;
       AnimatedMosaic.so_progressiveDifficulty := Some (bool_decide (mode = "baseline")) |}).
  assert (Hgen : forall c r dd,
    1 <= c < 4294967296 -> JS.round (inject_Z c * r) = dd -> 0 <= dd <= c ->
    exists plates,
      fst (AnimatedMosaic.generateTestSequence (so c r) world) = Some plates /\
      Z.of_nat (length plates) = c /\
      Z.of_nat (length (filter (fun p => AnimatedMosaic.type p = "deutan") plates)) = dd /\
      Z.of_nat (length (filter (fun p => AnimatedMosaic.type p = "control") plates))
        = c - dd /\
      forall i plate, plates !! i = Some plate ->
        AnimatedMosaic.difficulty plate =
          (if negb (bool_decide (mode = "baseline")) then "medium"
           else if (4 * Z.of_nat i <? c)%Z then "easy"
           else if (10 * Z.of_nat i <? 6 * c)%Z then "medium" else "hard") /\
        AnimatedMosaic.gridSize plate =
          default 3 (AnimatedMosaic.gridSizes !! AnimatedMosaic.difficulty plate)).
  { intros c r dd Hc Hd Hdd.
    destruct (animated_generateTestSequence_plates (so c r) world) as [_ H].
    cbn [AnimatedMosaic.so_totalPlates AnimatedMosaic.so_deutanRatio AnimatedMosaic.so_progressiveDifficulty so
         default from_option id] in H.
    rewrite Hd in H. destruct (H Hc Hdd) as (plates & E & L & D & C & Hall).
    exists plates. split_and!; try done.
    intros i plate Hi. by destruct (Hall i plate Hi) as (? & ? & _). }
  assert (Hcase : forall c r dd,
    1 <= c < 4294967296 -> JS.round (inject_Z c * r) = dd -> 0 <= dd <= c ->
    (mode = "baseline" -> c = 16) ->
    exists plates,
      fst (AnimatedMosaic.generateTestSequence (so c r) world) = Some plates /\
      Z.of_nat (length plates) = c /\
      Z.of_nat (length (filter (fun p => AnimatedMosaic.type p = "deutan") plates)) = dd /\
      Z.of_nat (length (filter (fun p => AnimatedMosaic.type p = "control") plates))
        = c - dd /\
      forall i plate, plates !! i = Some plate ->
        AnimatedMosaic.difficulty plate =
          (if decide (mode = "baseline")
           then if decide (i < 4)%nat then "easy"
                else if decide (i < 10)%nat then "medium" else "hard"
           else "medium") /\
        AnimatedMosaic.gridSize plate =
          (if decide (mode = "baseline")
           then if decide (i < 4)%nat then 2 else if decide (i < 10)%nat then 3 else 4
           else 3)).
  { intros c r dd Hc Hd Hdd Hb.
    destruct (Hgen c r dd Hc Hd Hdd) as (plates & E & L & D & C & Hall).
    exists plates. split_and!; try done.
    intros i plate Hi. destruct (Hall i plate Hi) as [Hdiff Hgrid].
    rewrite Hgrid, Hdiff. clear Hgrid Hdiff.
    destruct (decide (mode = "baseline")) as [Hm|Hm].
    - rewrite bool_decide_eq_true_2 by done. cbn [negb]. rewrite (Hb Hm).
      destruct (decide (i < 4)%nat), (decide (i < 10)%nat);
        destruct (Z.ltb_spec (4 * Z.of_nat i) 16);
        destruct (Z.ltb_spec (10 * Z.of_nat i) (6 * 16)); try lia; done.
    - rewrite bool_decide_eq_false_2 by done. done. }
  subst count deutans.
  destruct (decide (mode = "baseline")) as [->|Hb].
  { rewrite decide_False by done. rewrite decide_False by done.
    apply (Hcase 16 (625 # 1000)%Q 10); try done; lia. }
  destruct (decide (mode = "tuning")) as [->|Ht].
  { apply (Hcase 8 (875 # 1000)%Q 7); try done; lia. }
  destruct (decide (mode = "validation")) as [->|Hv].
  { apply (Hcase 12 (667 # 1000)%Q 8); try done; lia. }
  apply (Hcase 16 (625 # 1000)%Q 10); try done; lia.
Qed.

Section Types.
Context `{R : Runtime} `{!RuntimeSpec R}.
Import AnimatedMosaic.

Lemma animated_generateTestSequence_types options world plates :
  fst (generateTestSequence options world) = Some plates ->
  Forall (fun p => (type p = "deutan" \/ type p = "control") /\ 0 < gridSize p)
         plates.
Proof.
  unfold generateTestSequence. destruct world as [perm env].
  destruct (match so_baseSeed options with Some s => _ | None => _ end)
    as [seed0 e1].
  unfold MosaicGenerator.arrayFill.
  destruct (_ <? 0)%Z; [done|]. destruct (_ <? 0)%Z; [done|].
  match goal with |- context [Utils.shuffleArray ?l ?g] =>
    destruct (Utils.shuffleArray l g) as [[sh g']|] eqn:Es; [|done];
    pose proof (shuffleArray_Permutation _ _ _ _ Es) as Hperm end.
  match goal with |- context [generateEach ?a ?b ?c sh 0 ?w] =>
    destruct (animated_generateEach_plates a b c sh 0 w) as (ps & E & Hty & Hall) end.
  rewrite E. intros [= <-].
  apply Forall_forall. intros p Hp. split.
  - assert (Hin : type p ∈ sh) by (rewrite <- Hty; by apply list_elem_of_fmap_2).
    rewrite Hperm in Hin. apply elem_of_app in Hin as [Hin|Hin];
      apply elem_of_replicate in Hin as [-> _]; [by left|by right].
  - apply list_elem_of_lookup in Hp as [i Hi].
    destruct (Hall i p Hi) as (_ & _ & -> & _).
    pose proof (gridSizes_cases (difficulty p)) as Hg. cbn zeta in Hg. lia.
Qed.
End Types.


End GeneratorFacts.

(** ** Facts about plate sequences and the tuning engine *)

Module TuningFacts.

Import ColorFilter ColorFilterFacts GeneratorFacts.

Local Open Scope Z_scope.

Section SequenceFacts.
Context `{R : Runtime}.
Import MosaicGenerator.

Lemma swap_length {A} (l : list A) i j : length (Utils.swap l i j) = length l.
Proof.
  unfold Utils.swap. destruct (l !! i), (l !! j); try done.
  by rewrite !length_insert.
Qed.

Lemma fisherYates_length {A} i (l : list A) g l' g' :
  Utils.fisherYates i l g = Some (l', g') -> length l' = length l.
Proof.
  revert l g. induction i as [|i IH]; intros l g; simpl.
  - by intros [= <- <-].
  - unfold Utils.bind, Utils.draw. destruct (rngNext g) as [u g1].
    intros H. apply IH in H. by rewrite swap_length in H.
Qed.

Lemma shuffleArray_length {A} (l : list A) g l' g' :
  Utils.shuffleArray l g = Some (l', g') -> length l' = length l /\ l <> [].
Proof.
  unfold Utils.shuffleArray. destruct l as [|a l]; [done|].
  intros H. apply fisherYates_length in H. done.
Qed.

Lemma generateEach_length seed difficulty fp types index env ps env' :
  generateEach seed difficulty fp types index env = (Some ps, env') ->
  length ps = length types.
Proof.
  revert index env ps env'. induction types as [|t types IH];
    intros index env ps env'; cbn [generateEach].
  - by intros [= <- <-].
  - destruct (generateSeed _ env) as [s e1].
    match goal with |- context [generatePlate ?o e1] =>
      destruct (generatePlate o e1) as [[p|] e2] end; [|done].
    destruct (generateEach _ _ _ types _ e2) as [[ps'|] e3] eqn:E; [|done].
    intros [= <- <-]. simpl. f_equal. by eapply IH.
Qed.

Lemma generateTestSequence_length options env ps env' :
  generateTestSequence options env = (Some ps, env') ->
  length ps = Z.to_nat (default 12 (so_plateCount options)) /\
  1 <= default 12 (so_plateCount options).
Proof.
  unfold generateTestSequence.
  set (pc := default 12 (so_plateCount options)).
  set (d := JS.round _).
  destruct (match so_seed options with Some s => _ | None => _ end) as [seed e1].
  unfold arrayFill.
  destruct (Z.ltb_spec d 0) as [|Hd]; [done|].
  destruct (Z.ltb_spec (pc - d) 0) as [|Hc]; [done|].
  destruct (Utils.shuffleArray _ _) as [[sh g]|] eqn:Es; [|done].
  intros Hg. apply generateEach_length in Hg.
  apply shuffleArray_length in Es as [Hl Hne].
  rewrite length_app, !length_replicate in Hl.
  assert (Z.to_nat d + Z.to_nat (pc - d) <> 0)%nat.
  { intros E. apply Hne. destruct (Z.to_nat d), (Z.to_nat (pc - d)); done. }
  lia.
Qed.

Lemma generateTuningSequence_length count fp seed env ps env' :
  generateTuningSequence
    {| so_plateCount := Some count; so_deutanRatio := None;
       so_seed := Some seed; so_difficulty := None;
       so_filterParams := fp |} env = (Some ps, env') ->
  length ps = Z.to_nat count /\ 1 <= count.
Proof. unfold generateTuningSequence. intros H. by apply generateTestSequence_length in H. Qed.

End SequenceFacts.

Import TuningEngine.

Section WithRuntime.
Context `{R : Runtime}.

Lemma after_Normal events r st events' env :
  after events r = Some (Normal (st, events', env)) <->
  exists ev, r = Some (Normal (st, ev, env)) /\ events' = events ++ ev.
Proof.
  unfold after. destruct r as [[[[s e] v]|]|]; split.
  - intros [= <- <- <-]. by eexists.
  - by intros (ev & [= <- <- <-] & ->).
  - done.
  - by intros (? & ? & _).
  - done.
  - by intros (? & ? & _).
Qed.

Lemma after_None events r : after events r = None <-> r = None.
Proof. unfold after. by destruct r as [[[[s e] v]|]|]. Qed.

Lemma completeRoundFuel_unfold fuel cfg st env :
  completeRoundFuel fuel cfg st env =
  let '(st1, rr) := scoreRound st in
  after [RoundComplete rr (bestScore st1)]
    (if shouldContinue cfg st1 then
       match adjustParameters st1 env with
       | Thrown => Some Thrown
       | Normal (st2, env2) =>
         startRoundWith
           (match fuel with
            | O => fun _ _ => None
            | S fuel' => completeRoundFuel fuel' cfg
            end) cfg st2 env2
       end
     else Some (Normal (complete st1 env))).
Proof. destruct fuel; reflexivity. Qed.

Lemma shouldContinue_true cfg st :
  shouldContinue cfg st = true <->
  currentRound st < st_maxRounds st /\ bestScore st < 100 /\
  match noImprovementCount st with
  | Some n => n < maxNoImprovement cfg
  | None => True
  end.
Proof.
  unfold shouldContinue.
  destruct (Z.leb_spec (st_maxRounds st) (currentRound st));
    destruct (Z.leb_spec 100 (bestScore st));
    destruct (noImprovementCount st) as [n|];
    try destruct (Z.leb_spec (maxNoImprovement cfg) n);
    split; try done; try lia; intros (? & ? & ?); lia.
Qed.

Lemma shouldContinue_false cfg st :
  shouldContinue cfg st = false <->
  st_maxRounds st <= currentRound st \/ 100 <= bestScore st \/
  exists n, noImprovementCount st = Some n /\ maxNoImprovement cfg <= n.
Proof.
  destruct (shouldContinue cfg st) eqn:E.
  - apply shouldContinue_true in E as (? & ? & Hn). split; [done|].
    intros [?|[?|(n & Hs & ?)]]; try lia. rewrite Hs in Hn. lia.
  - split; [intros _|done].
    destruct (Z.leb_spec (st_maxRounds st) (currentRound st)); [by left|].
    destruct (Z.leb_spec 100 (bestScore st)); [by right; left|].
    right; right. destruct (noImprovementCount st) as [n|] eqn:En.
    + exists n. split; [done|].
      destruct (Z.leb_spec (maxNoImprovement cfg) n); [done|].
      assert (shouldContinue cfg st = true); [|congruence].
      apply shouldContinue_true. rewrite En. lia.
    + assert (shouldContinue cfg st = true); [|congruence].
      apply shouldContinue_true. rewrite En. lia.
Qed.

(** Fuel: the rounds left bound the nesting of [completeRound]. *)
Lemma completeRoundFuel_total fuel cfg st env :
  (roundsLeft st <= fuel)%nat -> completeRoundFuel fuel cfg st env <> None.
Proof.
  revert st env. induction fuel as [|fuel IH]; intros st env Hf;
    rewrite completeRoundFuel_unfold;
    destruct (scoreRound st) as [st1 rr] eqn:Es;
    assert (Hc : currentRound st1 = currentRound st /\
                 st_maxRounds st1 = st_maxRounds st)
      by (unfold scoreRound in Es; injection Es as <- _; done);
    destruct Hc as [Hc1 Hc2];
    rewrite after_None;
    destruct (shouldContinue cfg st1) eqn:Esc; try done;
    apply shouldContinue_true in Esc as (Hlt & _);
    unfold roundsLeft in Hf; try lia.
  destruct (adjustParameters st1 env) as [[st2 env2]|] eqn:Ea; [|done].
  assert (Hc : currentRound st2 = currentRound st1 /\
               st_maxRounds st2 = st_maxRounds st1).
  { unfold adjustParameters in Ea. destruct (last _); [|done].
    destruct (chooseNext _ _ _) as [[c|] e]; [|done].
    injection Ea as <- _. done. }
  destruct Hc as [Hd1 Hd2].
  unfold startRoundWith.
  destruct (generateSeed _ env2) as [seed env3].
  destruct (MosaicGenerator.generateTuningSequence _ env3) as [[plates|] env4];
    [|done].
  rewrite after_None. unfold showCurrentPlateWith. simpl.
  destruct (plates !! 0%nat); [by destruct (dateNow env4)|].
  apply IH. unfold roundsLeft. simpl. lia.
Qed.


#[local] Arguments normalizeParams : simpl never.

Lemma roundsStarted_app (a b : list Event) :
  roundsStarted (a ++ b) = roundsStarted a + roundsStarted b.
Proof. unfold roundsStarted. rewrite List.filter_app, length_app. lia. Qed.

Lemma adjustParameters_Normal st env st2 env2 :
  adjustParameters st env = Normal (st2, env2) ->
  exists chosen,
    st2 = {| isRunning := isRunning st; currentRound := currentRound st;
             st_maxRounds := st_maxRounds st;
             currentParams := Some (normalizeParams chosen);
             bestParams := bestParams st; bestScore := bestScore st;
             baselineScore := baselineScore st; history := history st;
             noImprovementCount := noImprovementCount st;
             plateIndex := plateIndex st;
             currentPlates := currentPlates st;
             plateResponses := plateResponses st;
             plateStartTime := plateStartTime st |}.
Proof.
  unfold adjustParameters. destruct (last _); [|done].
  destruct (chooseNext _ _ _) as [[c|] e]; [|done].
  intros [= <- <-]. by exists c.
Qed.

Lemma completeRoundFuel_invariant fuel cfg st env st' ev env' :
  roundOver cfg st ->
  completeRoundFuel fuel cfg st env = Some (Normal (st', ev, env')) ->
  invariant cfg st' /\
  roundsStarted ev = currentRound st' - currentRound st /\
  responsesLeft cfg st' <=
    (maxRounds cfg - currentRound st) * platesPerRound cfg.
Proof.
  intros (P1 & P2 & P3 & P4 & (p & P5 & P5') & (bp & P6 & P6') & P7 & (n & P8) & P9 & P10).
  rewrite completeRoundFuel_unfold.
  destruct (scoreRound st) as [st1 rr] eqn:Es.
  unfold scoreRound in Es. injection Es as <- <-.
  set (sc := Utils.percentage _ _).
  intros H. apply after_Normal in H as (ev1 & H & ->).
  match type of H with (if shouldContinue cfg ?s then _ else _) = _ =>
    set (st1 := s) in *; destruct (shouldContinue cfg st1) eqn:Esc end.
  - apply shouldContinue_true in Esc as (C1 & C2 & C3).
    destruct (adjustParameters st1 env) as [[st2 env2]|] eqn:Ea; [|done].
    apply adjustParameters_Normal in Ea as (chosen & ->).
    unfold startRoundWith in H.
    destruct (generateSeed _ env2) as [seed env3].
    cbn [currentRound currentParams platesPerRound] in H.
    destruct (MosaicGenerator.generateTuningSequence _ env3)
      as [[plates|] env4] eqn:Eg; [|done].
    apply generateTuningSequence_length in Eg as [Hlen Hcount].
    apply after_Normal in H as (ev2 & H & ->).
    unfold showCurrentPlateWith in H. cbn [currentPlates plateIndex] in H.
    destruct (plates !! 0%nat) as [plate|] eqn:Ep.
    2:{ apply lookup_ge_None in Ep. lia. }
    destruct (dateNow env4) as [now env5].
    injection H as <- <- <-.
    subst st1. cbn in C1, C2, C3 |- *.
    split; [|split].
    + unfold invariant. cbn. rewrite P1, P3 in *. rewrite length_app. cbn.
      split_and!; try lia.
      * eexists. split; [done|]. apply normalizeParams_in_ranges.
      * destruct (bestScore st <? sc); [exists p; by rewrite P5|by exists bp].
      * apply Forall_app. split; [done|]. constructor; [|done].
        cbn. by rewrite P5.
      * destruct (bestScore st <? sc); [by eexists|]. rewrite P8. by eexists.
      * intros _. split_and!; try lia.
        intros _. split; [lia|]. unfold stall. cbn.
        destruct (bestScore st <? sc); cbn in *; [lia|].
        rewrite P8 in *. cbn in *. lia.
    + unfold roundsStarted. cbn. lia.
    + unfold responsesLeft. cbn. rewrite P3. rewrite Hlen. nia.
  - apply shouldContinue_false in Esc.
    injection H as <- <- <-. subst st1. cbn in Esc |- *.
    split; [|split].
    + unfold invariant. cbn. rewrite P1 in *. rewrite length_app. cbn.
      split_and!; try lia.
      * by exists p.
      * destruct (bestScore st <? sc); [exists p; by rewrite P5|by exists bp].
      * apply Forall_app. split; [done|]. constructor; [|done].
        cbn. by rewrite P5.
      * destruct (bestScore st <? sc); [by eexists|]. rewrite P8. by eexists.
      * intros _. split; [by apply lookup_ge_None|].
        intros _. unfold stall. cbn.
        destruct Esc as [?|[?|(m & Hm & ?)]]; [by left|by right; left|].
        right; right. rewrite Hm. done.
    + unfold roundsStarted. cbn. lia.
    + unfold responsesLeft. cbn. nia.
Qed.


Lemma params_of_in_ranges (h i s b c : Q) :
  (-60 <= h <= 60)%Q -> (0 <= i <= 1)%Q -> (-20 <= s <= 40)%Q ->
  (-20 <= b <= 20)%Q -> (-20 <= c <= 20)%Q ->
  in_ranges (params_of h i s b c).
Proof.
  intros Hh Hi Hs Hb Hc param range. unfold paramRanges. cbn [In].
  intros [E|[E|[E|[E|[E|[]]]]]]; inversion E; subst; cbn;
    eexists; (split; [reflexivity|]); done.
Qed.

Lemma getInitialParams_in_ranges severity :
  in_ranges (getInitialParams severity).
Proof.
  unfold getInitialParams, presets.
  repeat (rewrite lookup_insert; case_decide;
          [cbn; apply params_of_in_ranges; split; discriminate|]).
  rewrite lookup_empty. cbn. apply params_of_in_ranges; split; discriminate.
Qed.

Lemma start_invariant cfg options env st ev env' :
  1 <= maxRounds cfg ->
  start cfg (init cfg options) env = Some (Normal (st, ev, env')) ->
  invariant cfg st /\
  roundsStarted ev = currentRound st /\
  responsesLeft cfg st <= maxRounds cfg * platesPerRound cfg /\
  currentRound st = 1.
Proof.
  intros HR. unfold start, init. cbn [isRunning].
  unfold startRound, startRoundWith.
  destruct (generateSeed _ env) as [seed env1].
  cbn [currentRound currentParams].
  destruct (MosaicGenerator.generateTuningSequence _ env1)
    as [[plates|] env2] eqn:Eg; [|done].
  apply generateTuningSequence_length in Eg as [Hlen Hcount].
  intros H. apply after_Normal in H as (ev2 & H & ->).
  unfold showCurrentPlateWith in H. cbn [currentPlates plateIndex] in H.
  destruct (plates !! 0%nat) as [plate|] eqn:Ep.
  2:{ apply lookup_ge_None in Ep. lia. }
  destruct (dateNow env2) as [now env3].
  injection H as <- <- <-.
  split; [|split; [|split]].
  - unfold invariant. cbn. split_and!; try lia.
    + eexists. split; [done|]. apply getInitialParams_in_ranges.
    + eexists. split; [done|]. apply getInitialParams_in_ranges.
    + constructor.
    + by eexists.
    + intros _. split_and!; try lia. done.
  - unfold roundsStarted. cbn. lia.
  - unfold responsesLeft. cbn. rewrite Hlen. nia.
  - done.
Qed.

Lemma recordResponse_invariant cfg response st env st' ev env' :
  invariant cfg st ->
  recordResponse cfg response st env = Some (Normal (st', ev, env')) ->
  invariant cfg st' /\
  roundsStarted ev = currentRound st' - currentRound st /\
  (isRunning st = true -> responsesLeft cfg st' < responsesLeft cfg st) /\
  (isRunning st = false -> st' = st).
Proof.
  intros Hinv. pose proof Hinv as
    (I1 & I2 & I3 & (p & I4 & I4') & (bp & I5 & I5') & I6 & (n & I7) & I8 & I9).
  unfold recordResponse.
  destruct (getCurrentPlate st) as [plate|] eqn:Ep.
  2:{ intros [= <- <- <-]. split; [done|]. split; [unfold roundsStarted; cbn; lia|].
      split; [|done]. intros Hr. destruct (I8 Hr) as (_ & Hlt & _).
      unfold getCurrentPlate in Ep. apply lookup_ge_None in Ep. lia. }
  destruct (isRunning st) eqn:Hrun.
  2:{ destruct (I9 eq_refl) as [Hnone _]. congruence. }
  destruct (I8 eq_refl) as (R1 & R2 & R3 & R4).
  destruct (dateNow env) as [now env1].
  intros H. apply after_Normal in H as (ev1 & H & ->).
  cbn [currentPlates plateIndex] in H.
  match type of H with (if _ then completeRound cfg ?s _ else _) = _ =>
    set (st1 := s) in * end.
  destruct (Nat.leb_spec (length (currentPlates st)) (S (plateIndex st))) as [Hle|Hgt].
  - unfold completeRound in H.
    apply completeRoundFuel_invariant in H as (Hi & Hr & Hm).
    + subst st1. cbn in Hr, Hm |- *. split; [done|]. split.
      * unfold roundsStarted in *. cbn. rewrite Hr. lia.
      * split; [|done]. intros _. unfold responsesLeft at 2.
        rewrite Hrun. lia.
    + subst st1. unfold roundOver. cbn. rewrite I3 in *. split_and!; try lia; eauto.
  - unfold showCurrentPlate, showCurrentPlateWith in H.
    subst st1. cbn [currentPlates plateIndex] in H.
    destruct (currentPlates st !! S (plateIndex st)) as [next|] eqn:En.
    2:{ apply lookup_ge_None in En. lia. }
    destruct (dateNow env1) as [now2 env2].
    injection H as <- <- <-.
    split; [|split; [|split]].
    + unfold invariant. cbn. split_and!; try lia; eauto.
    + unfold roundsStarted. cbn. lia.
    + intros _. unfold responsesLeft. cbn. try rewrite Hrun. lia.
    + done.
Qed.

Lemma feed_invariant cfg answers st env st' ev env' :
  invariant cfg st ->
  feed cfg answers st env = Some (Normal (st', ev, env')) ->
  invariant cfg st' /\
  roundsStarted ev = currentRound st' - currentRound st /\
  (responsesLeft cfg st' <= responsesLeft cfg st - Z.of_nat (length answers) \/
   isRunning st' = false).
Proof.
  revert st env ev. induction answers as [|a answers IH]; intros st env ev Hinv; cbn [feed].
  - intros [= <- <- <-]. split; [done|]. split; [unfold roundsStarted; cbn; lia|].
    left. cbn. lia.
  - destruct (recordResponse cfg a st env) as [[[[st1 ev1] env1]|]|] eqn:Er; try done.
    intros H. apply after_Normal in H as (ev2 & H & ->).
    apply recordResponse_invariant in Er as (Hi1 & Hr1 & Hm1 & Hs1); [|done].
    apply IH in H as (Hi2 & Hr2 & Hm2); [|done].
    split; [done|]. split; [rewrite roundsStarted_app; lia|].
    destruct Hm2 as [Hm2|?]; [|by right].
    destruct (isRunning st) eqn:Hrun.
    + left. specialize (Hm1 eq_refl). rewrite length_cons. lia.
    + specialize (Hs1 eq_refl). subst st1.
      destruct (isRunning st') eqn:Hrun'; [|by right].
      left. unfold responsesLeft in *. rewrite Hrun, Hrun' in *.
      destruct Hi2 as (_ & J2 & _ & _ & _ & _ & _ & J8 & _).
      destruct (J8 Hrun') as (? & ? & ? & _). nia.
Qed.


Lemma completeRound_total cfg st env : completeRound cfg st env <> None.
Proof. unfold completeRound. by apply completeRoundFuel_total. Qed.

Lemma showCurrentPlate_total cfg st env : showCurrentPlate cfg st env <> None.
Proof.
  unfold showCurrentPlate, showCurrentPlateWith.
  destruct (currentPlates st !! plateIndex st);
    [by destruct (dateNow env)|apply completeRound_total].
Qed.

Lemma start_total cfg st env : start cfg st env <> None.
Proof.
  unfold start. destruct (isRunning st); [done|].
  unfold startRound, startRoundWith.
  destruct (generateSeed _ env) as [seed env1].
  destruct (MosaicGenerator.generateTuningSequence _ env1) as [[plates|] env2];
    [|done].
  rewrite after_None. apply (showCurrentPlate_total cfg).
Qed.

Lemma recordResponse_total cfg response st env :
  recordResponse cfg response st env <> None.
Proof.
  unfold recordResponse. destruct (getCurrentPlate st); [|done].
  destruct (dateNow env) as [now env1]. rewrite after_None.
  destruct (_ <=? _)%nat; [apply completeRound_total|apply showCurrentPlate_total].
Qed.

Lemma feed_total cfg answers st env : feed cfg answers st env <> None.
Proof.
  revert st env. induction answers as [|a answers IH]; intros st env; cbn [feed];
    [done|].
  pose proof (recordResponse_total cfg a st env) as Hr.
  destruct (recordResponse cfg a st env) as [[[[st1 ev1] env1]|]|]; try done.
  rewrite after_None. apply IH.
Qed.

Lemma run_total cfg options answers env : run cfg options answers env <> None.
Proof.
  unfold run. pose proof (start_total cfg (init cfg options) env) as Hs.
  destruct (start cfg (init cfg options) env) as [[[[st1 ev1] env1]|]|]; try done.
  rewrite after_None. apply feed_total.
Qed.

Lemma run_invariant cfg options answers env st ev env' :
  1 <= maxRounds cfg ->
  run cfg options answers env = Some (Normal (st, ev, env')) ->
  invariant cfg st /\
  roundsStarted ev = currentRound st /\
  1 <= currentRound st /\
  (maxRounds cfg * platesPerRound cfg <= Z.of_nat (length answers) ->
   isRunning st = false).
Proof.
  intros HR. unfold run.
  destruct (start cfg (init cfg options) env) as [[[[st1 ev1] env1]|]|] eqn:Es;
    try done.
  intros H. apply after_Normal in H as (ev2 & H & ->).
  apply start_invariant in Es as (Hi1 & Hr1 & Hm1 & Hc1); [|done].
  apply feed_invariant in H as (Hi2 & Hr2 & Hm2); [|done].
  assert (0 <= roundsStarted ev2) by (unfold roundsStarted; lia).
  split; [done|]. split; [rewrite roundsStarted_app; lia|]. split; [lia|].
  intros Hlong. destruct Hm2 as [Hm2|?]; [|done].
  destruct (isRunning st) eqn:Hrun; [|done]. exfalso.
  destruct Hi2 as (_ & J2 & _ & _ & _ & _ & _ & J8 & _).
  destruct (J8 Hrun) as (? & ? & ? & _).
  unfold responsesLeft in Hm2 at 1. rewrite Hrun in Hm2. nia.
Qed.

End WithRuntime.

Section NoThrow.
Context `{R : Runtime} `{!RuntimeSpec R}.

#[local] Arguments normalizeParams : simpl never.

Lemma generateNeighbors_half_nonempty best :
  in_ranges best -> generateNeighbors best (1 # 2) <> [].
Proof.
  intros Hb.
  set (r := {| r_min := -60; r_max := 60; r_step := 5 |}).
  assert (Hin : In ("hueShift"%string, r) paramRanges) by (left; reflexivity).
  destruct (Hb _ _ Hin) as (v & Hv & Hlo & Hhi). cbn in Hlo, Hhi.
  assert (exists n, In n (generateNeighbors best (1 # 2))) as [n Hn].
  { destruct (Qlt_le_dec v 0) as [Hneg|Hpos].
    - eexists. apply in_generateNeighbors. exists "hueShift"%string, r, v.
      split; [done|]. split; [done|]. right. split; [|reflexivity]. cbn. lra.
    - eexists. apply in_generateNeighbors. exists "hueShift"%string, r, v.
      split; [done|]. split; [done|]. left. split; [|reflexivity]. cbn. lra. }
  intros E. rewrite E in Hn. destruct Hn.
Qed.

Lemma pickRandom_total {A} (l : list A) env :
  l <> [] -> exists a env', pickRandom l env = (Some a, env').
Proof.
  intros Hl. unfold pickRandom.
  pose proof (mathRandom_unit env) as [H0 H1].
  destruct (mathRandom env) as [u env1]. cbn in H0, H1.
  destruct (pickAt_is_Some l u H0 H1 Hl) as [a ->]. by eexists _, _.
Qed.

Lemma exploreNewDirection_total base env :
  exists p env', exploreNewDirection base env = (p, env').
Proof. destruct (exploreNewDirection base env) as [p env']. by eexists _, _. Qed.

Lemma chooseNext_total st lastRound env :
  (exists p, currentParams st = Some p) ->
  (exists bp, bestParams st = Some bp /\ in_ranges bp) ->
  exists c env', chooseNext st lastRound env = (Some c, env').
Proof.
  intros (p & Hp) (bp & Hbp & Hr). unfold chooseNext. rewrite Hp, Hbp.
  destruct (score lastRound <? bestScore st).
  - match goal with |- context [(0 <? length ?l)%nat] =>
      destruct (Nat.ltb_spec 0 (length l)) as [Hn|Hn] end.
    + apply pickRandom_total. intros E. rewrite E in Hn. cbn in Hn. lia.
    + apply pickRandom_total. by apply generateNeighbors_half_nonempty.
  - match goal with |- context [(0 <? length ?l)%nat] =>
      destruct (Nat.ltb_spec 0 (length l)) as [Hn|Hn] end.
    + apply pickRandom_total. intros E. rewrite E in Hn. cbn in Hn. lia.
    + destruct (exploreNewDirection p env) as [q env1]. by eexists _, _.
Qed.

Lemma adjustParameters_total st env :
  history st <> [] ->
  (exists p, currentParams st = Some p) ->
  (exists bp, bestParams st = Some bp /\ in_ranges bp) ->
  exists st' env', adjustParameters st env = Normal (st', env').
Proof.
  intros Hh Hp Hb. unfold adjustParameters.
  destruct (last (history st)) as [lastRound|] eqn:El.
  2:{ apply last_None in El. done. }
  destruct (chooseNext_total st lastRound env Hp Hb) as (c & env1 & ->).
  by eexists _, _.
Qed.

Lemma completeRoundFuel_Normal fuel cfg st env :
  roundOver cfg st ->
  exists st' ev env', completeRoundFuel fuel cfg st env = Some (Normal (st', ev, env')).
Proof.
  intros (P1 & P2 & P3 & P4 & (p & P5 & P5') & (bp & P6 & P6') & P7 & (n & P8) & P9 & P10).
  rewrite completeRoundFuel_unfold.
  destruct (scoreRound st) as [st1 rr] eqn:Es.
  unfold scoreRound in Es. injection Es as <- <-.
  set (sc := Utils.percentage _ _).
  match goal with |- context [shouldContinue cfg ?s] =>
    set (st1 := s) in *; destruct (shouldContinue cfg st1) eqn:Esc end.
  2:{ destruct (complete st1 env) as [[s e] v]. cbn. by eexists _, _, _. }
  destruct (adjustParameters_total st1 env) as (st2 & env2 & Ea).
  { subst st1. cbn. by destruct (history st). }
  { subst st1. cbn. by exists p. }
  { subst st1. cbn. destruct (bestScore st <? sc);
      [exists p; by rewrite P5|by exists bp]. }
  rewrite Ea.
  apply adjustParameters_Normal in Ea as (chosen & ->).
  unfold startRoundWith.
  destruct (generateSeed _ env2) as [seed env3].
  cbn [currentRound currentParams platesPerRound].
  match goal with |- context [MosaicGenerator.generateTuningSequence ?o env3] =>
    pose proof (generateTuningSequence_total (platesPerRound cfg)
                  (Some (normalizeParams chosen)) seed env3 P10) as Hg;
    destruct (MosaicGenerator.generateTuningSequence o env3)
      as [[plates|] env4] eqn:Eg end.
  2:{ by destruct Hg. }
  apply generateTuningSequence_length in Eg as [Hlen Hcount].
  unfold showCurrentPlateWith. cbn [currentPlates plateIndex].
  destruct (plates !! 0%nat) as [plate|] eqn:Ep.
  2:{ apply lookup_ge_None in Ep. lia. }
  destruct (dateNow env4) as [now env5]. cbn. by eexists _, _, _.
Qed.

Lemma start_Normal cfg options env :
  1 <= platesPerRound cfg ->
  exists st ev env', start cfg (init cfg options) env = Some (Normal (st, ev, env')).
Proof.
  intros HN. unfold start, init. cbn [isRunning].
  unfold startRound, startRoundWith.
  destruct (generateSeed _ env) as [seed env1].
  cbn [currentRound currentParams].
  match goal with |- context [MosaicGenerator.generateTuningSequence ?o env1] =>
    pose proof (generateTuningSequence_total (platesPerRound cfg)
                  (Some (getInitialParams
                           (default "moderate"%string (baselineSeverity options))))
                  seed env1 HN) as Hg;
    destruct (MosaicGenerator.generateTuningSequence o env1)
      as [[plates|] env2] eqn:Eg end.
  2:{ by destruct Hg. }
  apply generateTuningSequence_length in Eg as [Hlen Hcount].
  unfold showCurrentPlateWith. cbn [currentPlates plateIndex].
  destruct (plates !! 0%nat) as [plate|] eqn:Ep.
  2:{ apply lookup_ge_None in Ep. lia. }
  destruct (dateNow env2) as [now env3]. cbn. by eexists _, _, _.
Qed.

Lemma recordResponse_Normal cfg response st env :
  invariant cfg st ->
  exists st' ev env',
    recordResponse cfg response st env = Some (Normal (st', ev, env')).
Proof.
  intros Hinv. pose proof Hinv as
    (I1 & I2 & I3 & (p & I4 & I4') & (bp & I5 & I5') & I6 & (n & I7) & I8 & I9).
  unfold recordResponse.
  destruct (getCurrentPlate st) as [plate|] eqn:Ep; [|by eexists _, _, _].
  destruct (isRunning st) eqn:Hrun.
  2:{ destruct (I9 eq_refl) as [Hnone _]. congruence. }
  destruct (I8 eq_refl) as (R1 & R2 & R3 & R4).
  destruct (dateNow env) as [now env1].
  cbn [currentPlates plateIndex].
  match goal with |- context [completeRound cfg ?s _] => set (st1 := s) in * end.
  destruct (Nat.leb_spec (length (currentPlates st)) (S (plateIndex st))) as [Hle|Hgt].
  - unfold completeRound.
    destruct (completeRoundFuel_Normal (roundsLeft st1) cfg st1 env1)
      as (st' & ev & env' & ->).
    + subst st1. unfold roundOver. cbn. split_and!; try lia; eauto.
    + cbn. by eexists _, _, _.
  - unfold showCurrentPlate, showCurrentPlateWith.
    subst st1. cbn [currentPlates plateIndex].
    destruct (currentPlates st !! S (plateIndex st)) as [next|] eqn:En.
    2:{ apply lookup_ge_None in En. lia. }
    destruct (dateNow env1) as [now2 env2]. cbn. by eexists _, _, _.
Qed.

Lemma feed_Normal cfg answers st env :
  invariant cfg st ->
  exists st' ev env', feed cfg answers st env = Some (Normal (st', ev, env')).
Proof.
  revert st env. induction answers as [|a answers IH]; intros st env Hinv;
    cbn [feed]; [by eexists _, _, _|].
  destruct (recordResponse_Normal cfg a st env Hinv) as (st1 & ev1 & env1 & Hr).
  rewrite Hr.
  apply recordResponse_invariant in Hr as (Hi1 & _); [|done].
  destruct (IH st1 env1 Hi1) as (st2 & ev2 & env2 & ->). cbn. by eexists _, _, _.
Qed.

Lemma run_Normal cfg options answers env :
  1 <= maxRounds cfg -> 1 <= platesPerRound cfg ->
  exists st ev env', run cfg options answers env = Some (Normal (st, ev, env')).
Proof.
  intros HR HN. unfold run.
  destruct (start_Normal cfg options env HN) as (st1 & ev1 & env1 & Hs).
  rewrite Hs.
  apply start_invariant in Hs as (Hi1 & _); [|done].
  destruct (feed_Normal cfg answers st1 env1 Hi1) as (st2 & ev2 & env2 & ->).
  cbn. by eexists _, _, _.
Qed.

End NoThrow.

Section Ledger.
Context `{R : Runtime}.

#[local] Arguments normalizeParams : simpl never.

Lemma bestOf_app b h r : bestOf b (h ++ [r])%list = Z.max (bestOf b h) (score r).
Proof. unfold bestOf. by rewrite foldl_app. Qed.

Lemma bestOf_ge b h : b <= bestOf b h.
Proof.
  revert b. induction h as [|r h IH]; intros b; cbn; [lia|].
  specialize (IH (Z.max b (score r))). unfold bestOf in IH. lia.
Qed.

Lemma bestOf_ge_score b h r : In r h -> score r <= bestOf b h.
Proof.
  revert b. induction h as [|r' h IH]; intros b; [intros []|].
  intros [->|Hin]; cbn.
  - pose proof (bestOf_ge (Z.max b (score r)) h). unfold bestOf in *. lia.
  - by apply IH.
Qed.

Lemma roundResults_app (a b : list Event) :
  roundResults (a ++ b)%list = (roundResults a ++ roundResults b)%list.
Proof. apply omap_app. Qed.

Lemma tuningResults_app (a b : list Event) :
  tuningResults (a ++ b)%list = (tuningResults a ++ tuningResults b)%list.
Proof. apply omap_app. Qed.

Lemma books_scoreRound cfg st cur :
  books cfg st ->
  currentParams st = Some cur ->
  Z.of_nat (length (history st)) = currentRound st - 1 ->
  length (plateResponses st) = Z.to_nat (platesPerRound cfg) ->
  0 <= platesPerRound cfg ->
  books cfg (scoreRound st).1 /\ history (scoreRound st).1 <> [] /\
  history (scoreRound st).1 = (history st ++ [(scoreRound st).2])%list /\
  params (scoreRound st).2 = cur.
Proof.
  intros (B1 & B2 & b & B3 & B4 & B5) Hc Hlen Hresp Hpos.
  unfold scoreRound. cbn [fst snd]. set (sc := Utils.percentage _ _).
  split; [|split; [by destruct (history st)|split; [done|cbn; by rewrite Hc]]].
  split; [|split]; cbn [history bestScore bestParams baselineScore currentParams].
  - intros i h Hi. apply lookup_app_Some in Hi as [Hi|[Hge Hi]]; [by apply B1|].
    apply list_lookup_singleton_Some in Hi as [Hi <-]. cbn. lia.
  - apply Forall_app. split; [done|]. constructor; [|done].
    unfold bookedRound. cbn. split_and!; try done; lia.
  - exists b. split; [done|]. rewrite bestOf_app. cbn [score]. fold sc.
    rewrite <- B4. split.
    { destruct (Z.ltb_spec (bestScore st) sc); lia. }
    rewrite Hc. cbn [default].
    pose proof (bestOf_ge b (history st)) as Hge. rewrite <- B4 in Hge.
    destruct (history st) as [|h0 hs] eqn:Eh; cbn [app].
    + cbn in B4. destruct (Z.ltb_spec (bestScore st) sc).
      * right. split; [lia|]. eexists. split; [by left|]. split; reflexivity.
      * left. split; [lia|]. cbn. congruence.
    + destruct (Z.ltb_spec (bestScore st) sc).
      * right. split; [lia|].
        match goal with |- context [(_ ++ [?r])%list] => exists r end.
        split; [|split; reflexivity].
        right. apply in_or_app. right. by left.
      * destruct B5 as [[E1 E2]|(Hlt & h & Hin & E1 & E2)]; [by left|].
        right. split; [done|]. exists h. split; [|done].
        destruct Hin as [->|Hin]; [by left|right; apply in_or_app; by left].
Qed.

Lemma books_ext cfg st st' :
  books cfg st ->
  history st' = history st -> bestScore st' = bestScore st ->
  bestParams st' = bestParams st -> baselineScore st' = baselineScore st ->
  (history st = [] -> currentParams st' = currentParams st) ->
  books cfg st'.
Proof.
  intros (B1 & B2 & b & B3 & B4 & B5) E1 E2 E3 E4 E5.
  unfold books. rewrite E1.
  split; [done|]. split; [done|]. exists b. rewrite E2, E3, E4.
  split; [done|]. split; [done|].
  destruct (history st); [by rewrite E5|done].
Qed.

Lemma completeRoundFuel_ledger fuel cfg st env st' ev env' :
  roundOver cfg st -> books cfg st ->
  length (plateResponses st) = Z.to_nat (platesPerRound cfg) ->
  completeRoundFuel fuel cfg st env = Some (Normal (st', ev, env')) ->
  ledger cfg st' /\
  history st' = (history st ++ roundResults ev)%list /\
  reported st' (tuningResults ev) /\
  baselineScore st' = baselineScore st.
Proof.
  intros (P1 & P2 & P3 & P4 & (p & P5 & P5') & (bp & P6 & P6') & P7 & (n & P8) & P9 & P10)
         HB Hresp.
  destruct (books_scoreRound cfg st p HB P5 P4 Hresp ltac:(lia)) as (HB1 & Hne & Hh & _).
  rewrite completeRoundFuel_unfold.
  destruct (scoreRound st) as [st1 rr] eqn:Es. cbn [fst snd] in HB1, Hne, Hh.
  assert (Hrun1 : isRunning st1 = true /\ baselineScore st1 = baselineScore st).
  { unfold scoreRound in Es. injection Es as <- _. done. }
  destruct Hrun1 as [Hrun1 Hbase1].
  intros H. apply after_Normal in H as (ev1 & H & ->).
  destruct (shouldContinue cfg st1) eqn:Esc.
  - destruct (adjustParameters st1 env) as [[st2 env2]|] eqn:Ea; [|done].
    apply adjustParameters_Normal in Ea as (chosen & ->).
    unfold startRoundWith in H.
    destruct (generateSeed _ env2) as [seed env3].
    cbn [currentRound currentParams platesPerRound] in H.
    destruct (MosaicGenerator.generateTuningSequence _ env3)
      as [[plates|] env4] eqn:Eg; [|done].
    apply generateTuningSequence_length in Eg as [Hlen Hcount].
    apply after_Normal in H as (ev2 & H & ->).
    unfold showCurrentPlateWith in H. cbn [currentPlates plateIndex] in H.
    destruct (plates !! 0%nat) as [plate|] eqn:Ep.
    2:{ apply lookup_ge_None in Ep. lia. }
    destruct (dateNow env4) as [now env5].
    injection H as <- <- <-.
    split; [split|split_and!]; cbn; try done.
    all: try (by rewrite Hh).
    all: try (eapply books_ext; [exact HB1|done..|]; intros E; by rewrite E in Hne).
  - injection H as <- <- <-. unfold complete. cbn [fst snd].
    split; [split|split_and!]; cbn; try done.
    all: try (by rewrite Hh).
    all: try (eapply books_ext; [exact HB1|done..]).
Qed.

Lemma start_ledger cfg options env st ev env' :
  start cfg (init cfg options) env = Some (Normal (st, ev, env')) ->
  ledger cfg st /\ history st = [] /\ roundResults ev = [] /\
  tuningResults ev = [] /\ isRunning st = true /\
  baselineScore st = Some (default 50 (io_baselineScore options)).
Proof.
  unfold start, init. cbn [isRunning].
  unfold startRound, startRoundWith.
  destruct (generateSeed _ env) as [seed env1].
  cbn [currentRound currentParams].
  destruct (MosaicGenerator.generateTuningSequence _ env1)
    as [[plates|] env2] eqn:Eg; [|done].
  apply generateTuningSequence_length in Eg as [Hlen Hcount].
  intros H. apply after_Normal in H as (ev2 & H & ->).
  unfold showCurrentPlateWith in H. cbn [currentPlates plateIndex] in H.
  destruct (plates !! 0%nat) as [plate|] eqn:Ep.
  2:{ apply lookup_ge_None in Ep. lia. }
  destruct (dateNow env2) as [now env3].
  injection H as <- <- <-.
  split; [split|split_and!]; cbn; try done.
  split; [by intros i h Hi|]. split; [constructor|].
  eexists. split; [reflexivity|]. split; reflexivity.
Qed.

Lemma recordResponse_ledger cfg response st env st' ev env' :
  invariant cfg st -> ledger cfg st ->
  recordResponse cfg response st env = Some (Normal (st', ev, env')) ->
  ledger cfg st' /\
  history st' = (history st ++ roundResults ev)%list /\
  (isRunning st = true -> reported st' (tuningResults ev)) /\
  (isRunning st = false -> st' = st /\ ev = []) /\
  baselineScore st' = baselineScore st.
Proof.
  intros Hinv [HB HL]. pose proof Hinv as
    (I1 & I2 & I3 & (p & I4 & I4') & (bp & I5 & I5') & I6 & (n & I7) & I8 & I9).
  unfold recordResponse.
  destruct (getCurrentPlate st) as [plate|] eqn:Ep.
  2:{ intros [= <- <- <-]. split; [done|]. split; [by rewrite app_nil_r|].
      split; [|done]. intros Hr. destruct (I8 Hr) as (_ & Hlt & _).
      unfold getCurrentPlate in Ep. apply lookup_ge_None in Ep. lia. }
  destruct (isRunning st) eqn:Hrun.
  2:{ destruct (I9 eq_refl) as [Hnone _]. congruence. }
  destruct (I8 eq_refl) as (R1 & R2 & R3 & R4).
  specialize (HL eq_refl).
  destruct (dateNow env) as [now env1].
  intros H. apply after_Normal in H as (ev1 & H & ->).
  cbn [currentPlates plateIndex] in H.
  match type of H with (if _ then completeRound cfg ?s _ else _) = _ =>
    set (st1 := s) in * end.
  destruct (Nat.leb_spec (length (currentPlates st)) (S (plateIndex st))) as [Hle|Hgt].
  - unfold completeRound in H.
    apply completeRoundFuel_ledger in H as (Hl & Hh & Hrep & Hbase).
    + split; [done|]. split; [done|]. split; [by intros _|]. split; [done|]. done.
    + subst st1. unfold roundOver. cbn. rewrite I3 in *. split_and!; try lia; eauto.
    + subst st1. eapply books_ext; [exact HB|done..].
    + subst st1. cbn. rewrite length_app. cbn. lia.
  - unfold showCurrentPlate, showCurrentPlateWith in H.
    subst st1. cbn [currentPlates plateIndex] in H.
    destruct (currentPlates st !! S (plateIndex st)) as [next|] eqn:En.
    2:{ apply lookup_ge_None in En. lia. }
    destruct (dateNow env1) as [now2 env2].
    injection H as <- <- <-.
    split; [split|split_and!]; cbn; try done.
    all: try (intros _; rewrite length_app; cbn; lia).
    all: try (by rewrite app_nil_r).
    all: try (eapply books_ext; [exact HB|done..]).
Qed.

Lemma feed_ledger cfg answers st env st' ev env' :
  invariant cfg st -> ledger cfg st ->
  feed cfg answers st env = Some (Normal (st', ev, env')) ->
  ledger cfg st' /\
  history st' = (history st ++ roundResults ev)%list /\
  (isRunning st = true -> reported st' (tuningResults ev)) /\
  (isRunning st = false -> st' = st /\ ev = []) /\
  baselineScore st' = baselineScore st.
Proof.
  revert st env ev. induction answers as [|a answers IH];
    intros st env ev Hinv HL; cbn [feed].
  - intros [= <- <- <-]. split; [done|]. split; [by rewrite app_nil_r|].
    split; [|done]. intros Hr. cbn. done.
  - destruct (recordResponse cfg a st env) as [[[[st1 ev1] env1]|]|] eqn:Er; try done.
    intros H. apply after_Normal in H as (ev2 & H & ->).
    pose proof Er as Er'.
    apply recordResponse_invariant in Er' as (Hi1 & _); [|done].
    apply recordResponse_ledger in Er as (Hl1 & Hh1 & Hr1 & Hs1 & Hb1); [|done..].
    apply IH in H as (Hl2 & Hh2 & Hr2 & Hs2 & Hb2); [|done..].
    split; [done|]. split.
    { rewrite roundResults_app, Hh2, Hh1. by rewrite app_assoc. }
    split; [|split; [|congruence]].
    + intros Hrun. specialize (Hr1 Hrun). rewrite tuningResults_app.
      destruct (isRunning st1) eqn:Hrun1.
      * specialize (Hr2 eq_refl).
        destruct (tuningResults ev1) as [|r1 [|]]; cbn in Hr1; [done| |done].
        destruct Hr1 as [? _]. congruence.
      * destruct (Hs2 eq_refl) as [-> ->]. by rewrite app_nil_r.
    + intros Hrun. destruct (Hs1 Hrun) as [-> ->].
      destruct (Hs2 Hrun) as [-> ->]. done.
Qed.

Lemma run_ledger cfg options answers env st ev env' :
  1 <= maxRounds cfg ->
  run cfg options answers env = Some (Normal (st, ev, env')) ->
  invariant cfg st /\ ledger cfg st /\
  history st = roundResults ev /\ reported st (tuningResults ev) /\
  baselineScore st = Some (default 50 (io_baselineScore options)).
Proof.
  intros HR. unfold run.
  destruct (start cfg (init cfg options) env) as [[[[st1 ev1] env1]|]|] eqn:Es;
    try done.
  intros H. apply after_Normal in H as (ev2 & H & ->).
  pose proof Es as Es'.
  apply start_invariant in Es' as (Hi1 & _ & _ & _); [|done].
  apply start_ledger in Es as (Hl1 & Hh1 & Hr1 & Ht1 & Hrun1 & Hb1).
  pose proof H as H'.
  apply feed_invariant in H' as (Hi2 & _); [|done].
  apply feed_ledger in H as (Hl2 & Hh2 & Hr2 & Hs2 & Hb2); [|done..].
  split; [done|]. split; [done|]. split.
  { rewrite roundResults_app, Hr1, Hh2, Hh1. done. }
  split; [|congruence].
  rewrite tuningResults_app, Ht1. by apply Hr2.
Qed.

End Ledger.

Section Explore.
Context `{R : Runtime}.

(** One step of the loop of [exploreNewDirection]. *)
Lemma exploreNewDirection_fold (l : list (string * Range)) (acc : Params) env :
  NoDup (l.*1) ->
  let r := foldl (fun acc entry =>
      let '(newParams, env) := acc : Params * Env in
      let '(param, range) := entry : string * Range in
      let '(u, env) := mathRandom env in
      let perturbation := ((u - (1 # 2)) * r_step range * 2)%Q in
      (match newParams !! param with
       | Some v =>
         <[param := Utils.clamp (v + perturbation) (r_min range) (r_max range)]>
           newParams
       | None => newParams
       end, env)) (acc, env) l in
  (forall k, k ∉ l.*1 -> r.1 !! k = acc !! k) /\
  (forall param range, In (param, range) l ->
     match acc !! param with
     | Some v => exists e,
         r.1 !! param =
           Some (Utils.clamp (v + ((mathRandom e).1 - (1 # 2)) * r_step range * 2)%Q
                             (r_min range) (r_max range))
     | None => r.1 !! param = None
     end).
Proof.
  revert acc env. induction l as [|[k0 r0] l IH]; intros acc env Hnd; cbn zeta.
  - split; [done|]. intros ? ? [].
  - cbn [foldl]. apply NoDup_cons in Hnd as [Hk0 Hnd].
    destruct (mathRandom env) as [u env1] eqn:Eu.
    set (acc1 := match acc !! k0 with Some v => _ | None => acc end).
    specialize (IH acc1 env1 Hnd). cbn zeta in IH. destruct IH as [IH1 IH2].
    assert (Hother : forall k, k <> k0 -> acc1 !! k = acc !! k).
    { intros k Hk. subst acc1. destruct (acc !! k0); [|done].
      by rewrite lookup_insert_ne. }
    split.
    + intros k Hk. cbn in Hk. apply not_elem_of_cons in Hk as [Hk Hk'].
      rewrite IH1 by done. by apply Hother.
    + intros param range [E|Hin].
      * injection E as -> ->. rewrite IH1 by done. subst acc1.
        destruct (acc !! param) as [v|] eqn:Ev; [|done].
        exists env. rewrite Eu. cbn [fst]. by rewrite lookup_insert_eq.
      * assert (param <> k0).
        { intros ->. apply Hk0. apply list_elem_of_fmap. exists (k0, range).
          split; [done|]. by apply list_elem_of_In. }
        specialize (IH2 _ _ Hin). by rewrite Hother in IH2.
Qed.

Lemma paramRanges_NoDup : NoDup (paramRanges.*1).
Proof. cbn. apply NoDup_ListNoDup. repeat (constructor; [cbn; intuition discriminate|]). constructor. Qed.

Lemma exploreNewDirection_lookup base env :
  (forall k, (forall range, ~ In (k, range) paramRanges) ->
     (exploreNewDirection base env).1 !! k = base !! k) /\
  (forall param range, In (param, range) paramRanges ->
     match base !! param with
     | Some v => exists e,
         (exploreNewDirection base env).1 !! param =
           Some (Utils.clamp (v + ((mathRandom e).1 - (1 # 2)) * r_step range * 2)%Q
                             (r_min range) (r_max range))
     | None => (exploreNewDirection base env).1 !! param = None
     end).
Proof.
  destruct (exploreNewDirection_fold paramRanges base env paramRanges_NoDup)
    as [H1 H2].
  split; [|exact H2].
  intros k Hk. apply H1. intros Hin. apply list_elem_of_fmap in Hin as ([k' r] & -> & Hin).
  apply (Hk r). by apply list_elem_of_In.
Qed.

Context `{!RuntimeSpec R}.

Lemma clamp_near v d lo hi :
  (lo <= v)%Q -> (v <= hi)%Q ->
  let w := Utils.clamp (v + d)%Q lo hi in
  (lo <= w /\ w <= hi /\ (0 <= d -> v <= w /\ w <= v + d) /\
   (d <= 0 -> v + d <= w /\ w <= v))%Q.
Proof.
  intros Hlo Hhi w. subst w. unfold Utils.clamp.
  destruct (max_spec (v + d) lo) as [[? ->]|[? ->]].
  - destruct (min_spec lo hi) as [[? ->]|[? ->]]; repeat split; intros; lra.
  - destruct (min_spec (v + d) hi) as [[? ->]|[? ->]]; repeat split; intros; lra.
Qed.

Lemma exploreNewDirection_near base env :
  in_ranges base ->
  let p := (exploreNewDirection base env).1 in
  in_ranges p /\
  forall param range, In (param, range) paramRanges ->
    exists v w, base !! param = Some v /\ p !! param = Some w /\
      (v - r_step range <= w /\ w <= v + r_step range)%Q.
Proof.
  intros Hb p.
  destruct (exploreNewDirection_lookup base env) as [_ H2].
  assert (Hall : forall param range, In (param, range) paramRanges ->
    exists v w, base !! param = Some v /\ p !! param = Some w /\
      (r_min range <= w /\ w <= r_max range /\
       v - r_step range <= w /\ w <= v + r_step range)%Q).
  { intros param range Hin. specialize (H2 _ _ Hin).
    destruct (Hb _ _ Hin) as (v & Hv & Hlo & Hhi). rewrite Hv in H2.
    destruct H2 as (e & H2). exists v. eexists. split; [done|]. split; [exact H2|].
    destruct (mathRandom_unit e) as [U0 U1].
    destruct (paramRanges_cases _ _ Hin) as (? & ? & _ & _ & _ & Hstep).
    set (u := (mathRandom e).1) in *. set (s := r_step range) in *.
    pose proof (clamp_near v ((u - (1 # 2)) * s * 2)%Q _ _ Hlo Hhi) as Hc.
    cbn zeta in Hc. destruct Hc as (C1 & C2 & C3 & C4).
    assert (- s <= (u - (1 # 2)) * s * 2 /\ (u - (1 # 2)) * s * 2 <= s)%Q as [D1 D2]
      by (split; nra).
    split; [done|]. split; [done|].
    destruct (Qlt_le_dec ((u - (1 # 2)) * s * 2) 0) as [Hneg|Hpos].
    - destruct C4; [lra|]. split; lra.
    - destruct C3; [lra|]. split; lra. }
  split.
  - intros param range Hin. destruct (Hall _ _ Hin) as (v & w & _ & Hw & ? & ? & _).
    by exists w.
  - intros param range Hin. destruct (Hall _ _ Hin) as (v & w & ? & ? & _ & _ & ? & ?).
    by exists v, w.
Qed.
End Explore.

Section Next.
Context `{R : Runtime}.

#[local] Arguments normalizeParams : simpl never.

Lemma explored_neighbour (history : list RoundResult) threshold base n h :
  In h history -> params h = base -> in_ranges base ->
  In n (generateNeighbors base 1) ->
  (threshold <= 95 # 100)%Q ->
  explored history threshold n = true.
Proof.
  intros Hin Hp Hb Hn Ht. unfold explored. apply existsb_exists.
  exists h. split; [done|]. rewrite Hp.
  destruct (neighbour_similar base 1 n Hb) as (s & -> & Hs); [done..|].
  apply JSFacts.Qlt_bool_iff. lra.
Qed.

Lemma filter_unexplored_nil (history : list RoundResult) threshold base h :
  In h history -> params h = base -> in_ranges base ->
  (threshold <= 95 # 100)%Q ->
  filter (fun n => explored history threshold n = false) (generateNeighbors base 1) = [].
Proof.
  intros Hin Hp Hb Ht.
  assert (Hall : forall n, In n (generateNeighbors base 1) ->
                           explored history threshold n = true)
    by (intros; by eapply explored_neighbour).
  induction (generateNeighbors base 1) as [|n l IH]; [done|].
  rewrite filter_cons. rewrite (Hall n) by (by left).
  rewrite decide_False by done. apply IH. intros; apply Hall; by right.
Qed.

Lemma chooseNext_tracked st lastRound env best cur hb hc :
  bestParams st = Some best -> currentParams st = Some cur ->
  in_ranges best -> in_ranges cur ->
  In hb (history st) -> params hb = best ->
  In hc (history st) -> params hc = cur ->
  chooseNext st lastRound env =
    if score lastRound <? bestScore st
    then pickRandom (generateNeighbors best (1 # 2)) env
    else let '(p, env') := exploreNewDirection cur env in (Some p, env').
Proof.
  intros Eb Ec Hb Hc Hib Hpb Hic Hpc. unfold chooseNext. rewrite Eb, Ec.
  rewrite (filter_unexplored_nil _ _ best hb) by (done || (cbn; lra)).
  rewrite (filter_unexplored_nil _ _ cur hc) by (done || (cbn; lra)).
  done.
Qed.

Lemma books_best_in_history cfg st :
  books cfg st -> history st <> [] ->
  exists h, In h (history st) /\ bestParams st = Some (params h).
Proof.
  intros (_ & _ & b & _ & _ & B5) Hne.
  destruct (history st) as [|h0 hs]; [done|].
  destruct B5 as [[_ E]|(_ & h & Hin & E & _)].
  - exists h0. split; [by left|done].
  - by exists h.
Qed.

Lemma pickRandom_In {A} (l : list A) env a env' :
  pickRandom l env = (Some a, env') -> In a l.
Proof.
  unfold pickRandom. destruct (mathRandom env) as [u env1].
  intros [= E _]. by eapply pickAt_In.
Qed.

Lemma completeRoundFuel_next fuel cfg st env st' ev env' :
  roundOver cfg st -> books cfg st ->
  length (plateResponses st) = Z.to_nat (platesPerRound cfg) ->
  completeRoundFuel fuel cfg st env = Some (Normal (st', ev, env')) ->
  isRunning st' = true ->
  currentRound st' = currentRound st + 1 /\
  exists chosen best cur,
    currentParams st' = Some (normalizeParams chosen) /\
    bestParams st' = Some best /\ currentParams st = Some cur /\
    (In chosen (generateNeighbors best (1 # 2)) \/
     exists e, chosen = (exploreNewDirection cur e).1).
Proof.
  intros (P1 & P2 & P3 & P4 & (p & P5 & P5') & (bp & P6 & P6') & P7 & (n & P8) & P9 & P10)
         HB Hresp.
  destruct (books_scoreRound cfg st p HB P5 P4 Hresp ltac:(lia)) as (HB1 & Hne & Hh & Hrr).
  rewrite completeRoundFuel_unfold.
  destruct (scoreRound st) as [st1 rr] eqn:Es. cbn [fst snd] in HB1, Hne, Hh, Hrr.
  destruct (books_best_in_history cfg st1 HB1 Hne) as (hb & Hhb & Ebest).
  assert (F : currentParams st1 = Some p /\
              Forall (fun h => in_ranges (params h)) (history st1) /\
              currentRound st1 = currentRound st).
  { rewrite Hh. unfold scoreRound in Es. injection Es as <- <-. cbn.
    split; [done|]. split; [|done]. apply Forall_app. split; [done|].
    constructor; [|done]. cbn. by rewrite P5. }
  destruct F as (Ecur & Hall & Hround).
  intros H. apply after_Normal in H as (ev1 & H & ->).
  destruct (shouldContinue cfg st1) eqn:Esc.
  2:{ injection H as <- <- <-. cbn. done. }
  unfold adjustParameters in H.
  assert (El : last (history st1) = Some rr) by (rewrite Hh; apply last_snoc).
  rewrite El in H.
  rewrite (chooseNext_tracked st1 rr env (params hb) p hb rr) in H; try done.
  2:{ rewrite Forall_forall in Hall. apply Hall. by apply list_elem_of_In. }
  2:{ rewrite Hh. apply in_or_app. right. by left. }
  intros _.
  assert (exists chosen env2,
    (if score rr <? bestScore st1
     then pickRandom (generateNeighbors (params hb) (1 # 2)) env
     else let '(p0, env'0) := exploreNewDirection p env in (Some p0, env'0))
    = (Some chosen, env2) /\
    (In chosen (generateNeighbors (params hb) (1 # 2)) \/
     exists e, chosen = (exploreNewDirection p e).1)) as (chosen & env2 & Ech & Hch).
  { destruct (score rr <? bestScore st1).
    - destruct (pickRandom _ env) as [[c|] env2] eqn:Ep; [|done].
      exists c, env2. split; [done|]. left. by eapply pickRandom_In.
    - destruct (exploreNewDirection p env) as [q env2] eqn:Ee.
      exists q, env2. split; [done|]. right. exists env. by rewrite Ee. }
  rewrite Ech in H.
  unfold startRoundWith in H.
  destruct (generateSeed _ env2) as [seed env3].
  cbn [currentRound currentParams platesPerRound] in H.
  destruct (MosaicGenerator.generateTuningSequence _ env3)
    as [[plates|] env4] eqn:Eg; [|done].
  apply generateTuningSequence_length in Eg as [Hlen Hcount].
  apply after_Normal in H as (ev2 & H & ->).
  unfold showCurrentPlateWith in H. cbn [currentPlates plateIndex] in H.
  destruct (plates !! 0%nat) as [plate|] eqn:Ep.
  2:{ apply lookup_ge_None in Ep. lia. }
  destruct (dateNow env4) as [now env5].
  injection H as <- <- <-. cbn. split; [lia|].
  exists chosen, (params hb), p. done.
Qed.

Lemma recordResponse_next cfg response st env st' ev env' :
  invariant cfg st -> ledger cfg st ->
  recordResponse cfg response st env = Some (Normal (st', ev, env')) ->
  currentRound st' <> currentRound st ->
  currentRound st' = currentRound st + 1 /\
  exists chosen best cur,
    currentParams st' = Some (normalizeParams chosen) /\
    bestParams st' = Some best /\ currentParams st = Some cur /\
    (In chosen (generateNeighbors best (1 # 2)) \/
     exists e, chosen = (exploreNewDirection cur e).1).
Proof.
  intros Hinv [HB HL]. pose proof Hinv as
    (I1 & I2 & I3 & (p & I4 & I4') & (bp & I5 & I5') & I6 & (n & I7) & I8 & I9).
  unfold recordResponse.
  destruct (getCurrentPlate st) as [plate|] eqn:Ep.
  2:{ intros [= <- <- <-]. done. }
  destruct (isRunning st) eqn:Hrun.
  2:{ destruct (I9 eq_refl) as [Hnone _]. congruence. }
  destruct (I8 eq_refl) as (R1 & R2 & R3 & R4).
  specialize (HL eq_refl).
  destruct (dateNow env) as [now env1].
  intros H. apply after_Normal in H as (ev1 & H & ->).
  cbn [currentPlates plateIndex] in H.
  match type of H with (if _ then completeRound cfg ?s _ else _) = _ =>
    set (st1 := s) in * end.
  destruct (Nat.leb_spec (length (currentPlates st)) (S (plateIndex st))) as [Hle|Hgt].
  - unfold completeRound in H. intros Hne.
    assert (Hover : roundOver cfg st1).
    { subst st1. unfold roundOver. cbn. rewrite I3 in *. split_and!; try lia; eauto. }
    assert (HB1 : books cfg st1) by (subst st1; eapply books_ext; [exact HB|done..]).
    assert (Hresp : length (plateResponses st1) = Z.to_nat (platesPerRound cfg)).
    { subst st1. cbn. rewrite length_app. cbn. lia. }
    destruct (isRunning st') eqn:Hrun'.
    + apply (completeRoundFuel_next _ _ _ _ _ _ _ Hover HB1 Hresp) in H; done.
    + exfalso. apply Hne.
      rewrite completeRoundFuel_unfold in H.
      destruct (scoreRound st1) as [st2 rr] eqn:Es.
      apply after_Normal in H as (ev2 & H & ->).
      assert (isRunning st2 = true /\ currentRound st2 = currentRound st) as [Hr2 Hc2].
      { unfold scoreRound in Es. injection Es as <- _. done. }
      destruct (shouldContinue cfg st2).
      * destruct (adjustParameters st2 env1) as [[st3 env3]|] eqn:Ea; [|done].
        apply adjustParameters_Normal in Ea as (chosen & ->).
        unfold startRoundWith in H.
        destruct (generateSeed _ env3) as [seed env4].
        destruct (MosaicGenerator.generateTuningSequence _ env4)
          as [[plates|] env5] eqn:Eg; [|done].
        apply generateTuningSequence_length in Eg as [Hlen Hcount].
        apply after_Normal in H as (ev3 & H & ->).
        unfold showCurrentPlateWith in H. cbn [currentPlates plateIndex] in H.
        destruct (plates !! 0%nat) as [plate0|] eqn:Ep0.
        2:{ apply lookup_ge_None in Ep0. lia. }
        destruct (dateNow env5) as [now5 env6].
        injection H as <- <- <-. cbn in Hrun'. congruence.
      * injection H as <- <- <-. cbn. done.
  - unfold showCurrentPlate, showCurrentPlateWith in H.
    subst st1. cbn [currentPlates plateIndex] in H.
    destruct (currentPlates st !! S (plateIndex st)) as [next|] eqn:En.
    2:{ apply lookup_ge_None in En. lia. }
    destruct (dateNow env1) as [now2 env2].
    injection H as <- <- <-. cbn. done.
Qed.
End Next.

End TuningFacts.

(** ** Facts about the outlier test engine *)

Module OutlierFacts.

Import ColorFilterFacts GeneratorFacts.

Local Open Scope Z_scope.
Local Open Scope string_scope.

Section Flow.
Context `{R : Runtime}.
Import OutlierTestEngine.

Lemma wellFormed_insert plates i started rd :
  (forall p, plates !! i = Some p ->
     AnimatedMosaic.type started = AnimatedMosaic.type p /\
     AnimatedMosaic.difficulty started = AnimatedMosaic.difficulty p /\
     AnimatedMosaic.outlierIndex started = AnimatedMosaic.outlierIndex p) ->
  wellFormed plates rd -> wellFormed (<[i := started]> plates) rd.
Proof.
  intros Hs (plate & Hp & H1 & H2 & H3 & H4 & H5).
  destruct (decide (i = plateIndex rd)) as [->|Hne].
  - exists started. destruct (Hs plate Hp) as (S1 & S2 & S3).
    rewrite list_lookup_insert_eq by (by eapply lookup_lt_Some).
    split; [done|]. rewrite S1, S2, S3. done.
  - exists plate. rewrite list_lookup_insert_ne by done. done.
Qed.

Lemma wellFormed_result plates idx plate result :
  plates !! idx = Some plate ->
  r_plateType result = AnimatedMosaic.type plate ->
  r_difficulty result = AnimatedMosaic.difficulty plate ->
  r_correctIndex result = AnimatedMosaic.outlierIndex plate ->
  (r_skipped result = false \/ r_timeout result = false) ->
  (r_isCorrect result = true ->
   r_skipped result = false /\ r_timeout result = false /\
   r_selectedIndex result = Some (r_correctIndex result)) ->
  wellFormed plates
    {| plateIndex := idx; plateType := r_plateType result;
       difficulty := r_difficulty result;
       selectedIndex := r_selectedIndex result;
       correctIndex := r_correctIndex result; isCorrect := r_isCorrect result;
       responseTime := r_responseTime result;
       skipped := r_skipped result; timeout := r_timeout result |}.
Proof. intros. exists plate. cbn. done. Qed.

Lemma complete_keeps w :
  consistent w -> keeps w (complete w).1 (complete w).2.
Proof.
  intros (C1 & C2 & C3). unfold complete, keeps, consistent. cbn.
  split_and!; try done; try (intros; congruence); repeat constructor.
Qed.

Lemma showCurrentPlate_keeps now w :
  Forall (fun p => (AnimatedMosaic.type p = "deutan" \/
                    AnimatedMosaic.type p = "control") /\
                   0 < AnimatedMosaic.gridSize p) (plates (engine w)) ->
  Forall (wellFormed (plates (engine w))) (responses (engine w)) ->
  (isRunning (engine w) = true ->
   length (responses (engine w)) = (currentPlateIndex (engine w) + pending w)%nat) ->
  let '(w', events) := showCurrentPlate now w in
  consistent w' /\
  length (plates (engine w')) = length (plates (engine w)) /\
  (isRunning (engine w) = false ->
   isRunning (engine w') = false /\
   responses (engine w') = responses (engine w) /\
   plates (engine w') = plates (engine w)) /\
  Forall (fun r => r = calculateResults (responses (engine w')))
         (testResults events) /\
  (testResults events <> [] -> isRunning (engine w') = false) /\
  (isRunning (engine w) = true -> isRunning (engine w') = false ->
   testResults events <> []) /\
  responses (engine w') = responses (engine w) /\
  currentPlateIndex (engine w') = currentPlateIndex (engine w) /\
  pending w' = pending w.
Proof.
  intros C1 C2 C3. unfold showCurrentPlate.
  destruct (isRunning (engine w)) eqn:Hrun; cbn [negb].
  2:{ unfold consistent. rewrite Hrun. split_and!; try done; try (intros; congruence); try constructor. }
  unfold getCurrentPlate.
  destruct (plates (engine w) !! currentPlateIndex (engine w)) as [plate|] eqn:Ep.
  - cbn. unfold consistent. cbn.
    apply lookup_lt_Some in Ep as Hlt.
    split_and!; try done.
    + apply Forall_insert; [done|]. cbn.
      eapply Forall_lookup in C1; [exact C1|exact Ep].
    + eapply Forall_impl; [exact C2|]. intros rd Hrd.
      apply wellFormed_insert; [|done]. intros p Hp.
      assert (p = plate) as -> by congruence. done.
    + intros _. rewrite length_insert. split; [done|]. split; [done|].
      split; [by rewrite list_lookup_insert_eq|by apply C3].
    + by rewrite length_insert.
  - unfold complete, consistent. cbn. split_and!; try done; try (intros; congruence); repeat constructor.
Qed.

Lemma recordResponse_keeps result w plate :
  consistent w -> isRunning (engine w) = true ->
  plates (engine w) !! currentPlateIndex (engine w) = Some plate ->
  r_plateType result = AnimatedMosaic.type plate ->
  r_difficulty result = AnimatedMosaic.difficulty plate ->
  r_correctIndex result = AnimatedMosaic.outlierIndex plate ->
  (r_skipped result = false \/ r_timeout result = false) ->
  (r_isCorrect result = true ->
   r_skipped result = false /\ r_timeout result = false /\
   r_selectedIndex result = Some (r_correctIndex result)) ->
  keeps w (recordResponse result w).1 (recordResponse result w).2.
Proof.
  intros (C1 & C2 & C3) Hrun Hp H1 H2 H3 H4 H5.
  destruct (C3 Hrun) as (I1 & I2 & I3 & I4).
  unfold recordResponse, keeps, consistent. cbn.
  split_and!; try done.
  - apply Forall_app. split; [done|]. constructor; [|done].
    by eapply wellFormed_result.
  - intros _. rewrite length_app. cbn. split_and!; try done. lia.
  - intros Hf. congruence.
  - congruence.
Qed.

Lemma keeps_mosaic w m :
  consistent w -> isRunning (engine w) = true ->
  AnimatedMosaic.isRunning m = AnimatedMosaic.isRunning (mosaic w) ->
  AnimatedMosaic.currentPlate m = AnimatedMosaic.currentPlate (mosaic w) ->
  consistent (setMosaic w m).
Proof.
  intros (C1 & C2 & C3) Hrun Hm1 Hm2. unfold consistent, setMosaic. cbn.
  split_and!; try done. intros Hr. destruct (C3 Hr) as (I1 & I2 & I3 & I4).
  split_and!; try done; congruence.
Qed.

Lemma step_keeps canvas i w :
  consistent w -> keeps w (step canvas i w).1 (step canvas i w).2.
Proof.
  intros Hc. pose proof Hc as (C1 & C2 & C3).
  assert (Hsame : keeps w w []).
  { unfold keeps. split_and!; try done; try (intros; congruence); try constructor. }
  destruct i as [x y now|now| |now]; cbn [step].
  - unfold handleResponse.
    destruct (isRunning (engine w)) eqn:Hrun; cbn [negb]; [|done].
    destruct (C3 eq_refl) as (I1 & I2 & I3 & I4).
    unfold AnimatedMosaic.handleClick. rewrite I2. cbn [negb orb].
    destruct (AnimatedMosaic.isPaused (mosaic w)) eqn:Hpause.
    { cbn. unfold keeps. cbn. split_and!; try done; try (intros; congruence); try constructor. }
    rewrite I3.
    destruct (plates (engine w) !! currentPlateIndex (engine w)) as [plate|] eqn:Ep.
    2:{ cbn. unfold keeps. cbn. split_and!; try done; try (intros; congruence); try constructor. }
    destruct (AnimatedMosaic.hitTest canvas plate x y) as [res|] eqn:Eh.
    2:{ cbn. unfold keeps. cbn. split_and!; try done; try (intros; congruence); try constructor. }
    set (w1 := setMosaic w (AnimatedMosaic.pause (mosaic w))).
    assert (Hc1 : consistent w1).
    { apply (keeps_mosaic w); done. }
    match goal with |- keeps _ (recordResponse ?r _).1 _ =>
      pose proof (recordResponse_keeps r w1 plate Hc1 Hrun Ep) as K end.
    unfold AnimatedMosaic.hitTest in Eh.
    destruct (_ || _ || _ || _) in Eh; [done|]. injection Eh as <-.
    cbn in K.
    destruct K as (K1 & K2 & K3 & K4 & K5 & K5'); try done; try by left.
    intros E. split_and!; try done. apply Z.eqb_eq in E. by rewrite E.
  - unfold handleCantTell.
    destruct (isRunning (engine w)) eqn:Hrun; cbn [negb]; [|done].
    unfold getCurrentPlate.
    destruct (plates (engine w) !! currentPlateIndex (engine w)) as [plate|] eqn:Ep;
      [|done].
    set (w1 := setMosaic w (AnimatedMosaic.pause (mosaic w))).
    assert (Hc1 : consistent w1).
    { apply (keeps_mosaic w); done. }
    match goal with |- keeps _ (recordResponse ?r _).1 _ =>
      pose proof (recordResponse_keeps r w1 plate Hc1 Hrun Ep) as K end.
    cbn in K. destruct K as (K1 & K2 & K3 & K4 & K5 & K5'); try done; by right.
  - unfold handleTimeout.
    destruct (isRunning (engine w)) eqn:Hrun; cbn [negb]; [|done].
    unfold getCurrentPlate.
    destruct (plates (engine w) !! currentPlateIndex (engine w)) as [plate|] eqn:Ep;
      [|done].
    match goal with |- context [recordResponse ?r w] =>
      pose proof (recordResponse_keeps r w plate Hc Hrun Ep) as K;
      destruct (recordResponse r w) as [w' ev] eqn:Er end.
    cbn in K. destruct K as (K1 & K2 & K3 & K4 & K5 & K5'); try done; by left.
  - destruct (pending w) as [|n] eqn:Epend; [done|].
    unfold nextPlate. cbn.
    match goal with |- context [(length ?l <=? ?i)%nat] =>
      destruct (Nat.leb_spec (length l) i) as [Hle|Hgt] end.
    + unfold complete, keeps, consistent. cbn. split_and!; try done; try (intros; congruence); repeat constructor.
    + match goal with |- keeps _ (showCurrentPlate now ?w1).1 _ =>
        pose proof (showCurrentPlate_keeps now w1) as K;
        destruct (showCurrentPlate now w1) as [w' ev] end.
      cbn in K.
      destruct K as (K1 & K2 & K3 & K4 & K5 & K5' & K6 & K7 & K8); try done.
      intros Hrun. destruct (C3 Hrun) as (I1 & I2 & I3 & I4). lia.
Qed.

Lemma run_keeps canvas inputs w :
  consistent w -> keeps w (run canvas inputs w).1 (run canvas inputs w).2.
Proof.
  revert w. induction inputs as [|i inputs IH]; intros w Hc; cbn [run].
  - unfold keeps. cbn. split_and!; try done; try (intros; congruence); try constructor.
  - pose proof (step_keeps canvas i w Hc) as K1.
    destruct (step canvas i w) as [w1 ev1]. cbn in K1.
    destruct K1 as (A1 & A2 & A3 & A4 & A5 & A6).
    pose proof (IH w1 A1) as K2.
    destruct (run canvas inputs w1) as [w2 ev2]. cbn in K2.
    destruct K2 as (B1 & B2 & B3 & B4 & B5 & B6).
    unfold keeps. cbn. split_and!; try done.
    + congruence.
    + intros Hrun. destruct (A3 Hrun) as (X1 & X2 & X3).
      destruct (B3 X1) as (Y1 & Y2 & Y3). split_and!; congruence.
    + unfold testResults. rewrite omap_app.
      fold (testResults ev1). fold (testResults ev2).
      apply Forall_app. split; [|done].
      destruct (testResults ev1) as [|r rs] eqn:E; [constructor|].
      destruct (B3 (A5 ltac:(done))) as (_ & -> & _). done.
    + unfold testResults. rewrite omap_app.
      fold (testResults ev1). fold (testResults ev2).
      intros Hne. destruct (testResults ev1) as [|r rs] eqn:E.
      * by apply B5.
      * by apply B3, A5.
    + unfold testResults. rewrite omap_app.
      fold (testResults ev1). fold (testResults ev2).
      intros Hr Hr2. destruct (isRunning (engine w1)) eqn:Hr1.
      * specialize (B6 eq_refl Hr2). intros E. apply app_eq_nil in E as [_ E]. done.
      * specialize (A6 Hr eq_refl). intros E. apply app_eq_nil in E as [E _]. done.
Qed.
End Flow.

Section Started.
Context `{R : Runtime} `{!RuntimeSpec R}.
Import OutlierTestEngine.

Lemma start_consistent now w :
  isRunning (engine w) = false -> pending w = 0%nat ->
  exists w1 events,
    start now w = Some (w1, events) /\
    consistent w1 /\ isRunning (engine w1) = true /\
    responses (engine w1) = [] /\ currentPlateIndex (engine w1) = 0%nat /\
    pending w1 = 0%nat /\ testResults events = [] /\
    mode (engine w1) = mode (engine w) /\
    AnimatedMosaic.isPaused (mosaic w1) = false /\
    exists generated,
      fst (generatePlates (mode (engine w)) (seed (engine w)) (table w, env w))
        = Some generated /\
      length (plates (engine w1)) = length generated.
Proof.
  intros Hrun Hpend. unfold start. rewrite Hrun.
  destruct (generatePlates_modes (mode (engine w)) (seed (engine w)) (table w, env w))
    as (gen & E & Hlen & _ & _ & _).
  pose proof E as Htypes. unfold generatePlates in Htypes.
  destruct (if decide (mode (engine w) = "baseline") then _ else _) as [pc ratio]
    in Htypes.
  apply animated_generateTestSequence_types in Htypes.
  destruct (generatePlates _ _ _) as [g [table' env']]. cbn [fst] in E. subst g.
  destruct (dateNow env') as [t0 env''].
  assert (Hne : (0 < length gen)%nat).
  { repeat case_decide; lia. }
  unfold showCurrentPlate, getCurrentPlate. cbn.
  destruct gen as [|p0 gen']; [cbn in Hne; lia|]. cbn.
  do 2 eexists. split; [reflexivity|]. cbn.
  split_and!; try done.
  - unfold consistent. cbn. split_and!; try done.
    all: try (apply Forall_cons in Htypes as [Hp Ht]; by constructor).
    all: try (intros _; split_and!; try done; lia).
  - by exists (p0 :: gen').
Qed.
End Started.



Section InStep.
Context `{R : Runtime}.
Import OutlierTestEngine.

Lemma hitTest_lands canvas plate clientX clientY now :
  (0 < AnimatedMosaic.width canvas)%Q -> 0 < AnimatedMosaic.gridSize plate ->
  lands canvas (Click clientX clientY now) ->
  is_Some (AnimatedMosaic.hitTest canvas plate clientX clientY).
Proof.
  intros Hw Hn (X0 & X1 & Y0 & Y1). unfold AnimatedMosaic.hitTest.
  set (x := ((clientX - AnimatedMosaic.rect_left canvas) *
             (AnimatedMosaic.width canvas / AnimatedMosaic.rect_width canvas))%Q) in *.
  set (y := ((clientY - AnimatedMosaic.rect_top canvas) *
             (AnimatedMosaic.height canvas / AnimatedMosaic.rect_height canvas))%Q) in *.
  set (n := AnimatedMosaic.gridSize plate) in *.
  set (s := (AnimatedMosaic.width canvas / inject_Z n)%Q).
  assert (Hn' : (0 < inject_Z n)%Q).
  { change 0%Q with (inject_Z 0). by rewrite <- Zlt_Qlt. }
  assert (Hs : (0 < s)%Q) by (subst s; apply Qlt_shift_div_l; lra).
  assert (Ew : (inject_Z n * s == AnimatedMosaic.width canvas)%Q)
    by (subst s; field; lra).
  pose proof (proj2 (floor_in_grid x s n Hs)) as Hx.
  pose proof (proj2 (floor_in_grid y s n Hs)) as Hy.
  rewrite Ew in Hx, Hy. specialize (Hx (conj X0 X1)). specialize (Hy (conj Y0 Y1)).
  set (c := JS.floor (x / s)) in *. set (r := JS.floor (y / s)) in *.
  destruct (Z.ltb_spec c 0); [lia|]. destruct (Z.leb_spec n c); [lia|].
  destruct (Z.ltb_spec r 0); [lia|]. destruct (Z.leb_spec n r); [lia|].
  cbn. by eexists.
Qed.

Lemma response_step canvas n k w i :
  (0 < AnimatedMosaic.width canvas)%Q ->
  inStep n k w -> (k < n)%nat -> lands canvas i ->
  exists w1 ev1 rd,
    step canvas i w = (w1, ev1) /\ consistent w1 /\
    responses (engine w1) = (responses (engine w) ++ [rd])%list /\
    plateIndex rd = k /\ pending w1 = 1%nat /\ isRunning (engine w1) = true /\
    currentPlateIndex (engine w1) = k /\
    length (plates (engine w1)) = n /\ testResults ev1 = [].
Proof.
  intros Hw (Hc & Hn & Hidx & Hlen & Hpend & Hrun & Hord & Hpause) Hk Hl.
  rewrite bool_decide_eq_true_2 in Hrun by done.
  replace (k `min` n)%nat with k in * by lia.
  pose proof (step_keeps canvas i w Hc) as K.
  destruct (step canvas i w) as [w1 ev1] eqn:Es. cbn [fst snd] in K.
  destruct K as (K1 & K2 & _ & _ & K5 & _).
  destruct Hc as (C1 & C2 & C3). destruct (C3 Hrun) as (I1 & I2 & I3 & I4).
  destruct (lookup_lt_is_Some_2 _ _ I1) as [plate Ep].
  destruct i as [x y now|now| |now]; cbn [step] in Es; [| | |done].
  - unfold handleResponse in Es. rewrite Hrun in Es. cbn [negb] in Es.
    unfold AnimatedMosaic.handleClick in Es. rewrite I2, (Hpause Hrun), I3, Ep in Es.
    cbn [negb orb] in Es.
    eapply Forall_lookup in C1; [|exact Ep]. destruct C1 as [_ Hgrid].
    destruct (hitTest_lands canvas plate x y now Hw Hgrid Hl) as [res Eh].
    rewrite Eh in Es. unfold recordResponse in Es. cbn in Es.
    injection Es as <- <-. do 3 eexists. split; [reflexivity|]. cbn.
    rewrite Hpend. split_and!; try done. congruence.
  - unfold handleCantTell, getCurrentPlate in Es. rewrite Hrun, Ep in Es.
    cbn [negb] in Es. unfold recordResponse in Es. cbn in Es.
    injection Es as <- <-. do 3 eexists. split; [reflexivity|]. cbn.
    rewrite Hpend. split_and!; try done. congruence.
  - unfold handleTimeout, getCurrentPlate in Es. rewrite Hrun, Ep in Es.
    cbn [negb] in Es. unfold recordResponse in Es. cbn in Es.
    injection Es as <- <-. do 3 eexists. split; [reflexivity|]. cbn.
    rewrite Hpend. split_and!; try done. congruence.
Qed.

Lemma timer_step canvas n k p w1 t :
  consistent w1 -> pending w1 = S p -> isRunning (engine w1) = true ->
  currentPlateIndex (engine w1) = k -> length (plates (engine w1)) = n ->
  exists w2 ev2,
    step canvas (TimerFires t) w1 = (w2, ev2) /\ consistent w2 /\
    responses (engine w2) = responses (engine w1) /\
    pending w2 = p /\ currentPlateIndex (engine w2) = S k /\
    length (plates (engine w2)) = n /\
    isRunning (engine w2) = bool_decide (S k < n)%nat /\
    (isRunning (engine w2) = true -> AnimatedMosaic.isPaused (mosaic w2) = false) /\
    testResults ev2 =
      if decide (S k = n) then [calculateResults (responses (engine w2))] else [].
Proof.
  intros Hc Hpend Hrun Hidx Hn.
  pose proof (step_keeps canvas (TimerFires t) w1 Hc) as K.
  destruct (step canvas (TimerFires t) w1) as [w2 ev2] eqn:Es. cbn [fst snd] in K.
  destruct K as (K1 & K2 & _ & _ & _ & _).
  destruct Hc as (C1 & C2 & C3). destruct (C3 Hrun) as (I1 & I2 & I3 & I4).
  cbn [step] in Es. rewrite Hpend in Es. unfold nextPlate in Es. cbn in Es.
  rewrite Hidx, Hn in Es. rewrite Hidx, Hn in I1.
  destruct (Nat.leb_spec n (S k)) as [Hle|Hgt].
  - unfold complete in Es. cbn in Es. injection Es as <- <-.
    do 2 eexists. split; [reflexivity|]. cbn.
    rewrite decide_True by lia. split_and!; try done.
    symmetry. apply bool_decide_eq_false_2. lia.
  - unfold showCurrentPlate, getCurrentPlate in Es. cbn in Es.
    rewrite Hrun in Es. cbn [negb] in Es.
    assert (Hlt : (S k < length (plates (engine w1)))%nat) by lia.
    destruct (lookup_lt_is_Some_2 _ _ Hlt) as [plate Ep]. rewrite Ep in Es.
    cbn in Es. injection Es as <- <-.
    do 2 eexists. split; [reflexivity|]. cbn.
    rewrite decide_False by lia. rewrite length_insert.
    split_and!; try done.
    symmetry. by apply bool_decide_eq_true_2.
Qed.

Lemma cantTell_step canvas w t :
  consistent w -> isRunning (engine w) = true ->
  exists w' ev rd,
    step canvas (CantTell t) w = (w', ev) /\ consistent w' /\
    responses (engine w') = (responses (engine w) ++ [rd])%list /\
    plateIndex rd = currentPlateIndex (engine w) /\ skipped rd = true /\
    pending w' = S (pending w) /\ isRunning (engine w') = true /\
    currentPlateIndex (engine w') = currentPlateIndex (engine w) /\
    length (plates (engine w')) = length (plates (engine w)) /\
    testResults ev = [].
Proof.
  intros Hc Hrun.
  pose proof (step_keeps canvas (CantTell t) w Hc) as K.
  destruct (step canvas (CantTell t) w) as [w1 ev1] eqn:Es. cbn [fst snd] in K.
  destruct K as (K1 & K2 & _).
  destruct Hc as (C1 & C2 & C3). destruct (C3 Hrun) as (I1 & I2 & I3 & I4).
  destruct (lookup_lt_is_Some_2 _ _ I1) as [plate Ep].
  cbn [step] in Es. unfold handleCantTell, getCurrentPlate in Es.
  rewrite Hrun, Ep in Es. cbn [negb] in Es. unfold recordResponse in Es. cbn in Es.
  injection Es as <- <-. do 3 eexists. split; [reflexivity|]. cbn.
  split_and!; done.
Qed.

Lemma round_inStep canvas n k w i t :
  (0 < AnimatedMosaic.width canvas)%Q ->
  inStep n k w -> lands canvas i ->
  exists w' ev,
    run canvas [i; TimerFires t] w = (w', ev) /\ inStep n (S k) w' /\
    testResults ev =
      (if decide (S k = n) then [calculateResults (responses (engine w'))] else []) /\
    ((n <= k)%nat -> w' = w).
Proof.
  intros Hw Hin Hl. destruct (decide (k < n)%nat) as [Hk|Hk].
  - destruct (response_step canvas n k w i Hw Hin Hk Hl)
      as (w1 & ev1 & rd & E1 & C1 & R1 & P1 & Pe1 & Ru1 & Ix1 & Ln1 & T1).
    destruct (timer_step canvas n k 0 w1 t C1 Pe1 Ru1 Ix1 Ln1)
      as (w2 & ev2 & E2 & C2 & R2 & Pe2 & Ix2 & Ln2 & Ru2 & Pa2 & T2).
    exists w2, (ev1 ++ ev2 ++ [])%list. cbn [run]. rewrite E1, E2.
    split; [reflexivity|].
    destruct Hin as (Hc & Hn & Hidx & Hlen & Hpend & Hrun & Hord & Hpause).
    split; [|split; [|lia]].
    + unfold inStep. rewrite R2, R1, length_app, Hlen. cbn [length].
      split_and!; try done; try lia.
      intros j r Hj. apply lookup_app_Some in Hj as [Hj|[Hge Hj]].
      * by apply Hord.
      * apply list_lookup_singleton_Some in Hj as [Hj <-]. lia.
    + unfold testResults. rewrite !omap_app.
      fold (testResults ev1). fold (testResults ev2). rewrite T1, T2. cbn.
      by rewrite app_nil_r.
  - destruct Hin as (Hc & Hn & Hidx & Hlen & Hpend & Hrun & Hord & Hpause).
    rewrite bool_decide_eq_false_2 in Hrun by done.
    assert (E1 : step canvas i w = (w, [])).
    { destruct i as [x y now|now| |now]; cbn [step];
        unfold handleResponse, handleCantTell, handleTimeout;
        rewrite ?Hrun; try done. }
    assert (E2 : step canvas (TimerFires t) w = (w, [])).
    { cbn [step]. by rewrite Hpend. }
    exists w, []. cbn [run]. rewrite E1, E2. split; [reflexivity|].
    split; [|split; [|done]].
    + unfold inStep. rewrite Hrun.
      replace (S k `min` n)%nat with (k `min` n)%nat by lia.
      split_and!; try done. symmetry. apply bool_decide_eq_false_2. lia.
    + rewrite decide_False by lia. done.
Qed.

Lemma run_app canvas l1 l2 w :
  run canvas (l1 ++ l2) w =
    let '(w1, ev1) := run canvas l1 w in
    let '(w2, ev2) := run canvas l2 w1 in
    (w2, (ev1 ++ ev2)%list).
Proof.
  revert w. induction l1 as [|i l1 IH]; intros w; cbn [run app].
  - by destruct (run canvas l2 w).
  - destruct (step canvas i w) as [wa eva]. rewrite IH.
    destruct (run canvas l1 wa) as [wb evb].
    destruct (run canvas l2 wb) as [wc evc]. by rewrite app_assoc.
Qed.

Lemma rounds_inStep canvas n k w l :
  (0 < AnimatedMosaic.width canvas)%Q ->
  inStep n k w -> Forall (fun r => lands canvas r.1) l ->
  exists w' ev,
    run canvas (rounds l) w = (w', ev) /\ inStep n (k + length l) w' /\
    testResults ev =
      (if decide (k < n <= k + length l)%nat
       then [calculateResults (responses (engine w'))] else []) /\
    ((n <= k)%nat -> w' = w).
Proof.
  intros Hw. revert k w. induction l as [|[i t] l IH]; intros k w Hin Hall.
  - exists w, []. split; [done|]. rewrite Nat.add_0_r. split; [done|].
    rewrite decide_False by lia. done.
  - apply Forall_cons in Hall as [Hl Hall]. cbn [fst] in Hl.
    destruct (round_inStep canvas n k w i t Hw Hin Hl) as (w1 & ev1 & E1 & In1 & T1 & F1).
    destruct (IH (S k) w1 In1 Hall) as (w2 & ev2 & E2 & In2 & T2 & F2).
    exists w2, (ev1 ++ ev2)%list. split.
    { change (rounds ((i, t) :: l)) with ([i; TimerFires t] ++ rounds l)%list.
      rewrite run_app, E1, E2. done. }
    cbn [length]. replace (k + S (length l))%nat with (S k + length l)%nat by lia.
    split; [done|]. split.
    + unfold testResults. rewrite omap_app.
      fold (testResults ev1). fold (testResults ev2). rewrite T1, T2.
      destruct (decide (S k = n)) as [Hn|Hn].
      * rewrite decide_False by lia. rewrite decide_True by lia.
        rewrite F2 by lia. done.
      * cbn [app]. destruct (decide (S k < n <= S k + length l)%nat).
        -- rewrite decide_True by lia. done.
        -- rewrite decide_False by lia. done.
    + intros Hk. rewrite F2 by lia. by apply F1.
Qed.
End InStep.

Section InStepStart.
Context `{R : Runtime} `{!RuntimeSpec R}.
Import OutlierTestEngine.

Lemma start_inStep now w :
  isRunning (engine w) = false -> pending w = 0%nat ->
  exists w1 events n,
    start now w = Some (w1, events) /\ inStep n 0 w1 /\ testResults events = [] /\
    Z.of_nat n = (if decide (mode (engine w) = "tuning") then 8
                  else if decide (mode (engine w) = "validation") then 12 else 16).
Proof.
  intros Hrun Hpend.
  destruct (start_consistent now w Hrun Hpend)
    as (w1 & ev1 & Es & Hc1 & Hr1 & Hresp & Hidx & Hp1 & Hev1 & Hmode & Hpa & gen & Eg & Hlen).
  destruct (generatePlates_modes (mode (engine w)) (seed (engine w)) (table w, env w))
    as (gen' & E' & Hcount & _).
  assert (gen' = gen) as -> by congruence.
  exists w1, ev1, (length (plates (engine w1))).
  split; [done|]. split; [|split; [done|by rewrite Hlen]].
  unfold inStep. rewrite Hresp, Hidx, Hr1, Hp1.
  assert (0 < length (plates (engine w1)))%nat by (rewrite Hlen; repeat case_decide; lia).
  split_and!; try done; try lia.
  symmetry. by apply bool_decide_eq_true_2.
Qed.
End InStepStart.


End OutlierFacts.

(** ** Facts about the test engine *)

Module TestFacts.

Section WithRuntime.
Context `{R : Runtime}.
Import TestEngine.

Lemma complete_keeps_responses st env :
  responses (complete st env).1.1 = responses st /\
  currentPlateIndex (complete st env).1.1 = currentPlateIndex st.
Proof.
  unfold complete. by destruct (calculateResults _ env) as [results env1].
Qed.

Lemma showCurrentPlate_keeps_responses st env :
  responses (showCurrentPlate st env).1.1 = responses st /\
  currentPlateIndex (showCurrentPlate st env).1.1 = currentPlateIndex st.
Proof.
  unfold showCurrentPlate. destruct (getCurrentPlate st).
  - by destruct (dateNow env).
  - apply complete_keeps_responses.
Qed.

(** Finishing the test or showing the next plate touches neither the
    recorded responses nor the plate index. *)
Lemma step_keeps_responses st env st' ev env' (b : bool) :
  (if b then complete st env else showCurrentPlate st env) = (st', ev, env') ->
  responses st' = responses st /\ currentPlateIndex st' = currentPlateIndex st.
Proof.
  intros E.
  pose proof (complete_keeps_responses st env) as Hc.
  pose proof (showCurrentPlate_keeps_responses st env) as Hs.
  destruct b; rewrite E in *; done.
Qed.

End WithRuntime.

Section Session.
Context `{R : Runtime}.
Import TestEngine.

Lemma records_more plates answered a i rd :
  records plates answered i rd -> records plates (answered ++ [a]) i rd.
Proof.
  intros (H1 & plate & x & H2 & H3 & H4). split; [done|].
  exists plate, x. split; [done|]. split; [|done]. by apply lookup_app_l_Some.
Qed.

Lemma calculateResults_fields st env :
  let r := (calculateResults st env).1 in
  r_responses r = responses st /\ plateCount r = length (plates st) /\
  r_mode r = mode st /\
  tally (responses st) (overall r) /\
  tally (filter (fun rd => plateType rd = "deutanConfusion") (responses st))
        (deutan r) /\
  tally (filter (fun rd => plateType rd = "control") (responses st)) (control r) /\
  severity r = estimateSeverity (inject_Z (score (deutan r)))
                                (inject_Z (score (control r))).
Proof.
  unfold calculateResults. destruct (dateNow env) as [t0 e0].
  destruct (dateNow e0) as [t1 e1]. cbn. unfold tally. cbn. done.
Qed.

Lemma recordResponse_underway k answered a st env :
  underway k answered st ->
  exists st' ev env',
    recordResponse a st env = Normal (st', ev, env') /\
    underway k (answered ++ [a]) st' /\
    plates st' = plates st /\
    (isRunning st = false -> st' = st /\ ev = []) /\
    (isRunning st = true ->
     testResults ev =
       if isRunning st' then []
       else [(calculateResults
                {| isRunning := false; currentPlateIndex := currentPlateIndex st';
                   plates := plates st'; responses := responses st';
                   startTime := startTime st'; plateStartTime := plateStartTime st';
                   filterParams := filterParams st'; mode := mode st';
                   seed := seed st'; timer := false |}
                (dateNow env).2).1]).
Proof.
  intros (U1 & U2 & U3 & U4 & U5).
  unfold recordResponse, getCurrentPlate.
  destruct (plates st !! currentPlateIndex st) as [plate|] eqn:Ep.
  - apply lookup_lt_Some in Ep as Hlt.
    assert (Hans : (length answered < k)%nat) by lia.
    assert (Hrun : isRunning st = true) by (rewrite U4; by apply bool_decide_eq_true_2).
    destruct (dateNow env) as [now env1] eqn:En.
    match goal with
    | |- context [if _ then complete ?s _ else _] => set (st1 := s)
    end.
    assert (Hrec : forall i rd, responses st1 !! i = Some rd ->
                     records (plates st) (answered ++ [a]) i rd).
    { subst st1. cbn. intros i rd Hi.
      apply lookup_app_Some in Hi as [Hi|[Hge Hi]].
      - by apply records_more, U5.
      - apply list_lookup_singleton_Some in Hi as [Hi <-].
        assert (i = length (responses st)) as -> by lia.
        split; [cbn; lia|]. exists plate, a. rewrite <- U2. split; [done|].
        split; [|done]. rewrite U2, U3.
        replace (length answered `min` k)%nat with (length answered) by lia.
        by apply list_lookup_middle. }
    destruct (Nat.leb_spec (length (plates st1)) (currentPlateIndex st1)) as [Hle|Hgt].
    + unfold complete. destruct (calculateResults _ env1) as [res env2] eqn:Ec.
      do 3 eexists. split; [reflexivity|].
      subst st1. cbn [currentPlateIndex plates responses startTime plateStartTime filterParams mode seed] in Ec. cbn in Hle, Hrec |- *. unfold underway. cbn.
      rewrite !length_app. cbn [length].
      split; [|split; [done|split; [congruence|]]].
      * split_and!; try done; try lia.
        symmetry. apply bool_decide_eq_false_2. lia.
      * intros _. by rewrite Ec.
    + unfold showCurrentPlate, getCurrentPlate.
      subst st1. cbn in Hgt, Hrec |- *.
      destruct (plates st !! S (currentPlateIndex st)) as [next|] eqn:Enext.
      2:{ apply lookup_ge_None in Enext. lia. }
      destruct (dateNow env1) as [now2 env2].
      do 3 eexists. split; [reflexivity|]. unfold underway. cbn.
      rewrite !length_app. cbn [length].
      split; [|split; [done|split; [congruence|]]].
      * split_and!; try done; try lia.
        rewrite Hrun. symmetry. apply bool_decide_eq_true_2. lia.
      * intros _. by rewrite Hrun.
  - apply lookup_ge_None in Ep.
    assert (Hrun : isRunning st = false) by (rewrite U4; apply bool_decide_eq_false_2; lia).
    do 3 eexists. split; [reflexivity|].
    split; [|split; [done|split; [done|congruence]]].
    unfold underway. rewrite length_app. cbn [length].
    split_and!; try done; try lia.
    + rewrite U4. apply bool_decide_ext. lia.
    + intros i rd Hi. by apply records_more, U5.
Qed.


Lemma reported_complete st' e :
  isRunning st' = false ->
  reported st'
    [(calculateResults
        {| isRunning := false; currentPlateIndex := currentPlateIndex st';
           plates := plates st'; responses := responses st';
           startTime := startTime st'; plateStartTime := plateStartTime st';
           filterParams := filterParams st'; mode := mode st';
           seed := seed st'; timer := false |} e).1].
Proof.
  intros Hrun. unfold reported. rewrite Hrun. eexists. split; [reflexivity|].
  match goal with |- context [calculateResults ?s e] =>
    pose proof (calculateResults_fields s e) as F end.
  cbn [isRunning plates responses mode] in F. exact F.
Qed.

Lemma feed_underway k answered answers st env :
  underway k answered st ->
  exists st' ev env',
    feed answers st env = Normal (st', ev, env') /\
    underway k (answered ++ answers) st' /\
    plates st' = plates st /\
    (isRunning st = false -> st' = st /\ ev = []) /\
    (isRunning st = true -> reported st' (testResults ev)).
Proof.
  revert answered st env. induction answers as [|a answers IH];
    intros answered st env Hu; cbn [feed].
  - do 3 eexists. split; [reflexivity|]. rewrite app_nil_r.
    split; [done|]. split; [done|]. split; [done|].
    intros Hrun. unfold reported. by rewrite Hrun.
  - destruct (recordResponse_underway k answered a st env Hu)
      as (st1 & ev1 & env1 & -> & Hu1 & Hp1 & Hs1 & Hr1).
    destruct (IH (answered ++ [a])%list st1 env1 Hu1)
      as (st2 & ev2 & env2 & -> & Hu2 & Hp2 & Hs2 & Hr2).
    do 3 eexists. split; [reflexivity|].
    rewrite <- app_assoc in Hu2. cbn in Hu2.
    split; [done|]. split; [congruence|]. split.
    + intros Hrun. destruct (Hs1 Hrun) as [-> ->].
      destruct (Hs2 Hrun) as [-> ->]. done.
    + intros Hrun. specialize (Hr1 Hrun). unfold testResults.
      rewrite omap_app. fold (testResults ev1). fold (testResults ev2).
      destruct (isRunning st1) eqn:Hrun1.
      * rewrite Hr1. cbn. by apply Hr2.
      * destruct (Hs2 eq_refl) as [-> ->]. rewrite Hr1. cbn.
        by apply reported_complete.
Qed.

Lemma start_underway st0 env :
  isRunning st0 = false ->
  exists st1 ev1 env1,
    start st0 env = (st1, ev1, env1) /\
    underway (length (plates st0)) [] st1 /\
    plates st1 = plates st0 /\
    reported st1 (testResults ev1).
Proof.
  intros Hrun. unfold start. rewrite Hrun.
  destruct (dateNow env) as [now env1].
  unfold showCurrentPlate, getCurrentPlate. cbn [plates currentPlateIndex].
  destruct (plates st0 !! 0%nat) as [plate|] eqn:Ep.
  - destruct (dateNow env1) as [now2 env2].
    do 3 eexists. split; [reflexivity|]. cbn.
    apply lookup_lt_Some in Ep.
    split; [|split; [done|reflexivity]].
    unfold underway. cbn. split_and!; try done.
    symmetry. by apply bool_decide_eq_true_2.
  - unfold complete. destruct (calculateResults _ env1) as [res env2] eqn:Ec.
    do 3 eexists. split; [reflexivity|]. cbn.
    apply lookup_ge_None in Ep.
    split; [|split; [done|]].
    + unfold underway. cbn. split_and!; try done; try lia.
      symmetry. apply bool_decide_eq_false_2. lia.
    + unfold reported. cbn. exists res.
      match type of Ec with calculateResults ?s env1 = _ =>
        pose proof (calculateResults_fields s env1) as F end.
      rewrite Ec in F. cbn [fst isRunning plates responses mode] in F.
      split; [reflexivity|exact F].
Qed.
End Session.


End TestFacts.

(** * The claims of the specification *)

Section Claims.

Import ColorFilter ColorFilterFacts.

Local Open Scope Q_scope.
Local Open Scope string_scope.






(** C1 (amended).  [TestEngine.estimateSeverity] assigns the bucket from
    the boundary table applied to the severity value before it is
    rounded: at most 15 is none, above 15 up to 35 is mild, above 35 up
    to 60 is moderate, above 60 is strong; it has no inconclusive bucket.
    [OutlierTestEngine.calculateSeverity] answers inconclusive whenever
    the control score is below 50; otherwise it decides on the gap
    between the control and the confusion score and on the confusion
    score, and sets the value 0, 25, 55 or 85 that the boundary table
    maps to the bucket it chose. *)
Theorem severity_bucket_rules :
  (forall d c : Q,
     let v := TestEngine.severityValue d c in
     let b := TestEngine.bucket (TestEngine.estimateSeverity d c) in
     (v <= 15 -> b = none) /\
     (15 < v -> v <= 35 -> b = mild) /\
     (35 < v -> v <= 60 -> b = moderate) /\
     (60 < v -> b = strong) /\
     b <> inconclusive) /\
  (forall ds cs : OutlierTestEngine.Stats,
     let r := OutlierTestEngine.calculateSeverity ds cs in
     let gap := (OutlierTestEngine.score cs - OutlierTestEngine.score ds)%Z in
     let d := OutlierTestEngine.score ds in
     ((OutlierTestEngine.score cs < 50)%Z ->
      OutlierTestEngine.bucket r = inconclusive) /\
     ((50 <= OutlierTestEngine.score cs)%Z ->
      (OutlierTestEngine.bucket r = none <-> (gap <= 10 /\ 70 <= d)%Z) /\
      (OutlierTestEngine.bucket r = strong <-> (45 < gap /\ d < 40)%Z) /\
      OutlierTestEngine.bucket r <> inconclusive /\
      ((OutlierTestEngine.value r <= 15)%Z -> OutlierTestEngine.bucket r = none) /\
      ((16 <= OutlierTestEngine.value r <= 35)%Z ->
       OutlierTestEngine.bucket r = mild) /\
      ((36 <= OutlierTestEngine.value r <= 60)%Z ->
       OutlierTestEngine.bucket r = moderate) /\
      ((60 < OutlierTestEngine.value r)%Z -> OutlierTestEngine.bucket r = strong))).
Proof.
  split.
  - intros d c v b. subst b. unfold TestEngine.estimateSeverity. simpl.
    fold v. unfold TestEngine.bucketOf.
    destruct (Qle_bool v 15) eqn:E1;
      [apply Qle_bool_iff in E1|apply JSFacts.Qle_bool_false in E1];
    (destruct (Qle_bool v 35) eqn:E2;
      [apply Qle_bool_iff in E2|apply JSFacts.Qle_bool_false in E2]);
    (destruct (Qle_bool v 60) eqn:E3;
      [apply Qle_bool_iff in E3|apply JSFacts.Qle_bool_false in E3]);
    repeat split; intros; try reflexivity; try discriminate; exfalso; lra.
  - intros ds cs r gap d. subst r.
    unfold OutlierTestEngine.calculateSeverity, OutlierTestEngine.classify.
    fold gap. fold d.
    destruct (Z.ltb_spec (OutlierTestEngine.score cs) 50).
    + simpl. split; [reflexivity|lia].
    + split; [lia|]. intros _.
      destruct (Z.leb_spec gap 10), (Z.leb_spec 70 d), (Z.leb_spec gap 25),
        (Z.leb_spec 60 d), (Z.leb_spec gap 45), (Z.leb_spec 40 d); simpl;
        repeat split; intros; try reflexivity; try discriminate; try lia.
Qed.

(** C1, the scenario of the specification: a control score of 100 and a
    confusion score of 30 are classified strong by both engines. *)
Lemma severity_bucket_rules_witness :
  TestEngine.bucket (TestEngine.estimateSeverity 30 100) = strong /\
  OutlierTestEngine.bucket
    (OutlierTestEngine.calculateSeverity
       {| OutlierTestEngine.correct := 3; OutlierTestEngine.total := 10;
          OutlierTestEngine.score := 30 |}
       {| OutlierTestEngine.correct := 6; OutlierTestEngine.total := 6;
          OutlierTestEngine.score := 100 |}) = strong.
Proof.
  destruct severity_bucket_rules as [HT HO]. split.
  - apply (HT 30 100). reflexivity.
  - apply HO; [discriminate|]. simpl. lia.
Defined.

(** C1 as stated fails in [TestEngine]: with a control score of 40, below
    50, and a confusion score of 40, the bucket is none, not inconclusive;
    and confusion 61 against control 72 has the reported value 15 with the
    bucket mild. *)
Lemma estimateSeverity_low_control_not_inconclusive :
  (40 < 50) /\
  TestEngine.bucket (TestEngine.estimateSeverity 40 40) = none /\
  TestEngine.value (TestEngine.estimateSeverity 61 72) = 15%Z /\
  TestEngine.bucket (TestEngine.estimateSeverity 61 72) = mild.
Proof. repeat split; vm_compute; reflexivity. Qed.


(** C7.  With the control score at 100, the bucket is antitone in the
    confusion score in both engines: a lower confusion score never gets
    a less severe bucket, and no bucket in sight is the unranked
    inconclusive one. *)
Theorem severity_antitone (da db cs : OutlierTestEngine.Stats) (x y : Q) :
  (OutlierTestEngine.score da <= OutlierTestEngine.score db)%Z ->
  OutlierTestEngine.score cs = 100%Z ->
  x <= y ->
  no_more_severe
    (OutlierTestEngine.bucket (OutlierTestEngine.calculateSeverity db cs))
    (OutlierTestEngine.bucket (OutlierTestEngine.calculateSeverity da cs)) /\
  no_more_severe
    (TestEngine.bucket (TestEngine.estimateSeverity y 100))
    (TestEngine.bucket (TestEngine.estimateSeverity x 100)).
Proof.
  intros Hab Hc Hxy. split.
  - unfold OutlierTestEngine.calculateSeverity, OutlierTestEngine.classify.
    rewrite Hc. simpl (100 <? 50)%Z. cbv iota.
    set (a := OutlierTestEngine.score da) in *.
    set (b := OutlierTestEngine.score db) in *.
    destruct (Z.leb_spec (100 - a) 10), (Z.leb_spec 70 a), (Z.leb_spec (100 - a) 25),
      (Z.leb_spec 60 a), (Z.leb_spec (100 - a) 45), (Z.leb_spec 40 a);
      try lia;
      destruct (Z.leb_spec (100 - b) 10), (Z.leb_spec 70 b), (Z.leb_spec (100 - b) 25),
        (Z.leb_spec 60 b), (Z.leb_spec (100 - b) 45), (Z.leb_spec 40 b);
      try lia; simpl; unfold no_more_severe; simpl;
      do 2 eexists; (split; [reflexivity|split; [reflexivity|lia]]).
  - unfold TestEngine.estimateSeverity, TestEngine.severityValue,
      TestEngine.adjustedScore. simpl.
    unfold TestEngine.bucketOf.
    destruct (Qle_bool (100 - x) 15) eqn:A1;
      [apply Qle_bool_iff in A1|apply JSFacts.Qle_bool_false in A1];
    (destruct (Qle_bool (100 - x) 35) eqn:A2;
      [apply Qle_bool_iff in A2|apply JSFacts.Qle_bool_false in A2]);
    (destruct (Qle_bool (100 - x) 60) eqn:A3;
      [apply Qle_bool_iff in A3|apply JSFacts.Qle_bool_false in A3]);
    (destruct (Qle_bool (100 - y) 15) eqn:B1;
      [apply Qle_bool_iff in B1|apply JSFacts.Qle_bool_false in B1]);
    (destruct (Qle_bool (100 - y) 35) eqn:B2;
      [apply Qle_bool_iff in B2|apply JSFacts.Qle_bool_false in B2]);
    (destruct (Qle_bool (100 - y) 60) eqn:B3;
      [apply Qle_bool_iff in B3|apply JSFacts.Qle_bool_false in B3]);
    try (exfalso; lra); unfold no_more_severe; simpl;
    do 2 eexists; (split; [reflexivity|split; [reflexivity|lia]]).
Qed.

(** C7, an instance: confusion scores 30 and 80 against a control score
    of 100. *)
Lemma severity_antitone_witness :
  no_more_severe
    (OutlierTestEngine.bucket
       (OutlierTestEngine.calculateSeverity
          {| OutlierTestEngine.correct := 8; OutlierTestEngine.total := 10;
             OutlierTestEngine.score := 80 |}
          {| OutlierTestEngine.correct := 6; OutlierTestEngine.total := 6;
             OutlierTestEngine.score := 100 |}))
    (OutlierTestEngine.bucket
       (OutlierTestEngine.calculateSeverity
          {| OutlierTestEngine.correct := 3; OutlierTestEngine.total := 10;
             OutlierTestEngine.score := 30 |}
          {| OutlierTestEngine.correct := 6; OutlierTestEngine.total := 6;
             OutlierTestEngine.score := 100 |})) /\
  no_more_severe
    (TestEngine.bucket (TestEngine.estimateSeverity 80 100))
    (TestEngine.bucket (TestEngine.estimateSeverity 30 100)).
Proof.
  apply severity_antitone; [simpl; lia | reflexivity | discriminate].
Defined.

(** C10.  With a generator whose draws lie in [0, 1), every call of the
    animated generator returns a plate; its grid is 2, 3 or 4 squares
    wide, [outlierIndex] is an integer from 0 to [gridSize * gridSize - 1],
    there is one square for each position, square [i] carries the index
    [i], and it is the outlier exactly when [i = outlierIndex]. *)
Theorem generatePlate_single_outlier `{R : Runtime} `{!RuntimeSpec R}
  (options : AnimatedMosaic.Options) (world : list Z * Env) :
  exists plate,
    fst (AnimatedMosaic.generatePlate options world) = Some plate /\
    let n := AnimatedMosaic.gridSize plate in
    (n = 2 \/ n = 3 \/ n = 4)%Z /\
    (0 <= AnimatedMosaic.outlierIndex plate < n * n)%Z /\
    length (AnimatedMosaic.squares plate) = Z.to_nat (n * n) /\
    forall i sq, AnimatedMosaic.squares plate !! i = Some sq ->
      AnimatedMosaic.index sq = i /\
      (AnimatedMosaic.isOutlier sq = true <->
       Z.of_nat i = AnimatedMosaic.outlierIndex plate).
Proof.
  unfold AnimatedMosaic.generatePlate. destruct world as [perm env].
  destruct (AnimatedMosaic.o_seed options) as [seed|].
  - destruct (GeneratorFacts.plateFromSeed_total options seed (createRNG seed))
      as [[plate g'] Hp].
    exists plate. simpl. rewrite Hp. split; [reflexivity|].
    eapply GeneratorFacts.plateFromSeed_outlier; eauto.
  - destruct (generateSeed None env) as [seed env'].
    destruct (GeneratorFacts.plateFromSeed_total options seed (createRNG seed))
      as [[plate g'] Hp].
    exists plate. simpl. rewrite Hp. split; [reflexivity|].
    eapply GeneratorFacts.plateFromSeed_outlier; eauto.
Qed.

(** C10, an instance: a hard control plate from seed 42 on the example
    runtime. *)
Lemma generatePlate_single_outlier_witness :
  exists plate,
    fst (AnimatedMosaic.generatePlate Example.animatedRequest ([], 0%Z))
      = Some plate /\
    let n := AnimatedMosaic.gridSize plate in
    (n = 2 \/ n = 3 \/ n = 4)%Z /\
    (0 <= AnimatedMosaic.outlierIndex plate < n * n)%Z /\
    length (AnimatedMosaic.squares plate) = Z.to_nat (n * n) /\
    forall i sq, AnimatedMosaic.squares plate !! i = Some sq ->
      AnimatedMosaic.index sq = i /\
      (AnimatedMosaic.isOutlier sq = true <->
       Z.of_nat i = AnimatedMosaic.outlierIndex plate).
Proof.
  apply (@generatePlate_single_outlier Example.runtime ExampleFacts.runtime_spec).
Defined.

(** C2.  A request that carries its seed yields the same plate in every
    environment, from both generators: the target, the mask, the cell
    colours, the outlier position and the animation parameters are
    functions of the request alone.  So does the permutation table the
    animated generator leaves in the shared noise object.  In particular a
    second call, made in the state the first one left, returns the plate
    of the first. *)
Theorem generatePlate_deterministic `{Runtime}
  (mo : MosaicGenerator.Options) (ao : AnimatedMosaic.Options)
  (e1 e2 : Env) (w1 w2 : list Z * Env) :
  is_Some (MosaicGenerator.o_seed mo) ->
  is_Some (AnimatedMosaic.o_seed ao) ->
  fst (MosaicGenerator.generatePlate mo e1) =
    fst (MosaicGenerator.generatePlate mo e2) /\
  fst (MosaicGenerator.generatePlate
         mo (snd (MosaicGenerator.generatePlate mo e1))) =
    fst (MosaicGenerator.generatePlate mo e1) /\
  fst (AnimatedMosaic.generatePlate ao w1) =
    fst (AnimatedMosaic.generatePlate ao w2) /\
  fst (snd (AnimatedMosaic.generatePlate ao w1)) =
    fst (snd (AnimatedMosaic.generatePlate ao w2)) /\
  fst (AnimatedMosaic.generatePlate
         ao (snd (AnimatedMosaic.generatePlate ao w1))) =
    fst (AnimatedMosaic.generatePlate ao w1).
Proof.
  intros [ms Hm] [as_ Ha].
  unfold MosaicGenerator.generatePlate, AnimatedMosaic.generatePlate.
  rewrite Hm, Ha. destruct w1 as [p1 v1], w2 as [p2 v2]. simpl.
  repeat split; reflexivity.
Qed.

(** C2, an instance on the example runtime: one request, two different
    environments. *)
Lemma generatePlate_deterministic_witness :
  fst (MosaicGenerator.generatePlate Example.mosaicRequest 0%Z) =
    fst (MosaicGenerator.generatePlate Example.mosaicRequest 7%Z) /\
  fst (AnimatedMosaic.generatePlate Example.animatedRequest ([], 0%Z)) =
    fst (AnimatedMosaic.generatePlate Example.animatedRequest ([1%Z], 7%Z)).
Proof.
  destruct (generatePlate_deterministic (H := Example.runtime)
              Example.mosaicRequest Example.animatedRequest
              0%Z 7%Z ([], 0%Z) ([1%Z], 7%Z)) as (H1 & _ & H3 & _).
  - eexists; reflexivity.
  - eexists; reflexivity.
  - split; assumption.
Defined.

(** C3.  A tuning run ([init], [start], then any responses) with a round
    budget of at least 1 always ends its calls with an outcome.  When
    the calls return: at most [maxRounds] rounds were started, one
    [RoundStart] for each, and at most [maxRounds] were completed; a
    tuner that is still running has completed fewer than [maxRounds]
    rounds and, once a round is completed, has a best score below 100 and
    fewer than [maxNoImprovement] rounds without improvement in a row; a
    tuner that has stopped was stopped by the round budget, a best score
    of 100 or more, or the stall limit; and after
    [maxRounds * platesPerRound] responses the tuner has stopped.  The
    test that decides is [shouldContinue], false exactly on the three
    conditions.  With draws in [0, 1) and at least one plate in a round,
    the calls do return: no call of the run throws. *)
Theorem tuner_stops_within_budget `{Runtime} (cfg : TuningEngine.Config)
  (options : TuningEngine.InitOptions) (answers : list Answer) (env : Env) :
  (1 <= TuningEngine.maxRounds cfg)%Z ->
  (forall st,
     TuningEngine.shouldContinue cfg st = false <->
     (TuningEngine.st_maxRounds st <= TuningEngine.currentRound st \/
      100 <= TuningEngine.bestScore st \/
      exists n, TuningEngine.noImprovementCount st = Some n /\
                TuningEngine.maxNoImprovement cfg <= n)%Z) /\
  exists outcome,
    TuningEngine.run cfg options answers env = Some outcome /\
    (RuntimeSpec H -> (1 <= TuningEngine.platesPerRound cfg)%Z ->
     exists st events env', outcome = Normal (st, events, env')) /\
    forall st events env', outcome = Normal (st, events, env') ->
      (1 <= TuningEngine.currentRound st <= TuningEngine.maxRounds cfg)%Z /\
      TuningEngine.roundsStarted events = TuningEngine.currentRound st /\
      (Z.of_nat (length (TuningEngine.history st)) <= TuningEngine.maxRounds cfg)%Z /\
      (TuningEngine.isRunning st = true ->
         (Z.of_nat (length (TuningEngine.history st))
          < TuningEngine.maxRounds cfg)%Z /\
         (TuningEngine.history st <> [] ->
          (TuningEngine.bestScore st < 100 /\
           TuningEngine.stall st < TuningEngine.maxNoImprovement cfg)%Z)) /\
      (TuningEngine.isRunning st = false ->
         (TuningEngine.maxRounds cfg <= TuningEngine.currentRound st \/
          100 <= TuningEngine.bestScore st \/
          TuningEngine.maxNoImprovement cfg <= TuningEngine.stall st)%Z) /\
      ((TuningEngine.maxRounds cfg * TuningEngine.platesPerRound cfg
        <= Z.of_nat (length answers))%Z ->
       TuningEngine.isRunning st = false).
Proof.
  intros HR. split; [intros st; apply TuningFacts.shouldContinue_false|].
  destruct (TuningEngine.run cfg options answers env) as [outcome|] eqn:Er.
  2:{ by apply TuningFacts.run_total in Er. }
  exists outcome. split; [reflexivity|]. split.
  { intros HS HP.
    destruct (TuningFacts.run_Normal cfg options answers env HR HP)
      as (st & events & env' & E).
    exists st, events, env'. congruence. }
  intros st events env' ->.
  apply TuningFacts.run_invariant in Er as (Hinv & Hrounds & Hone & Hlive); [|done].
  destruct Hinv as (I1 & I2 & I3 & _ & _ & _ & _ & I8 & I9).
  split; [lia|]. split; [done|]. split.
  { destruct (TuningEngine.isRunning st); lia. }
  split; [|split; [|done]].
  - intros Hrun. rewrite Hrun in I3. destruct (I8 Hrun) as (_ & _ & _ & Hstop).
    split; [lia|done].
  - intros Hrun. rewrite Hrun in I3. destruct (I9 Hrun) as (_ & Hwhy).
    apply Hwhy. intros E. rewrite E in I3. simpl in I3. lia.
Qed.

(** C3, an instance: the default configuration on the example runtime,
    two skipped plates. *)
Lemma tuner_stops_within_budget_witness :
  exists st events env',
    TuningEngine.run (H := Example.runtime) TuningEngine.config
      {| TuningEngine.baselineSeverity := Some "mild";
         TuningEngine.io_baselineScore := Some 40%Z |} [None; None] 0%Z
    = Some (Normal (st, events, env')) /\
    (1 <= TuningEngine.currentRound st <= 5)%Z /\
    TuningEngine.roundsStarted events = TuningEngine.currentRound st.
Proof.
  destruct (tuner_stops_within_budget (H := Example.runtime) TuningEngine.config
              {| TuningEngine.baselineSeverity := Some "mild";
                 TuningEngine.io_baselineScore := Some 40%Z |}
              [None; None] 0%Z) as (_ & outcome & Hrun & Hnormal & Hall).
  - simpl. lia.
  - destruct Hnormal as (st & events & env' & E).
    + exact ExampleFacts.runtime_spec.
    + simpl. lia.
    + exists st, events, env'. subst outcome. split; [exact Hrun|].
      destruct (Hall st events env' eq_refl) as (? & ? & _).
      split; assumption.
Defined.

(** C9.  [normalizeParams] returns exactly the five tunable parameters,
    each within its declared range: a value the input defines is clamped
    into the range (and kept when it is inside), a missing one takes the
    default, and any other key of the input is dropped.
    [adjustParameters] ends by normalizing, so the parameters it sets are
    within the ranges; in a tuning run the parameters of the current
    round and of every round in the history are within the ranges. *)
Theorem normalizeParams_in_declared_ranges `{Runtime} (params : Params) :
  dom (normalizeParams params) =
    ({["hueShift"; "intensity"; "saturationBoost"; "brightness"; "contrast"]}
       : gset string) /\
  in_ranges (normalizeParams params) /\
  (forall param range, In (param, range) paramRanges ->
     normalizeParams params !! param =
     match params !! param with
     | Some v => Some (Utils.clamp v (r_min range) (r_max range))
     | None => defaults !! param
     end) /\
  (forall param range v, In (param, range) paramRanges ->
     params !! param = Some v -> r_min range <= v -> v <= r_max range ->
     exists w, normalizeParams params !! param = Some w /\ w == v) /\
  (forall st env st' env',
     TuningEngine.adjustParameters st env = Normal (st', env') ->
     exists p, TuningEngine.currentParams st' = Some p /\ in_ranges p) /\
  (forall cfg options answers env st events env',
     (1 <= TuningEngine.maxRounds cfg)%Z ->
     TuningEngine.run cfg options answers env = Some (Normal (st, events, env')) ->
     (exists p, TuningEngine.currentParams st = Some p /\ in_ranges p) /\
     Forall (fun h => in_ranges (TuningEngine.params h)) (TuningEngine.history st)).
Proof.
  split; [apply normalizeParams_dom|].
  split; [apply normalizeParams_in_ranges|].
  split; [apply normalizeParams_lookup|].
  split; [|split].
  - intros param range v Hin Hv Hlo Hhi.
    rewrite (normalizeParams_lookup _ _ _ Hin), Hv.
    eexists. split; [reflexivity|]. by apply clamp_id.
  - intros st env st' env' Ha.
    apply TuningFacts.adjustParameters_Normal in Ha as (chosen & ->).
    eexists. split; [reflexivity|]. apply normalizeParams_in_ranges.
  - intros cfg options answers env st events env' HR Hrun.
    apply TuningFacts.run_invariant in Hrun as (Hinv & _); [|done].
    destruct Hinv as (_ & _ & _ & I4 & _ & I6 & _). by split.
Qed.

(** C9, an instance: an out-of-range hue shift and a stray key. *)
Lemma normalizeParams_in_declared_ranges_witness :
  exists w,
    normalizeParams (<["intensity" := 3 # 10]> (<["hueShift" := 100]>
                    (<["gamma" := 2]> ∅))) !! "intensity" = Some w /\
    w == 3 # 10.
Proof.
  destruct (normalizeParams_in_declared_ranges (H := Example.runtime)
              (<["intensity" := 3 # 10]> (<["hueShift" := 100]>
              (<["gamma" := 2]> ∅)))) as (_ & _ & _ & Hkeep & _).
  apply (Hkeep "intensity" {| r_min := 0; r_max := 1; r_step := 1 # 10 |}).
  - right; left; reflexivity.
  - reflexivity.
  - discriminate.
  - discriminate.
Defined.

(** C8 (amended).  [recordResponse] never fails.  In [TestEngine], with
    no current plate (before [init], or once the plates are used up) it
    returns at once and changes nothing; with a current plate it records
    the response and moves on, whether or not the engine is running, so
    also after [init] and before [start].  [TuningEngine.recordResponse]
    returns at once without a change when there is no current plate, and
    always ends with an outcome; with draws in [0, 1) it returns normally
    in every state that a tuning run reaches, running or stopped. *)
Theorem recordResponse_never_fails `{Runtime} (response : Answer) :
  (forall st env,
     match TestEngine.getCurrentPlate st with
     | None => TestEngine.recordResponse response st env = Normal (st, [], env)
     | Some plate =>
       exists st' events env' rd,
         TestEngine.recordResponse response st env =
           Normal (st', TestEngine.PlateComplete rd :: events, env') /\
         TestEngine.responses st' = (TestEngine.responses st ++ [rd])%list /\
         TestEngine.currentPlateIndex st' = S (TestEngine.currentPlateIndex st) /\
         TestEngine.userResponse rd = response /\
         TestEngine.isCorrect rd = TestEngine.checkAnswer response plate
     end) /\
  (forall cfg st env,
     TuningEngine.getCurrentPlate st = None ->
     TuningEngine.recordResponse cfg response st env = Some (Normal (st, [], env))) /\
  (forall cfg st env,
     exists outcome, TuningEngine.recordResponse cfg response st env = Some outcome) /\
  (RuntimeSpec H ->
   forall cfg options answers env st events env',
     (1 <= TuningEngine.maxRounds cfg)%Z ->
     TuningEngine.run cfg options answers env = Some (Normal (st, events, env')) ->
     exists st' events' env'',
       TuningEngine.recordResponse cfg response st env' =
         Some (Normal (st', events', env''))).
Proof.
  split; [|split; [|split]].
  - intros st env. destruct (TestEngine.getCurrentPlate st) as [plate|] eqn:Ep;
      unfold TestEngine.recordResponse; rewrite Ep; [|reflexivity].
    destruct (dateNow env) as [now env1].
    match goal with
    | |- context [if _ then TestEngine.complete ?s _ else _] => set (st1 := s)
    end.
    destruct (if (length (TestEngine.plates st1)
                  <=? TestEngine.currentPlateIndex st1)%nat
              then TestEngine.complete st1 env1
              else TestEngine.showCurrentPlate st1 env1)
      as [[st2 ev2] env2] eqn:E.
    destruct (TestFacts.step_keeps_responses _ _ _ _ _ _ E) as [Hr Hi].
    do 4 eexists. split; [reflexivity|]. rewrite Hr, Hi. subst st1. cbn. done.
  - intros cfg st env Ep. unfold TuningEngine.recordResponse. by rewrite Ep.
  - intros cfg st env.
    destruct (TuningEngine.recordResponse cfg response st env) as [o|] eqn:E;
      [by exists o|]. by apply TuningFacts.recordResponse_total in E.
  - intros HS cfg options answers env st events env' HR Hrun.
    apply TuningFacts.run_invariant in Hrun as (Hinv & _); [|done].
    by apply TuningFacts.recordResponse_Normal.
Qed.

(** C8 as stated fails.  On the example runtime: a response given to a
    test engine that was never initialised, and one given to a tuner that
    was never initialised, return normally and leave the state as it was;
    a response given to a test engine that holds a plate and was not
    started is recorded and scored. *)
Lemma recordResponse_outside_awaiting_returns :
  TestEngine.recordResponse (H := Example.runtime) (Some "5")
    TestEngine.initialState 0%Z = Normal (TestEngine.initialState, [], 0%Z) /\
  TuningEngine.recordResponse (H := Example.runtime) TuningEngine.config
    (Some "5") TuningEngine.initialState 0%Z
    = Some (Normal (TuningEngine.initialState, [], 0%Z)) /\
  TestEngine.isRunning Example.idleWithPlate = false /\
  match TestEngine.recordResponse (Some "7") Example.idleWithPlate 0%Z with
  | Normal (st, _, _) =>
    map TestEngine.isCorrect (TestEngine.responses st) = [true] /\
    TestEngine.currentPlateIndex st = 1%nat
  | Thrown => False
  end.
Proof. repeat split; vm_compute; reflexivity. Qed.

End Claims.
(** * Further properties of the code *)

Section Extras.

Import ColorFilter ColorFilterFacts.

Local Open Scope Q_scope.
Local Open Scope string_scope.

(** ** ColorFilter *)

(** X1.  For two parameter sets within the declared
    ranges, [similarity] is a number from 0 to 1, the same in both
    directions, and it is 1 exactly when the two sets agree on all five
    tunable parameters. *)
Theorem similarity_score p q :
  in_ranges p -> in_ranges q ->
  exists s, similarity p q = Some s /\ 0 <= s /\ s <= 1 /\
    (exists s', similarity q p = Some s' /\ s' == s) /\
    (s == 1 <->
     forall param range, In (param, range) paramRanges ->
       exists v w, p !! param = Some v /\ q !! param = Some w /\ v == w).
Proof.
  intros Hp Hq.
  destruct (in_ranges_values p Hp) as (h & i & s & b & c & Vp & ? & ? & ? & ? & ?).
  destruct (in_ranges_values q Hq) as (h' & i' & s' & b' & c' & Vq & ? & ? & ? & ? & ?).
  destruct (similarity_values p q _ _ Vp Vq) as (x & Ex & Hx).
  destruct (similarity_values q p _ _ Vq Vp) as (y & Ey & Hy).
  exists x. split; [exact Ex|].
  unfold distance in Hx, Hy.
  pose proof (abs_nonneg (h - h')). pose proof (abs_nonneg (i - i')).
  pose proof (abs_nonneg (s - s')). pose proof (abs_nonneg (b - b')).
  pose proof (abs_nonneg (c - c')).
  pose proof (abs_le h h' 120 ltac:(lra) ltac:(lra)).
  pose proof (abs_le i i' 1 ltac:(lra) ltac:(lra)).
  pose proof (abs_le s s' 60 ltac:(lra) ltac:(lra)).
  pose proof (abs_le b b' 40 ltac:(lra) ltac:(lra)).
  pose proof (abs_le c c' 40 ltac:(lra) ltac:(lra)).
  pose proof (abs_sym h h'). pose proof (abs_sym i i').
  pose proof (abs_sym s s'). pose proof (abs_sym b b'). pose proof (abs_sym c c').
  apply values_lookup in Vp as (P1 & P2 & P3 & P4 & P5).
  apply values_lookup in Vq as (Q1 & Q2 & Q3 & Q4 & Q5).
  split; [lra|]. split; [lra|]. split; [exists y; split; [exact Ey|lra]|].
  split.
  - intros Hone.
    assert (JS.abs (h - h') == 0 /\ JS.abs (i - i') == 0 /\ JS.abs (s - s') == 0 /\
            JS.abs (b - b') == 0 /\ JS.abs (c - c') == 0) as (A1 & A2 & A3 & A4 & A5)
      by (repeat split; lra).
    apply (proj1 (abs_zero _ _)) in A1. apply (proj1 (abs_zero _ _)) in A2.
    apply (proj1 (abs_zero _ _)) in A3. apply (proj1 (abs_zero _ _)) in A4.
    apply (proj1 (abs_zero _ _)) in A5.
    intros param range Hin. cbn in Hin.
    destruct Hin as [E|[E|[E|[E|[E|[]]]]]]; injection E as <- <-;
      do 2 eexists; split_and!; eassumption.
  - intros Hall.
    destruct (Hall "hueShift" _ ltac:(cbn; eauto)) as (v1 & w1 & V1 & W1 & E1).
    destruct (Hall "intensity" _ ltac:(cbn; eauto)) as (v2 & w2 & V2 & W2 & E2).
    destruct (Hall "saturationBoost" _ ltac:(cbn; eauto 6)) as (v3 & w3 & V3 & W3 & E3).
    destruct (Hall "brightness" _ ltac:(cbn; eauto 6)) as (v4 & w4 & V4 & W4 & E4).
    destruct (Hall "contrast" _ ltac:(cbn; eauto 8)) as (v5 & w5 & V5 & W5 & E5).
    simplify_eq.
    apply (proj2 (abs_zero _ _)) in E1. apply (proj2 (abs_zero _ _)) in E2.
    apply (proj2 (abs_zero _ _)) in E3. apply (proj2 (abs_zero _ _)) in E4.
    apply (proj2 (abs_zero _ _)) in E5. lra.
Qed.

(** X1, an instance: the defaults against the mild
    preset. *)
Lemma similarity_score_witness :
  exists s, similarity defaults (getInitialParams "mild") = Some s /\
            0 <= s /\ s <= 1.
Proof.
  destruct (similarity_score defaults (getInitialParams "mild"))
    as (s & E & H0 & H1 & _).
  - apply defaults_in_ranges.
  - apply TuningFacts.getInitialParams_in_ranges.
  - exists s. split; [exact E|]. split; assumption.
Defined.

(** X2.  A neighbour generated from a
    parameter set within the declared ranges with a step multiplier from
    0 to 1 has a similarity of at least 0.974 to that set.  So once the
    set is the parameter set of a round in the history, each of its
    neighbours counts as explored at both thresholds that
    [adjustParameters] uses, 0.95 and 0.9. *)
Theorem neighbours_count_as_explored (base n : Params) (m : Q)
  (history : list TuningEngine.RoundResult) (h : TuningEngine.RoundResult) :
  in_ranges base -> 0 <= m -> m <= 1 ->
  In n (generateNeighbors base m) ->
  In h history -> TuningEngine.params h = base ->
  (exists s, similarity base n = Some s /\ 974 # 1000 <= s) /\
  TuningEngine.explored history (95 # 100) n = true /\
  TuningEngine.explored history (9 # 10) n = true.
Proof.
  intros Hb Hm0 Hm1 Hn Hin Hp.
  destruct (neighbour_similar base m n Hb Hm0 Hm1 Hn) as (s & Es & Hs).
  split; [by exists s|].
  split; unfold TuningEngine.explored; apply existsb_exists; exists h;
    (split; [done|]); rewrite Hp, Es; apply JSFacts.Qlt_bool_iff; lra.
Qed.

(** X2, an instance: the first full-step
    neighbour of the defaults, after a round on the defaults. *)
Lemma neighbours_count_as_explored_witness :
  TuningEngine.explored
    [ {| TuningEngine.round := 1; TuningEngine.params := defaults;
         TuningEngine.score := 0; TuningEngine.correct := 0;
         TuningEngine.total := 1; TuningEngine.responses := [] |} ]
    (95 # 100) (<["hueShift" := round2 (0 - 5 * 1)]> defaults) = true.
Proof.
  apply (neighbours_count_as_explored defaults _ 1 _
           {| TuningEngine.round := 1; TuningEngine.params := defaults;
              TuningEngine.score := 0; TuningEngine.correct := 0;
              TuningEngine.total := 1; TuningEngine.responses := [] |}).
  - apply defaults_in_ranges.
  - discriminate.
  - discriminate.
  - left. reflexivity.
  - left. reflexivity.
  - reflexivity.
Defined.

(** X3.  Normalizing twice is normalizing
    once: [normalizeParams] returns its own results unchanged. *)
Theorem normalizeParams_idempotent (params : Params) :
  normalizeParams (normalizeParams params) = normalizeParams params.
Proof. apply normalizeParams_idem. Qed.

(** X4.  With a filter within the declared ranges, the
    hue stage of [applyToRGB] maps a hue in [0, 360) to a hue in
    [0, 360): the input turned by an angle that has the direction of the
    hue shift and lies between a fifth of [hueShift * intensity] and the
    whole of it. *)
Theorem hueStage_rotates h shift intensity :
  0 <= h -> h < 360 -> -60 <= shift -> shift <= 60 ->
  0 <= intensity -> intensity <= 1 ->
  let r := hueStage h shift intensity in
  0 <= r /\ r < 360 /\
  exists e,
    (r == h + e \/ r == h + e - 360 \/ r == h + e + 360) /\
    (0 <= shift -> shift * intensity * (1 # 5) <= e /\ e <= shift * intensity) /\
    (shift <= 0 -> shift * intensity <= e /\ e <= shift * intensity * (1 # 5)).
Proof.
  intros Hh0 Hh1 Hs0 Hs1 Hi0 Hi1 r. subst r. unfold hueStage.
  destruct (selectiveHueShift_factor h shift intensity) as (f & Hf0 & Hf1 & ->).
  set (a := shift * intensity).
  assert (Ha : -60 <= a /\ a <= 60).
  { subst a. destruct (Qlt_le_dec shift 0).
    - assert (shift * intensity <= 0) by nra.
      assert (shift * 1 <= shift * intensity) by nra. lra.
    - assert (0 <= shift * intensity) by nra.
      assert (shift * intensity <= shift * 1) by nra. lra. }
  assert (He : (0 <= a -> a * (1 # 5) <= a * f /\ a * f <= a) /\
               (a <= 0 -> a <= a * f /\ a * f <= a * (1 # 5))).
  { split; intros; split; nra. }
  assert (Hb : -60 <= a * f /\ a * f <= 60).
  { destruct (Qlt_le_dec a 0); [destruct (proj2 He)|destruct (proj1 He)]; lra. }
  destruct (rem_nonneg (h + a * f + 360) 360) as (R0 & R1 & R2); [lra|lra|].
  split; [done|]. split; [done|]. exists (a * f). split.
  - pose proof (Qfloor_le ((h + a * f + 360) / 360)) as Hl.
    pose proof (Qlt_floor ((h + a * f + 360) / 360)) as Hu.
    set (t := Qfloor _) in *.
    assert (0 <= t < 3)%Z as Ht.
    { split.
      - apply Qfloor_resp_le with (x := 0) in R0 as _.
        assert (0 <= (h + a * f + 360) / 360) by (apply Qle_shift_div_l; lra).
        subst t. change 0%Z with (Qfloor 0). by apply Qfloor_resp_le.
      - assert ((h + a * f + 360) / 360 < 3) by (apply Qlt_shift_div_r; lra).
        rewrite Zlt_Qlt. change (inject_Z 3) with 3. lra. }
    assert (t = 0 \/ t = 1 \/ t = 2)%Z as [-> | [-> | ->]] by lia;
      change (inject_Z 0) with 0 in R2; change (inject_Z 1) with 1 in R2;
      change (inject_Z 2) with 2 in R2.
    + right. right. lra.
    + left. lra.
    + right. left. lra.
  - subst a. split; intros.
    + assert (0 <= shift * intensity) by nra. by apply He.
    + assert (shift * intensity <= 0) by nra. by apply He.
Qed.

(** X4, an instance: hue 350 under a shift of 40 at
    intensity 1/2. *)
Lemma hueStage_rotates_witness :
  0 <= hueStage 350 40 (1 # 2) /\ hueStage 350 40 (1 # 2) < 360.
Proof.
  destruct (hueStage_rotates 350 40 (1 # 2)) as (H0 & H1 & _);
    try discriminate; try reflexivity.
  split; assumption.
Defined.

(** X5.  When the filter defines its five parameters,
    the intensity is not 0 and the brightness or the contrast is not 0,
    [applyToRGB] returns three integers from 0 to 255, whatever the
    colour space conversions return. *)
Theorem applyToRGB_bytes `{Runtime} (rgb : RGB) (p : Params) hs i sb br ct :
  p !! "hueShift" = Some hs -> p !! "intensity" = Some i ->
  p !! "saturationBoost" = Some sb -> p !! "brightness" = Some br ->
  p !! "contrast" = Some ct ->
  ~ i == 0 -> (~ br == 0 \/ ~ ct == 0) ->
  exists r g b : Z,
    applyToRGB rgb (Some p) = Some (inject_Z r, inject_Z g, inject_Z b) /\
    (0 <= r <= 255)%Z /\ (0 <= g <= 255)%Z /\ (0 <= b <= 255)%Z.
Proof.
  intros P1 P2 P3 P4 P5 Hi Hor.
  assert (Ei : Qeq_bool i 0 = false).
  { destruct (Qeq_bool i 0) eqn:E; [|done]. apply Qeq_bool_iff in E. done. }
  assert (Hor' : Qeq_bool br 0 = false \/ Qeq_bool ct 0 = false).
  { destruct Hor as [Hn|Hn]; [left|right];
      (match goal with |- Qeq_bool ?a 0 = false =>
         destruct (Qeq_bool a 0) eqn:E; [|done]; apply Qeq_bool_iff in E; done end). }
  unfold applyToRGB. rewrite P2, Ei. destruct rgb as [[r g] b].
  rewrite P1, P3, P4, P5. cbn [mbind option_bind].
  destruct (rgbToHsl r g b) as [[h s] l].
  destruct (hslToRgb _ _ l) as [[r1 g1] b1].
  do 3 eexists. split; [reflexivity|].
  split_and!; apply round_byte; by apply stages_byte.
Qed.

(** X5, an instance on the example runtime: white under
    the strong preset. *)
Lemma applyToRGB_bytes_witness :
  exists r g b : Z,
    applyToRGB (H := Example.runtime) (255, 255, 255)
               (Some (params_of 40 (7 # 10) 20 0 10))
      = Some (inject_Z r, inject_Z g, inject_Z b) /\
    (0 <= r <= 255)%Z /\ (0 <= g <= 255)%Z /\ (0 <= b <= 255)%Z.
Proof.
  apply (applyToRGB_bytes (H := Example.runtime) (255, 255, 255)
           (params_of 40 (7 # 10) 20 0 10) 40 (7 # 10) 20 0 10);
    try reflexivity.
  - discriminate.
  - right. discriminate.
Defined.

(** ** TuningEngine *)

(** X6.  The history of a tuning run is its list of round reports: the
    rounds are numbered from 1 in order, each holds a response for every
    plate of the round, its score is the percentage of the correct ones,
    and its parameters are within the declared ranges.  A stopped tuner
    has completed [currentRound] rounds, a running one [currentRound - 1]. *)
Theorem tuner_history_is_booked `{Runtime} (cfg : TuningEngine.Config)
  (options : TuningEngine.InitOptions) (answers : list Answer) (env : Env)
  st events env' :
  (1 <= TuningEngine.maxRounds cfg)%Z ->
  TuningEngine.run cfg options answers env = Some (Normal (st, events, env')) ->
  TuningEngine.history st = TuningEngine.roundResults events /\
  Z.of_nat (length (TuningEngine.history st)) =
    (if TuningEngine.isRunning st then TuningEngine.currentRound st - 1
     else TuningEngine.currentRound st)%Z /\
  forall i h, TuningEngine.history st !! i = Some h ->
    TuningEngine.round h = (Z.of_nat i + 1)%Z /\
    TuningEngine.total h = TuningEngine.platesPerRound cfg /\
    Z.of_nat (length (TuningEngine.responses h)) = TuningEngine.platesPerRound cfg /\
    TuningEngine.correct h =
      Z.of_nat (length (filter (fun r => TuningEngine.isCorrect r = true)
                               (TuningEngine.responses h))) /\
    TuningEngine.score h =
      Utils.percentage (TuningEngine.correct h) (TuningEngine.total h) /\
    in_ranges (TuningEngine.params h).
Proof.
  intros HR Hrun.
  apply TuningFacts.run_ledger in Hrun as (Hinv & [HB _] & Hh & _ & _); [|done].
  destruct Hinv as (_ & _ & I3 & _ & _ & I6 & _).
  destruct HB as (B1 & B2 & _).
  split; [done|]. split; [done|].
  intros i h Hi.
  rewrite Forall_forall in B2, I6.
  assert (Hin : h ∈ TuningEngine.history st) by (by eapply list_elem_of_lookup_2).
  destruct (B2 h Hin) as (T1 & T2 & T3 & T4).
  split; [rewrite (B1 i h Hi); lia|].
  split_and!; try done; [congruence|]. by apply I6.
Qed.

(** X6, an instance: two skipped plates on the
    example runtime. *)
Lemma tuner_history_is_booked_witness :
  exists st events env',
    TuningEngine.run (H := Example.runtime) Example.quickConfig Example.tuningOptions
      [None; None] 0%Z = Some (Normal (st, events, env')) /\
    TuningEngine.history st = TuningEngine.roundResults events /\
    forall i h, TuningEngine.history st !! i = Some h ->
      TuningEngine.round h = (Z.of_nat i + 1)%Z /\
      TuningEngine.total h = 1%Z.
Proof.
  destruct (@TuningFacts.run_Normal Example.runtime ExampleFacts.runtime_spec
              Example.quickConfig Example.tuningOptions [None; None] 0%Z)
    as (st & events & env' & E); [simpl; lia..|].
  exists st, events, env'. split; [exact E|].
  destruct (tuner_history_is_booked (H := Example.runtime) Example.quickConfig
              Example.tuningOptions [None; None] 0%Z st events env') as (H1 & _ & H3);
    [simpl; lia|exact E|].
  split; [exact H1|]. intros i h Hi. destruct (H3 i h Hi) as (? & ? & _).
  split; assumption.
Defined.

(** X7.  In a tuning run the best score is the highest of the baseline
    score and the scores of the completed rounds.  The best parameters
    are those of a round that reached the best score when a round beat
    the baseline, and those of the first round otherwise. *)
Theorem tuner_best_is_maximum `{Runtime} (cfg : TuningEngine.Config)
  (options : TuningEngine.InitOptions) (answers : list Answer) (env : Env)
  st events env' :
  (1 <= TuningEngine.maxRounds cfg)%Z ->
  TuningEngine.run cfg options answers env = Some (Normal (st, events, env')) ->
  let b := default 50%Z (TuningEngine.io_baselineScore options) in
  TuningEngine.bestScore st = TuningEngine.bestOf b (TuningEngine.history st) /\
  (b <= TuningEngine.bestScore st)%Z /\
  (forall h, In h (TuningEngine.history st) ->
     (TuningEngine.score h <= TuningEngine.bestScore st)%Z) /\
  match TuningEngine.history st with
  | [] => TuningEngine.bestParams st = TuningEngine.currentParams st
  | h0 :: _ =>
    (TuningEngine.bestScore st = b /\
     TuningEngine.bestParams st = Some (TuningEngine.params h0)) \/
    ((b < TuningEngine.bestScore st)%Z /\
     exists h, In h (TuningEngine.history st) /\
               TuningEngine.bestParams st = Some (TuningEngine.params h) /\
               TuningEngine.score h = TuningEngine.bestScore st)
  end.
Proof.
  intros HR Hrun b.
  apply TuningFacts.run_ledger in Hrun as (_ & [HB _] & _ & _ & Hb); [|done].
  destruct HB as (_ & _ & b' & B3 & B4 & B5).
  assert (b' = b) as -> by (subst b; congruence).
  split; [done|]. rewrite B4.
  split; [apply TuningFacts.bestOf_ge|].
  split; [intros h Hin; by apply TuningFacts.bestOf_ge_score|].
  by rewrite <- B4.
Qed.

(** X7, an instance on the example runtime. *)
Lemma tuner_best_is_maximum_witness :
  exists st events env',
    TuningEngine.run (H := Example.runtime) Example.quickConfig Example.tuningOptions
      [None; None] 0%Z = Some (Normal (st, events, env')) /\
    (40 <= TuningEngine.bestScore st)%Z.
Proof.
  destruct (@TuningFacts.run_Normal Example.runtime ExampleFacts.runtime_spec
              Example.quickConfig Example.tuningOptions [None; None] 0%Z)
    as (st & events & env' & E); [simpl; lia..|].
  exists st, events, env'. split; [exact E|].
  destruct (tuner_best_is_maximum (H := Example.runtime) Example.quickConfig
              Example.tuningOptions [None; None] 0%Z st events env') as (_ & H2 & _);
    [simpl; lia|exact E|]. exact H2.
Defined.

(** X8.  A tuning run reports its final result exactly once, when the
    tuner stops, and not while it runs.  The result shows the state the
    tuner stopped in, and its improvement, the best score less the
    baseline score, is not negative. *)
Theorem tuner_reports_once `{Runtime} (cfg : TuningEngine.Config)
  (options : TuningEngine.InitOptions) (answers : list Answer) (env : Env)
  st events env' :
  (1 <= TuningEngine.maxRounds cfg)%Z ->
  TuningEngine.run cfg options answers env = Some (Normal (st, events, env')) ->
  (TuningEngine.isRunning st = true -> TuningEngine.tuningResults events = []) /\
  (TuningEngine.isRunning st = false ->
   exists r b,
     TuningEngine.tuningResults events = [r] /\
     TuningEngine.success r = true /\
     TuningEngine.rounds r = TuningEngine.currentRound st /\
     TuningEngine.r_bestParams r = TuningEngine.bestParams st /\
     TuningEngine.r_bestScore r = TuningEngine.bestScore st /\
     TuningEngine.r_history r = TuningEngine.history st /\
     TuningEngine.r_baselineScore r = Some b /\
     TuningEngine.improvement r = Some (TuningEngine.bestScore st - b)%Z /\
     (0 <= TuningEngine.bestScore st - b)%Z).
Proof.
  intros HR Hrun.
  apply TuningFacts.run_ledger in Hrun as (_ & [HB _] & _ & Hrep & Hb); [|done].
  destruct HB as (_ & _ & b' & B3 & B4 & _).
  pose proof (TuningFacts.bestOf_ge b' (TuningEngine.history st)) as Hge.
  rewrite <- B4 in Hge.
  unfold TuningEngine.reported in Hrep.
  destruct (TuningEngine.tuningResults events) as [|r [|]].
  - split; [done|congruence].
  - destruct Hrep as (R1 & R2 & R3 & R4 & R5 & R6 & R7 & R8).
    split; [congruence|]. intros _. exists r, b'.
    rewrite B3 in R6, R8. split_and!; try done. lia.
  - done.
Qed.

(** X8, an instance on the example runtime. *)
Lemma tuner_reports_once_witness :
  exists st events env',
    TuningEngine.run (H := Example.runtime) Example.quickConfig Example.tuningOptions
      [None; None] 0%Z = Some (Normal (st, events, env')) /\
    (TuningEngine.isRunning st = true -> TuningEngine.tuningResults events = []).
Proof.
  destruct (@TuningFacts.run_Normal Example.runtime ExampleFacts.runtime_spec
              Example.quickConfig Example.tuningOptions [None; None] 0%Z)
    as (st & events & env' & E); [simpl; lia..|].
  exists st, events, env'. split; [exact E|].
  destruct (tuner_reports_once (H := Example.runtime) Example.quickConfig
              Example.tuningOptions [None; None] 0%Z st events env') as (H1 & _);
    [simpl; lia|exact E|]. exact H1.
Defined.

(** X9.  When a response closes a round of a tuning run and a new round
    starts, the parameters of the new round are the normalization of a
    half-step neighbour of the best parameters, or of a random
    perturbation of the parameters of the round just closed: the pick
    among unexplored full-step neighbours is never taken. *)
Theorem next_round_parameters `{Runtime} (cfg : TuningEngine.Config)
  (options : TuningEngine.InitOptions) (answers : list Answer) (env : Env)
  st events env1 (response : Answer) st' events' env2 :
  (1 <= TuningEngine.maxRounds cfg)%Z ->
  TuningEngine.run cfg options answers env = Some (Normal (st, events, env1)) ->
  TuningEngine.recordResponse cfg response st env1 =
    Some (Normal (st', events', env2)) ->
  TuningEngine.currentRound st' <> TuningEngine.currentRound st ->
  TuningEngine.currentRound st' = (TuningEngine.currentRound st + 1)%Z /\
  exists chosen best cur,
    TuningEngine.currentParams st' = Some (normalizeParams chosen) /\
    TuningEngine.bestParams st' = Some best /\
    TuningEngine.currentParams st = Some cur /\
    (In chosen (generateNeighbors best (1 # 2)) \/
     exists e, chosen = (TuningEngine.exploreNewDirection cur e).1).
Proof.
  intros HR Hrun Hrec Hne.
  apply TuningFacts.run_ledger in Hrun as (Hinv & HL & _); [|done].
  by eapply TuningFacts.recordResponse_next.
Qed.

(** X9, an instance: the one plate of the first
    round is skipped and the second round starts. *)
Lemma next_round_parameters_witness :
  exists st events env1 st' events' env2,
    TuningEngine.run (H := Example.runtime) Example.quickConfig Example.tuningOptions [] 0%Z
      = Some (Normal (st, events, env1)) /\
    TuningEngine.recordResponse Example.quickConfig None st env1
      = Some (Normal (st', events', env2)) /\
    TuningEngine.currentRound st' = (TuningEngine.currentRound st + 1)%Z /\
    exists chosen, TuningEngine.currentParams st' = Some (normalizeParams chosen).
Proof.
  destruct (@TuningFacts.run_Normal Example.runtime ExampleFacts.runtime_spec
              Example.quickConfig Example.tuningOptions [] 0%Z)
    as (st & events & env1 & E); [simpl; lia..|].
  destruct (@TuningFacts.run_invariant Example.runtime Example.quickConfig Example.tuningOptions
              [] 0%Z st events env1)
    as (Hinv & _); [simpl; lia|exact E|].
  destruct (@TuningFacts.recordResponse_Normal Example.runtime
              ExampleFacts.runtime_spec Example.quickConfig None st env1 Hinv)
    as (st' & events' & env2 & E').
  exists st, events, env1, st', events', env2.
  split; [exact E|]. split; [exact E'|].
  assert (C :
    match TuningEngine.run (H := Example.runtime) Example.quickConfig Example.tuningOptions [] 0%Z with
    | Some (Normal (s, _, e1)) =>
      match TuningEngine.recordResponse Example.quickConfig None s e1 with
      | Some (Normal (s', _, _)) =>
        (TuningEngine.currentRound s' =? TuningEngine.currentRound s + 1)%Z
      | _ => false
      end
    | _ => false
    end = true) by (vm_compute; reflexivity).
  rewrite E, E' in C. apply Z.eqb_eq in C.
  destruct (next_round_parameters (H := Example.runtime) Example.quickConfig
              Example.tuningOptions [] 0%Z st events env1 None st' events' env2)
    as (H1 & chosen & best & cur & H2 & _); [simpl; lia|exact E|exact E'|lia|].
  split; [exact H1|]. exists chosen. exact H2.
Defined.

(** X10.  With draws in [0, 1),
    [exploreNewDirection] maps a parameter set within the declared ranges
    to one within the declared ranges, in which every tunable parameter
    has moved by at most one step of that parameter. *)
Theorem exploreNewDirection_stays_near `{R : Runtime} `{!RuntimeSpec R}
  (baseParams : Params) (env : Env) :
  in_ranges baseParams ->
  let p := (TuningEngine.exploreNewDirection baseParams env).1 in
  in_ranges p /\
  forall param range, In (param, range) paramRanges ->
    exists v w, baseParams !! param = Some v /\ p !! param = Some w /\
      v - r_step range <= w /\ w <= v + r_step range.
Proof. apply TuningFacts.exploreNewDirection_near. Qed.

(** X10, an instance on the example
    runtime: a perturbation of the defaults. *)
Lemma exploreNewDirection_stays_near_witness :
  in_ranges (TuningEngine.exploreNewDirection (H := Example.runtime) defaults 0%Z).1.
Proof.
  apply (@exploreNewDirection_stays_near Example.runtime ExampleFacts.runtime_spec
           defaults 0%Z).
  apply defaults_in_ranges.
Defined.

End Extras.

Section HslExtras.

Import ColorFilterFacts GeneratorFacts.

Local Open Scope Q_scope.
Local Open Scope string_scope.

(** ** MosaicGenerator *)

(** X11.  [applyFilterToHSL] keeps the lightness,
    returns a saturation from 0 to 100, and, when the hue plus the
    weighted shift is at least -360, a hue in [0, 360) equal to the input
    hue plus the weighted shift modulo 360.  A colour already in range is
    unchanged in hue when the weighted shift is 0 and in saturation when
    the weighted boost is 0. *)
Theorem applyFilterToHSL_ranges (c : HSL) (filterParams : gmap string Q) :
  let out := MosaicGenerator.applyFilterToHSL c filterParams in
  let turn := default 0 (filterParams !! "hueShift") *
              default 1 (filterParams !! "intensity") in
  let boost := default 0 (filterParams !! "saturationBoost") *
               default 1 (filterParams !! "intensity") in
  hsl_l out = hsl_l c /\
  0 <= hsl_s out /\ hsl_s out <= 100 /\
  (0 <= hsl_h c + turn + 360 ->
   0 <= hsl_h out /\ hsl_h out < 360 /\
   exists k : Z, hsl_h out == hsl_h c + turn - 360 * inject_Z k) /\
  (turn == 0 -> 0 <= hsl_h c -> hsl_h c < 360 -> hsl_h out == hsl_h c) /\
  (boost == 0 -> 0 <= hsl_s c -> hsl_s c <= 100 -> hsl_s out == hsl_s c).
Proof.
  intros out turn boost. subst out. unfold MosaicGenerator.applyFilterToHSL.
  cbn [hsl_h hsl_s hsl_l]. fold turn. fold boost.
  split; [reflexivity|].
  destruct (clamp_range (hsl_s c + boost) 0 100) as [C0 C1]; [discriminate|].
  split; [done|]. split; [done|]. split; [|split].
  - intros Hpos.
    destruct (rem_nonneg (hsl_h c + turn + 360) 360 Hpos) as (R0 & R1 & R2);
      [reflexivity|].
    split; [done|]. split; [done|].
    exists (Qfloor ((hsl_h c + turn + 360) / 360) - 1)%Z.
    rewrite R2. unfold Zminus. rewrite inject_Z_plus.
    change (inject_Z (- (1))) with (-1). lra.
  - intros Hturn H0 H1.
    rewrite rem_360 by lra. lra.
  - intros Hboost H0 H1. rewrite clamp_id by lra. lra.
Qed.

End HslExtras.

Section MosaicExtras.

Import ColorFilterFacts GeneratorFacts.

Local Open Scope Z_scope.
Local Open Scope string_scope.

(** X12.  With draws in [0, 1),
    [generatePlate] returns a plate of 10, 14 or 18 tiles a side, of tile
    size floor(size / tileCount), whose tiles are the tileCount x
    tileCount cells in row-major order, each placed at (col x tileSize,
    row x tileSize); when the size is not negative every tile lies inside
    the size x size canvas. *)
Theorem generatePlate_tiles_layout `{R : Runtime} `{!RuntimeSpec R}
  (options : MosaicGenerator.Options) (env : Env) :
  exists plate,
    (MosaicGenerator.generatePlate options env).1 = Some plate /\
    let n := MosaicGenerator.tileCount plate in
    let ts := MosaicGenerator.tileSize plate in
    (n = 10 \/ n = 14 \/ n = 18) /\
    ts = JS.floor (MosaicGenerator.size plate / inject_Z n) /\
    length (MosaicGenerator.tiles plate) = Z.to_nat (n * n) /\
    forall i tile, MosaicGenerator.tiles plate !! i = Some tile ->
      Z.of_nat (MosaicGenerator.row tile) = Z.of_nat i / n /\
      Z.of_nat (MosaicGenerator.col tile) = Z.of_nat i mod n /\
      MosaicGenerator.x tile = Z.of_nat (MosaicGenerator.col tile) * ts /\
      MosaicGenerator.y tile = Z.of_nat (MosaicGenerator.row tile) * ts /\
      MosaicGenerator.tile_size tile = ts /\
      ((0 <= MosaicGenerator.size plate)%Q ->
       0 <= MosaicGenerator.x tile /\ 0 <= MosaicGenerator.y tile /\
       (inject_Z (MosaicGenerator.x tile + ts) <= MosaicGenerator.size plate)%Q /\
       (inject_Z (MosaicGenerator.y tile + ts) <= MosaicGenerator.size plate)%Q).
Proof.
  unfold MosaicGenerator.generatePlate.
  destruct (match MosaicGenerator.o_seed options with
            | Some s => (s, env)
            | None => generateSeed None env
            end) as [seed0 env1].
  destruct (mosaic_plateFromSeed_total options seed0 (createRNG seed0))
    as [[plate g'] Hp].
  exists plate. cbn [fst]. rewrite Hp. split; [reflexivity|].
  apply mosaic_plateFromSeed_Some in Hp. cbn zeta in Hp.
  destruct Hp as (_ & _ & _ & _ & _ & Hn & Hts & _ & _ & _ & mask & _ & _ & Hlen & Hall).
  assert (Hcases : MosaicGenerator.tileCount plate = 10 \/
                   MosaicGenerator.tileCount plate = 14 \/
                   MosaicGenerator.tileCount plate = 18)
    by (rewrite Hn; apply tileCounts_cases).
  set (n := MosaicGenerator.tileCount plate) in *.
  split; [done|]. split; [done|]. split; [rewrite Hlen; lia|].
  intros i tile Hi. destruct (Hall i tile Hi) as (T1 & T2 & T3 & T4 & T5 & _).
  assert (Hlt : (i < Z.to_nat n * Z.to_nat n)%nat).
  { rewrite <- Hlen. by eapply lookup_lt_Some. }
  assert (Hrow : Z.of_nat (MosaicGenerator.row tile) = Z.of_nat i / n).
  { rewrite T1, Nat2Z.inj_div. f_equal. lia. }
  assert (Hcol : Z.of_nat (MosaicGenerator.col tile) = Z.of_nat i mod n).
  { rewrite T2, Nat2Z.inj_mod. f_equal. lia. }
  split_and!; try done.
  intros Hsize.
  assert (0 <= Z.of_nat i / n < n).
  { split; [apply Z.div_pos; lia|]. apply Z.div_lt_upper_bound; lia. }
  assert (0 <= Z.of_nat i mod n < n) by (apply Z.mod_pos_bound; lia).
  rewrite T3, T4, Hrow, Hcol, Hts.
  destruct (floor_fit (MosaicGenerator.size plate) n (Z.of_nat i mod n + 1))
    as [F0 F1]; [done|lia|lia|].
  destruct (floor_fit (MosaicGenerator.size plate) n (Z.of_nat i / n + 1))
    as [_ F2]; [done|lia|lia|].
  split_and!; try nia.
  - by replace (Z.of_nat i mod n * JS.floor (MosaicGenerator.size plate / inject_Z n) +
                JS.floor (MosaicGenerator.size plate / inject_Z n))
      with ((Z.of_nat i mod n + 1) * JS.floor (MosaicGenerator.size plate / inject_Z n))
      by lia.
  - by replace (Z.of_nat i / n * JS.floor (MosaicGenerator.size plate / inject_Z n) +
                JS.floor (MosaicGenerator.size plate / inject_Z n))
      with ((Z.of_nat i / n + 1) * JS.floor (MosaicGenerator.size plate / inject_Z n))
      by lia.
Qed.

(** X12, an instance on the example runtime. *)
Lemma generatePlate_tiles_layout_witness :
  exists plate,
    (MosaicGenerator.generatePlate (H := Example.runtime) Example.mosaicRequest 0).1
      = Some plate /\
    length (MosaicGenerator.tiles plate) =
      Z.to_nat (MosaicGenerator.tileCount plate * MosaicGenerator.tileCount plate).
Proof.
  destruct (@generatePlate_tiles_layout Example.runtime ExampleFacts.runtime_spec
              Example.mosaicRequest 0) as (plate & E & _ & _ & Hlen & _).
  exists plate. split; [exact E|exact Hlen].
Defined.

(** X13.  With draws in [0, 1), the plate
    [generatePlate] returns shows a listed target: each tile is a target
    tile exactly when the mask of the target holds its cell, and the plate
    has at least one target tile and at least one background tile. *)
Theorem generatePlate_target_visible `{R : Runtime} `{!RuntimeSpec R}
  (options : MosaicGenerator.Options) (env : Env) :
  exists plate mask,
    (MosaicGenerator.generatePlate options env).1 = Some plate /\
    MosaicGenerator.listed_target (MosaicGenerator.plate_target plate) /\
    MosaicGenerator.createTargetMask (MosaicGenerator.tileCount plate)
      (MosaicGenerator.plate_target plate) = Some mask /\
    (forall tile, In tile (MosaicGenerator.tiles plate) ->
       mask !! MosaicGenerator.row tile ≫= (.!! MosaicGenerator.col tile)
       = Some (MosaicGenerator.isTarget tile)) /\
    (exists tile, In tile (MosaicGenerator.tiles plate) /\
                  MosaicGenerator.isTarget tile = true) /\
    (exists tile, In tile (MosaicGenerator.tiles plate) /\
                  MosaicGenerator.isTarget tile = false).
Proof.
  unfold MosaicGenerator.generatePlate.
  destruct (match MosaicGenerator.o_seed options with
            | Some s => (s, env)
            | None => generateSeed None env
            end) as [seed0 env1].
  destruct (mosaic_plateFromSeed_total options seed0 (createRNG seed0))
    as [[plate g'] Hp].
  apply mosaic_plateFromSeed_Some in Hp as Hshape. cbn zeta in Hshape.
  destruct Hshape as (_ & _ & _ & _ & _ & Hn & _ & _ & Hl & _ & mask & Hm & Hsq & Hlen & Hall).
  exists plate, mask. cbn [fst]. rewrite Hp.
  split; [reflexivity|]. split; [done|]. split; [done|].
  assert (Hcases : MosaicGenerator.tileCount plate = 10 \/
                   MosaicGenerator.tileCount plate = 14 \/
                   MosaicGenerator.tileCount plate = 18)
    by (rewrite Hn; apply tileCounts_cases).
  destruct (createTargetMask_mixed _ _ Hcases Hl) as (mask' & Em & Ht & Hf).
  assert (mask' = mask) as -> by congruence.
  split.
  { intros tile Hin. apply list_elem_of_In, list_elem_of_lookup in Hin as [i Hi].
    by destruct (Hall i tile Hi) as (_ & _ & _ & _ & _ & ?). }
  split; eapply tiles_cover; try done;
    intros i tile Hi; destruct (Hall i tile Hi) as (? & ? & _ & _ & _ & ?); done.
Qed.

(** X13, an instance on the example runtime. *)
Lemma generatePlate_target_visible_witness :
  exists plate,
    (MosaicGenerator.generatePlate (H := Example.runtime) Example.mosaicRequest 0).1
      = Some plate /\
    exists tile, In tile (MosaicGenerator.tiles plate) /\
                 MosaicGenerator.isTarget tile = true.
Proof.
  destruct (@generatePlate_target_visible Example.runtime ExampleFacts.runtime_spec
              Example.mosaicRequest 0) as (plate & mask & E & _ & _ & _ & Ht & _).
  exists plate. split; [exact E|exact Ht].
Defined.



(** X15.  For a plate with a listed target
    and draws in [0, 1), [getAnswerOptions] returns four choices followed
    by "none", all different, with the target value as the correct answer
    among the four; of the five options [checkAnswer] of the test engine
    accepts the target value and no other. *)
Theorem getAnswerOptions_one_correct `{R : Runtime} `{!RuntimeSpec R}
  (plate : MosaicGenerator.Plate) (g : RngState) :
  MosaicGenerator.listed_target (MosaicGenerator.plate_target plate) ->
  let answer := MosaicGenerator.t_value (MosaicGenerator.plate_target plate) in
  exists choices g',
    MosaicGenerator.getAnswerOptions plate g = Some (((choices ++ ["none"])%list, answer), g') /\
    length choices = 4%nat /\
    NoDup (choices ++ ["none"])%list /\
    In answer choices /\
    forall o, In o (choices ++ ["none"])%list ->
      (TestEngine.checkAnswer (Some o) plate = true <-> o = answer).
Proof.
  intros Hl answer.
  destruct (getAnswerOptions_choices plate g Hl)
    as (family & choices & g' & Hf & E & Hlen & Hnd & Hin & Hfam).
  exists choices, g'. split; [exact E|]. split; [done|].
  assert (Hnone : ~ In "none" choices).
  { intros Hn. by destruct (family_compare family "none" answer Hf (Hfam _ Hn) (Hfam _ Hin)). }
  split; [|split; [done|]].
  - apply NoDup_app. split; [done|]. split; [|apply NoDup_singleton].
    intros x Hx Hx'. apply list_elem_of_singleton in Hx' as ->.
    by apply Hnone, list_elem_of_In.
  - intros o Ho. apply in_app_or in Ho as [Ho|[<-|[]]].
    + destruct (family_compare family o answer Hf (Hfam _ Ho) (Hfam _ Hin)) as [Hno Hcmp].
      unfold TestEngine.checkAnswer. rewrite decide_False by done.
      rewrite bool_decide_eq_true. done.
    + unfold TestEngine.checkAnswer. rewrite decide_True by done.
      split; [discriminate|]. intros E'. exfalso. apply Hnone. by rewrite E'.
Qed.

(** X15, an instance: the plate with the
    target 7. *)
Lemma getAnswerOptions_one_correct_witness :
  exists choices g',
    MosaicGenerator.getAnswerOptions (H := Example.runtime) Example.plate7 1
      = Some (((choices ++ ["none"])%list, "7"), g') /\
    In "7" choices.
Proof.
  destruct (@getAnswerOptions_one_correct Example.runtime ExampleFacts.runtime_spec
              Example.plate7 1) as (choices & g' & E & _ & _ & Hin & _).
  { left. split; [reflexivity|]. simpl. tauto. }
  exists choices, g'. split; [exact E|exact Hin].
Defined.

(** ** TestEngine *)

(** X21.  With draws in [0, 1), [init] of the test
    engine takes the plate count from the options, or, when it is absent
    or 0, from the mode: 8 for validation, 5 for tuning, 12 otherwise.  A
    negative count makes [init] throw; for a positive count below 2^32 it
    returns an idle engine with no responses holding that many medium
    plates with the filter parameters of the options, of which
    round(0.8 x count) in tuning mode and round(0.67 x count) otherwise
    are confusion plates and the others control plates. *)
Theorem init_plate_counts `{R : Runtime} `{!RuntimeSpec R}
  (options : TestEngine.InitOptions) (env : Env) :
  let mode := default "baseline" (TestEngine.io_mode options) in
  let preset := if decide (mode = "validation") then 8
                else if decide (mode = "tuning") then 5 else 12 in
  let count := match TestEngine.io_plateCount options with
               | Some c => if (c =? 0)%Z then preset else c
               | None => preset
               end in
  let share := if decide (mode = "tuning") then (8 # 10)%Q else (67 # 100)%Q in
  let deutanCount := JS.round (inject_Z count * share) in
  count <> 0 /\
  (count < 0 -> TestEngine.init options env = Thrown) /\
  (0 < count < 4294967296 ->
   exists st env',
     TestEngine.init options env = Normal (st, env') /\
     TestEngine.isRunning st = false /\
     TestEngine.responses st = [] /\
     TestEngine.mode st = mode /\
     Z.of_nat (length (TestEngine.plates st)) = count /\
     0 <= deutanCount <= count /\
     Z.of_nat (length (filter (fun p => MosaicGenerator.type p = "deutanConfusion")
                              (TestEngine.plates st))) = deutanCount /\
     Z.of_nat (length (filter (fun p => MosaicGenerator.type p = "control")
                              (TestEngine.plates st))) = count - deutanCount /\
     forall i plate, TestEngine.plates st !! i = Some plate ->
       MosaicGenerator.difficulty plate = "medium" /\
       MosaicGenerator.filterParams plate = TestEngine.io_filterParams options).
Proof.
  intros mode preset count share d.
  assert (Hpreset : 0 < preset) by (subst preset; repeat case_decide; lia).
  assert (Hcount : count <> 0).
  { subst count. destruct (TestEngine.io_plateCount options) as [c|]; [|lia].
    destruct (Z.eqb_spec c 0); lia. }
  assert (Hshare : (1 # 2 < share)%Q /\ (share < 1)%Q)
    by (subst share; case_decide; split; reflexivity).
  destruct (round_share count share (proj1 Hshare) (proj2 Hshare)) as [Hneg Hpos].
  split; [done|].
  unfold TestEngine.init. fold mode.
  change TestEngine.validationPlateCount with 8.
  change TestEngine.tuningPlateCount with 5.
  change TestEngine.baselinePlateCount with 12.
  fold preset.
  assert (Ecount :
    match
      match TestEngine.io_plateCount options with
      | Some c => if (c =? 0)%Z then None else Some c
      | None => None
      end
    with Some c => c | None => preset end = count).
  { subst count. destruct (TestEngine.io_plateCount options) as [c|]; [|done].
    by destruct (c =? 0)%Z. }
  rewrite Ecount. clear Ecount.
  destruct (generateSeed None env) as [seed env1].
  set (so := {| MosaicGenerator.so_plateCount := Some count;
                MosaicGenerator.so_deutanRatio := None;
                MosaicGenerator.so_seed := Some seed;
                MosaicGenerator.so_difficulty := Some TestEngine.config_difficulty;
                MosaicGenerator.so_filterParams := TestEngine.io_filterParams options |}).
  set (so' := {| MosaicGenerator.so_plateCount := Some count;
                 MosaicGenerator.so_deutanRatio := Some share;
                 MosaicGenerator.so_seed := Some seed;
                 MosaicGenerator.so_difficulty := Some TestEngine.config_difficulty;
                 MosaicGenerator.so_filterParams := TestEngine.io_filterParams options |}).
  assert (Egen :
    (if decide (mode = "tuning")
     then MosaicGenerator.generateTuningSequence so env1
     else MosaicGenerator.generateTestSequence so env1)
    = MosaicGenerator.generateTestSequence so' env1).
  { subst share so so'. case_decide; [reflexivity|].
    unfold MosaicGenerator.generateTestSequence. reflexivity. }
  rewrite Egen. clear Egen.
  pose proof (generateTestSequence_plates so' env1) as Hseq. cbn zeta in Hseq.
  change (default 12 (MosaicGenerator.so_plateCount so')) with count in Hseq.
  change (default (67 # 100)%Q (MosaicGenerator.so_deutanRatio so')) with share in Hseq.
  change (default "medium" (MosaicGenerator.so_difficulty so')) with "medium" in Hseq.
  change (MosaicGenerator.so_filterParams so')
    with (TestEngine.io_filterParams options) in Hseq.
  fold d in Hseq. destruct Hseq as [Hthrow Hplates].
  split.
  - intros Hc. specialize (Hthrow (or_introl (Hneg Hc))).
    destruct (MosaicGenerator.generateTestSequence so' env1) as [gen env2].
    cbn in Hthrow. by subst gen.
  - intros Hc. destruct (Hplates ltac:(lia) (Hpos ltac:(lia)))
      as (plates & E & Hlen & Hd & Hctl & Hall).
    destruct (MosaicGenerator.generateTestSequence so' env1) as [gen env2].
    cbn in E. subst gen. do 2 eexists. split; [reflexivity|].
    cbn [TestEngine.isRunning TestEngine.responses TestEngine.mode TestEngine.plates].
    split_and!; try done; try (apply Hpos; lia).
    intros i plate Hi. by destruct (Hall i plate Hi) as (? & ? & _).
Qed.

(** X21, an instance: the default options. *)
Lemma init_plate_counts_witness :
  exists st env',
    TestEngine.init (H := Example.runtime)
      {| TestEngine.io_mode := None; TestEngine.io_plateCount := None;
         TestEngine.io_filterParams := None |} 0 = Normal (st, env') /\
    Z.of_nat (length (TestEngine.plates st)) = 12.
Proof.
  destruct (@init_plate_counts Example.runtime ExampleFacts.runtime_spec
              {| TestEngine.io_mode := None; TestEngine.io_plateCount := None;
                 TestEngine.io_filterParams := None |} 0) as (_ & _ & H).
  destruct H as (st & env' & E & _ & _ & _ & Hlen & _);
    [split; reflexivity|].
  exists st, env'. split; [exact E|exact Hlen].
Defined.

(** X16.  Starting an idle test engine that holds k
    plates and feeding it answers never throws and keeps the plates; it
    records the first min(n, k) of the n answers, one per plate and in
    order, each judged by [checkAnswer] against its plate, and ignores
    the others; the engine is running exactly while n < k, and
    onComplete has been called once if it has stopped and not at all
    otherwise, with results computed from the recorded responses: the
    overall, confusion and control tallies, and the severity estimated
    from the two scores. *)
Theorem testengine_session `{Runtime} (st0 : TestEngine.State) (env : Env)
  (answers : list Answer) :
  TestEngine.isRunning st0 = false ->
  exists st1 ev1 env1 st2 ev2 env2,
    TestEngine.start st0 env = (st1, ev1, env1) /\
    TestEngine.feed answers st1 env1 = Normal (st2, ev2, env2) /\
    let k := length (TestEngine.plates st0) in
    TestEngine.plates st2 = TestEngine.plates st0 /\
    length (TestEngine.responses st2) = (length answers `min` k)%nat /\
    TestEngine.isRunning st2 = bool_decide (length answers < k)%nat /\
    (forall i rd, TestEngine.responses st2 !! i = Some rd ->
       TestEngine.records (TestEngine.plates st0) answers i rd) /\
    TestEngine.reported st2 (TestEngine.testResults (ev1 ++ ev2)%list).
Proof.
  intros Hrun.
  destruct (TestFacts.start_underway st0 env Hrun) as (st1 & ev1 & env1 & Es & Hu1 & Hp1 & Hr1).
  destruct (TestFacts.feed_underway _ [] answers st1 env1 Hu1)
    as (st2 & ev2 & env2 & Ef & Hu2 & Hp2 & Hs2 & Hr2).
  exists st1, ev1, env1, st2, ev2, env2. split; [done|]. split; [done|].
  cbn zeta. cbn [app] in Hu2.
  destruct Hu2 as (U1 & U2 & U3 & U4 & U5).
  split; [congruence|]. split; [done|]. split; [done|].
  split; [intros i rd Hi; rewrite <- Hp1, <- Hp2; by apply U5|].
  unfold TestEngine.testResults. rewrite omap_app.
  fold (TestEngine.testResults ev1). fold (TestEngine.testResults ev2).
  destruct (TestEngine.isRunning st1) eqn:Hrun1.
  - unfold TestEngine.reported in Hr1. rewrite Hrun1 in Hr1. rewrite Hr1. cbn. by apply Hr2.
  - destruct (Hs2 eq_refl) as [-> ->]. by rewrite app_nil_r.
Qed.

(** X16, an instance: one plate, one answer. *)
Lemma testengine_session_witness :
  exists st1 ev1 env1 st2 ev2 env2,
    TestEngine.start (H := Example.runtime) Example.idleWithPlate 0 = (st1, ev1, env1) /\
    TestEngine.feed [Some "7"] st1 env1 = Normal (st2, ev2, env2) /\
    TestEngine.isRunning st2 = false.
Proof.
  destruct (@testengine_session Example.runtime Example.idleWithPlate 0 [Some "7"])
    as (st1 & ev1 & env1 & st2 & ev2 & env2 & E1 & E2 & _ & _ & Hrun & _);
    [reflexivity|].
  exists st1, ev1, env1, st2, ev2, env2. split; [exact E1|]. split; [exact E2|].
  exact Hrun.
Defined.

(** X22.  When a test over confusion and
    control plates is started and every plate is answered, the one result
    reported counts the plates: the confusion and control totals are the
    numbers of confusion and control plates and add up to the overall
    total, the overall correct count is the sum of the two correct counts,
    and it is the number of plates whose answer [checkAnswer] accepts. *)
Theorem testengine_results_totals `{Runtime} (st0 : TestEngine.State) (env : Env)
  (answers : list Answer) :
  TestEngine.isRunning st0 = false ->
  (length (TestEngine.plates st0) <= length answers)%nat ->
  Forall (fun p => MosaicGenerator.type p = "deutanConfusion" \/
                   MosaicGenerator.type p = "control") (TestEngine.plates st0) ->
  exists st1 ev1 env1 st2 ev2 env2 r,
    TestEngine.start st0 env = (st1, ev1, env1) /\
    TestEngine.feed answers st1 env1 = Normal (st2, ev2, env2) /\
    TestEngine.testResults (ev1 ++ ev2)%list = [r] /\
    let plates := TestEngine.plates st0 in
    TestEngine.total (TestEngine.deutan r) =
      Z.of_nat (length (filter (fun p => MosaicGenerator.type p = "deutanConfusion")
                               plates)) /\
    TestEngine.total (TestEngine.control r) =
      Z.of_nat (length (filter (fun p => MosaicGenerator.type p = "control") plates)) /\
    TestEngine.total (TestEngine.overall r) =
      TestEngine.total (TestEngine.deutan r) + TestEngine.total (TestEngine.control r) /\
    TestEngine.correct (TestEngine.overall r) =
      TestEngine.correct (TestEngine.deutan r) +
      TestEngine.correct (TestEngine.control r) /\
    TestEngine.correct (TestEngine.overall r) =
      Z.of_nat (length (filter (fun ap => TestEngine.checkAnswer ap.1 ap.2 = true)
                               (zip answers plates))).
Proof.
  intros Hrun Hlen Htypes.
  destruct (TestFacts.start_underway st0 env Hrun) as (st1 & ev1 & env1 & Es & Hu1 & Hp1 & Hr1).
  destruct (TestFacts.feed_underway _ [] answers st1 env1 Hu1)
    as (st2 & ev2 & env2 & Ef & Hu2 & Hp2 & Hs2 & Hr2).
  cbn [app] in Hu2. destruct Hu2 as (U1 & U2 & U3 & U4 & U5).
  assert (Hplates : TestEngine.plates st2 = TestEngine.plates st0) by congruence.
  rewrite Hplates in U5.
  assert (Hstop : TestEngine.isRunning st2 = false).
  { rewrite U4. apply bool_decide_eq_false_2. lia. }
  assert (Hrep : TestEngine.reported st2 (TestEngine.testResults (ev1 ++ ev2)%list)).
  { unfold TestEngine.testResults. rewrite omap_app.
    fold (TestEngine.testResults ev1). fold (TestEngine.testResults ev2).
    destruct (TestEngine.isRunning st1) eqn:Hrun1.
    - unfold TestEngine.reported in Hr1. rewrite Hrun1 in Hr1. rewrite Hr1. cbn.
      by apply Hr2.
    - destruct (Hs2 eq_refl) as [-> ->]. by rewrite app_nil_r. }
  unfold TestEngine.reported in Hrep. rewrite Hstop in Hrep.
  destruct Hrep as (r & Er & _ & _ & _ & (To & Co & _) & (Td & Cd & _) & (Tc & Cc & _) & _).
  exists st1, ev1, env1, st2, ev2, env2, r.
  split; [done|]. split; [done|]. split; [done|]. cbn zeta.
  set (plates := TestEngine.plates st0) in *.
  set (rs := TestEngine.responses st2) in *.
  assert (Hk : length rs = length plates) by lia.
  assert (Hrs : forall i rd plate, rs !! i = Some rd -> plates !! i = Some plate ->
            TestEngine.plateType rd = MosaicGenerator.type plate /\
            exists a, answers !! i = Some a /\
                      TestEngine.isCorrect rd = TestEngine.checkAnswer a plate).
  { intros i rd plate Hi Hpl. destruct (U5 i rd Hi) as (_ & p & a & Hp & Ha & _ & Hc & Ht & _).
    assert (p = plate) as -> by congruence. split; [done|]. by exists a. }
  assert (Hsplit : Forall (fun rd =>
            (TestEngine.plateType rd = "deutanConfusion" \/
             TestEngine.plateType rd = "control") /\
            ~ (TestEngine.plateType rd = "deutanConfusion" /\
               TestEngine.plateType rd = "control")) rs).
  { apply Forall_lookup. intros i rd Hi.
    destruct (U5 i rd Hi) as (_ & p & a & Hp & _ & _ & _ & Ht & _).
    rewrite Ht. split.
    - eapply Forall_lookup in Htypes; [exact Htypes|exact Hp].
    - intros [E1 E2]. rewrite E1 in E2. discriminate. }
  rewrite To, Td, Tc, Co, Cd, Cc. unfold TestEngine.countCorrect.
  pose proof (ScoringFacts.filter_split_length _ _ rs Hsplit) as S1.
  pose proof (ScoringFacts.filter_filter_split_length
                (fun rd => TestEngine.isCorrect rd = true) _ _ rs Hsplit) as S2.
  split_and!; try lia.
  - f_equal. apply ScoringFacts.filter_length_pointwise; [done|].
    intros i rd plate Hi Hpl. destruct (Hrs i rd plate Hi Hpl) as [-> _]. done.
  - f_equal. apply ScoringFacts.filter_length_pointwise; [done|].
    intros i rd plate Hi Hpl. destruct (Hrs i rd plate Hi Hpl) as [-> _]. done.
  - f_equal. apply ScoringFacts.filter_length_pointwise.
    + rewrite length_zip_with. lia.
    + intros i rd [a plate] Hi Hz. apply lookup_zip_with_Some in Hz
        as (a' & p' & [= <- <-] & Ha & Hpl).
      destruct (Hrs i rd plate Hi Hpl) as [_ (a2 & Ha2 & ->)]. cbn.
      assert (a2 = a) as -> by congruence. done.
Qed.

(** X22, an instance: one control plate,
    answered. *)
Lemma testengine_results_totals_witness :
  exists st1 ev1 env1 st2 ev2 env2 r,
    TestEngine.start (H := Example.runtime) Example.idleWithPlate 0 = (st1, ev1, env1) /\
    TestEngine.feed [Some "7"] st1 env1 = Normal (st2, ev2, env2) /\
    TestEngine.testResults (ev1 ++ ev2)%list = [r] /\
    TestEngine.total (TestEngine.control r) = 1.
Proof.
  destruct (@testengine_results_totals Example.runtime Example.idleWithPlate 0
              [Some "7"])
    as (st1 & ev1 & env1 & st2 & ev2 & env2 & r & E1 & E2 & E3 & _ & Hc & _).
  - reflexivity.
  - simpl. lia.
  - repeat first [apply Forall_cons_2|apply Forall_nil_2]. right. reflexivity.
  - exists st1, ev1, env1, st2, ev2, env2, r.
    split; [exact E1|]. split; [exact E2|]. split; [exact E3|].
    rewrite Hc. reflexivity.
Defined.

End MosaicExtras.

Section SeverityExtras.

Import ColorFilterFacts.

Local Open Scope Q_scope.

(** X23.  For a confusion score from 0 to 100,
    [estimateSeverity] returns a value from 0 to 100 that lies in the
    range of its bucket up to rounding: at most 15 for none, 15 to 35 for
    mild, 35 to 60 for moderate, at least 60 for strong.  The value is
    round(100 - score) unless the control score is strictly between 0 and
    100; then it is 0, with the bucket none, when the confusion score
    reaches the control score, and round(100 - 100 x score / control)
    below it. *)
Theorem estimateSeverity_value (d c : Q) :
  0 <= d -> d <= 100 ->
  let s := TestEngine.estimateSeverity d c in
  (0 <= TestEngine.value s <= 100)%Z /\
  match TestEngine.bucket s with
  | none => (TestEngine.value s <= 15)%Z
  | mild => (15 <= TestEngine.value s <= 35)%Z
  | moderate => (35 <= TestEngine.value s <= 60)%Z
  | strong => (60 <= TestEngine.value s)%Z
  | inconclusive => False
  end /\
  (~ (0 < c /\ c < 100) -> TestEngine.value s = JS.round (100 - d)) /\
  (0 < c -> c < 100 -> c <= d ->
   TestEngine.value s = 0%Z /\ TestEngine.bucket s = none) /\
  (0 < c -> c < 100 -> d < c ->
   TestEngine.value s = JS.round (100 - d / c * 100)).
Proof.
  intros Hd0 Hd1 s. subst s. unfold TestEngine.estimateSeverity.
  cbn [TestEngine.value TestEngine.bucket]. unfold TestEngine.severityValue.
  destruct (ScoringFacts.adjustedScore_cases d c Hd0 Hd1) as (A0 & A1 & A2 & A3 & A4).
  set (a := TestEngine.adjustedScore d c) in *.
  pose proof (JSFacts.round_inject 0) as R0. pose proof (JSFacts.round_inject 100) as R100.
  change (inject_Z 0) with 0 in R0. change (inject_Z 100) with 100 in R100.
  split; [|split; [apply ScoringFacts.bucketOf_value|split; [|split]]].
  - assert (0 <= 100 - a) as L by lra. assert (100 - a <= 100) as U by lra.
    apply round_mono in L, U. lia.
  - intros Hc. apply round_comp. rewrite (A2 Hc). reflexivity.
  - intros H0 H1 Hcd. specialize (A3 H0 H1 Hcd).
    assert (E : 100 - a == 0) by lra. split.
    + by rewrite (round_comp _ _ E).
    + unfold TestEngine.bucketOf.
      assert (Qle_bool (100 - a) 15 = true) as -> by (apply Qle_bool_iff; lra).
      done.
  - intros H0 H1 Hcd. apply round_comp. rewrite (A4 H0 H1 Hcd). reflexivity.
Qed.

(** X23, an instance: scores of 40 and 80. *)
Lemma estimateSeverity_value_witness :
  TestEngine.value (TestEngine.estimateSeverity 40 80) = JS.round (100 - 40 / 80 * 100).
Proof.
  destruct (estimateSeverity_value 40 80) as (_ & _ & _ & _ & H);
    [discriminate..|].
  apply H; reflexivity.
Defined.

End SeverityExtras.

Section AnimatedExtras.

Import ColorFilterFacts GeneratorFacts.

Local Open Scope Z_scope.
Local Open Scope string_scope.

(** ** AnimatedMosaic *)



(** X18.  On a plate of the animated generator
    drawn on a canvas of positive width, the hit test of [handleClick]
    answers exactly the clicks whose canvas coordinates are both in
    [0, width); the index it selects is that of the square whose cell, of
    side width / gridSize, holds the click, and the click counts as
    correct exactly when that square is the outlier. *)
Theorem handleClick_selects_square `{R : Runtime} `{!RuntimeSpec R}
  (options : AnimatedMosaic.Options) (world : list Z * Env)
  (canvas : AnimatedMosaic.Canvas) (clientX clientY : Q) :
  (0 < AnimatedMosaic.width canvas)%Q ->
  (0 < AnimatedMosaic.rect_width canvas)%Q ->
  (0 < AnimatedMosaic.rect_height canvas)%Q ->
  exists plate,
    fst (AnimatedMosaic.generatePlate options world) = Some plate /\
    let x := ((clientX - AnimatedMosaic.rect_left canvas) *
              (AnimatedMosaic.width canvas / AnimatedMosaic.rect_width canvas))%Q in
    let y := ((clientY - AnimatedMosaic.rect_top canvas) *
              (AnimatedMosaic.height canvas / AnimatedMosaic.rect_height canvas))%Q in
    let s := (AnimatedMosaic.width canvas /
              inject_Z (AnimatedMosaic.gridSize plate))%Q in
    (is_Some (AnimatedMosaic.hitTest canvas plate clientX clientY) <->
     (0 <= x /\ x < AnimatedMosaic.width canvas /\
      0 <= y /\ y < AnimatedMosaic.width canvas)%Q) /\
    forall r, AnimatedMosaic.hitTest canvas plate clientX clientY = Some r ->
      exists i sq,
        AnimatedMosaic.selectedIndex r = Some (Z.of_nat i) /\
        AnimatedMosaic.squares plate !! i = Some sq /\
        (inject_Z (Z.of_nat (AnimatedMosaic.col sq)) * s <= x /\
         x < (inject_Z (Z.of_nat (AnimatedMosaic.col sq)) + 1) * s)%Q /\
        (inject_Z (Z.of_nat (AnimatedMosaic.row sq)) * s <= y /\
         y < (inject_Z (Z.of_nat (AnimatedMosaic.row sq)) + 1) * s)%Q /\
        AnimatedMosaic.cr_isCorrect r = AnimatedMosaic.isOutlier sq /\
        AnimatedMosaic.correctIndex r = AnimatedMosaic.outlierIndex plate /\
        AnimatedMosaic.cr_plateType r = AnimatedMosaic.type plate /\
        AnimatedMosaic.cr_difficulty r = AnimatedMosaic.difficulty plate.
Proof.
  intros Hw _ _.
  assert (exists plate, fst (AnimatedMosaic.generatePlate options world) = Some plate) as [plate Hp].
  { unfold AnimatedMosaic.generatePlate. destruct world as [perm env].
    destruct (match AnimatedMosaic.o_seed options with Some s => _ | None => _ end) as [seed env1].
    destruct (plateFromSeed_total options seed (createRNG seed)) as [[plate g0] E].
    exists plate. cbn [fst]. by rewrite E. }
  exists plate. split; [exact Hp|].
  apply generatePlate_fromSeed in Hp as (seed & g & g' & Hp).
  by eapply hitTest_square.
Qed.


(** X18, an instance: a click at (100, 100) on
    a canvas of 400 pixels. *)
Lemma handleClick_selects_square_witness :
  exists plate,
    fst (AnimatedMosaic.generatePlate (H := Example.runtime)
           Example.animatedRequest ([], 0)) = Some plate /\
    is_Some (AnimatedMosaic.hitTest Example.canvas plate 100 100).
Proof.
  destruct (@handleClick_selects_square Example.runtime ExampleFacts.runtime_spec
              Example.animatedRequest ([], 0) Example.canvas 100%Q 100%Q)
    as (plate & E & Hhit & _); [reflexivity..|].
  exists plate. split; [exact E|]. apply Hhit.
  repeat split; vm_compute; first [reflexivity|discriminate].
Defined.



(** ** OutlierTestEngine: the plates of a test *)

(** X25.  With draws in [0, 1), [generatePlates]
    of the outlier test engine returns 16 plates with 10 confusion plates
    in baseline mode, 8 with 7 in tuning mode, 12 with 8 in validation
    mode, and 16 with 10 in any other mode, the other plates being
    control plates.  In baseline mode plates 0 to 3 are easy (grid 2),
    plates 4 to 9 medium (grid 3) and plates 10 to 15 hard (grid 4); in
    every other mode all plates are medium. *)
Theorem generatePlates_by_mode `{R : Runtime} `{!RuntimeSpec R} (mode : string)
  (seed : Seed) (world : list Z * Env) :
  let count := if decide (mode = "tuning") then 8
               else if decide (mode = "validation") then 12 else 16 in
  let deutans := if decide (mode = "tuning") then 7
                 else if decide (mode = "validation") then 8 else 10 in
  exists plates,
    fst (OutlierTestEngine.generatePlates mode seed world) = Some plates /\
    Z.of_nat (length plates) = count /\
    Z.of_nat (length (filter (fun p => AnimatedMosaic.type p = "deutan") plates))
      = deutans /\
    Z.of_nat (length (filter (fun p => AnimatedMosaic.type p = "control") plates))
      = count - deutans /\
    forall i plate, plates !! i = Some plate ->
      AnimatedMosaic.difficulty plate =
        (if decide (mode = "baseline")
         then if decide (i < 4)%nat then "easy"
              else if decide (i < 10)%nat then "medium" else "hard"
         else "medium") /\
      AnimatedMosaic.gridSize plate =
        (if decide (mode = "baseline")
         then if decide (i < 4)%nat then 2 else if decide (i < 10)%nat then 3 else 4
         else 3).
Proof. apply generatePlates_modes. Qed.

(** X25, an instance: the baseline test from seed
    42. *)
Lemma generatePlates_by_mode_witness :
  exists plates,
    fst (OutlierTestEngine.generatePlates (H := Example.runtime) "baseline" 42
           ([], 0)) = Some plates /\
    Z.of_nat (length plates) = 16.
Proof.
  destruct (@generatePlates_by_mode Example.runtime ExampleFacts.runtime_spec
              "baseline" 42 ([], 0)) as (plates & E & Hlen & _).
  exists plates. split; [exact E|exact Hlen].
Defined.

End AnimatedExtras.

Section OutlierExtras.

Import ColorFilterFacts ScoringFacts.

Local Open Scope Z_scope.
Local Open Scope string_scope.

(** ** OutlierTestEngine *)

(** X19.  When every response is of a confusion or
    a control plate and none is both skipped and timed out, the results of
    [calculateResults] add up: the overall total and the overall correct
    count are the sums of those of the two plate types, and skipped, timed
    out and answered responses together are all the responses. *)
Theorem outlier_results_add_up (responses : list OutlierTestEngine.ResponseData) :
  Forall (fun r => OutlierTestEngine.plateType r = "deutan" \/
                   OutlierTestEngine.plateType r = "control") responses ->
  Forall (fun r => OutlierTestEngine.skipped r = false \/
                   OutlierTestEngine.timeout r = false) responses ->
  let res := OutlierTestEngine.calculateResults responses in
  OutlierTestEngine.total (OutlierTestEngine.overall res) =
    OutlierTestEngine.total (OutlierTestEngine.deutan res) +
    OutlierTestEngine.total (OutlierTestEngine.control res) /\
  OutlierTestEngine.correct (OutlierTestEngine.overall res) =
    OutlierTestEngine.correct (OutlierTestEngine.deutan res) +
    OutlierTestEngine.correct (OutlierTestEngine.control res) /\
  (OutlierTestEngine.n_skipped (OutlierTestEngine.summary res) +
   OutlierTestEngine.n_timedOut (OutlierTestEngine.summary res) +
   OutlierTestEngine.n_answered (OutlierTestEngine.summary res))%nat
    = length responses /\
  OutlierTestEngine.rawResponses res = responses.
Proof. apply calculateResults_add_up. Qed.


(** X19, an instance: a correct click and a skipped
    plate. *)
Lemma outlier_results_add_up_witness :
  OutlierTestEngine.total
    (OutlierTestEngine.overall
       (OutlierTestEngine.calculateResults Example.outlierResponses)) =
  OutlierTestEngine.total
    (OutlierTestEngine.deutan
       (OutlierTestEngine.calculateResults Example.outlierResponses)) +
  OutlierTestEngine.total
    (OutlierTestEngine.control
       (OutlierTestEngine.calculateResults Example.outlierResponses)).
Proof.
  destruct (outlier_results_add_up Example.outlierResponses) as [H _].
  - repeat first [apply Forall_cons_2|apply Forall_nil_2]; simpl; auto.
  - repeat first [apply Forall_cons_2|apply Forall_nil_2]; simpl; auto.
  - exact H.
Defined.


End OutlierExtras.

Section OutlierFlowExtras.

Import ColorFilterFacts GeneratorFacts OutlierFacts.

Local Open Scope Z_scope.
Local Open Scope string_scope.

(** ** OutlierTestEngine: the course of a test *)

(** X26.  Start an idle outlier test engine
    with no timer waiting, with draws in [0, 1), and let clicks, presses
    of the button, timeouts and timers follow in any order.  Every
    recorded response then carries the type, the difficulty and the
    outlier index of the plate at its index, is never both skipped and
    timed out, and is correct only for a click on the outlier.  While the
    test runs, each response has advanced the test by one plate or has a
    timer waiting to do so.  Results have been reported exactly if the
    engine has stopped; each report is [calculateResults] of the recorded
    responses, and its counts add up. *)
Theorem outlier_responses_wellformed `{R : Runtime} `{!RuntimeSpec R}
  (canvas : AnimatedMosaic.Canvas) (now : Q) (inputs : list OutlierTestEngine.Input)
  (w : OutlierTestEngine.World) :
  (0 < AnimatedMosaic.width canvas)%Q ->
  (0 < AnimatedMosaic.rect_width canvas)%Q ->
  (0 < AnimatedMosaic.rect_height canvas)%Q ->
  OutlierTestEngine.isRunning (OutlierTestEngine.engine w) = false -> OutlierTestEngine.pending w = 0%nat ->
  exists w1 events1 w2 events2,
    OutlierTestEngine.start now w = Some (w1, events1) /\
    OutlierTestEngine.run canvas inputs w1 = (w2, events2) /\
    let st := OutlierTestEngine.engine w2 in
    Forall (OutlierTestEngine.wellFormed (OutlierTestEngine.plates st)) (OutlierTestEngine.responses st) /\
    (OutlierTestEngine.isRunning st = true ->
     length (OutlierTestEngine.responses st) = (OutlierTestEngine.currentPlateIndex st + OutlierTestEngine.pending w2)%nat) /\
    (OutlierTestEngine.isRunning st = false <-> OutlierTestEngine.testResults (events1 ++ events2)%list <> []) /\
    forall r, In r (OutlierTestEngine.testResults (events1 ++ events2)%list) ->
      r = OutlierTestEngine.calculateResults (OutlierTestEngine.responses st) /\
      OutlierTestEngine.total (OutlierTestEngine.overall r) =
        OutlierTestEngine.total (OutlierTestEngine.deutan r) +
        OutlierTestEngine.total (OutlierTestEngine.control r) /\
      OutlierTestEngine.correct (OutlierTestEngine.overall r) =
        OutlierTestEngine.correct (OutlierTestEngine.deutan r) +
        OutlierTestEngine.correct (OutlierTestEngine.control r) /\
      (OutlierTestEngine.n_skipped (OutlierTestEngine.summary r) +
       OutlierTestEngine.n_timedOut (OutlierTestEngine.summary r) +
       OutlierTestEngine.n_answered (OutlierTestEngine.summary r))%nat
        = length (OutlierTestEngine.responses st).
Proof.
  intros _ _ _ Hrun Hpend.
  destruct (start_consistent now w Hrun Hpend)
    as (w1 & ev1 & Es & Hc1 & Hr1 & _ & _ & _ & Hev1 & _).
  pose proof (run_keeps canvas inputs w1 Hc1) as K.
  destruct (OutlierTestEngine.run canvas inputs w1) as [w2 ev2] eqn:Er. cbn [fst snd] in K.
  destruct K as ((C1 & C2 & C3) & _ & _ & K4 & K5 & K6).
  exists w1, ev1, w2, ev2. split; [done|]. split; [done|]. cbn zeta.
  assert (Eres : OutlierTestEngine.testResults (ev1 ++ ev2)%list = OutlierTestEngine.testResults ev2).
  { unfold OutlierTestEngine.testResults. rewrite omap_app. fold (OutlierTestEngine.testResults ev1).
    by rewrite Hev1. }
  rewrite Eres. split; [done|]. split; [intros Hr; by apply C3|].
  split.
  { split; [by apply K6|by apply K5]. }
  intros r Hin. eapply Forall_forall in K4; [|by apply list_elem_of_In].
  split; [done|]. subst r.
  destruct (ScoringFacts.calculateResults_add_up (OutlierTestEngine.responses (OutlierTestEngine.engine w2)))
    as (A1 & A2 & A3 & _); [| |done].
  - apply Forall_forall. intros rd Hrd.
    eapply Forall_forall in C2; [|exact Hrd].
    destruct C2 as (plate & Hp & -> & _).
    eapply Forall_lookup in C1; [|exact Hp]. tauto.
  - eapply Forall_impl; [exact C2|]. intros rd (plate & _ & _ & _ & _ & Hf & _). done.
Qed.

(** X26, an instance: a tuning test, the
    button pressed twice before the timers fire. *)
Lemma outlier_responses_wellformed_witness :
  exists w1 events1 w2 events2,
    OutlierTestEngine.start (H := Example.runtime) 0 Example.outlierWorld
      = Some (w1, events1) /\
    OutlierTestEngine.run Example.canvas
      [OutlierTestEngine.CantTell 5; OutlierTestEngine.CantTell 6;
       OutlierTestEngine.TimerFires 7] w1 = (w2, events2) /\
    Forall (OutlierTestEngine.wellFormed
              (OutlierTestEngine.plates (OutlierTestEngine.engine w2)))
           (OutlierTestEngine.responses (OutlierTestEngine.engine w2)).
Proof.
  destruct (@outlier_responses_wellformed Example.runtime ExampleFacts.runtime_spec
              Example.canvas 0%Q
              [OutlierTestEngine.CantTell 5; OutlierTestEngine.CantTell 6;
               OutlierTestEngine.TimerFires 7] Example.outlierWorld)
    as (w1 & ev1 & w2 & ev2 & E1 & E2 & H & _); [reflexivity..|].
  exists w1, ev1, w2, ev2. split; [exact E1|]. split; [exact E2|exact H].
Defined.

(** X27.  Start an idle outlier test engine with no
    timer waiting, with draws in [0, 1), and let responses come one at a
    time, each followed by its timer before the next: a click inside the
    grid, the button, or a timeout.  The test has 8 plates in tuning
    mode, 12 in validation mode and 16 otherwise; response i is recorded
    for plate i; after as many responses as there are plates the engine
    stops and reports the results once, and it ignores what comes after
    that. *)
Theorem outlier_test_in_step `{R : Runtime} `{!RuntimeSpec R}
  (canvas : AnimatedMosaic.Canvas) (now : Q) (l : list (OutlierTestEngine.Input * Q))
  (w : OutlierTestEngine.World) :
  (0 < AnimatedMosaic.width canvas)%Q ->
  (0 < AnimatedMosaic.rect_width canvas)%Q ->
  (0 < AnimatedMosaic.rect_height canvas)%Q ->
  OutlierTestEngine.isRunning (OutlierTestEngine.engine w) = false -> OutlierTestEngine.pending w = 0%nat ->
  Forall (fun r => OutlierTestEngine.lands canvas r.1) l ->
  exists w1 events1 w2 events2,
    OutlierTestEngine.start now w = Some (w1, events1) /\
    OutlierTestEngine.run canvas (OutlierTestEngine.rounds l) w1 = (w2, events2) /\
    let st := OutlierTestEngine.engine w2 in
    let n := length (OutlierTestEngine.plates st) in
    Z.of_nat n = (if decide (OutlierTestEngine.mode (OutlierTestEngine.engine w) = "tuning") then 8
                  else if decide (OutlierTestEngine.mode (OutlierTestEngine.engine w) = "validation") then 12
                  else 16) /\
    length (OutlierTestEngine.responses st) = (length l `min` n)%nat /\
    (forall i rd, OutlierTestEngine.responses st !! i = Some rd ->
       OutlierTestEngine.plateIndex rd = i /\ OutlierTestEngine.wellFormed (OutlierTestEngine.plates st) rd) /\
    OutlierTestEngine.isRunning st = bool_decide (length l < n)%nat /\
    OutlierTestEngine.currentPlateIndex st = (length l `min` n)%nat /\
    OutlierTestEngine.pending w2 = 0%nat /\
    OutlierTestEngine.testResults (events1 ++ events2)%list =
      if OutlierTestEngine.isRunning st then []
      else [OutlierTestEngine.calculateResults (OutlierTestEngine.responses st)].
Proof.
  intros Hw _ _ Hrun Hpend Hall.
  destruct (start_inStep now w Hrun Hpend) as (w1 & ev1 & n & Es & Hin & Hev1 & Hn).
  destruct (rounds_inStep canvas n 0 w1 l Hw Hin Hall) as (w2 & ev2 & Er & Hin2 & T2 & _).
  exists w1, ev1, w2, ev2. split; [done|]. split; [done|]. cbn zeta.
  cbn [Nat.add] in Hin2.
  destruct Hin2 as ((C1 & C2 & C3) & L & Ix & Lr & Pe & Ru & Ord & _).
  rewrite L. split_and!; try done.
  - intros i rd Hi. split; [by apply Ord|].
    eapply Forall_lookup in C2; [exact C2|exact Hi].
  - unfold OutlierTestEngine.testResults. rewrite omap_app. fold (OutlierTestEngine.testResults ev1).
    fold (OutlierTestEngine.testResults ev2). rewrite Hev1, T2, Ru. cbn [app].
    assert (0 < n)%nat by (repeat case_decide; lia).
    destruct (decide (length l < n)%nat).
    + rewrite decide_False by lia. by rewrite bool_decide_eq_true_2.
    + rewrite decide_True by lia. by rewrite bool_decide_eq_false_2.
Qed.


(** X27, an instance: a tuning test, one plate
    skipped with the button. *)
Lemma outlier_test_in_step_witness :
  exists w1 events1 w2 events2,
    OutlierTestEngine.start (H := Example.runtime) 0 Example.outlierWorld
      = Some (w1, events1) /\
    OutlierTestEngine.run Example.canvas
      (OutlierTestEngine.rounds [(OutlierTestEngine.CantTell 5, 6%Q)]) w1
      = (w2, events2) /\
    Z.of_nat (length (OutlierTestEngine.plates (OutlierTestEngine.engine w2))) = 8 /\
    OutlierTestEngine.pending w2 = 0%nat.
Proof.
  destruct (@outlier_test_in_step Example.runtime ExampleFacts.runtime_spec
              Example.canvas 0%Q [(OutlierTestEngine.CantTell 5, 6%Q)]
              Example.outlierWorld)
    as (w1 & ev1 & w2 & ev2 & E1 & E2 & Hn & _ & _ & _ & _ & Hp & _);
    [reflexivity..| |].
  - repeat first [apply Forall_cons_2|apply Forall_nil_2]. exact I.
  - exists w1, ev1, w2, ev2. split; [exact E1|]. split; [exact E2|].
    split; [exact Hn|exact Hp].
Defined.

(** X28.  The button is not held back while the
    feedback of a response is shown.  In a test that has run in step for
    fewer than six plates, two presses of the button before the timers
    fire are both recorded for the current plate, the two timers then
    move the test on by two plates, and the plate in between is never
    shown and gets no response. *)
Theorem cantTell_during_feedback `{R : Runtime} `{!RuntimeSpec R}
  (canvas : AnimatedMosaic.Canvas) (now a b c d : Q) (l : list (OutlierTestEngine.Input * Q))
  (w : OutlierTestEngine.World) :
  (0 < AnimatedMosaic.width canvas)%Q ->
  (0 < AnimatedMosaic.rect_width canvas)%Q ->
  (0 < AnimatedMosaic.rect_height canvas)%Q ->
  OutlierTestEngine.isRunning (OutlierTestEngine.engine w) = false -> OutlierTestEngine.pending w = 0%nat ->
  Forall (fun r => OutlierTestEngine.lands canvas r.1) l -> (length l < 6)%nat ->
  exists w1 events1 w2 events2 w3 events3 rd1 rd2,
    OutlierTestEngine.start now w = Some (w1, events1) /\
    OutlierTestEngine.run canvas (OutlierTestEngine.rounds l) w1 = (w2, events2) /\
    OutlierTestEngine.run canvas [OutlierTestEngine.CantTell a; OutlierTestEngine.CantTell b; OutlierTestEngine.TimerFires c; OutlierTestEngine.TimerFires d]
            w2 = (w3, events3) /\
    OutlierTestEngine.responses (OutlierTestEngine.engine w3) = (OutlierTestEngine.responses (OutlierTestEngine.engine w2) ++ [rd1; rd2])%list /\
    OutlierTestEngine.plateIndex rd1 = length l /\
    OutlierTestEngine.plateIndex rd2 = length l /\
    OutlierTestEngine.currentPlateIndex (OutlierTestEngine.engine w3) = (length l + 2)%nat /\
    OutlierTestEngine.isRunning (OutlierTestEngine.engine w3) = true /\
    forall rd, In rd (OutlierTestEngine.responses (OutlierTestEngine.engine w3)) ->
      OutlierTestEngine.plateIndex rd <> (length l + 1)%nat.
Proof.
  intros Hw _ _ Hrun Hpend Hall Hshort.
  destruct (start_inStep now w Hrun Hpend) as (w1 & ev1 & n & Es & Hin & Hev1 & Hn).
  destruct (rounds_inStep canvas n 0 w1 l Hw Hin Hall) as (w2 & ev2 & Er & Hin2 & T2 & _).
  cbn [Nat.add] in Hin2.
  destruct Hin2 as (C & L & Ix & Lr & Pe & Ru & Ord & _).
  assert (Hn8 : (8 <= n)%nat) by (repeat case_decide; lia).
  rewrite bool_decide_eq_true_2 in Ru by lia.
  replace (length l `min` n)%nat with (length l) in * by lia.
  destruct (cantTell_step canvas w2 a C Ru)
    as (wa & eva & rd1 & Ea & Ca & Ra & Pa & _ & Pea & Rua & Ixa & La & _).
  destruct (cantTell_step canvas wa b Ca Rua)
    as (wb & evb & rd2 & Eb & Cb & Rb & Pb & _ & Peb & Rub & Ixb & Lb & _).
  rewrite Pe in Pea. rewrite Pea in Peb.
  destruct (timer_step canvas n (length l) 1 wb c Cb Peb Rub ltac:(congruence)
              ltac:(congruence))
    as (wc & evc & Ec & Cc & Rc & Pec & Ixc & Lc & Ruc & _).
  rewrite bool_decide_eq_true_2 in Ruc by lia.
  destruct (timer_step canvas n (S (length l)) 0 wc d Cc Pec Ruc Ixc Lc)
    as (wd & evd & Ed & Cd & Rd & Ped & Ixd & Ld & Rud & _).
  rewrite bool_decide_eq_true_2 in Rud by lia.
  exists w1, ev1, w2, ev2, wd, (eva ++ evb ++ evc ++ evd ++ [])%list, rd1, rd2.
  split; [done|]. split; [done|]. split.
  { cbn [OutlierTestEngine.run]. by rewrite Ea, Eb, Ec, Ed. }
  assert (Eresp : OutlierTestEngine.responses (OutlierTestEngine.engine wd) =
                  (OutlierTestEngine.responses (OutlierTestEngine.engine w2) ++ [rd1; rd2])%list).
  { rewrite Rd, Rc, Rb, Ra, <- app_assoc. done. }
  split; [done|]. split; [congruence|]. split; [congruence|].
  split; [rewrite Ixd; lia|]. split; [done|].
  intros rd Hin'. rewrite Eresp in Hin'. apply in_app_or in Hin' as [Hin'|Hin'].
  - apply list_elem_of_In, list_elem_of_lookup in Hin' as [i Hi].
    apply Ord in Hi as Hidx. apply lookup_lt_Some in Hi. lia.
  - destruct Hin' as [<-|[<-|[]]]; [rewrite Pa|rewrite Pb]; lia.
Qed.

(** X28, an instance: the first plate of a
    tuning test. *)
Lemma cantTell_during_feedback_witness :
  exists w1 events1 w3 events3,
    OutlierTestEngine.start (H := Example.runtime) 0 Example.outlierWorld
      = Some (w1, events1) /\
    OutlierTestEngine.run Example.canvas
      [OutlierTestEngine.CantTell 5; OutlierTestEngine.CantTell 6;
       OutlierTestEngine.TimerFires 7; OutlierTestEngine.TimerFires 8] w1
      = (w3, events3) /\
    OutlierTestEngine.currentPlateIndex (OutlierTestEngine.engine w3) = 2%nat.
Proof.
  destruct (@cantTell_during_feedback Example.runtime ExampleFacts.runtime_spec
              Example.canvas 0%Q 5%Q 6%Q 7%Q 8%Q [] Example.outlierWorld)
    as (w1 & ev1 & w2 & ev2 & w3 & ev3 & rd1 & rd2 & E1 & E2 & E3 & _ & _ & _ & Hi & _);
    [reflexivity..|apply Forall_nil_2|simpl; lia|].
  exists w1, ev1, w3, ev3. split; [exact E1|].
  simpl in E2. injection E2 as <- _. split; [exact E3|exact Hi].
Defined.

End OutlierFlowExtras.
